(* ===== verification/_CoqProject ===== *)
-Q . S2P
Prelude.v
Hoare.v
Tables.v
Interfaces.v
Werkzeug.v
Store.v
Forms.v
Auth.v
Handlers.v
Effects.v
App.v
Observation.v
Cookies.v
Outcomes.v
Browser.v
Templates.v
Threads.v
Schedules.v
