(* ===== verification/Prelude.v ===== *)
(** * A verification development for the cafe listing web application

    The program (src/main.py) is a Flask application of seven routes over
    three SQLAlchemy tables, with Flask-Login sessions and WTForms
    validation.  A handler reads the request, reads or changes the database
    and the client's session cookie, and answers with a rendered page, a
    redirect or an error status.  The development is in two layers: the
    sequential model, in which a request is served from its first line to
    its last before the next one starts, and the model of the threaded
    server of app.run (main.py:239), in which the statements that several
    requests send to the database are interleaved.  The second contains
    the first.

    ** Parts of the program and the files that model them

    - [Prelude] (this file): what the other files share.  The monad [prog]
      of a request handler (state passing with failure, the state being
      rolled back when the handler fails, as Flask-SQLAlchemy discards the
      unit of work of a request that raised), its notation in [prog_scope],
      the tactics [prog_run], [prog_simpl] and [by_compute] and the hint
      databases [cafe] and [prog_rw].
    - [Hoare]: a weakest-precondition calculus for [prog].  [wp m Q F s]
      says that [m] run in [s] ends with a value and a state in [Q] or
      with a failure in [F]; one rule per operation of the monad, the rule
      of consequence, and the tactics [wp_step], [wp_pure] and [wp_apply].
    - [Tables]: relational tables as [gmap nat row], independent of the
      application: the primary key of a new row ([next_key]), the rows in
      key order ([rows]), and the three kinds of constraint with their
      preservation lemmas: a column that repeats the key ([keyed_by]), a
      UNIQUE column ([unique_on], probed by [taken]) and a nullable foreign
      key ([refs_ok]).
    - [Interfaces]: the contracts of the libraries that main.py only calls,
      as type classes with their laws: [PasswordHasher] (werkzeug's
      generate_password_hash / check_password_hash, main.py:161,185,191),
      [UrlValidator] (WTForms' URL validator, main.py:86-87) and [IdCodec]
      (Python's str on a primary key and SQLite's comparison of a text
      parameter with an INTEGER column, main.py:118,135,232).  Each class has
      a reference instance so that the handlers evaluate on concrete input.
    - [Werkzeug]: the password hasher with the arguments of main.py:161:
      the stored text method$salt$digest for pbkdf2:sha256:600000 and a
      salt of 8 characters ([generate_with], [gen_salt]), and the check
      that splits the stored text and derives the digest again ([check]).
      The key derivation is a class ([Kdf]); [werkzeug_hasher] is an
      instance of [PasswordHasher].
    - [Store]: the persistence layer.  Modules [Cafe], [User] and [Review]
      hold the three mapped classes (main.py:48-80) as records with the
      columns' names; [database] is the three tables as [gmap nat row].
      [insert_user], [insert_cafe], [insert_review] are
      db.session.add followed by db.session.commit with the NOT NULL and
      UNIQUE constraints of the column declarations; [delete_cafe] is
      db.session.delete with SQLAlchemy's default treatment of the reviews
      of the deleted cafe (their cafe_id is set to NULL);
      [get_or_404], [select_cafes_by_name] and [select_user_by_email] are the
      three queries.  The invariant is [db_wf].
    - [Forms]: the WTForms classes AddingForm, Comment and LoginForm
      (main.py:84-107): the validators DataRequired, URL and the choice check
      of SelectField, the per-field error lists, validate_on_submit.
    - [Auth]: the Flask-Login part: the session cookie ([Session.t]),
      [login_user], [logout_user], the user loader [load_user]
      (main.py:116-118), the resolution of current_user and the
      [login_required] decorator.
    - [Handlers]: the requests and responses and the seven view functions
      [show_all_caffe], [show_cafe], [register], [login], [logout],
      [add_cafe], [delete] (main.py:121-235), written in the monad so that
      each line of a view function is one line of its model; the URL map
      [url_map] of the route decorators and the dispatcher [dispatch]; and
      [handle], which serves one request and drops its changes when it
      fails.  A request has one of seven methods: a rule that lists GET
      answers HEAD, every rule answers OPTIONS with its methods without
      running the view function ([rule_methods]), and a view function
      tests [request.method == "POST"] ([is_post]), so that the other
      methods take its else branch.
    - [Effects]: the abstract specification.  The eight operations a
      request can perform on the state ([op], [apply_op]), their guards
      ([permitted]), the access matrix of routes and methods
      ([may_perform]) and the refinement of the view functions.
    - [App]: the running application: the database and one session cookie
      per browser ([world]), [serve] for one request of one browser, runs
      of requests ([run]) and the reachable worlds ([reachable]) with
      their invariant [world_wf].
    - [Observation]: worlds up to what a browser can see ([≡]: the same
      database and the same session for every browser), with the
      [Proper] instances of [serve] and [run], and the requests that are
      safe in the sense of HTTP ([safe]).
    - [Cookies]: the session as it goes over the wire: the secret key of
      main.py:28 ([SECRET_KEY]), the signed cookie ([dumps], [loads]) and
      a request served with the cookie it carries ([serve_signed]).  The
      signature is a class ([Mac]) without laws.
    - [Outcomes]: the type of each route: the pages and redirects it can
      answer ([view_response]) and the failures it can end in with their
      causes in the request and the state ([failure_cause]), derived with
      the calculus of [Hoare] from the specifications of the commits
      ([Store]) and of the session ([Auth]).
    - [Browser]: a visit as a browser makes it: [browse] follows each
      redirect with a GET of its location while fuel lasts.
    - [Templates]: the presentation layer, which is not under src/ and
      is modelled from the specification: a rendered page shows the
      pending flashed messages and takes them out of the session
      ([get_flashed_messages], [render]).  [respond], [serve_html],
      [run_html] and [browse_html] are [handle], [serve], [run] and
      [browse] with the page rendered.  The files before this one keep
      the messages in the session; this one shows that they may.
    - [Threads]: the seven view functions once more, as the statements
      they send to the database.  [sql] is the signature of the statements
      (the look-ups by key, the two SELECTs, the reviews of a cafe, and
      the four commits; the delete is two statements, the SELECT with
      which SQLAlchemy loads the reviews of the cafe, [loaded_reviews],
      and the commit that sets the cafe_id of those reviews to NULL and
      removes the cafe, [delete_loaded]); a [thread] is a tree with a statement at each
      node and the response and the session at the leaves, and
      [show_all_caffe_t] ... [delete_t], [view_thread] and [dispatch_t]
      are main.py:121-235 in that form, line by line like the handlers
      of [Handlers].  [alone] reads a thread as one handler, [finish]
      runs it to its answer keeping each commit, and [sequential] is
      [handle] with the session of the response.
    - [Schedules]: the server.  A [pool] is the database and the threads
      that have not answered; an [event] is the arrival of a request or
      the next statement of a thread; [play] and [play_all] run a
      schedule.  The session of a request belongs to its thread: the
      threads share the database and nothing else.  Each statement, and
      each commit with the changes it flushes (for the delete: the
      reviews it loaded set to NULL and the row removed), is atomic,
      which is what SQLite gives; nothing longer is.  The event [Restart] is the
      server stopped and started again, as the reloader of debug mode
      does: the threads in progress are lost, and the database is the
      one the URI of main.py:26 names ([SQLALCHEMY_DATABASE_URI],
      [reopen]), a file, which create_all finds as it was left.

    ** What the theorems show

    - Werkzeug: a generated hash passes the check of exactly the passwords
      that derive the same key.
    - Store: each operation preserves [db_wf] (unique cafe names and map
      URLs, unique user names and emails, every foreign key NULL or the id of
      a row); an insert that violates a constraint fails and changes nothing;
      a fresh primary key is not in the table; the listing is sorted by name
      and is a permutation of the table; delete removes exactly one cafe and
      leaves its reviews with a NULL cafe; and for each commit a [wp]
      specification that names the constraint a failure violated.
    - Forms: the functional behaviour of each validator, that a form that
      validates has every required field non-blank, and that the placeholder
      choice of the four amenity fields passes validation (the specification
      asks for the opposite).
    - Auth: login then resolution gives back the user (a round trip through
      the text form of the id), logout gives the anonymous user; the [wp]
      specifications of current_user, login_user, logout_user and
      login_required.
    - Handlers: for each view function its result on every branch, the
      error branches included: what is answered and what is changed; the
      routing errors 404 and 405 and the answer to OPTIONS.
    - Effects: every request that is answered performs one operation the
      access matrix permits for its route and method ([handle_refines]);
      serving keeps the state well formed; a request that is not a POST
      changes nothing except on /logout and /delete; an anonymous visitor
      changes the database only by registering or by deleting a cafe.
    - App: the invariants hold in every reachable world (a session always
      names a stored user, every cafe has an owner, every password is a
      generated hash); a registered user can log in after any run; the
      listing is served in every reachable world; two runs that end in
      states the specification does not foresee (a review whose cafe is
      gone, a cafe under the key of a deleted one).
    - Cookies: a request sent with the cookie of the response before is
      served as [App] serves it; a cookie with another signature is
      served like no cookie; a logout revokes nothing: a copy of the
      cookie sent is served afterwards as before
      ([logout_keeps_cookie]).  The secret key is a constant of the
      source (main.py:28); with the signature a parameter, nothing is
      proved of who is able to sign.
    - Outcomes: every answer has the type of its route ([handle_typed]);
      a failure is answered with 401, 404, 405 or 500, with 500 only for a
      POST; a 404 has one of three causes.
    - Browser: a visit ends after at most one redirect, whatever the
      request and the world, and in a reachable world a redirected visit
      ends on the login form or on the listing.
    - Templates: the view functions add messages and never read them
      ([handle_frames], from a compositional predicate [frames] on
      programs, closed under the operations of the monad and of the
      session); so the server that renders and the server that keeps
      the messages answer alike and stay alike ([html_run_refines], with
      [alike] an equivalence that [world_wf] respects), and the theorems
      of the other files hold of the pages as the browser receives
      them.  A message comes with a redirect ([announces]), is shown by
      the page that follows it and by no later one
      ([flash_shown_once]); between two visits of browsers no cookie
      holds a message ([visits_leave_no_message]); for a client that
      does not follow its redirects the messages pile up without bound
      ([pending_unbounded]).
    - Observation: a safe request can be left out of a run: the world
      with it and the world without it are equivalent, whatever came
      before and comes after ([safe_request_unobservable]).
    - Threads: each thread read as one handler is the view function of
      [Handlers] ([alone_dispatch]); a thread commits at most once and
      nothing fails after its commit, so that running it to the end gives
      what [handle] gives with its rollback ([atomic_dispatch],
      [finish_sequential]);
      no request sends more than six statements ([within_dispatch]).
    - Schedules: a request that no other overlaps is served as the
      sequential model serves it ([serial_is_sequential]); under every
      schedule the keys, the UNIQUE columns and the references to users
      hold and no user is lost ([schedule_keeps_constraints]); the
      reference of a review to its cafe does not survive interleaving:
      for every well-formed database, stored cafe and logged-in
      visitor, a delete that runs between the statement of a review
      that reads the cafe and the commit of the review, and a review
      that runs between the statement of a delete that loads the
      reviews and its commit, both leave the review with the key of a
      cafe that is gone ([review_delete_race]); and the delete is the
      only cause: when no
      request is sent to /delete every schedule keeps [db_wf]
      ([schedule_without_delete]).  Both invariants are one induction
      over a rely-style predicate [respects] on threads: each statement
      keeps the invariant in every database that still holds the rows
      the thread has seen.  Requests that read (not a POST, not sent to
      /logout or /delete) can be served together: the database stays as
      it was and each gets the answer it gets alone
      ([reading_schedule]).  A restart in the middle of a request leaves
      the database as the request found it or as it would have left it
      ([restart_is_atomic]), because every view function commits at
      most once and only reads afterwards ([commits_once_dispatch] in
      Threads).

    ** Bounds and fuel

    Primary keys are [nat]: the model has no ceiling where SQLite's
    64-bit rowid has 2^63-1.  Strings are byte strings ([string]); SQLite's BINARY collation
    compares them byte by byte, which is [String.le].  Python's str.strip is
    modelled for the ASCII white space only.  The only definition with fuel
    is [browse]: the fuel is the number of redirects the browser accepts
    ([max_redirects], twenty).  [browse_terminates] shows that fuel 1 is
    enough for every request in every world, because a redirect of
    main.py leads to / or to /login and a GET of either is not answered
    by a redirect; more fuel does not change the visit.  A schedule
    gives a thread one statement per turn; [serial] gives a request six
    turns, and [within_dispatch] shows that no request sends more than
    six statements (the longest is a review: the cafe, the user, the
    commit, the user again, the reviews of the cafe, the user for the
    page; a delete sends three), so that six turns always reach the
    answer.  Schedules are finite lists of any length.
    Every other operation is a structurally recursive or non-recursive
    function and runs by [vm_compute].

    ** Not modelled

    The markup of the templates (the presentation layer, not under
    src/), Bootstrap5 and CKEditor (main.py:38-40): a page is the
    template's name with the values passed to it and the messages it
    shows; that every template shows the pending messages is taken from
    the specification.  The rules for static files that Flask
    (main.py:16), Bootstrap5 and CKEditor add to the URL map besides the
    seven routes: [url_map] holds the rules of the route decorators
    only, and the model answers 404 where the server would send a file
    of a static folder.  The cryptography of the cookie's signature
    (behind [Mac], which has no laws, so that no theorem speaks of who
    can make a signature), of the CSRF token and of the key derivation
    (behind [Kdf]); the expiry of a signed cookie.  A request says
    whether its CSRF token is valid ([csrf]); the token that building a
    form writes into the session under csrf_token, on a GET as well, is
    not part of [Session.t], which holds the user id and the flashed
    messages.  The length of a column (String(250), String(400)), which
    SQLite does not enforce.  In [check_password_hash_py] a missing
    password raises AttributeError whatever the stored text; werkzeug
    answers False first when the stored text has no two dollar signs,
    which no hash that register stores is.  The regular expression of the URL validator (behind
    [UrlValidator]).  The interactive debugger of debug mode
    (main.py:239), which holds no state of the application, and the
    print of the user found by login (main.py:184), which goes to the
    console of the server.  In the threaded model: SQLAlchemy's
    identity map (an
    object read twice in a request is read from the database twice, which
    gives the same row for users, who never change), the
    ObjectDeletedError a template can meet when it reads a row another
    request deleted (a thread of the model renders the row it read,
    so no theorem states what the review thread answers after a
    delete), and SQLITE_BUSY (a commit that finds the file locked
    waits; the model lets it through in its turn).  The login view of the
    LoginManager is not set by main.py (lines 33-34), so there is none to
    model: [login_required] answers 401.  Everything else of main.py is
    modelled; the lines the map leaves out are imports, comments and
    the construction of the library objects (main.py:1-40). *)

From stdpp Require Export gmap strings list sorting.

(** stdpp's [naive_solver] clears hypotheses that may be gone already. *)
#[export] Set Warnings "-clear-no-such-hyp".

(** ** The monad of a request handler

    A handler runs in a state [S] (the database and the session), may fail
    with an [E] (an HTTP abort or an uncaught exception) and otherwise
    returns a value and a new state. *)

Inductive outcome (E A : Type) : Type :=
| Ok (a : A)
| Err (e : E).
Arguments Ok {E A} a.
Arguments Err {E A} e.

Definition prog (S E A : Type) : Type := S → outcome E (A * S).

Definition pret {S E A} (a : A) : prog S E A := λ s, Ok (a, s).

Definition pbind {S E A B} (m : prog S E A) (f : A → prog S E B) : prog S E B :=
  λ s, match m s with
       | Ok (a, s') => f a s'
       | Err e => Err e
       end.

Definition pget {S E} : prog S E S := λ s, Ok (s, s).

Definition pput {S E} (s' : S) : prog S E unit := λ _, Ok (tt, s').

Definition pmodify {S E} (f : S → S) : prog S E unit := λ s, Ok (tt, f s).

Definition pthrow {S E A} (e : E) : prog S E A := λ _, Err e.

(** A pure computation that may fail, run without touching the state. *)
Definition plift {S E A} (o : outcome E A) : prog S E A :=
  λ s, match o with Ok a => Ok (a, s) | Err e => Err e end.

(** Running a handler to its end: on success the new state is kept, on
    failure the state the request started from is. *)
Definition exec {S E A} (m : prog S E A) (s : S) : outcome E A * S :=
  match m s with
  | Ok (a, s') => (Ok a, s')
  | Err e => (Err e, s)
  end.

Definition is_ok {E A} (o : outcome E A) : bool :=
  match o with Ok _ => true | Err _ => false end.

Declare Scope prog_scope.
Delimit Scope prog_scope with prog.
Notation "x <- m ;; k" := (pbind m (λ x, k))
  (at level 100, m at next level, k at level 200, right associativity) : prog_scope.
Notation "m ;; k" := (pbind m (λ _, k))
  (at level 100, k at level 200, right associativity) : prog_scope.

(** ** Tactics and hint databases *)

Create HintDb cafe discriminated.
Create Rewrite HintDb prog_rw.

Ltac prog_unfold :=
  unfold exec, pbind, pret, pget, pput, pmodify, pthrow, plift in *.

(** Splits on the outcome a [match] of the goal or of a hypothesis is
    stuck on. *)
Ltac case_outcome :=
  match goal with
  | |- context [match ?x with Ok _ => _ | Err _ => _ end] => destruct x eqn:?
  | H : context [match ?x with Ok _ => _ | Err _ => _ end] |- _ => destruct x eqn:?
  end.

Ltac prog_simpl := prog_unfold; simpl in *; repeat (case_outcome; simpl in *); simplify_eq.

(** Proves a decidable proposition about concrete data by evaluating its
    decision procedure. *)
Ltac by_compute := apply (bool_decide_unpack _); vm_compute; exact I.

(** ** Laws of the monad, pointwise in the state *)

Section prog_laws.
Context {S E : Type}.

Lemma pbind_pret_l {A B} (a : A) (f : A → prog S E B) s :
  pbind (pret a) f s = f a s.
Proof. reflexivity. Qed.

Lemma pbind_pret_r {A} (m : prog S E A) s : pbind m pret s = m s.
Proof. unfold pbind, pret. destruct (m s) as [[a s']|e]; reflexivity. Qed.

Lemma pbind_assoc {A B C} (m : prog S E A) (f : A → prog S E B)
    (g : B → prog S E C) s :
  pbind (pbind m f) g s = pbind m (λ a, pbind (f a) g) s.
Proof. unfold pbind. destruct (m s) as [[a s']|e]; reflexivity. Qed.

Lemma pbind_pthrow {A B} (e : E) (f : A → prog S E B) s :
  pbind (pthrow e) f s = Err e.
Proof. reflexivity. Qed.

Lemma pbind_pget {A} (f : S → prog S E A) s : pbind pget f s = f s s.
Proof. reflexivity. Qed.

Lemma pbind_pput {A} (s' : S) (f : unit → prog S E A) s : pbind (pput s') f s = f tt s'.
Proof. reflexivity. Qed.

Lemma pbind_pmodify {A} (g : S → S) (f : unit → prog S E A) s :
  pbind (pmodify g) f s = f tt (g s).
Proof. reflexivity. Qed.

Lemma pbind_plift_Ok {A B} (a : A) (f : A → prog S E B) s :
  pbind (plift (Ok a)) f s = f a s.
Proof. reflexivity. Qed.

Lemma pbind_plift_Err {A B} (e : E) (f : A → prog S E B) s :
  pbind (plift (Err e)) f s = Err e.
Proof. reflexivity. Qed.

Lemma pret_Ok {A} (a a' : A) (s s' : S) :
  pret (E:=E) a s = Ok (a', s') ↔ a' = a ∧ s' = s.
Proof. unfold pret. split; [by intros [= -> ->]|by intros [-> ->]]. Qed.

Lemma pbind_Ok {A B} (m : prog S E A) (f : A → prog S E B) s a s' :
  m s = Ok (a, s') → pbind m f s = f a s'.
Proof. unfold pbind. by intros ->. Qed.

Lemma pbind_Err {A B} (m : prog S E A) (f : A → prog S E B) s e :
  m s = Err e → pbind m f s = Err e.
Proof. unfold pbind. by intros ->. Qed.

(** Two binds agree in a state when their parts do. *)
Lemma pbind_cong {A B} (m m' : prog S E A) (f g : A → prog S E B) s :
  m s = m' s → (∀ a s', f a s' = g a s') → pbind m f s = pbind m' g s.
Proof. unfold pbind. intros -> Hfg. destruct (m' s) as [[a s']|e]; [apply Hfg|done]. Qed.

(** A bind succeeds when both of its parts do. *)
Lemma pbind_Ok_inv {A B} (m : prog S E A) (f : A → prog S E B) s r :
  pbind m f s = Ok r ↔ ∃ a s', m s = Ok (a, s') ∧ f a s' = Ok r.
Proof.
  unfold pbind. destruct (m s) as [[a s']|e]; split; try done.
  - eauto.
  - by intros (a' & s'' & [= -> ->] & Hf).
  - by intros (a' & s'' & [=] & _).
Qed.

Lemma bind_plift_Ok {A B} (o : outcome E A) (f : A → prog S E B) s r :
  pbind (plift o) f s = Ok r ↔ ∃ a, o = Ok a ∧ f a s = Ok r.
Proof.
  destruct o as [a|e]; split; try done.
  - eauto.
  - by intros (a' & [= ->] & Hf).
  - by intros (a' & [=] & _).
Qed.

(** A failed handler leaves the state it started from. *)
Lemma exec_Err_state {A} (m : prog S E A) s e s' :
  exec m s = (Err e, s') → s' = s.
Proof. unfold exec. destruct (m s) as [[a s'']|e']; by intros [= _ ->]. Qed.

Lemma exec_Ok {A} (m : prog S E A) s a s' :
  exec m s = (Ok a, s') ↔ m s = Ok (a, s').
Proof.
  unfold exec. destruct (m s) as [[a' s'']|e']; split; try done.
  - by intros [= -> ->].
  - by intros [= -> ->].
Qed.

End prog_laws.

#[export] Hint Rewrite @pbind_pret_l @pbind_pret_r @pbind_assoc @pbind_pthrow
  @pbind_pget @pbind_pput @pbind_pmodify @pbind_plift_Ok @pbind_plift_Err : prog_rw.

(** Runs a handler symbolically: the laws of the monad and the rewrite
    rules registered in [prog_rw] first, then the steps whose result is a
    hypothesis of the goal. *)
Ltac prog_step :=
  first
    [ progress autorewrite with prog_rw
    | match goal with
      | Hm : ?m ?c = Ok (_, _) |- context [pbind ?m _ ?c] =>
          rewrite (pbind_Ok _ _ _ _ _ Hm)
      | Hm : ?m ?c = Err _ |- context [pbind ?m _ ?c] =>
          rewrite (pbind_Err _ _ _ _ Hm)
      | Ho : ?o = Ok _ |- context [plift ?o] => rewrite Ho
      | Ho : ?o = Err _ |- context [plift ?o] => rewrite Ho
      end ].

Ltac prog_run := repeat prog_step.
