(* ===== verification/Hoare.v ===== *)
(** * Hoare: a weakest-precondition calculus for the handler monad

    [wp m Q F s] says what running [m] in the state [s] ends in: a value
    and a state that satisfy [Q], or a failure that satisfies [F].  It is
    total correctness: [m] is a function, so one of the two happens.  The
    rules follow the structure of a program, one per operation of the
    monad; a specification proved once for an operation of the store or
    of the session is used at each of its calls with [wp_apply].  The
    outcome of a whole view function (which pages, which errors and why)
    is derived with these rules in Outcomes. *)

From S2P Require Import Prelude.

Definition wp {S E A} (m : prog S E A) (Q : A → S → Prop) (F : E → Prop)
    (s : S) : Prop :=
  match m s with
  | Ok (a, s') => Q a s'
  | Err e => F e
  end.

Section rules.
Context {S E : Type}.
Implicit Types (s : S) (F : E → Prop).

Lemma wp_pret {A} (a : A) (Q : A → S → Prop) F s : Q a s → wp (pret a) Q F s.
Proof. done. Qed.

Lemma wp_pbind {A B} (m : prog S E A) (k : A → prog S E B) (Q : B → S → Prop) F s :
  wp m (λ a s', wp (k a) Q F s') F s → wp (pbind m k) Q F s.
Proof. unfold wp, pbind. by destruct (m s) as [[a s']|e]. Qed.

Lemma wp_pget (Q : S → S → Prop) F s : Q s s → wp pget Q F s.
Proof. done. Qed.

Lemma wp_pput s' (Q : unit → S → Prop) F s : Q tt s' → wp (pput s') Q F s.
Proof. done. Qed.

Lemma wp_pmodify (f : S → S) (Q : unit → S → Prop) F s :
  Q tt (f s) → wp (pmodify f) Q F s.
Proof. done. Qed.

Lemma wp_pthrow {A} (e : E) (Q : A → S → Prop) F s : F e → wp (pthrow e) Q F s.
Proof. done. Qed.

Lemma wp_plift {A} (o : outcome E A) (Q : A → S → Prop) F s :
  match o with Ok a => Q a s | Err e => F e end → wp (plift o) Q F s.
Proof. unfold wp, plift. by destruct o. Qed.

(** The rule of consequence. *)
Lemma wp_mono {A} (m : prog S E A) (Q Q' : A → S → Prop) F F' s :
  wp m Q F s → (∀ a s', Q a s' → Q' a s') → (∀ e, F e → F' e) → wp m Q' F' s.
Proof. unfold wp. destruct (m s) as [[a s']|e]; auto. Qed.

Lemma wp_and {A} (m : prog S E A) (Q1 Q2 : A → S → Prop) F1 F2 s :
  wp m Q1 F1 s → wp m Q2 F2 s →
  wp m (λ a s', Q1 a s' ∧ Q2 a s') (λ e, F1 e ∧ F2 e) s.
Proof. unfold wp. by destruct (m s) as [[a s']|e]. Qed.

(** What a specification says of a run. *)
Lemma wp_Ok {A} (m : prog S E A) (Q : A → S → Prop) F s a s' :
  wp m Q F s → m s = Ok (a, s') → Q a s'.
Proof. unfold wp. intros Hwp Hm. by rewrite Hm in Hwp. Qed.

Lemma wp_Err {A} (m : prog S E A) (Q : A → S → Prop) F s e :
  wp m Q F s → m s = Err e → F e.
Proof. unfold wp. intros Hwp Hm. by rewrite Hm in Hwp. Qed.

Lemma wp_exec {A} (m : prog S E A) (Q : A → S → Prop) F s :
  wp m Q F s →
  match exec m s with
  | (Ok a, s') => Q a s'
  | (Err e, s') => F e ∧ s' = s
  end.
Proof. unfold wp, exec. by destruct (m s) as [[a s']|e]. Qed.

(** Every program has its strongest specification. *)
Lemma wp_run {A} (m : prog S E A) s :
  wp m (λ a s', m s = Ok (a, s')) (λ e, m s = Err e) s.
Proof. unfold wp. by destruct (m s) as [[a s']|e]. Qed.

(** A specification may always mention the run itself. *)
Lemma wp_strengthen {A} (m : prog S E A) (Q : A → S → Prop) F s :
  wp m Q F s →
  wp m (λ a s', Q a s' ∧ m s = Ok (a, s')) (λ e, F e ∧ m s = Err e) s.
Proof. intros Hwp. apply wp_and; [done|apply wp_run]. Qed.

#[export] Instance wp_proper {A} (m : prog S E A) :
  Proper (pointwise_relation A (pointwise_relation S impl) ==>
          pointwise_relation E impl ==> eq ==> impl) (wp m).
Proof.
  intros Q Q' HQ F F' HF s ? <- Hwp. eapply wp_mono; [done|..].
  - intros a s'. apply HQ.
  - intros e. apply HF.
Qed.

End rules.

(** One step through the structure of the program. *)
Ltac wp_step :=
  lazymatch goal with
  | |- wp (pbind _ _) _ _ _ => apply wp_pbind
  | |- wp (pret _) _ _ _ => apply wp_pret
  | |- wp pget _ _ _ => apply wp_pget
  | |- wp (pput _) _ _ _ => apply wp_pput
  | |- wp (pmodify _) _ _ _ => apply wp_pmodify
  | |- wp (pthrow _) _ _ _ => apply wp_pthrow
  | |- wp (plift _) _ _ _ => apply wp_plift
  end.

Ltac wp_pure := repeat wp_step.

(** Uses the specification [lem] of the operation that the goal runs,
    leaving its postcondition and its failure to be shown enough. *)
Tactic Notation "wp_apply" uconstr(lem) :=
  first [ eapply wp_mono; [apply lem|..]
        | apply wp_pbind; eapply wp_mono; [apply lem|..] ];
  cbv beta.
