(* ===== verification/Tables.v ===== *)
(** * Tables: relational tables with integer primary keys

    A table is a finite map from primary keys to rows.  This file is about
    tables in general, not about the cafe schema: how SQLite picks the key
    of a new row, the order of a table scan, and the three kinds of
    constraint the schema of main.py declares, each with the lemmas that
    say which updates preserve it.  All predicates are decidable, so a
    concrete database is checked by computation. *)

From S2P Require Import Prelude.

(** ** Primary keys and row order *)

(** The primary key SQLite gives to a new row of a table whose key is an
    INTEGER PRIMARY KEY: one more than the largest key in use, 1 for an
    empty table. *)
Definition next_key {A} (m : gmap nat A) : nat := S (max_list (elements (dom m))).

Definition key_le {A} : relation (nat * A) := λ x y, x.1 ≤ y.1.

#[export] Instance key_le_dec {A} : RelDecision (@key_le A).
Proof. intros x y. unfold key_le. apply _. Defined.

(** The rows of a table in the order of their keys (the order of a scan). *)
Definition rows {A} (m : gmap nat A) : list (nat * A) :=
  merge_sort key_le (map_to_list m).

(** ** Constraints *)

(** The row stores its own key in column [f] (the mapped object's id). *)
Definition keyed_by {A} (f : A → nat) (m : gmap nat A) : Prop :=
  map_Forall (λ k x, f x = k) m.

(** Column [f] is UNIQUE: two rows that agree on it are the same row. *)
Definition unique_on {A B} (f : A → B) (m : gmap nat A) : Prop :=
  map_Forall (λ k1 x1, map_Forall (λ k2 x2, f x1 = f x2 → k1 = k2) m) m.

(** The probe of a UNIQUE index: some row has value [b] in column [f]. *)
Definition taken {A B} `{EqDecision B} (f : A → B) (b : B) (m : gmap nat A) : bool :=
  bool_decide (map_Exists (λ _ x, f x = b) m).

(** Column [f] is a nullable foreign key into [target]: NULL or the key of
    a row of [target]. *)
Definition refs_ok {A B} (f : A → option nat) (m : gmap nat A)
    (target : gmap nat B) : Prop :=
  map_Forall (λ _ x, from_option (λ u, is_Some (target !! u)) True (f x)) m.

#[export] Instance keyed_by_dec {A} (f : A → nat) m : Decision (keyed_by f m).
Proof. unfold keyed_by. apply _. Defined.

#[export] Instance unique_on_dec {A B} `{EqDecision B} (f : A → B) m :
  Decision (unique_on f m).
Proof. unfold unique_on. apply _. Defined.

#[export] Instance refs_ok_dec {A B} (f : A → option nat) m (target : gmap nat B) :
  Decision (refs_ok f m target).
Proof.
  unfold refs_ok. apply map_Forall_dec. intros k x.
  destruct (f x); simpl; apply _.
Defined.

(** ** Keys *)

Section keys.
Context {A : Type}.
Implicit Types (m : gmap nat A) (k : nat) (v : A).

Lemma next_key_gt m k v : m !! k = Some v → k < next_key m.
Proof.
  intros Hk. unfold next_key. apply Nat.lt_succ_r, max_list_elem_of_le.
  apply elem_of_elements, elem_of_dom. eauto.
Qed.

Lemma next_key_fresh m : m !! next_key m = None.
Proof.
  destruct (m !! next_key m) as [v|] eqn:Hk; [|done].
  apply next_key_gt in Hk. lia.
Qed.

Lemma next_key_pos m : 0 < next_key m.
Proof. unfold next_key. lia. Qed.

Lemma next_key_empty : next_key (∅ : gmap nat A) = 1.
Proof. unfold next_key. by rewrite dom_empty_L, elements_empty. Qed.

(** Deleting the row with the largest key makes that key the next one
    again: SQLite reuses it. *)
Lemma next_key_delete_le m k : next_key (delete k m) ≤ next_key m.
Proof.
  unfold next_key. apply le_n_S.
  destruct (decide (elements (dom (delete k m)) = [])) as [->|Hne]; [simpl; lia|].
  apply max_list_elem_of_le. apply max_list_elem_of in Hne.
  apply elem_of_elements, elem_of_dom in Hne as [v [_ Hv]%lookup_delete_Some].
  apply elem_of_elements, elem_of_dom. eauto.
Qed.

Lemma rows_perm m : rows m ≡ₚ map_to_list m.
Proof. apply merge_sort_Permutation. Qed.

Lemma elem_of_rows m k v : (k, v) ∈ rows m ↔ m !! k = Some v.
Proof. rewrite rows_perm. apply elem_of_map_to_list. Qed.

Lemma elem_of_rows_snd m v : v ∈ (rows m).*2 ↔ ∃ k, m !! k = Some v.
Proof.
  rewrite list_elem_of_fmap. split.
  - intros ([k v'] & -> & Hin). exists k. by apply elem_of_rows.
  - intros [k Hk]. exists (k, v). split; [done|]. by apply elem_of_rows.
Qed.

Lemma NoDup_rows m : NoDup (rows m).
Proof. rewrite rows_perm. apply NoDup_map_to_list. Qed.

Lemma NoDup_fst_rows m : NoDup (rows m).*1.
Proof. rewrite rows_perm. apply NoDup_fst_map_to_list. Qed.

Global Instance key_le_trans : Transitive (@key_le A).
Proof. intros x y z. unfold key_le. lia. Qed.

Global Instance key_le_total : Total (@key_le A).
Proof. intros x y. unfold key_le. lia. Qed.

Lemma rows_sorted m : StronglySorted key_le (rows m).
Proof. apply StronglySorted_merge_sort; apply _. Qed.

Lemma rows_empty : rows (∅ : gmap nat A) = [].
Proof. unfold rows. by rewrite map_to_list_empty. Qed.

Lemma length_rows m : length (rows m) = size m.
Proof. by rewrite rows_perm, length_map_to_list. Qed.

End keys.

(** ** The stored key *)

Section keyed.
Context {A : Type} (f : A → nat).
Implicit Types (m : gmap nat A).

Lemma keyed_by_empty : keyed_by f ∅.
Proof. apply map_Forall_empty. Qed.

Lemma keyed_by_insert m k x : keyed_by f m → f x = k → keyed_by f (<[k:=x]> m).
Proof. intros Hm Hx. by apply map_Forall_insert_2. Qed.

Lemma keyed_by_delete m k : keyed_by f m → keyed_by f (delete k m).
Proof. apply map_Forall_delete. Qed.

Lemma keyed_by_lookup m k x : keyed_by f m → m !! k = Some x → f x = k.
Proof. intros Hm Hk. exact (Hm k x Hk). Qed.

Lemma keyed_by_fmap m (g : A → A) :
  (∀ x, f (g x) = f x) → keyed_by f m → keyed_by f (g <$> m).
Proof.
  intros Hg Hm k y. rewrite lookup_fmap_Some. intros (x & <- & Hk).
  rewrite Hg. by eapply Hm.
Qed.

End keyed.

(** ** UNIQUE columns *)

Section unique.
Context {A B : Type} `{EqDecision B} (f : A → B).
Implicit Types (m : gmap nat A).

Lemma taken_true m b : taken f b m = true ↔ ∃ k x, m !! k = Some x ∧ f x = b.
Proof. unfold taken. rewrite bool_decide_eq_true. apply map_Exists_lookup. Qed.

Lemma taken_false m b : taken f b m = false ↔ ∀ k x, m !! k = Some x → f x ≠ b.
Proof.
  rewrite <-not_true_iff_false, taken_true. split.
  - intros Hno k x Hk Hf. apply Hno. eauto.
  - intros Hall (k & x & Hk & Hf). by eapply Hall.
Qed.

Lemma taken_empty b : taken f b (∅ : gmap nat A) = false.
Proof. apply taken_false. intros k x. by rewrite lookup_empty. Qed.

Lemma unique_on_empty : unique_on f ∅.
Proof. apply map_Forall_empty. Qed.

Lemma unique_on_lookup m k1 k2 x1 x2 :
  unique_on f m → m !! k1 = Some x1 → m !! k2 = Some x2 →
  f x1 = f x2 → k1 = k2.
Proof. intros Hu H1 H2. exact (Hu k1 x1 H1 k2 x2 H2). Qed.

(** Adding a row whose value is not taken keeps the column unique. *)
Lemma unique_on_insert m k x :
  unique_on f m → m !! k = None → taken f (f x) m = false →
  unique_on f (<[k:=x]> m).
Proof.
  intros Hu Hk Hfree k1 x1 H1 k2 x2 H2 Heq. rewrite taken_false in Hfree.
  apply lookup_insert_Some in H1 as [[<- <-]|[Hne1 H1]];
    apply lookup_insert_Some in H2 as [[<- <-]|[Hne2 H2]]; try done.
  - by destruct (Hfree k2 x2 H2).
  - by destruct (Hfree k1 x1 H1).
  - by eapply unique_on_lookup.
Qed.

Lemma unique_on_delete m k : unique_on f m → unique_on f (delete k m).
Proof.
  intros Hu k1 x1 [_ H1]%lookup_delete_Some k2 x2 [_ H2]%lookup_delete_Some.
  by eapply unique_on_lookup.
Qed.

(** A taken value blocks the insert: the table already has a row with it,
    and with the new row the column would repeat. *)
Lemma unique_on_insert_taken m k x :
  m !! k = None → taken f (f x) m = true → ¬ unique_on f (<[k:=x]> m).
Proof.
  intros Hk Ht Hu. apply taken_true in Ht as (k' & x' & Hk' & Heq).
  assert (k ≠ k') as Hne by (intros ->; simplify_eq).
  apply Hne. eapply (unique_on_lookup _ k k' x x' Hu); [| |done].
  - apply lookup_insert_eq.
  - by rewrite lookup_insert_ne.
Qed.

(** In a unique column a value names at most one row. *)
Lemma unique_on_row m k1 k2 x1 x2 :
  unique_on f m → m !! k1 = Some x1 → m !! k2 = Some x2 →
  f x1 = f x2 → x1 = x2.
Proof.
  intros Hu H1 H2 Heq.
  assert (k1 = k2) as -> by by eapply unique_on_lookup. by simplify_eq.
Qed.

End unique.

(** ** Foreign keys *)

Section refs.
Context {A B : Type} (f : A → option nat).
Implicit Types (m : gmap nat A) (t : gmap nat B).

Lemma refs_ok_empty t : refs_ok f ∅ t.
Proof. apply map_Forall_empty. Qed.

Lemma refs_ok_lookup m t k x u :
  refs_ok f m t → m !! k = Some x → f x = Some u → is_Some (t !! u).
Proof. intros Hr Hk Hf. specialize (Hr k x Hk). simpl in Hr. by rewrite Hf in Hr. Qed.

(** A new row may point to NULL or to a row of the target. *)
Lemma refs_ok_insert m t k x :
  refs_ok f m t → from_option (λ u, is_Some (t !! u)) True (f x) →
  refs_ok f (<[k:=x]> m) t.
Proof. intros Hr Hx. by apply map_Forall_insert_2. Qed.

Lemma refs_ok_delete m t k : refs_ok f m t → refs_ok f (delete k m) t.
Proof. apply map_Forall_delete. Qed.

(** The target may grow. *)
Lemma refs_ok_target_insert m t u y :
  refs_ok f m t →  refs_ok f m (<[u:=y]> t).
Proof.
  intros Hr k x Hk. specialize (Hr k x Hk). simpl in *.
  destruct (f x) as [u'|]; simpl in *; [|done].
  rewrite lookup_insert_is_Some. destruct (decide (u = u')); auto.
Qed.

(** A row of the target may go once no row points to it: this is what
    setting the referring column to NULL before the delete achieves. *)
Lemma refs_ok_target_delete m t u (g : A → A) :
  (∀ x, f (g x) = if decide (f x = Some u) then None else f x) →
  refs_ok f m t → refs_ok f (g <$> m) (delete u t).
Proof.
  intros Hg Hr k y. rewrite lookup_fmap_Some. intros (x & <- & Hk).
  specialize (Hr k x Hk). simpl in *. rewrite Hg.
  destruct (decide (f x = Some u)) as [|Hne]; [done|].
  destruct (f x) as [u'|]; simpl in *; [|done].
  rewrite lookup_delete_is_Some. split; [congruence|done].
Qed.

End refs.

#[export] Hint Resolve next_key_fresh next_key_pos : cafe.
#[export] Hint Resolve keyed_by_empty keyed_by_insert keyed_by_delete : cafe.
#[export] Hint Resolve unique_on_empty unique_on_insert unique_on_delete : cafe.
#[export] Hint Resolve refs_ok_empty refs_ok_insert refs_ok_delete
  refs_ok_target_insert : cafe.
