(* ===== verification/Interfaces.v ===== *)
(** * Interfaces: what the libraries promise the application

    main.py calls werkzeug for password hashes, WTForms for the URL check
    and relies on Python and SQLite to turn a primary key into text and
    back.  Each of these is a type class here: its operations with the laws
    the application depends on.  The handlers and their theorems are stated
    over the classes; the reference instances at the end make the handlers
    run on concrete input.  The vocabulary of failures (HTTP aborts and
    uncaught exceptions) is here too, since the store, the session layer and
    the handlers share it. *)

From S2P Require Import Prelude.
From Stdlib Require Import Ascii DecimalString DecimalNat DecimalFacts.

(** ** Failures of a request *)

(** A constraint of the schema that a commit can violate; the string names
    the column as SQLite reports it (table.column). *)
Inductive violation :=
| NotNull (column : string)
| Unique (column : string).

(** Python exceptions that main.py does not catch. *)
Inductive exn :=
| IntegrityError (v : violation)
| AttributeError.

(** How a request ends when it does not end with a page or a redirect:
    werkzeug's abort with a status, or an exception that reaches Flask. *)
Inductive failure :=
| Abort (status : nat)
| Raised (e : exn).

#[export] Instance violation_eq_dec : EqDecision violation.
Proof. solve_decision. Defined.
#[export] Instance exn_eq_dec : EqDecision exn.
Proof. solve_decision. Defined.
#[export] Instance failure_eq_dec : EqDecision failure.
Proof. solve_decision. Defined.

(** The status line Flask answers with. *)
Definition status_of (f : failure) : nat :=
  match f with
  | Abort n => n
  | Raised _ => 500
  end.

(** ** Password hashes (werkzeug.security) *)

(** [generate_password_hash pw seed] is the stored text for password [pw];
    [seed] stands for the random salt werkzeug draws.
    [check_password_hash pwhash pw] tests a candidate against a stored
    text. *)
Class PasswordHasher := {
  generate_password_hash : string → nat → string;
  check_password_hash : string → string → bool;
  check_generate pw seed :
    check_password_hash (generate_password_hash pw seed) pw = true;
}.

(** No second password passes the check of a generated hash.  A real hash
    satisfies this only up to collisions; the theorems that need it say so
    by asking for this class. *)
Class HashBinding `{PasswordHasher} :=
  hash_binding pw pw' seed :
    check_password_hash (generate_password_hash pw seed) pw' = true → pw' = pw.

(** Both functions take a [str]; handed Python's None they raise
    AttributeError when they reach [password.encode()]. *)
Definition generate_password_hash_py `{PasswordHasher}
    (password : option string) (seed : nat) : outcome failure string :=
  match password with
  | Some pw => Ok (generate_password_hash pw seed)
  | None => Err (Raised AttributeError)
  end.

Definition check_password_hash_py `{PasswordHasher}
    (pwhash : string) (password : option string) : outcome failure bool :=
  match password with
  | Some pw => Ok (check_password_hash pwhash pw)
  | None => Err (Raised AttributeError)
  end.

(** ** The URL validator of WTForms *)

Class UrlValidator := url_ok : string → bool.

(** ** Primary keys as text *)

(** [id_str n] is Python's [str(n)], which Flask-Login stores in the
    session; [id_of_text s] is the key that SQLite finds when the text [s]
    is compared with an INTEGER PRIMARY KEY column, if any.  The two laws are
    all the application relies on: a key printed by Python is found again,
    and the default [" "] of a missing query argument matches no row. *)
Class IdCodec := {
  id_str : nat → string;
  id_of_text : string → option nat;
  id_of_text_str n : id_of_text (id_str n) = Some n;
  id_of_text_blank : id_of_text " " = None;
}.

(** ** Reference instances *)

(** Decimal digits, by the Standard Library's conversions. *)
Definition decimal_str (n : nat) : string :=
  NilZero.string_of_uint (Nat.to_uint n).

Definition decimal_of_text (s : string) : option nat :=
  Nat.of_uint <$> NilZero.uint_of_string s.

Lemma to_uint_nonnil n : Nat.to_uint n ≠ Decimal.Nil.
Proof.
  rewrite <-(Unsigned.of_to n) at 1. rewrite Unsigned.to_of.
  apply unorm_nonnil.
Qed.

Lemma decimal_of_text_str n : decimal_of_text (decimal_str n) = Some n.
Proof.
  unfold decimal_of_text, decimal_str.
  rewrite NilZero.usu by apply to_uint_nonnil.
  simpl. by rewrite Unsigned.of_to.
Qed.

#[export] Instance decimal_codec : IdCodec := {|
  id_str := decimal_str;
  id_of_text := decimal_of_text;
  id_of_text_str := decimal_of_text_str;
  id_of_text_blank := eq_refl;
|}.

(** A stand-in for the iterated hash: the stored text is the password
    behind a fixed tag.  It satisfies both laws and is used only to run the
    handlers on examples. *)
Definition tag_hash (pw : string) (seed : nat) : string := "plain$" +:+ pw.

Definition tag_check (pwhash pw : string) : bool :=
  bool_decide (pwhash = "plain$" +:+ pw).

#[export] Instance tag_hasher : PasswordHasher := {|
  generate_password_hash := tag_hash;
  check_password_hash := tag_check;
  check_generate pw seed := bool_decide_eq_true_2 _ eq_refl;
|}.

#[export] Instance tag_hasher_binding : HashBinding.
Proof.
  intros pw pw' seed Hc. apply bool_decide_eq_true_1 in Hc.
  symmetry. by apply (inj (String.app "plain$")) in Hc.
Qed.

(** A stand-in for the URL check: a scheme, "://" and something after. *)
Fixpoint has_scheme_sep (s : string) : bool :=
  match s with
  | String a s' =>
      match s' with
      | String b (String c (String _ _)) =>
          bool_decide (a = ":" ∧ b = "/" ∧ c = "/")%char || has_scheme_sep s'
      | _ => false
      end
  | EmptyString => false
  end.

Definition simple_url_ok (s : string) : bool :=
  match s with
  | String a _ => bool_decide (a ≠ ":"%char) && has_scheme_sep s
  | EmptyString => false
  end.

#[export] Instance simple_url : UrlValidator := simple_url_ok.

(** ** Facts of the interfaces *)

Section codec_facts.
Context `{IdCodec}.

Lemma id_str_inj n1 n2 : id_str n1 = id_str n2 → n1 = n2.
Proof.
  intros Heq. apply (f_equal id_of_text) in Heq.
  rewrite !id_of_text_str in Heq. by simplify_eq.
Qed.

Lemma id_str_not_blank n : id_str n ≠ " ".
Proof.
  intros Heq. apply (f_equal id_of_text) in Heq.
  rewrite id_of_text_str, id_of_text_blank in Heq. done.
Qed.

End codec_facts.

Section hasher_facts.
Context `{PasswordHasher}.

Lemma check_password_hash_py_generate pw seed :
  check_password_hash_py (generate_password_hash pw seed) (Some pw) = Ok true.
Proof. simpl. by rewrite check_generate. Qed.

Lemma check_password_hash_py_Ok pwhash password b :
  check_password_hash_py pwhash password = Ok b ↔
  ∃ pw, password = Some pw ∧ b = check_password_hash pwhash pw.
Proof.
  destruct password as [pw|]; simpl; split.
  - intros [= <-]. eauto.
  - by intros (pw' & [= <-] & ->).
  - done.
  - by intros (pw' & ? & _).
Qed.

Lemma generate_password_hash_py_Ok password seed h :
  generate_password_hash_py password seed = Ok h ↔
  ∃ pw, password = Some pw ∧ h = generate_password_hash pw seed.
Proof.
  destruct password as [pw|]; simpl; split.
  - intros [= <-]. eauto.
  - by intros (pw' & [= <-] & ->).
  - done.
  - by intros (pw' & ? & _).
Qed.

Lemma generate_password_hash_py_None seed :
  generate_password_hash_py None seed = Err (Raised AttributeError).
Proof. reflexivity. Qed.

End hasher_facts.

#[export] Hint Rewrite @id_of_text_str @check_generate : prog_rw.
