(* ===== verification/Werkzeug.v ===== *)
(** * Werkzeug: the stored form of a password

    register hashes a password with
    [generate_password_hash(password, method="pbkdf2:sha256:600000",
    salt_length=8)] (main.py:161) and login checks it with
    [check_password_hash] (main.py:185, 191).  werkzeug stores the text
    [method$salt$digest]; the check splits the stored text at the first
    two dollar signs and derives the digest again with the method and
    the salt it finds there.  This file models that format over a key
    derivation function kept abstract ([Kdf]), shows that it is a
    [PasswordHasher] (so every theorem proved against the interface
    holds of it) and that it binds the password when the key derivation
    does.  The length of the stored text is not modelled: SQLite does
    not enforce the String(400) of User.password (main.py:70). *)

From Stdlib Require Import Ascii.
From S2P Require Import Prelude Interfaces.

(** ** Text *)

(** [s.split(sep, 1)]: the text before and after the first [sep]. *)
Fixpoint split_once (sep : ascii) (s : string) : option (string * string) :=
  match s with
  | EmptyString => None
  | String c s' =>
      if Ascii.eqb c sep then Some (EmptyString, s')
      else '(l, r) ← split_once sep s'; Some (String c l, r)
  end.

Fixpoint contains (c : ascii) (s : string) : bool :=
  match s with
  | EmptyString => false
  | String c' s' => Ascii.eqb c' c || contains c s'
  end.

(** ** The arguments of main.py *)

(** main.py:161 *)
Definition hash_method : string := "pbkdf2:sha256:600000".
Definition salt_length : nat := 8.

(** ** werkzeug.security *)

Definition SALT_CHARS : string :=
  "abcdefghijklmnopqrstuvwxyzABCDEFGHIJKLMNOPQRSTUVWXYZ0123456789".

(** gen_salt(length): [length] characters of SALT_CHARS, each chosen by
    the random source, which [seed] stands for digit by digit. *)
Fixpoint gen_salt (length seed : nat) : string :=
  match length with
  | 0 => EmptyString
  | S n =>
      String (default "a"%char (String.get (seed mod 62) SALT_CHARS))
        (gen_salt n (seed / 62))
  end.

(** hashlib.pbkdf2_hmac with the digest and the iterations the method
    names, in hexadecimal. *)
Class Kdf := pbkdf2_hex : string → string → string → string.

(** The key derivation has no collision for a method and a salt. *)
Class KdfInjective `{Kdf} :=
  pbkdf2_hex_inj method salt : Inj (=) (=) (pbkdf2_hex method salt).

Section werkzeug.
Context `{Kdf}.

Definition generate_with (method : string) (length : nat) (pw : string) (seed : nat) :
    string :=
  let salt := gen_salt length seed in
  method +:+ "$" +:+ salt +:+ "$" +:+ pbkdf2_hex method salt pw.

(** check_password_hash: a stored text without two dollar signs matches
    no password. *)
Definition check (pwhash pw : string) : bool :=
  match split_once "$" pwhash with
  | Some (method, rest) =>
      match split_once "$" rest with
      | Some (salt, hashval) => bool_decide (pbkdf2_hex method salt pw = hashval)
      | None => false
      end
  | None => false
  end.

(** ** Lemmas on text *)

Lemma split_once_app sep s t :
  contains sep s = false →
  split_once sep (s +:+ String sep EmptyString +:+ t) = Some (s, t).
Proof.
  change (String sep EmptyString +:+ t) with (String sep t).
  induction s as [|c s IH]; simpl.
  - by rewrite Ascii.eqb_refl.
  - intros [-> Hs]%orb_false_iff. by rewrite (IH Hs).
Qed.

Lemma contains_get c i s c' :
  contains c s = false → String.get i s = Some c' → c' ≠ c.
Proof.
  revert i. induction s as [|c0 s IH]; intros i; [done|]. simpl.
  intros [Hc0 Hs]%orb_false_iff. destruct i as [|i]; [|by eauto].
  intros [= <-] ->. by rewrite Ascii.eqb_refl in Hc0.
Qed.

(** ** The salt *)

Lemma gen_salt_length n seed : String.length (gen_salt n seed) = n.
Proof. revert seed. induction n as [|n IH]; intros seed; simpl; [done|by rewrite IH]. Qed.

Lemma salt_char seed :
  default "a"%char (String.get (seed mod 62) SALT_CHARS) ≠ "$"%char.
Proof.
  destruct (String.get (seed mod 62) SALT_CHARS) as [c|] eqn:Hget; [|done].
  by apply (contains_get _ (seed mod 62) SALT_CHARS).
Qed.

Lemma gen_salt_contains n seed : contains "$" (gen_salt n seed) = false.
Proof.
  revert seed. induction n as [|n IH]; intros seed; simpl; [done|].
  rewrite IH, orb_false_r. apply Ascii.eqb_neq, salt_char.
Qed.

(** ** The hasher *)

Lemma check_generate_with method n pw seed :
  contains "$" method = false → check (generate_with method n pw seed) pw = true.
Proof.
  intros Hmethod. unfold check, generate_with. simpl.
  rewrite (split_once_app "$" method) by done.
  rewrite (split_once_app "$" (gen_salt n seed)) by apply gen_salt_contains.
  by apply bool_decide_eq_true_2.
Qed.

(** The hasher of main.py. *)
Definition werkzeug_hasher : PasswordHasher := {|
  generate_password_hash := generate_with hash_method salt_length;
  check_password_hash := check;
  check_generate pw seed := check_generate_with hash_method salt_length pw seed eq_refl;
|}.

(** ** What is stored, and what passes the check *)

(** C35: which passwords pass the check.  Against the hash stored for
    [pw], login accepts exactly the passwords from which the method and
    the salt of the stored text derive the same key: the password itself,
    and any other only by a collision of the key derivation. *)
Theorem check_accepts pw pw' seed :
  @check_password_hash werkzeug_hasher
    (@generate_password_hash werkzeug_hasher pw seed) pw' = true ↔
  pbkdf2_hex hash_method (gen_salt salt_length seed) pw' =
  pbkdf2_hex hash_method (gen_salt salt_length seed) pw.
Proof.
  unfold check_password_hash, generate_password_hash, werkzeug_hasher.
  unfold check, generate_with.
  rewrite (split_once_app "$" hash_method) by done.
  rewrite (split_once_app "$" (gen_salt salt_length seed)) by apply gen_salt_contains.
  apply bool_decide_eq_true.
Qed.

(** A stored text that is not of the form method$salt$digest matches no
    password. *)
Lemma check_malformed pwhash pw :
  split_once "$" pwhash = None → check pwhash pw = false.
Proof. unfold check. by intros ->. Qed.

End werkzeug.

(** ** An example *)

(** A stand-in for the key derivation, to run the definitions: the
    password cut or filled to 64 characters. *)
Fixpoint pad (n : nat) (s : string) : string :=
  match n with
  | 0 => EmptyString
  | S n' =>
      match s with
      | EmptyString => String "0" (pad n' EmptyString)
      | String c s' => String c (pad n' s')
      end
  end.

Definition pad_kdf : Kdf := λ method salt pw, pad 64 pw.

Example stored_hash_sample :
  @generate_password_hash (@werkzeug_hasher pad_kdf) "pw123" 7 =
  "pbkdf2:sha256:600000$haaaaaaa$pw12300000000000000000000000000000000000000000000000000000000000" ∧
  @check_password_hash (@werkzeug_hasher pad_kdf)
    (@generate_password_hash (@werkzeug_hasher pad_kdf) "pw123" 7) "pw124" = false ∧
  @check_password_hash (@werkzeug_hasher pad_kdf) "pw123" "pw123" = false.
Proof. by vm_compute. Qed.
