(* ===== verification/Store.v ===== *)
(** * Store: the persistence layer

    The three mapped classes of main.py (lines 48-80) and the operations the
    view functions perform on them through the SQLAlchemy session.  A row is
    a record with the columns' names, a table a [gmap nat row], the database
    the three tables.  An operation is a [prog database failure _]: it
    returns the new database, or fails with the exception the commit raises
    and leaves the database as it was.

    Columns.  A column declared [nullable=False] is NOT NULL: an insert
    that gives it Python's None fails.  A column declared [unique=True] has a
    UNIQUE index.  The foreign keys are nullable and SQLite does not enforce
    them (the pragma is off by default); the mapper fills them from the
    related objects.  The amenity columns and [seats] are declared Integer,
    but the only writer, add_cafe, assigns them the text of form fields, and
    SQLite keeps a text that is not a number as text in such a column: they
    are [string] here.  The declared lengths (String(255), ...) are not
    enforced by SQLite and are not modelled. *)

From S2P Require Import Prelude Hoare Tables Interfaces.

(** ** Rows *)

Module Cafe.
Record t := mk {
  id : nat;
  name : string;
  map_url : string;
  img_url : string;
  location : string;
  user_id : option nat;
  has_sockets : string;
  has_toilet : string;
  has_wifi : string;
  can_take_calls : string;
  seats : string;
  coffee_price : string;
}.
#[global] Instance eq_dec : EqDecision t.
Proof. solve_decision. Defined.
End Cafe.

Module User.
Record t := mk {
  id : nat;
  name : string;
  email : string;
  password : string;
}.
#[global] Instance eq_dec : EqDecision t.
Proof. solve_decision. Defined.
End User.

Module Review.
Record t := mk {
  review_id : nat;
  review_content : string;
  user_id : option nat;
  cafe_id : option nat;
}.
#[global] Instance eq_dec : EqDecision t.
Proof. solve_decision. Defined.

(** The row after SQLAlchemy has detached it from cafe [c]: a review of
    [c] gets a NULL cafe_id, any other review is unchanged. *)
Definition detach (c : nat) (r : t) : t :=
  if decide (cafe_id r = Some c)
  then mk (review_id r) (review_content r) (user_id r) None
  else r.
End Review.

(** ** The database *)

Record database := Database {
  cafes : gmap nat Cafe.t;
  users : gmap nat User.t;
  reviews : gmap nat Review.t;
}.

#[export] Instance database_eq_dec : EqDecision database.
Proof. solve_decision. Defined.

(** db.create_all() on a new file: three empty tables. *)
Definition create_all : database := Database ∅ ∅ ∅.

Definition set_cafes (f : gmap nat Cafe.t → gmap nat Cafe.t) (d : database) : database :=
  Database (f (cafes d)) (users d) (reviews d).

Definition set_users (f : gmap nat User.t → gmap nat User.t) (d : database) : database :=
  Database (cafes d) (f (users d)) (reviews d).

Definition set_reviews (f : gmap nat Review.t → gmap nat Review.t) (d : database) : database :=
  Database (cafes d) (users d) (f (reviews d)).

(** ** Constraint checks of a commit *)

(** A NOT NULL column given None. *)
Definition not_null (column : string) (v : option string) : prog database failure string :=
  match v with
  | Some s => pret s
  | None => pthrow (Raised (IntegrityError (NotNull column)))
  end.

(** A UNIQUE index whose probe found the value. *)
Definition unique (column : string) (is_taken : bool) : prog database failure unit :=
  if is_taken then pthrow (Raised (IntegrityError (Unique column))) else pret tt.

(** ** Inserts: db.session.add(row) followed by db.session.commit()

    SQLite checks the NOT NULL columns in the order of their declaration,
    then the UNIQUE indexes in the order of theirs, and gives the row the
    next key of its table. *)

Definition insert_user (name email password : option string) : prog database failure User.t :=
  (name <- not_null "user.name" name ;;
   email <- not_null "user.email" email ;;
   password <- not_null "user.password" password ;;
   d <- pget ;;
   unique "user.name" (taken User.name name (users d)) ;;
   unique "user.email" (taken User.email email (users d)) ;;
   let u := User.mk (next_key (users d)) name email password in
   pput (set_users <[User.id u := u]> d) ;;
   pret u)%prog.

Definition insert_cafe (name map_url : option string) (user : option nat)
    (img_url location has_sockets has_toilet has_wifi can_take_calls
     seats coffee_price : option string) : prog database failure Cafe.t :=
  (name <- not_null "cafe.name" name ;;
   map_url <- not_null "cafe.map_url" map_url ;;
   img_url <- not_null "cafe.img_url" img_url ;;
   location <- not_null "cafe.location" location ;;
   has_sockets <- not_null "cafe.has_sockets" has_sockets ;;
   has_toilet <- not_null "cafe.has_toilet" has_toilet ;;
   has_wifi <- not_null "cafe.has_wifi" has_wifi ;;
   can_take_calls <- not_null "cafe.can_take_calls" can_take_calls ;;
   seats <- not_null "cafe.seats" seats ;;
   coffee_price <- not_null "cafe.coffee_price" coffee_price ;;
   d <- pget ;;
   unique "cafe.name" (taken Cafe.name name (cafes d)) ;;
   unique "cafe.map_url" (taken Cafe.map_url map_url (cafes d)) ;;
   let c := Cafe.mk (next_key (cafes d)) name map_url img_url location user
              has_sockets has_toilet has_wifi can_take_calls seats coffee_price in
   pput (set_cafes <[Cafe.id c := c]> d) ;;
   pret c)%prog.

Definition insert_review (review_content : option string) (user cafe : option nat) :
    prog database failure Review.t :=
  (review_content <- not_null "review.review_content" review_content ;;
   d <- pget ;;
   let r := Review.mk (next_key (reviews d)) review_content user cafe in
   pput (set_reviews <[Review.review_id r := r]> d) ;;
   pret r)%prog.

(** ** Delete: db.session.delete(cafe) followed by db.session.commit()

    The relationship [cafe_review] has no delete cascade, so the unit of
    work first sets the cafe_id of the cafe's reviews to NULL and then
    deletes the cafe. *)
Definition delete_cafe (c : Cafe.t) : prog database failure unit :=
  pmodify (λ d, set_cafes (delete (Cafe.id c))
                  (set_reviews (fmap (Review.detach (Cafe.id c))) d)).

(** ** Queries *)

(** db.get_or_404(Model, ident): the row whose key the text [ident]
    names, or abort(404). *)
Definition get_or_404 `{IdCodec} {A} (table : gmap nat A) (ident : string) :
    outcome failure A :=
  match id_of_text ident ≫= (table !!.) with
  | Some row => Ok row
  | None => Err (Abort 404)
  end.

Definition name_le (c1 c2 : Cafe.t) : Prop := String.le (Cafe.name c1) (Cafe.name c2).

#[export] Instance name_le_dec : RelDecision name_le.
Proof. intros c1 c2. unfold name_le. apply _. Defined.

(** db.session.execute(db.Select(Cafe).order_by(Cafe.name)).scalars().all() *)
Definition select_cafes_by_name (d : database) : list Cafe.t :=
  merge_sort name_le (rows (cafes d)).*2.

(** db.session.execute(db.Select(User).where(User.email == e)).scalar():
    the first row of the result, or None.  Compared with None the column
    matches no row ([email IS NULL] on a NOT NULL column). *)
Definition select_user_by_email (d : database) (e : option string) : option User.t :=
  match e with
  | Some e => head (filter (λ u, User.email u = e) (rows (users d)).*2)
  | None => None
  end.

(** The relationship [Cafe.cafe_review]: the reviews whose cafe_id is the
    cafe's key, in key order. *)
Definition cafe_review (d : database) (c : Cafe.t) : list Review.t :=
  filter (λ r, Review.cafe_id r = Some (Cafe.id c)) (rows (reviews d)).*2.

(** ** The invariant *)

Definition db_wf (d : database) : Prop :=
  keyed_by Cafe.id (cafes d) ∧
  keyed_by User.id (users d) ∧
  keyed_by Review.review_id (reviews d) ∧
  unique_on Cafe.name (cafes d) ∧
  unique_on Cafe.map_url (cafes d) ∧
  unique_on User.name (users d) ∧
  unique_on User.email (users d) ∧
  refs_ok Cafe.user_id (cafes d) (users d) ∧
  refs_ok Review.user_id (reviews d) (users d) ∧
  refs_ok Review.cafe_id (reviews d) (cafes d).

#[export] Instance db_wf_dec d : Decision (db_wf d).
Proof. unfold db_wf. apply _. Defined.

(** ** The constraint checks *)

Section checks.
Context {A : Type}.
Implicit Types (k : string → prog database failure A) (d : database).

Lemma bind_not_null_Ok column v k d r :
  pbind (not_null column v) k d = Ok r ↔ ∃ s, v = Some s ∧ k s d = Ok r.
Proof.
  destruct v as [s|]; split; try done.
  - intros Hk. by exists s.
  - by intros (s' & [= <-] & Hk).
  - by intros (s & [=] & _).
Qed.

Lemma bind_not_null_None column k d :
  pbind (not_null column None) k d = Err (Raised (IntegrityError (NotNull column))).
Proof. reflexivity. Qed.

Lemma bind_not_null_Some column s k d :
  pbind (not_null column (Some s)) k d = k s d.
Proof. reflexivity. Qed.

Lemma bind_unique_Ok column b (k' : unit → prog database failure A) d r :
  pbind (unique column b) k' d = Ok r ↔ b = false ∧ k' tt d = Ok r.
Proof.
  destruct b; split; try done.
  - by intros [[=] _].
  - by intros [_ Hk].
Qed.

Lemma bind_unique_taken column (k' : unit → prog database failure A) d :
  pbind (unique column true) k' d = Err (Raised (IntegrityError (Unique column))).
Proof. reflexivity. Qed.

Lemma bind_unique_free column (k' : unit → prog database failure A) d :
  pbind (unique column false) k' d = k' tt d.
Proof. reflexivity. Qed.

End checks.

#[export] Hint Rewrite @bind_not_null_None @bind_not_null_Some
  @bind_unique_taken @bind_unique_free : prog_rw.

(** ** What an insert does *)

(** Reads a successful commit backwards: every NOT NULL column was given,
    every UNIQUE probe found nothing. *)
Ltac commit_inv H :=
  repeat first
    [ apply bind_not_null_Ok in H as (? & -> & H)
    | rewrite pbind_pget in H
    | apply bind_unique_Ok in H as (? & H)
    | rewrite pbind_pput in H
    | apply pret_Ok in H as [-> ->] ].

(** Runs a commit whose arguments are known. *)
Ltac commit_run :=
  unfold not_null, unique; prog_unfold; simpl;
  repeat match goal with H : taken _ _ _ = _ |- _ => rewrite H; clear H end;
  simpl.

Section inserts.
Implicit Types (d : database).

Lemma insert_user_Ok name email password d u d' :
  insert_user name email password d = Ok (u, d') ↔
  ∃ n e p, name = Some n ∧ email = Some e ∧ password = Some p ∧
    taken User.name n (users d) = false ∧
    taken User.email e (users d) = false ∧
    u = User.mk (next_key (users d)) n e p ∧
    d' = set_users <[next_key (users d) := u]> d.
Proof.
  unfold insert_user. split.
  - intros Hrun. commit_inv Hrun. eauto 10.
  - intros (n & e & p & -> & -> & -> & Hn & He & -> & ->). by commit_run.
Qed.

Lemma insert_cafe_Ok name map_url user img_url location has_sockets has_toilet
    has_wifi can_take_calls seats coffee_price d c d' :
  insert_cafe name map_url user img_url location has_sockets has_toilet
    has_wifi can_take_calls seats coffee_price d = Ok (c, d') ↔
  ∃ n m i l hs ht hw cc s p,
    name = Some n ∧ map_url = Some m ∧ img_url = Some i ∧ location = Some l ∧
    has_sockets = Some hs ∧ has_toilet = Some ht ∧ has_wifi = Some hw ∧
    can_take_calls = Some cc ∧ seats = Some s ∧ coffee_price = Some p ∧
    taken Cafe.name n (cafes d) = false ∧
    taken Cafe.map_url m (cafes d) = false ∧
    c = Cafe.mk (next_key (cafes d)) n m i l user hs ht hw cc s p ∧
    d' = set_cafes <[next_key (cafes d) := c]> d.
Proof.
  unfold insert_cafe. split.
  - intros Hrun. commit_inv Hrun. eauto 30.
  - intros (n&m&i&l&hs&ht&hw&cc&s&p&->&->&->&->&->&->&->&->&->&->&Hn&Hm&->&->).
    by commit_run.
Qed.

Lemma insert_review_Ok review_content user cafe d r d' :
  insert_review review_content user cafe d = Ok (r, d') ↔
  ∃ t, review_content = Some t ∧
    r = Review.mk (next_key (reviews d)) t user cafe ∧
    d' = set_reviews <[next_key (reviews d) := r]> d.
Proof.
  unfold insert_review. split.
  - intros Hrun. commit_inv Hrun. eauto.
  - intros (t & -> & -> & ->). by commit_run.
Qed.

(** The failures of an insert, in the order SQLite finds them. *)

Lemma insert_user_null_name email password d :
  insert_user None email password d =
  Err (Raised (IntegrityError (NotNull "user.name"))).
Proof. reflexivity. Qed.

Lemma insert_user_null_email n password d :
  insert_user (Some n) None password d =
  Err (Raised (IntegrityError (NotNull "user.email"))).
Proof. reflexivity. Qed.

Lemma insert_user_null_password n m d :
  insert_user (Some n) (Some m) None d =
  Err (Raised (IntegrityError (NotNull "user.password"))).
Proof. reflexivity. Qed.

Lemma insert_user_name_taken n m p d :
  taken User.name n (users d) = true →
  insert_user (Some n) (Some m) (Some p) d =
  Err (Raised (IntegrityError (Unique "user.name"))).
Proof. intros Hn. unfold insert_user. by commit_run. Qed.

Lemma insert_user_email_taken n m p d :
  taken User.name n (users d) = false →
  taken User.email m (users d) = true →
  insert_user (Some n) (Some m) (Some p) d =
  Err (Raised (IntegrityError (Unique "user.email"))).
Proof. intros Hn Hm. unfold insert_user. by commit_run. Qed.

Lemma insert_cafe_name_taken n m user i l hs ht hw cc s p d :
  taken Cafe.name n (cafes d) = true →
  insert_cafe (Some n) (Some m) user (Some i) (Some l) (Some hs) (Some ht)
    (Some hw) (Some cc) (Some s) (Some p) d =
  Err (Raised (IntegrityError (Unique "cafe.name"))).
Proof. intros Hn. unfold insert_cafe. by commit_run. Qed.

Lemma insert_cafe_map_url_taken n m user i l hs ht hw cc s p d :
  taken Cafe.name n (cafes d) = false →
  taken Cafe.map_url m (cafes d) = true →
  insert_cafe (Some n) (Some m) user (Some i) (Some l) (Some hs) (Some ht)
    (Some hw) (Some cc) (Some s) (Some p) d =
  Err (Raised (IntegrityError (Unique "cafe.map_url"))).
Proof. intros Hn Hm. unfold insert_cafe. by commit_run. Qed.

Lemma insert_review_null_content user cafe d :
  insert_review None user cafe d =
  Err (Raised (IntegrityError (NotNull "review.review_content"))).
Proof. reflexivity. Qed.

(** How a registration can fail in the store.  The commit of a new
    user fails in no other way than with the IntegrityError of a violated
    NOT NULL or UNIQUE constraint. *)
Lemma insert_user_Err name email password d e :
  insert_user name email password d = Err e →
  ∃ v, e = Raised (IntegrityError v).
Proof.
  unfold insert_user.
  destruct name as [n|], email as [m|], password as [p|]; commit_run;
    try (intros [= <-]; eauto).
  destruct (taken User.name n (users d)), (taken User.email m (users d));
    simpl; intros [= <-]; eauto.
Qed.

End inserts.

(** ** The invariant is preserved *)

(** Splits the invariant of the new database into its ten parts and
    closes those that follow from the table lemmas. *)
Ltac wf_solve :=
  unfold db_wf in *; destruct_and?; simpl; split_and!;
  first [ by auto with cafe
        | by apply unique_on_insert; simpl; auto with cafe
        | idtac ].

Section invariant.
Implicit Types (d : database).

Lemma create_all_wf : db_wf create_all.
Proof. unfold create_all. wf_solve. Qed.

Lemma insert_user_wf name email password d u d' :
  db_wf d → insert_user name email password d = Ok (u, d') → db_wf d'.
Proof.
  intros Hwf (n & e & p & -> & -> & -> & Hn & He & -> & ->)%insert_user_Ok.
  wf_solve.
Qed.

(** The owner given to a new cafe must be NULL or a user. *)
Lemma insert_cafe_wf name map_url user img_url location has_sockets has_toilet
    has_wifi can_take_calls seats coffee_price d c d' :
  db_wf d →
  from_option (λ u, is_Some (users d !! u)) True user →
  insert_cafe name map_url user img_url location has_sockets has_toilet
    has_wifi can_take_calls seats coffee_price d = Ok (c, d') →
  db_wf d'.
Proof.
  intros Hwf Huser Hrun. apply insert_cafe_Ok in Hrun
    as (n&m&i&l&hs&ht&hw&cc&s&p&->&->&->&->&->&->&->&->&->&->&Hn&Hm&->&->).
  wf_solve.
Qed.

Lemma insert_review_wf review_content user cafe d r d' :
  db_wf d →
  from_option (λ u, is_Some (users d !! u)) True user →
  from_option (λ c, is_Some (cafes d !! c)) True cafe →
  insert_review review_content user cafe d = Ok (r, d') →
  db_wf d'.
Proof.
  intros Hwf Huser Hcafe (t & -> & -> & ->)%insert_review_Ok.
  wf_solve.
Qed.

Lemma detach_cafe_id c r :
  Review.cafe_id (Review.detach c r) =
  if decide (Review.cafe_id r = Some c) then None else Review.cafe_id r.
Proof. unfold Review.detach. by case_decide. Qed.

Lemma detach_user_id c r : Review.user_id (Review.detach c r) = Review.user_id r.
Proof. unfold Review.detach. by case_decide. Qed.

Lemma detach_review_id c r : Review.review_id (Review.detach c r) = Review.review_id r.
Proof. unfold Review.detach. by case_decide. Qed.

Lemma refs_ok_fmap_same {A B} (f : A → option nat) (g : A → A)
    (m : gmap nat A) (t : gmap nat B) :
  (∀ x, f (g x) = f x) → refs_ok f m t → refs_ok f (g <$> m) t.
Proof.
  intros Hg Hr k y. rewrite lookup_fmap_Some. intros (x & <- & Hk).
  rewrite Hg. exact (Hr k x Hk).
Qed.

Lemma delete_cafe_wf c d d' :
  db_wf d → delete_cafe c d = Ok (tt, d') → db_wf d'.
Proof.
  intros Hwf [= <-]. wf_solve.
  - apply keyed_by_fmap; [apply detach_review_id|done].
  - apply refs_ok_fmap_same; [apply detach_user_id|done].
  - apply refs_ok_target_delete; [apply detach_cafe_id|done].
Qed.

End invariant.

(** ** Queries *)

Section get.
Context `{IdCodec} {A : Type}.
Implicit Types (t : gmap nat A) (ident : string) (row : A).

Lemma get_or_404_Ok t ident row :
  get_or_404 t ident = Ok row ↔ ∃ k, id_of_text ident = Some k ∧ t !! k = Some row.
Proof.
  unfold get_or_404. destruct (id_of_text ident) as [k|]; simpl.
  - destruct (t !! k) as [row'|] eqn:Hk; naive_solver.
  - naive_solver.
Qed.

(** The only failure of a lookup by key is the 404. *)
Lemma get_or_404_Err t ident e : get_or_404 t ident = Err e → e = Abort 404.
Proof. unfold get_or_404. case_match; by intros [= <-]. Qed.

Lemma get_or_404_missing t ident :
  (∀ k, id_of_text ident = Some k → t !! k = None) →
  get_or_404 t ident = Err (Abort 404).
Proof.
  intros Hmiss. unfold get_or_404.
  destruct (id_of_text ident) as [k|]; simpl; [|done]. by rewrite Hmiss.
Qed.

(** Looking a row up by the text of its key finds it. *)
Lemma get_or_404_str t k row : t !! k = Some row → get_or_404 t (id_str k) = Ok row.
Proof. intros Hk. apply get_or_404_Ok. exists k. by rewrite id_of_text_str. Qed.

Lemma get_or_404_str_Ok t k row : get_or_404 t (id_str k) = Ok row ↔ t !! k = Some row.
Proof.
  rewrite get_or_404_Ok. setoid_rewrite id_of_text_str. naive_solver.
Qed.

(** The default of a missing [id] argument names no row. *)
Lemma get_or_404_blank t : get_or_404 t " " = Err (Abort 404).
Proof. apply get_or_404_missing. intros k. by rewrite id_of_text_blank. Qed.

End get.

Section listing.
Implicit Types (d : database) (c : Cafe.t).

Global Instance name_le_trans : Transitive name_le.
Proof. intros c1 c2 c3. unfold name_le. apply transitivity. Qed.

Global Instance name_le_total : Total name_le.
Proof. intros c1 c2. unfold name_le. apply total, _. Qed.

Lemma name_le_antisym c1 c2 : name_le c1 c2 → name_le c2 c1 → Cafe.name c1 = Cafe.name c2.
Proof. unfold name_le. apply anti_symm, _. Qed.

Lemma select_cafes_by_name_perm d : select_cafes_by_name d ≡ₚ (rows (cafes d)).*2.
Proof. apply merge_sort_Permutation. Qed.

Lemma elem_of_select_cafes_by_name d c :
  c ∈ select_cafes_by_name d ↔ ∃ k, cafes d !! k = Some c.
Proof. rewrite select_cafes_by_name_perm. apply elem_of_rows_snd. Qed.

Lemma select_cafes_by_name_sorted d : StronglySorted name_le (select_cafes_by_name d).
Proof. apply StronglySorted_merge_sort; apply _. Qed.

Lemma length_select_cafes_by_name d : length (select_cafes_by_name d) = size (cafes d).
Proof. by rewrite select_cafes_by_name_perm, length_fmap, length_rows. Qed.

(** The order of the listing is determined.  With the names unique,
    as the UNIQUE column keeps them, the listing does not depend on how
    the store sorts: every arrangement of the table's rows that is sorted
    by name is the list the query returns. *)
Lemma select_cafes_by_name_unique d l :
  unique_on Cafe.name (cafes d) →
  Sorted name_le l → l ≡ₚ (rows (cafes d)).*2 → l = select_cafes_by_name d.
Proof.
  intros Hu Hsorted Hperm.
  apply (Sorted_unique_strong name_le); [|done| |].
  - intros c1 c2 Hc1 Hc2 Hle1 Hle2.
    rewrite Hperm in Hc1. apply elem_of_rows_snd in Hc1 as [k1 Hk1].
    apply elem_of_select_cafes_by_name in Hc2 as [k2 Hk2].
    eapply (unique_on_row Cafe.name); eauto using name_le_antisym.
  - apply StronglySorted_Sorted, select_cafes_by_name_sorted.
  - by rewrite select_cafes_by_name_perm.
Qed.

End listing.

Section by_email.
Implicit Types (d : database) (u : User.t) (e : string).

Lemma select_user_by_email_null d : select_user_by_email d None = None.
Proof. reflexivity. Qed.

(** The row found is a row of the table with the email asked for. *)
Lemma select_user_by_email_found d e u :
  select_user_by_email d (Some e) = Some u →
  ∃ k, users d !! k = Some u ∧ User.email u = e.
Proof.
  intros Hhead%head_Some_elem_of. apply list_elem_of_filter in Hhead as [He Hin].
  apply elem_of_rows_snd in Hin as [k Hk]. eauto.
Qed.

Lemma select_user_by_email_key d oe u :
  keyed_by User.id (users d) → select_user_by_email d oe = Some u →
  users d !! User.id u = Some u.
Proof.
  intros Hkey Hq. destruct oe as [e|]; [|done].
  apply select_user_by_email_found in Hq as (k & Hk & _).
  by rewrite (Hkey _ _ Hk).
Qed.

(** Nothing is found exactly when the UNIQUE probe for the email is
    negative. *)
Lemma select_user_by_email_None d e :
  select_user_by_email d (Some e) = None ↔ taken User.email e (users d) = false.
Proof.
  simpl. rewrite head_None, taken_false. split.
  - intros Hnil k u Hk He. eapply (filter_nil_not_elem_of _ _ u Hnil He).
    apply elem_of_rows_snd. eauto.
  - intros Hfree. destruct (filter _ _) as [|u l] eqn:Hf; [done|].
    assert (u ∈ filter (λ u, User.email u = e) (rows (users d)).*2) as Hin
      by (rewrite Hf; left).
    apply list_elem_of_filter in Hin as [He [k Hk]%elem_of_rows_snd].
    by destruct (Hfree k u Hk).
Qed.

(** With unique emails the query finds a user exactly when the table has
    one with that email, and then it is that one. *)
Lemma select_user_by_email_Some d e u :
  unique_on User.email (users d) →
  select_user_by_email d (Some e) = Some u ↔
  ∃ k, users d !! k = Some u ∧ User.email u = e.
Proof.
  intros Hu. split; [apply select_user_by_email_found|].
  intros (k & Hk & He).
  destruct (select_user_by_email d (Some e)) as [u'|] eqn:Hq.
  - apply select_user_by_email_found in Hq as (k' & Hk' & He').
    f_equal. eapply (unique_on_row User.email); eauto. congruence.
  - apply select_user_by_email_None in Hq. rewrite taken_false in Hq.
    by destruct (Hq k u Hk).
Qed.

End by_email.

(** ** What delete does *)

Section delete.
Implicit Types (d : database) (c : Cafe.t).

Lemma delete_cafe_Ok c d :
  delete_cafe c d =
  Ok (tt, Database (delete (Cafe.id c) (cafes d)) (users d)
            (Review.detach (Cafe.id c) <$> reviews d)).
Proof. reflexivity. Qed.

Lemma delete_cafe_cafes c d d' k :
  delete_cafe c d = Ok (tt, d') →
  cafes d' !! k = if decide (k = Cafe.id c) then None else cafes d !! k.
Proof.
  intros [= <-]. simpl. case_decide as Hk.
  - subst. apply lookup_delete_eq.
  - by apply lookup_delete_ne.
Qed.

Lemma delete_cafe_reviews c d d' k :
  delete_cafe c d = Ok (tt, d') →
  reviews d' !! k = Review.detach (Cafe.id c) <$> reviews d !! k.
Proof. intros [= <-]. simpl. apply lookup_fmap. Qed.

Lemma delete_cafe_users c d d' : delete_cafe c d = Ok (tt, d') → users d' = users d.
Proof. by intros [= <-]. Qed.

(** After the delete no review points to the deleted cafe. *)
Lemma delete_cafe_no_review c d d' k r :
  delete_cafe c d = Ok (tt, d') →
  reviews d' !! k = Some r → Review.cafe_id r ≠ Some (Cafe.id c).
Proof.
  intros Hdel Hk. rewrite (delete_cafe_reviews _ _ _ _ Hdel) in Hk.
  apply fmap_Some in Hk as (r0 & _ & ->). rewrite detach_cafe_id.
  case_decide; congruence.
Qed.

(** The deleted cafe's reviews stay in the table, with all their other
    columns. *)
Lemma delete_cafe_keeps_reviews c d d' :
  delete_cafe c d = Ok (tt, d') → dom (reviews d') = dom (reviews d).
Proof. intros [= <-]. simpl. apply dom_fmap_L. Qed.

End delete.

(** ** The relationship cafe_review *)

Section relationship.
Implicit Types (d : database) (c : Cafe.t) (r : Review.t).

Lemma elem_of_cafe_review d c r :
  r ∈ cafe_review d c ↔
  Review.cafe_id r = Some (Cafe.id c) ∧ ∃ k, reviews d !! k = Some r.
Proof. unfold cafe_review. by rewrite list_elem_of_filter, elem_of_rows_snd. Qed.

Lemma cafe_review_nil d c :
  cafe_review d c = [] ↔
  ∀ k r, reviews d !! k = Some r → Review.cafe_id r ≠ Some (Cafe.id c).
Proof.
  split.
  - intros Hnil k r Hk Hc.
    assert (r ∈ cafe_review d c) as Hin by (apply elem_of_cafe_review; eauto).
    rewrite Hnil in Hin. by apply not_elem_of_nil in Hin.
  - intros Hno. destruct (cafe_review d c) as [|r l] eqn:Hl; [done|].
    assert (r ∈ cafe_review d c) as Hin by (rewrite Hl; left).
    apply elem_of_cafe_review in Hin as [Hc [k Hk]]. by destruct (Hno k r Hk).
Qed.

(** A new cafe starts without reviews.  A cafe that was just
    inserted has no review, even when SQLite gave it the key of a cafe
    deleted before: the foreign keys are sound, so no review points to a
    key that was free. *)
Lemma insert_cafe_no_review name map_url user img_url location has_sockets
    has_toilet has_wifi can_take_calls seats coffee_price d c d' :
  refs_ok Review.cafe_id (reviews d) (cafes d) →
  insert_cafe name map_url user img_url location has_sockets has_toilet
    has_wifi can_take_calls seats coffee_price d = Ok (c, d') →
  cafe_review d' c = [].
Proof.
  intros Hrefs Hrun. apply insert_cafe_Ok in Hrun
    as (n&m&i&l&hs&ht&hw&cc&s&p&->&->&->&->&->&->&->&->&->&->&Hn&Hm&->&->).
  apply cafe_review_nil. simpl. intros k r Hk Hc.
  destruct (refs_ok_lookup _ _ _ _ _ _ Hrefs Hk Hc) as [c' Hc'].
  by rewrite next_key_fresh in Hc'.
Qed.

End relationship.

(** The operations are used through their lemmas: [simpl] leaves them
    folded. *)
#[global] Arguments insert_user : simpl never.
#[global] Arguments insert_cafe : simpl never.
#[global] Arguments insert_review : simpl never.
#[global] Arguments delete_cafe : simpl never.
#[global] Arguments get_or_404 : simpl never.
#[global] Arguments select_cafes_by_name : simpl never.
#[global] Arguments select_user_by_email : simpl never.
#[global] Arguments cafe_review : simpl never.

(** ** Specifications of the commits

    What each commit ends in, as a [wp] triple: the row stored and the
    new database, or the constraint that was violated and why. *)

(** Why a commit failed: the NOT NULL column [column] was given no
    value, or the UNIQUE column [column] was given a value that is
    taken. *)
Definition violates (columns : list (string * option string))
    (is_taken : string → string → bool) (v : violation) : Prop :=
  match v with
  | NotNull column => (column, None) ∈ columns
  | Unique column => ∃ s, (column, Some s) ∈ columns ∧ is_taken column s = true
  end.

Definition user_taken (d : database) (column s : string) : bool :=
  if decide (column = "user.name") then taken User.name s (users d)
  else if decide (column = "user.email") then taken User.email s (users d)
  else false.

Definition cafe_taken (d : database) (column s : string) : bool :=
  if decide (column = "cafe.name") then taken Cafe.name s (cafes d)
  else if decide (column = "cafe.map_url") then taken Cafe.map_url s (cafes d)
  else false.

(** The columns that cannot be at fault, being filled and not unique,
    may be dropped from a violation. *)
Lemma violates_app_l columns rest is_taken v :
  Forall (λ cv, is_Some cv.2 ∧ ∀ s, is_taken cv.1 s = false) rest →
  violates (columns ++ rest) is_taken v → violates columns is_taken v.
Proof.
  rewrite Forall_forall. intros Hrest. destruct v as [column|column]; simpl.
  - intros [Hin|Hin]%elem_of_app; [done|]. by apply Hrest in Hin as [[? [=]] _].
  - intros (s & [Hin|Hin]%elem_of_app & Ht); [by eauto|].
    apply Hrest in Hin as [_ Hfree]. simpl in Hfree. congruence.
Qed.

Section specifications.
Implicit Types (d : database) (f : failure).

Lemma wp_not_null column v (Q : string → database → Prop) (F : failure → Prop) d :
  (∀ s, v = Some s → Q s d) →
  (v = None → F (Raised (IntegrityError (NotNull column)))) →
  wp (not_null column v) Q F d.
Proof. destruct v as [s|]; simpl; intros HQ HF; [by apply HQ|by apply HF]. Qed.

Lemma wp_unique column b (Q : unit → database → Prop) (F : failure → Prop) d :
  (b = false → Q tt d) →
  (b = true → F (Raised (IntegrityError (Unique column)))) →
  wp (unique column b) Q F d.
Proof. destruct b; simpl; intros HQ HF; [by apply HF|by apply HQ]. Qed.

End specifications.

(** Runs a commit under [wp]: each NOT NULL and UNIQUE check leaves its
    failure to be classified. *)
Ltac wp_commit :=
  repeat first
    [ wp_step
    | apply wp_not_null; [intros ? ->|intros ->]
    | apply wp_unique; intros ? ].

Section commits.
Implicit Types (d : database) (f : failure).

Lemma wp_insert_user_fails name email password d :
  wp (insert_user name email password) (λ _ _, True)
    (λ f, ∃ v, f = Raised (IntegrityError v) ∧
       violates [("user.name", name); ("user.email", email);
                 ("user.password", password)] (user_taken d) v) d.
Proof.
  unfold insert_user. wp_commit; try done; eexists; (split; [done|]); simpl;
    set_solver.
Qed.

Lemma wp_insert_user name email password d :
  wp (insert_user name email password)
    (λ u d', insert_user name email password d = Ok (u, d'))
    (λ f, ∃ v, f = Raised (IntegrityError v) ∧
       violates [("user.name", name); ("user.email", email);
                 ("user.password", password)] (user_taken d) v) d.
Proof.
  eapply wp_mono; [apply wp_strengthen, wp_insert_user_fails|..]; simpl; tauto.
Qed.

Lemma wp_insert_cafe_fails name map_url user img_url location has_sockets has_toilet
    has_wifi can_take_calls seats coffee_price d :
  wp (insert_cafe name map_url user img_url location has_sockets has_toilet
        has_wifi can_take_calls seats coffee_price) (λ _ _, True)
    (λ f, ∃ v, f = Raised (IntegrityError v) ∧
       violates [("cafe.name", name); ("cafe.map_url", map_url);
                 ("cafe.img_url", img_url); ("cafe.location", location);
                 ("cafe.has_sockets", has_sockets); ("cafe.has_toilet", has_toilet);
                 ("cafe.has_wifi", has_wifi); ("cafe.can_take_calls", can_take_calls);
                 ("cafe.seats", seats); ("cafe.coffee_price", coffee_price)]
         (cafe_taken d) v) d.
Proof.
  unfold insert_cafe. wp_commit; try done; eexists; (split; [done|]); simpl;
    set_solver.
Qed.

Lemma wp_insert_cafe name map_url user img_url location has_sockets has_toilet
    has_wifi can_take_calls seats coffee_price d :
  wp (insert_cafe name map_url user img_url location has_sockets has_toilet
        has_wifi can_take_calls seats coffee_price)
    (λ c d', insert_cafe name map_url user img_url location has_sockets has_toilet
               has_wifi can_take_calls seats coffee_price d = Ok (c, d'))
    (λ f, ∃ v, f = Raised (IntegrityError v) ∧
       violates [("cafe.name", name); ("cafe.map_url", map_url);
                 ("cafe.img_url", img_url); ("cafe.location", location);
                 ("cafe.has_sockets", has_sockets); ("cafe.has_toilet", has_toilet);
                 ("cafe.has_wifi", has_wifi); ("cafe.can_take_calls", can_take_calls);
                 ("cafe.seats", seats); ("cafe.coffee_price", coffee_price)]
         (cafe_taken d) v) d.
Proof.
  eapply wp_mono; [apply wp_strengthen, wp_insert_cafe_fails|..]; simpl; tauto.
Qed.

Lemma wp_insert_review review_content user cafe d :
  wp (insert_review review_content user cafe)
    (λ r d', insert_review review_content user cafe d = Ok (r, d'))
    (λ f, f = Raised (IntegrityError (NotNull "review.review_content")) ∧
          review_content = None) d.
Proof.
  destruct review_content as [t|]; [|done].
  eapply wp_mono; [apply wp_run|done|]. by intros f.
Qed.

Lemma wp_delete_cafe c d (F : failure → Prop) :
  wp (delete_cafe c)
    (λ _ d', d' = Database (delete (Cafe.id c) (cafes d)) (users d)
                    (Review.detach (Cafe.id c) <$> reviews d)) F d.
Proof. done. Qed.

End commits.

(** ** The store as the view functions use it *)

Section store.
Context `{IdCodec}.
Implicit Types (d : database).

(** C33: the listing query.  The cafes returned for the listing are
    sorted by name and are exactly the rows of the cafe table, each
    once. *)
Theorem listing_sorted_complete d :
  StronglySorted name_le (select_cafes_by_name d) ∧
  (∀ c, c ∈ select_cafes_by_name d ↔ ∃ k, cafes d !! k = Some c) ∧
  length (select_cafes_by_name d) = size (cafes d).
Proof.
  split_and!; [apply select_cafes_by_name_sorted| |apply length_select_cafes_by_name].
  intros c. apply elem_of_select_cafes_by_name.
Qed.

(** C32: a stored user is found again.  After a successful insert the new
    user is the row that the user loader finds under the text of its id
    and the row that the login query finds under its email; the users
    stored before are unchanged and the database is still well formed. *)
Theorem insert_user_roundtrip name email password d u d' :
  db_wf d → insert_user name email password d = Ok (u, d') →
  get_or_404 (users d') (id_str (User.id u)) = Ok u ∧
  select_user_by_email d' (Some (User.email u)) = Some u ∧
  users d ⊆ users d' ∧ db_wf d'.
Proof.
  intros Hwf Hrun. pose proof (insert_user_wf _ _ _ _ _ _ Hwf Hrun) as Hwf'.
  apply insert_user_Ok in Hrun as (n & e & p & _ & _ & _ & Hn & He & -> & ->).
  assert (users (set_users <[next_key (users d) := User.mk (next_key (users d)) n e p]> d)
            !! next_key (users d) = Some (User.mk (next_key (users d)) n e p)) as Hk
    by apply lookup_insert_eq.
  split_and!; [by apply get_or_404_str| | |done].
  - apply select_user_by_email_Some; [apply Hwf'|]. eauto.
  - apply insert_subseteq, next_key_fresh.
Qed.

(** C31: deleting a cafe detaches its reviews.  The delete removes the
    cafe's row and sets the cafe_id of every review to NULL where it was
    the deleted cafe's key, changing no other column and no other
    review; the users are untouched and the database stays well formed. *)
Theorem delete_cafe_detaches c d d' :
  delete_cafe c d = Ok (tt, d') →
  cafes d' = delete (Cafe.id c) (cafes d) ∧
  users d' = users d ∧
  reviews d' = Review.detach (Cafe.id c) <$> reviews d ∧
  cafe_review d' c = [] ∧
  (db_wf d → db_wf d').
Proof.
  intros Hdel. split_and!; try by injection Hdel as <-.
  - apply cafe_review_nil. intros k r. by apply (delete_cafe_no_review c d).
  - intros Hwf. by eapply delete_cafe_wf.
Qed.

(** Lookup by key.  get_or_404 on the text of a key returns the row
    under that key, and answers 404 when there is none; the text of a
    single space, the default of a missing id argument, names no row. *)
Theorem get_or_404_spec {A} (t : gmap nat A) k :
  get_or_404 t (id_str k) = from_option Ok (Err (Abort 404)) (t !! k) ∧
  get_or_404 t " " = Err (Abort 404).
Proof.
  split; [|apply get_or_404_blank]. destruct (t !! k) as [row|] eqn:Hk; simpl.
  - by apply get_or_404_str.
  - apply get_or_404_missing. intros k'. rewrite id_of_text_str. by intros [= <-].
Qed.

End store.

(** ** A sample database

    One user, her cafe and her review of it; the theorems above on it. *)

Definition sample_user : User.t := User.mk 1 "alice" "alice@example.com" "hash".

Definition sample_cafe : Cafe.t :=
  Cafe.mk 1 "Cafe A" "https://maps.example/a" "https://img.example/a.png" "Tunis"
    (Some 1) "yes" "yes" "no" "no" "12" "3".

Definition sample_review : Review.t := Review.mk 1 "nice" (Some 1) (Some 1).

Definition sample_db : database :=
  Database {[1 := sample_cafe]} {[1 := sample_user]} {[1 := sample_review]}.

(** The sample database after its cafe was deleted. *)
Definition sample_db_deleted : database :=
  Database ∅ {[1 := sample_user]} {[1 := Review.mk 1 "nice" (Some 1) None]}.

Lemma select_cafes_by_name_unique_witness :
  [sample_cafe] = select_cafes_by_name sample_db.
Proof.
  apply select_cafes_by_name_unique;
    [by_compute|repeat constructor|vm_compute; reflexivity].
Defined.

Lemma insert_cafe_no_review_witness :
  cafe_review (set_cafes <[1 := sample_cafe]> sample_db_deleted) sample_cafe = [].
Proof.
  apply (insert_cafe_no_review (Some "Cafe A") (Some "https://maps.example/a") (Some 1)
           (Some "https://img.example/a.png") (Some "Tunis") (Some "yes") (Some "yes")
           (Some "no") (Some "no") (Some "12") (Some "3") sample_db_deleted);
    [by_compute|vm_compute; reflexivity].
Defined.

Lemma insert_user_Err_witness :
  ∃ v, Raised (IntegrityError (Unique "user.email")) = Raised (IntegrityError v).
Proof.
  apply (insert_user_Err (Some "bob") (Some "alice@example.com") (Some "pw") sample_db).
  vm_compute; reflexivity.
Defined.

Lemma insert_user_roundtrip_witness :
  let bob := User.mk 2 "bob" "bob@example.com" "pw" in
  let d' := set_users <[2 := bob]> sample_db in
  get_or_404 (users d') (id_str (User.id bob)) = Ok bob ∧
  select_user_by_email d' (Some (User.email bob)) = Some bob ∧
  users sample_db ⊆ users d' ∧ db_wf d'.
Proof.
  apply (insert_user_roundtrip (Some "bob") (Some "bob@example.com") (Some "pw") sample_db);
    [by_compute|vm_compute; reflexivity].
Defined.

Lemma delete_cafe_detaches_witness :
  cafes sample_db_deleted = delete (Cafe.id sample_cafe) (cafes sample_db) ∧
  users sample_db_deleted = users sample_db ∧
  reviews sample_db_deleted = Review.detach (Cafe.id sample_cafe) <$> reviews sample_db ∧
  cafe_review sample_db_deleted sample_cafe = [] ∧
  (db_wf sample_db → db_wf sample_db_deleted).
Proof. apply delete_cafe_detaches. vm_compute; reflexivity. Defined.
