(* ===== verification/Forms.v ===== *)
(** * Forms: the WTForms classes of main.py

    The three form classes (main.py:84-107) and the part of WTForms that
    decides whether a submission validates.  A form instance is a record
    of the data of its fields, filled from the submitted form data; a
    validator maps the data of a field to a verdict; a field's errors are
    computed by the validation chain as WTForms runs it (the choice check
    of a SelectField first, then the validators in order, DataRequired
    stopping the chain and replacing the errors found so far).

    Only AddingForm is ever validated by main.py (add_cafe calls
    validate_on_submit).  Comment and LoginForm are instantiated and handed
    to the templates; their validators are modelled so that the handlers can
    be compared with them. *)

From S2P Require Import Prelude Interfaces.
From Stdlib Require Import Ascii.

(** ** Python's truth and strip on text *)

(** The characters [str.strip()] removes, in the ASCII range. *)
Definition is_py_space (a : ascii) : bool :=
  let n := nat_of_ascii a in
  (9 <=? n) && (n <=? 13) || (28 <=? n) && (n <=? 32).

(** [s.strip()] is empty: every character is white space. *)
Fixpoint blank (s : string) : bool :=
  match s with
  | EmptyString => true
  | String a s' => is_py_space a && blank s'
  end.

(** ** Validators *)

(** What calling a validator does: return, raise ValidationError, or raise
    StopValidation. *)
Inductive verdict :=
| Pass
| Invalid (message : string)
| Stop (message : string).

Definition validator := option string → verdict.

(** wtforms.validators.DataRequired: the data is truthy and, being text,
    not blank. *)
Definition DataRequired : validator := λ data,
  match data with
  | Some s => if blank s then Stop "This field is required." else Pass
  | None => Stop "This field is required."
  end.

(** wtforms.validators.URL(message): the pattern is matched against the
    data, or against the empty text when there is none. *)
Definition URL `{UrlValidator} (message : string) : validator := λ data,
  if url_ok (default "" data) then Pass else Invalid message.

(** SelectField.pre_validate: the data is the value of one of the choices.
    A choice given as a plain text is its own value. *)
Definition valid_choice (choices : list string) : validator := λ data,
  match data with
  | Some s => if bool_decide (s ∈ choices) then Pass else Invalid "Not a valid choice."
  | None => Invalid "Not a valid choice."
  end.

(** Field._run_validation_chain on the errors collected so far: an
    Invalid verdict adds its message and goes on, a Stop verdict ends the
    chain.  DataRequired empties the error list before it stops, and it is
    the only validator of main.py that stops. *)
Fixpoint run_validation_chain (vs : list validator) (data : option string)
    (errors : list string) : list string :=
  match vs with
  | [] => errors
  | v :: vs' =>
      match v data with
      | Pass => run_validation_chain vs' data errors
      | Invalid m => run_validation_chain vs' data (errors ++ [m])
      | Stop m => [m]
      end
  end.

(** Field.validate: pre_validate, then the chain; the field's errors. *)
Definition field_errors (pre : option validator) (vs : list validator)
    (data : option string) : list string :=
  match pre with
  | None => run_validation_chain vs data []
  | Some p =>
      match p data with
      | Pass => run_validation_chain vs data []
      | Invalid m => run_validation_chain vs data [m]
      | Stop m => [m]
      end
  end.

(** The choices of the four amenity fields. *)
Definition yes_no_choices : list string := ["Select yes or no"; "yes"; "no"].

(** ** AddingForm (main.py:84-95) *)

Module AddingForm.
Record t := mk {
  name : option string;
  map_url : option string;
  cafe_image_url : option string;
  cafe_location : option string;
  sockets : option string;
  Toilet : option string;
  wifi : option string;
  Calls : option string;
  seats : option string;
  price : option string;
}.

(** The instance made from the submitted form data: each field takes the
    value sent under its name, or has no data. *)
Definition process (formdata : gmap string string) : t :=
  mk (formdata !! "name") (formdata !! "map_url") (formdata !! "cafe_image_url")
     (formdata !! "cafe_location") (formdata !! "sockets") (formdata !! "Toilet")
     (formdata !! "wifi") (formdata !! "Calls") (formdata !! "seats")
     (formdata !! "price").

(** The errors of each field, in the order of the class body. *)
Definition errors `{UrlValidator} (f : t) : list (string * list string) :=
  [ ("name", field_errors None [DataRequired] (name f));
    ("map_url", field_errors None [DataRequired; URL "Url Invalid"] (map_url f));
    ("cafe_image_url",
       field_errors None [DataRequired; URL "Url Invalid"] (cafe_image_url f));
    ("cafe_location", field_errors None [DataRequired] (cafe_location f));
    ("sockets", field_errors (Some (valid_choice yes_no_choices)) [DataRequired] (sockets f));
    ("Toilet", field_errors (Some (valid_choice yes_no_choices)) [DataRequired] (Toilet f));
    ("wifi", field_errors (Some (valid_choice yes_no_choices)) [DataRequired] (wifi f));
    ("Calls", field_errors (Some (valid_choice yes_no_choices)) [DataRequired] (Calls f));
    ("seats", field_errors None [DataRequired] (seats f));
    ("price", field_errors None [DataRequired] (price f)) ].
End AddingForm.

(** ** Comment (main.py:98-100) and LoginForm (main.py:103-107) *)

Module Comment.
Record t := mk { body : option string }.

Definition process (formdata : gmap string string) : t := mk (formdata !! "body").

Definition errors (f : t) : list (string * list string) :=
  [ ("body", field_errors None [DataRequired] (body f)) ].
End Comment.

Module LoginForm.
Record t := mk {
  name : option string;
  email : option string;
  password : option string;
}.

Definition process (formdata : gmap string string) : t :=
  mk (formdata !! "name") (formdata !! "email") (formdata !! "password").

Definition errors (f : t) : list (string * list string) :=
  [ ("name", field_errors None [DataRequired] (name f));
    ("email", field_errors None [DataRequired] (email f));
    ("password", field_errors None [DataRequired] (password f)) ].
End LoginForm.

(** ** Form.validate and FlaskForm.validate_on_submit *)

(** Form.validate: every field is validated (no field is skipped when an
    earlier one fails) and the form validates when none has an error.  A
    FlaskForm has one more field, the CSRF token; [csrf] is the error of its
    check, if any. *)
Definition validate (csrf : option string) (errors : list (string * list string)) : bool :=
  bool_decide (csrf = None) && forallb (λ fe, bool_decide (fe.2 = [])) errors.

(** FlaskForm.validate_on_submit: the request is a submission (for the
    routes of main.py: a POST) and the form validates. *)
Definition validate_on_submit (is_submitted : bool) (csrf : option string)
    (errors : list (string * list string)) : bool :=
  is_submitted && validate csrf errors.

(** ** What the validators accept *)

(** The data DataRequired accepts: a text that is not blank. *)
Definition filled (data : option string) : Prop :=
  ∃ s, data = Some s ∧ blank s = false.

#[export] Instance filled_dec data : Decision (filled data).
Proof.
  refine (match data with
          | Some s => cast_if (decide (blank s = false))
          | None => right _
          end); unfold filled; naive_solver.
Defined.

Section validators.
Context `{UrlValidator}.
Implicit Types (data : option string) (s : string).

Lemma blank_empty : blank "" = true.
Proof. reflexivity. Qed.

Lemma blank_app s1 s2 : blank (s1 +:+ s2) = blank s1 && blank s2.
Proof.
  induction s1 as [|a s1 IH]; [done|].
  change (String a s1 +:+ s2) with (String a (s1 +:+ s2)).
  simpl. rewrite IH. by rewrite andb_assoc.
Qed.

Lemma DataRequired_Pass data : DataRequired data = Pass ↔ filled data.
Proof.
  unfold DataRequired, filled.
  destruct data as [s|]; [destruct (blank s) eqn:Hs|]; split; try done.
  - intros (s' & [= <-] & Hs'). congruence.
  - eauto.
  - by intros (s' & [=] & _).
Qed.

Lemma DataRequired_not_Pass data :
  ¬ filled data → DataRequired data = Stop "This field is required.".
Proof.
  unfold DataRequired, filled. destruct data as [s|]; [|done].
  destruct (blank s) eqn:Hs; [done|]. intros []. eauto.
Qed.

(** A field whose only validator is DataRequired. *)
Lemma required_field_errors data :
  field_errors None [DataRequired] data =
  if decide (filled data) then [] else ["This field is required."].
Proof.
  simpl. case_decide as Hf.
  - apply DataRequired_Pass in Hf. by rewrite Hf.
  - by rewrite DataRequired_not_Pass.
Qed.

(** A URL field: required first, then the pattern. *)
Lemma url_field_errors message data :
  field_errors None [DataRequired; URL message] data =
  if decide (filled data)
  then if url_ok (default "" data) then [] else [message]
  else ["This field is required."].
Proof.
  simpl. case_decide as Hf.
  - apply DataRequired_Pass in Hf. rewrite Hf. unfold URL.
    by destruct (url_ok (default "" data)).
  - by rewrite DataRequired_not_Pass.
Qed.

(** A select field: the choice check adds its message, DataRequired
    replaces it when the data is missing or blank. *)
Lemma select_field_errors choices data :
  field_errors (Some (valid_choice choices)) [DataRequired] data =
  if decide (filled data)
  then if bool_decide (default "" data ∈ choices) then [] else ["Not a valid choice."]
  else ["This field is required."].
Proof.
  unfold field_errors. case_decide as Hf.
  - destruct Hf as (s & -> & Hs). simpl. rewrite Hs.
    by destruct (bool_decide (s ∈ choices)).
  - rewrite <-DataRequired_Pass in Hf. simpl.
    destruct data as [s|]; simpl in *; [|done].
    destruct (blank s); [|done]. by destruct (bool_decide (s ∈ choices)).
Qed.

(** No field of main.py collects more than one message. *)
Lemma required_field_errors_length data :
  length (field_errors None [DataRequired] data) ≤ 1.
Proof. rewrite required_field_errors. case_decide; simpl; lia. Qed.

Lemma url_field_errors_length message data :
  length (field_errors None [DataRequired; URL message] data) ≤ 1.
Proof. rewrite url_field_errors. repeat case_match; simpl; lia. Qed.

Lemma select_field_errors_length choices data :
  length (field_errors (Some (valid_choice choices)) [DataRequired] data) ≤ 1.
Proof. rewrite select_field_errors. repeat case_match; simpl; lia. Qed.

End validators.

(** ** When a form validates *)

(** The data a URL field accepts. *)
Definition url_filled `{UrlValidator} (data : option string) : Prop :=
  filled data ∧ url_ok (default "" data) = true.

(** The data an amenity field accepts: the value of one of its three
    choices, the placeholder included. *)
Definition chosen (data : option string) : Prop :=
  ∃ s, data = Some s ∧ s ∈ yes_no_choices.

(** What add_cafe requires of a submission. *)
Definition AddingForm_ok `{UrlValidator} (f : AddingForm.t) : Prop :=
  filled (AddingForm.name f) ∧
  url_filled (AddingForm.map_url f) ∧
  url_filled (AddingForm.cafe_image_url f) ∧
  filled (AddingForm.cafe_location f) ∧
  chosen (AddingForm.sockets f) ∧
  chosen (AddingForm.Toilet f) ∧
  chosen (AddingForm.wifi f) ∧
  chosen (AddingForm.Calls f) ∧
  filled (AddingForm.seats f) ∧
  filled (AddingForm.price f).

#[export] Instance url_filled_dec `{UrlValidator} data : Decision (url_filled data).
Proof. unfold url_filled. apply _. Defined.

#[export] Instance chosen_dec data : Decision (chosen data).
Proof.
  refine (match data with
          | Some s => cast_if (decide (s ∈ yes_no_choices))
          | None => right _
          end); unfold chosen; naive_solver.
Defined.

#[export] Instance AddingForm_ok_dec `{UrlValidator} f : Decision (AddingForm_ok f).
Proof. unfold AddingForm_ok. apply _. Defined.

Section forms.
Context `{UrlValidator}.
Implicit Types (data : option string).

Lemma required_field_ok data :
  field_errors None [DataRequired] data = [] ↔ filled data.
Proof. rewrite required_field_errors. by case_decide. Qed.

Lemma url_field_ok message data :
  field_errors None [DataRequired; URL message] data = [] ↔ url_filled data.
Proof.
  rewrite url_field_errors. unfold url_filled.
  case_decide; [|naive_solver]. destruct (url_ok _); naive_solver.
Qed.

Lemma chosen_filled data : chosen data → filled data.
Proof.
  intros (s & -> & Hs). exists s. split; [done|].
  unfold yes_no_choices in Hs. set_unfold. by destruct Hs as [->|[->|[->|[]]]].
Qed.

Lemma select_field_ok data :
  field_errors (Some (valid_choice yes_no_choices)) [DataRequired] data = [] ↔
  chosen data.
Proof.
  rewrite select_field_errors. split.
  - case_decide as Hf; [|done]. destruct Hf as (s & -> & _). simpl.
    case_bool_decide; [|done]. intros _. by exists s.
  - intros Hc. rewrite decide_True by by apply chosen_filled.
    destruct Hc as (s & -> & Hs). simpl. by rewrite bool_decide_eq_true_2.
Qed.

(** The form of add_cafe validates exactly when the token check passed
    and every field holds data its validators accept. *)
Lemma validate_AddingForm csrf f :
  validate csrf (AddingForm.errors f) = true ↔ csrf = None ∧ AddingForm_ok f.
Proof.
  unfold validate, AddingForm.errors, AddingForm_ok. cbn [forallb snd].
  rewrite !andb_true_iff, !bool_decide_eq_true.
  rewrite !required_field_ok, !url_field_ok, !select_field_ok. tauto.
Qed.

Lemma validate_on_submit_get csrf errors : validate_on_submit false csrf errors = false.
Proof. reflexivity. Qed.

Lemma validate_on_submit_csrf is_submitted e errors :
  validate_on_submit is_submitted (Some e) errors = false.
Proof. unfold validate_on_submit, validate. simpl. apply andb_false_r. Qed.

(** The comment form accepts exactly a body that is not blank. *)
Lemma validate_Comment csrf f :
  validate csrf (Comment.errors f) = true ↔ csrf = None ∧ filled (Comment.body f).
Proof.
  unfold validate, Comment.errors. cbn [forallb snd].
  rewrite !andb_true_iff, !bool_decide_eq_true, required_field_ok. tauto.
Qed.

Lemma validate_LoginForm csrf f :
  validate csrf (LoginForm.errors f) = true ↔
  csrf = None ∧ filled (LoginForm.name f) ∧ filled (LoginForm.email f) ∧
  filled (LoginForm.password f).
Proof.
  unfold validate, LoginForm.errors. cbn [forallb snd].
  rewrite !andb_true_iff, !bool_decide_eq_true, !required_field_ok. tauto.
Qed.

(** A form that validates has data in every field. *)
Lemma AddingForm_ok_data f :
  AddingForm_ok f →
  ∃ n m i l hs ht hw cc s p,
    f = AddingForm.mk (Some n) (Some m) (Some i) (Some l) (Some hs) (Some ht)
          (Some hw) (Some cc) (Some s) (Some p).
Proof.
  destruct f as [n m i l hs ht hw cc s p]. unfold AddingForm_ok. simpl.
  intros ((?&->&_) & ((?&->&_)&_) & ((?&->&_)&_) & (?&->&_) & (?&->&_) &
          (?&->&_) & (?&->&_) & (?&->&_) & (?&->&_) & (?&->&_)).
  eauto 12.
Qed.

(** What an amenity field accepts.  A select field of AddingForm has
    no error exactly when its data is one of the three choices: the
    placeholder "Select yes or no" is a choice like the other two, so a
    form whose amenities were never selected passes. *)
Theorem amenity_field_accepts data :
  field_errors (Some (valid_choice yes_no_choices)) [DataRequired] data = [] ↔
  data ∈ [Some "Select yes or no"; Some "yes"; Some "no"].
Proof.
  rewrite select_field_ok. unfold chosen, yes_no_choices. split.
  - intros (s & -> & Hs). set_unfold. destruct Hs as [->|[->|[->|[]]]]; auto.
  - intros Hdata. set_unfold.
    destruct Hdata as [->|[->|[->|[]]]]; eexists; (split; [done|]); set_solver.
Qed.

Lemma validate_on_submit_AddingForm is_submitted csrf f :
  validate_on_submit is_submitted csrf (AddingForm.errors f) = true ↔
  is_submitted = true ∧ csrf = None ∧ AddingForm_ok f.
Proof.
  unfold validate_on_submit. rewrite andb_true_iff, validate_AddingForm. tauto.
Qed.

(** C34: when add_cafe commits.  validate_on_submit of AddingForm holds
    exactly for a POST with a valid CSRF token in which the name, the
    location, the seats and the price are filled, both URLs are filled
    and accepted by the URL validator, and each amenity is one of its
    three choices. *)
Theorem add_cafe_form_accepts is_submitted csrf f :
  validate_on_submit is_submitted csrf (AddingForm.errors f) = true ↔
  is_submitted = true ∧ csrf = None ∧ AddingForm_ok f.
Proof. apply validate_on_submit_AddingForm. Qed.

(** One message per field.  Whatever is submitted, no field of
    AddingForm reports more than one error: DataRequired replaces the
    message of the choice check and stops the chain before URL. *)
Theorem at_most_one_error f fe :
  fe ∈ AddingForm.errors f → length fe.2 ≤ 1.
Proof.
  unfold AddingForm.errors. intros Hin.
  repeat (apply elem_of_cons in Hin as [->|Hin];
          [simpl; first [apply required_field_errors_length
                        | apply url_field_errors_length
                        | apply select_field_errors_length]|]).
  by apply elem_of_nil in Hin.
Qed.

End forms.

Lemma at_most_one_error_witness :
  length (field_errors None [DataRequired; URL "Url Invalid"] (Some "maps")) ≤ 1.
Proof.
  apply (at_most_one_error
           (AddingForm.mk None (Some "maps") None None None None None None None None)
           ("map_url", field_errors None [DataRequired; URL "Url Invalid"] (Some "maps"))).
  by_compute.
Defined.
