(* ===== verification/Auth.v ===== *)
(** * Auth: sessions and the current user

    What Flask and Flask-Login keep for one browser: the session cookie
    with the key ["_user_id"] (the text of the logged-in user's primary key)
    and the pending flash messages.  The operations are those main.py
    calls: [flash], [login_user], [logout_user], the user loader [load_user]
    it registers (lines 116-118), the proxy [current_user] and the decorator
    [login_required].  They run in the context [ctx] of a request: the
    database and the session of the client that sent it.

    The user loader of main.py is [db.get_or_404]: for a session that names
    a user who is not in the table it does not answer "anonymous", it aborts
    the request with 404.  [session_valid] is the condition under which this
    does not happen; the file [App] shows that it holds in every reachable
    state.  No login view is configured, so [login_required] answers an
    anonymous request with 401. *)

From S2P Require Import Prelude Hoare Tables Interfaces Store.

Module Session.
Record t := mk {
  user_id : option string;
  flashes : list (string * string);
}.
#[global] Instance eq_dec : EqDecision t.
Proof. solve_decision. Defined.

(** The session of a browser that sent no cookie. *)
Definition empty : t := mk None [].
End Session.

(** The state a view function works on. *)
Record ctx := Ctx {
  db : database;
  session : Session.t;
}.

#[export] Instance ctx_eq_dec : EqDecision ctx.
Proof. solve_decision. Defined.

Definition set_db (f : database → database) (c : ctx) : ctx :=
  Ctx (f (db c)) (session c).

Definition set_session (f : Session.t → Session.t) (c : ctx) : ctx :=
  Ctx (db c) (f (session c)).

(** A store operation run on the database of the request. *)
Definition with_db {A} (m : prog database failure A) : prog ctx failure A :=
  λ c, match m (db c) with
       | Ok (a, d') => Ok (a, Ctx d' (session c))
       | Err e => Err e
       end.

(** flask.flash(message): the message joins the session's pending
    messages, in the default category. *)
Definition flash (message : string) : prog ctx failure unit :=
  pmodify (set_session (λ s,
    Session.mk (Session.user_id s) (Session.flashes s ++ [("message", message)]))).

(** The callback registered with @login_manager.user_loader. *)
Definition load_user `{IdCodec} (user_id : string) : prog ctx failure User.t :=
  (c <- pget ;; plift (get_or_404 (users (db c)) user_id))%prog.

(** flask_login.current_user: the anonymous user ([None]) for a session
    without ["_user_id"], else what the user loader returns. *)
Definition current_user `{IdCodec} : prog ctx failure (option User.t) :=
  (c <- pget ;;
   match Session.user_id (session c) with
   | None => pret None
   | Some user_id => u <- load_user user_id ;; pret (Some u)
   end)%prog.

(** [user.is_authenticated]: True for a User, False for the anonymous
    user. *)
Definition is_authenticated (u : option User.t) : bool :=
  match u with Some _ => true | None => false end.

(** flask_login.login_user(user): the session remembers [str(user.id)]. *)
Definition login_user `{IdCodec} (u : User.t) : prog ctx failure bool :=
  (pmodify (set_session (λ s,
     Session.mk (Some (id_str (User.id u))) (Session.flashes s))) ;;
   pret true)%prog.

(** flask_login.logout_user(): resolves the current user (for the
    logged-out signal), then forgets ["_user_id"]. *)
Definition logout_user `{IdCodec} : prog ctx failure bool :=
  (_ <- current_user ;;
   pmodify (set_session (λ s, Session.mk None (Session.flashes s))) ;;
   pret true)%prog.

(** @login_required: the view runs for an authenticated user; otherwise
    LoginManager.unauthorized() aborts with 401, as no login view is set. *)
Definition login_required `{IdCodec} {A} (view : prog ctx failure A) : prog ctx failure A :=
  (u <- current_user ;;
   if is_authenticated u then view else pthrow (Abort 401))%prog.

(** ** Sessions that name a user *)

(** The user a session is logged in as, if it names one of the table. *)
Definition session_user `{IdCodec} (d : database) (s : Session.t) : option User.t :=
  uid ← Session.user_id s; k ← id_of_text uid; users d !! k.

(** A logged-in session names a user of the table. *)
Definition session_valid `{IdCodec} (d : database) (s : Session.t) : Prop :=
  Session.user_id s = None ∨ is_Some (session_user d s).

#[export] Instance session_valid_dec `{IdCodec} d s : Decision (session_valid d s).
Proof. unfold session_valid. apply _. Defined.

Section auth.
Context `{IdCodec}.
Implicit Types (c : ctx) (d : database) (s : Session.t) (u : User.t).

Lemma with_db_Ok {A} (m : prog database failure A) c a c' :
  with_db m c = Ok (a, c') ↔
  ∃ d', m (db c) = Ok (a, d') ∧ c' = Ctx d' (session c).
Proof.
  unfold with_db. destruct (m (db c)) as [[a' d']|e]; split; try done.
  - intros [= -> <-]. eauto.
  - by intros (d'' & [= -> ->] & ->).
  - by intros (d'' & [=] & _).
Qed.

Lemma with_db_Err {A} (m : prog database failure A) c e :
  with_db m c = Err e ↔ m (db c) = Err e.
Proof.
  unfold with_db. destruct (m (db c)) as [[a' d']|e']; split; try done;
    by intros [= ->].
Qed.

(** current_user, case by case. *)
Lemma current_user_anonymous c :
  Session.user_id (session c) = None → current_user c = Ok (None, c).
Proof. unfold current_user. rewrite pbind_pget. by intros ->. Qed.

Lemma current_user_logged_in c u :
  session_user (db c) (session c) = Some u → current_user c = Ok (Some u, c).
Proof.
  unfold session_user, current_user, load_user, get_or_404.
  rewrite pbind_pget. destruct (Session.user_id (session c)) as [uid|]; [|done].
  simpl. intros Hu. prog_unfold. simpl. by rewrite Hu.
Qed.

Lemma current_user_missing c uid :
  Session.user_id (session c) = Some uid →
  session_user (db c) (session c) = None →
  current_user c = Err (Abort 404).
Proof.
  unfold session_user, current_user, load_user, get_or_404.
  rewrite pbind_pget. intros ->. simpl. intros Hu. prog_unfold. simpl.
  by rewrite Hu.
Qed.

(** For a valid session the resolution succeeds, changes nothing and
    gives the session's user. *)
Lemma current_user_valid c :
  session_valid (db c) (session c) →
  current_user c = Ok (session_user (db c) (session c), c).
Proof.
  intros [Hanon|[u Hu]].
  - rewrite current_user_anonymous by done. unfold session_user. by rewrite Hanon.
  - rewrite Hu. by apply current_user_logged_in.
Qed.

(** The resolution never changes the state, and fails in one way only. *)
Lemma current_user_Ok c ou c' : current_user c = Ok (ou, c') → c' = c.
Proof.
  destruct (Session.user_id (session c)) as [uid|] eqn:Hs.
  - destruct (session_user (db c) (session c)) as [u|] eqn:Hu.
    + rewrite (current_user_logged_in _ u) by done. by intros [= _ <-].
    + by rewrite (current_user_missing _ uid).
  - rewrite current_user_anonymous by done. by intros [= _ <-].
Qed.

Lemma current_user_Err c e : current_user c = Err e → e = Abort 404.
Proof.
  destruct (Session.user_id (session c)) as [uid|] eqn:Hs.
  - destruct (session_user (db c) (session c)) as [u|] eqn:Hu.
    + by rewrite (current_user_logged_in _ u).
    + rewrite (current_user_missing _ uid) by done. by intros [= <-].
  - by rewrite current_user_anonymous.
Qed.

(** Logging in and resolving gives the user back: the key survives its
    trip through the cookie as text. *)
Lemma session_user_login d s u :
  users d !! User.id u = Some u →
  session_user d (Session.mk (Some (id_str (User.id u))) (Session.flashes s)) = Some u.
Proof. intros Hu. unfold session_user. simpl. by rewrite id_of_text_str. Qed.

Lemma login_user_Ok u c :
  login_user u c =
  Ok (true, Ctx (db c) (Session.mk (Some (id_str (User.id u)))
                          (Session.flashes (session c)))).
Proof. reflexivity. Qed.

Lemma login_user_current_user u c b c' :
  users (db c) !! User.id u = Some u →
  login_user u c = Ok (b, c') → current_user c' = Ok (Some u, c').
Proof.
  intros Hu [= _ <-]. apply current_user_logged_in. simpl.
  by apply session_user_login.
Qed.

Lemma logout_user_Ok c b c' :
  logout_user c = Ok (b, c') →
  c' = Ctx (db c) (Session.mk None (Session.flashes (session c))).
Proof.
  unfold logout_user. destruct (current_user c) as [[ou c1]|e] eqn:Hcu.
  - apply current_user_Ok in Hcu as Hc. subst c1.
    rewrite (pbind_Ok _ _ _ _ _ Hcu). by intros [= _ <-].
  - by rewrite (pbind_Err _ _ _ _ Hcu).
Qed.

Lemma logout_user_valid c :
  session_valid (db c) (session c) →
  logout_user c =
  Ok (true, Ctx (db c) (Session.mk None (Session.flashes (session c)))).
Proof.
  intros Hv. unfold logout_user.
  by rewrite (pbind_Ok _ _ _ _ _ (current_user_valid c Hv)).
Qed.

Lemma logout_user_current_user c b c' :
  logout_user c = Ok (b, c') → current_user c' = Ok (None, c').
Proof. intros ->%logout_user_Ok. by apply current_user_anonymous. Qed.

(** login_required, case by case. *)
Lemma login_required_anonymous {A} (view : prog ctx failure A) c :
  Session.user_id (session c) = None →
  login_required view c = Err (Abort 401).
Proof.
  intros Hs. unfold login_required.
  by rewrite (pbind_Ok _ _ _ _ _ (current_user_anonymous c Hs)).
Qed.

Lemma login_required_logged_in {A} (view : prog ctx failure A) c u :
  session_user (db c) (session c) = Some u →
  login_required view c = view c.
Proof.
  intros Hu. unfold login_required.
  by rewrite (pbind_Ok _ _ _ _ _ (current_user_logged_in c u Hu)).
Qed.

(** The view runs only for a session that names a user. *)
Lemma login_required_Ok {A} (view : prog ctx failure A) c a c' :
  login_required view c = Ok (a, c') →
  is_Some (session_user (db c) (session c)) ∧ view c = Ok (a, c').
Proof.
  unfold login_required. destruct (current_user c) as [[ou c1]|e] eqn:Hcu.
  - apply current_user_Ok in Hcu as Hc. subst c1.
    rewrite (pbind_Ok _ _ _ _ _ Hcu). destruct ou as [u|]; simpl; [|done].
    intros Hview. split; [|done].
    destruct (Session.user_id (session c)) as [uid|] eqn:Hs.
    + destruct (session_user (db c) (session c)) as [u'|] eqn:Hu; [eauto|].
      by rewrite (current_user_missing _ uid) in Hcu.
    + by rewrite current_user_anonymous in Hcu.
  - by rewrite (pbind_Err _ _ _ _ Hcu).
Qed.

(** Reading a successful run backwards. *)
Lemma bind_current_user_Ok {A} (k : option User.t → prog ctx failure A) c r :
  pbind current_user k c = Ok r ↔
  session_valid (db c) (session c) ∧ k (session_user (db c) (session c)) c = Ok r.
Proof.
  split.
  - intros (ou & c1 & Hcu & Hk)%pbind_Ok_inv.
    destruct (Session.user_id (session c)) as [uid|] eqn:Hs.
    + destruct (session_user (db c) (session c)) as [u|] eqn:Hu.
      * rewrite (current_user_logged_in _ u Hu) in Hcu. injection Hcu as <- <-.
        split; [right; eauto|done].
      * by rewrite (current_user_missing _ uid) in Hcu.
    + rewrite current_user_anonymous in Hcu by done. injection Hcu as <- <-.
      split; [by left|]. unfold session_user. by rewrite Hs.
  - intros [Hv Hk]. by rewrite (pbind_Ok _ _ _ _ _ (current_user_valid c Hv)).
Qed.

Lemma bind_with_db_Ok {A B} (m : prog database failure A)
    (k : A → prog ctx failure B) c r :
  pbind (with_db m) k c = Ok r ↔
  ∃ a d', m (db c) = Ok (a, d') ∧ k a (Ctx d' (session c)) = Ok r.
Proof.
  rewrite pbind_Ok_inv. split.
  - intros (a & c1 & (d' & Hm & ->)%with_db_Ok & Hk). eauto.
  - intros (a & d' & Hm & Hk). exists a, (Ctx d' (session c)).
    split; [apply with_db_Ok; eauto|done].
Qed.

Lemma flash_Ok message c :
  flash message c =
  Ok (tt, Ctx (db c) (Session.mk (Session.user_id (session c))
                        (Session.flashes (session c) ++ [("message", message)]))).
Proof. reflexivity. Qed.

Lemma pbind_flash {A} message (k : unit → prog ctx failure A) c :
  pbind (flash message) k c =
  k tt (Ctx (db c) (Session.mk (Session.user_id (session c))
                      (Session.flashes (session c) ++ [("message", message)]))).
Proof. reflexivity. Qed.

Lemma pbind_login_user {A} u (k : bool → prog ctx failure A) c :
  pbind (login_user u) k c =
  k true (Ctx (db c) (Session.mk (Some (id_str (User.id u)))
                        (Session.flashes (session c)))).
Proof. reflexivity. Qed.

End auth.

#[export] Hint Rewrite @pbind_flash @pbind_login_user : prog_rw.

#[global] Arguments current_user : simpl never.
#[global] Arguments login_user : simpl never.
#[global] Arguments logout_user : simpl never.
#[global] Arguments login_required : simpl never.
#[global] Arguments with_db : simpl never.
#[global] Arguments flash : simpl never.
#[global] Arguments session_user : simpl never.

(** ** Validity depends on the users only *)

Section validity.
Context `{IdCodec}.
Implicit Types (d : database) (s : Session.t).

Lemma session_user_users d d' s :
  users d' = users d → session_user d' s = session_user d s.
Proof. unfold session_user. by intros ->. Qed.

Lemma session_valid_users d d' s :
  users d' = users d → session_valid d s → session_valid d' s.
Proof. unfold session_valid. intros Hu. by rewrite (session_user_users _ _ _ Hu). Qed.

(** A user stays the session's user when the table grows. *)
Lemma session_user_mono d d' s u :
  users d ⊆ users d' → session_user d s = Some u → session_user d' s = Some u.
Proof.
  unfold session_user. intros Hsub.
  destruct (Session.user_id s) as [uid|]; simpl; [|done].
  destruct (id_of_text uid) as [k|]; simpl; [|done].
  intros Hk. by eapply lookup_weaken.
Qed.

Lemma session_valid_mono d d' s :
  users d ⊆ users d' → session_valid d s → session_valid d' s.
Proof.
  intros Hsub [Hanon|[u Hu]]; [by left|right].
  exists u. by eapply session_user_mono.
Qed.

Lemma session_valid_flashes d s fl :
  session_valid d s → session_valid d (Session.mk (Session.user_id s) fl).
Proof. done. Qed.

Lemma session_valid_anonymous d fl : session_valid d (Session.mk None fl).
Proof. by left. Qed.

Lemma session_valid_login d u fl :
  users d !! User.id u = Some u →
  session_valid d (Session.mk (Some (id_str (User.id u))) fl).
Proof.
  intros Hu. right. exists u. unfold session_user. simpl.
  by rewrite id_of_text_str.
Qed.

(** The session's user is a row of the table, under its own key when the
    table is keyed by id. *)
Lemma session_user_lookup d s u :
  session_user d s = Some u → ∃ k, users d !! k = Some u.
Proof.
  unfold session_user. destruct (Session.user_id s) as [uid|]; simpl; [|done].
  destruct (id_of_text uid) as [k|]; simpl; [|done]. eauto.
Qed.

Lemma session_user_anonymous d fl : session_user d (Session.mk None fl) = None.
Proof. reflexivity. Qed.

End validity.

#[export] Hint Resolve session_valid_flashes session_valid_anonymous
  session_valid_login session_valid_mono : cafe.

(** ** Specifications of the session operations *)

Section specifications.
Context `{IdCodec}.
Implicit Types (c : ctx) (F : failure → Prop).

(** Resolving the current user changes nothing and fails, with 404, only
    for a session that names a user who is not stored. *)
Lemma wp_current_user c :
  wp current_user
    (λ ou c', c' = c ∧ ou = session_user (db c) (session c) ∧
              session_valid (db c) (session c))
    (λ f, f = Abort 404 ∧ ¬ session_valid (db c) (session c)) c.
Proof.
  unfold wp. destruct (current_user c) as [[ou c']|f] eqn:Hcu.
  - assert (pbind current_user pret c = Ok (ou, c')) as Hb by by rewrite pbind_pret_r.
    apply bind_current_user_Ok in Hb as [Hv [= <- <-]]. done.
  - split; [by eapply current_user_Err|]. intros Hv.
    by rewrite current_user_valid in Hcu.
Qed.

Lemma wp_with_db {A} (m : prog database failure A) (Q : A → database → Prop) F c :
  wp m Q F (db c) →
  wp (with_db m) (λ a c', ∃ d', c' = Ctx d' (session c) ∧ Q a d') F c.
Proof. unfold wp, with_db. destruct (m (db c)) as [[a d']|f]; eauto. Qed.

Lemma wp_flash message F c :
  wp (flash message)
    (λ _ c', c' = Ctx (db c) (Session.mk (Session.user_id (session c))
                        (Session.flashes (session c) ++ [("message", message)]))) F c.
Proof. done. Qed.

Lemma wp_login_user u F c :
  wp (login_user u)
    (λ _ c', c' = Ctx (db c) (Session.mk (Some (id_str (User.id u)))
                        (Session.flashes (session c)))) F c.
Proof. done. Qed.

Lemma wp_logout_user c :
  wp logout_user
    (λ _ c', c' = Ctx (db c) (Session.mk None (Session.flashes (session c))) ∧
             session_valid (db c) (session c))
    (λ f, f = Abort 404 ∧ ¬ session_valid (db c) (session c)) c.
Proof.
  unfold logout_user. wp_apply wp_current_user; [|done].
  intros ou c' (-> & _ & Hv). by wp_pure.
Qed.

(** The guard: 401 without a user, 404 for a user who is not stored, the
    view otherwise. *)
Lemma wp_login_required {A} (view : prog ctx failure A) (Q : A → ctx → Prop) F c :
  (Session.user_id (session c) = None → F (Abort 401)) →
  (¬ session_valid (db c) (session c) → F (Abort 404)) →
  (∀ u, session_user (db c) (session c) = Some u → wp view Q F c) →
  wp (login_required view) Q F c.
Proof.
  intros H401 H404 Hview. unfold login_required.
  wp_apply wp_current_user; [|intros f [-> ?]; by apply H404].
  intros ou c' (-> & -> & Hv).
  destruct (session_user (db c) (session c)) as [u|] eqn:Hu; simpl; [by eapply Hview|].
  wp_step. apply H401. destruct Hv as [?|[u' Hu']]; [done|congruence].
Qed.

End specifications.

(** ** Logging in and out *)

Section login_logout.
Context `{IdCodec}.
Implicit Types (c : ctx) (u : User.t).

(** Login and logout.  After login_user the current user is the user
    logged in, provided it is a stored user; after a logout that follows
    there is no current user.  Neither touches the database nor the
    flashed messages. *)
Theorem login_logout_roundtrip u c :
  users (db c) !! User.id u = Some u →
  (login_user u ;; current_user)%prog c =
    Ok (Some u, Ctx (db c) (Session.mk (Some (id_str (User.id u)))
                              (Session.flashes (session c)))) ∧
  (login_user u ;; logout_user ;; current_user)%prog c =
    Ok (None, Ctx (db c) (Session.mk None (Session.flashes (session c)))).
Proof.
  intros Hu.
  assert (session_valid (db c) (Session.mk (Some (id_str (User.id u)))
            (Session.flashes (session c)))) as Hv by by apply session_valid_login.
  split; rewrite pbind_login_user.
  - apply current_user_logged_in. simpl. by apply session_user_login.
  - rewrite (pbind_Ok _ _ _ _ _ (logout_user_valid (Ctx _ _) Hv)).
    by apply current_user_anonymous.
Qed.

(** The guard of login_required.  The view runs when the session
    names a stored user; a session without a user is answered 401 (no
    login view is configured, so there is no redirect to the login page)
    and a session that names a user who is not in the table 404, because
    the user loader of main.py is get_or_404. *)
Theorem login_required_guard {A} (view : prog ctx failure A) c :
  login_required view c =
  match Session.user_id (session c), session_user (db c) (session c) with
  | None, _ => Err (Abort 401)
  | Some _, None => Err (Abort 404)
  | Some _, Some _ => view c
  end.
Proof.
  destruct (Session.user_id (session c)) as [uid|] eqn:Hs;
    [|by apply login_required_anonymous].
  destruct (session_user (db c) (session c)) as [u|] eqn:Hu.
  - by apply (login_required_logged_in _ _ u).
  - unfold login_required. by rewrite (pbind_Err _ _ _ _ (current_user_missing c uid Hs Hu)).
Qed.

End login_logout.

Lemma login_logout_roundtrip_witness :
  let u := User.mk 1 "alice" "alice@example.com" "hash" in
  let c := Ctx (Database ∅ {[1 := u]} ∅) Session.empty in
  (login_user u ;; current_user)%prog c =
    Ok (Some u, Ctx (db c) (Session.mk (Some (id_str (User.id u)))
                              (Session.flashes (session c)))) ∧
  (login_user u ;; logout_user ;; current_user)%prog c =
    Ok (None, Ctx (db c) (Session.mk None (Session.flashes (session c)))).
Proof. apply login_logout_roundtrip. vm_compute; reflexivity. Defined.
