(* ===== verification/Handlers.v ===== *)
(** * Handlers: the view functions of main.py

    A request carries its path, method, query arguments, form data and the
    verdict of the CSRF check on its token; the inputs a handler draws from
    outside the request (the clock, the random choice of the avatar, the
    salt of a new password hash) are its [env].  A view function is a
    [prog ctx failure response]: it returns a page or a redirect and the new
    database and session, or fails with an abort or an exception, in which
    case nothing is changed.

    Each view function is written statement by statement as in main.py
    (lines 121-235).  [render_template] resolves the current user, as the
    context processor of Flask-Login does for every template.  A page
    carries the values the handler passes to the template; the templates
    themselves are not part of the source.

    [dispatch] is the routing of Flask: the rule of the path, then the
    method.  A rule answers the methods of its decorator, HEAD when it
    answers GET, and OPTIONS, which Flask answers itself. *)

From S2P Require Import Prelude Tables Interfaces Store Forms Auth.

(** ** Requests, pages, responses *)

Inductive http_method := GET | HEAD | POST | PUT | DELETE | PATCH | OPTIONS.

#[export] Instance http_method_eq_dec : EqDecision http_method.
Proof. solve_decision. Defined.

Record request := Request {
  path : string;
  method : http_method;
  args : gmap string string;
  form : gmap string string;
  csrf : option string;
}.

Record env := Env {
  now : nat;
  pick : nat;
  seed : nat;
}.

(** The view functions, by name. *)
Inductive endpoint :=
| show_all_caffe_ep
| show_cafe_ep
| register_ep
| login_ep
| logout_ep
| add_cafe_ep
| delete_ep.

#[export] Instance endpoint_eq_dec : EqDecision endpoint.
Proof. solve_decision. Defined.

(** A rendered template with the values passed to it.  The cafe of the
    detail page is passed as an object; its relationship [cafe_review] is
    what the object gives access to when the page is rendered. *)
Inductive page :=
| index_html (cafes : list Cafe.t) (is_login : bool)
| Caffe_html (cafe : Cafe.t) (cafe_review : list Review.t) (avatar : string)
    (comment : Comment.t) (is_login : bool) (date_now : nat)
| register_html
| login_html (form : LoginForm.t)
| add_cafe_html (form : AddingForm.t) (errors : list (string * list string)).

Inductive response :=
| Render (p : page)
| Redirect (location : string)
| Options (allow : list http_method).

(** The URL map built by the @app.route decorators: rule, endpoint and
    the methods the decorator names (GET when it names none). *)
Definition url_map : list (string * endpoint * list http_method) :=
  [ ("/", show_all_caffe_ep, [GET]);
    ("/caffe", show_cafe_ep, [POST; GET]);
    ("/register", register_ep, [POST; GET]);
    ("/login", login_ep, [POST; GET]);
    ("/logout", logout_ep, [GET]);
    ("/add_cafe", add_cafe_ep, [POST; GET]);
    ("/delete", delete_ep, [GET]) ].

(** werkzeug's Rule: a rule that lists GET answers HEAD as well, and
    Flask adds OPTIONS to every rule. *)
Definition rule_methods (methods : list http_method) : list http_method :=
  methods ++ (if bool_decide (GET ∈ methods) then [HEAD] else []) ++ [OPTIONS].

(** The methods the rule of an endpoint answers. *)
Definition methods_of (ep : endpoint) : list http_method :=
  match list_find (λ rule, rule.1.2 = ep) url_map with
  | Some (_, (_, _, methods)) => rule_methods methods
  | None => []
  end.

(** flask.url_for(endpoint): the rule of the endpoint. *)
Definition url_for (ep : endpoint) : string :=
  match list_find (λ rule, rule.1.2 = ep) url_map with
  | Some (_, (rule, _, _)) => rule
  | None => ""
  end.

Definition redirect (location : string) : prog ctx failure response :=
  pret (Redirect location).

(** flask.render_template: the context processor of Flask-Login resolves
    current_user before the template is rendered. *)
Definition render_template `{IdCodec} (p : page) : prog ctx failure response :=
  (_ <- current_user ;; pret (Render p))%prog.

(** request.method == "POST" *)
Definition is_post (r : request) : bool := bool_decide (method r = POST).

(** FlaskForm.is_submitted: the request's method is one that sends a
    body. *)
Definition is_submitted (r : request) : bool :=
  bool_decide (method r ∈ [POST; PUT; PATCH; DELETE]).

(** The form data a FlaskForm is filled from: the request's on a
    submission, none otherwise. *)
Definition submitted_form (r : request) : gmap string string :=
  if is_submitted r then form r else ∅.

(** main.py:42-44 *)
Definition logos : list string :=
  [ "https://static.vecteezy.com/system/resources/thumbnails/005/076/592/small_2x/hacker-mascot-for-sports-and-esports-logo-free-vector.jpg";
    "https://cdn.shopify.com/shopifycloud/hatchful_web_two/bundles/4a14e7b2de7f6eaf5a6c98cb8c00b8de.png" ].

(** random.choice(seq): the element at a random index below the length. *)
Definition choice (pick : nat) (seq : list string) : string :=
  default "" (seq !! (pick mod length seq)).

(** ** The view functions *)

Section views.
Context `{IdCodec} `{PasswordHasher} `{UrlValidator}.

(** main.py:121-125 *)
Definition show_all_caffe : prog ctx failure response :=
  (c <- pget ;;
   let all_cafes := select_cafes_by_name (db c) in
   u <- current_user ;;
   render_template (index_html all_cafes (is_authenticated u)))%prog.

(** main.py:128-154 *)
Definition show_cafe (e : env) (r : request) : prog ctx failure response :=
  (let current_date := now e in
   let commentForm := Comment.process (submitted_form r) in
   let random_avatar := choice (pick e) logos in
   let cafe_id := default " " (args r !! "id") in
   c <- pget ;;
   request_cafe <- plift (get_or_404 (cafes (db c)) cafe_id) ;;
   let render :=
     (u <- current_user ;;
      c' <- pget ;;
      render_template
        (Caffe_html request_cafe (cafe_review (db c') request_cafe) random_avatar
           commentForm (is_authenticated u) current_date)) in
   if is_post r then
     u <- current_user ;;
     match u with
     | None =>
         flash "OOPS.You are not allowed to put a comment.please login" ;;
         redirect (url_for login_ep)
     | Some user =>
         with_db (insert_review (form r !! "body") (Some (User.id user))
                    (Some (Cafe.id request_cafe))) ;;
         render
     end
   else render)%prog.

(** main.py:157-174 *)
Definition register (e : env) (r : request) : prog ctx failure response :=
  (if is_post r then
     let user_password := form r !! "password" in
     password <- plift (generate_password_hash_py user_password (seed e)) ;;
     let email := form r !! "email" in
     let name := form r !! "name" in
     new_user <- with_db (insert_user name email (Some password)) ;;
     login_user new_user ;;
     redirect (url_for show_all_caffe_ep)
   else render_template register_html)%prog.

(** main.py:177-195.  The three tests of the if/elif chain are kept: the
    second test of the password is the third condition of the source. *)
Definition login (r : request) : prog ctx failure response :=
  (let form_ := LoginForm.process (submitted_form r) in
   if is_post r then
     let user_email := form r !! "email" in
     let user_password := form r !! "password" in
     c <- pget ;;
     let get_user := select_user_by_email (db c) user_email in
     match get_user with
     | Some user =>
         ok <- plift (check_password_hash_py (User.password user) user_password) ;;
         if ok then
           login_user user ;;
           redirect (url_for show_all_caffe_ep)
         else
           ok' <- plift (check_password_hash_py (User.password user) user_password) ;;
           if negb ok' then
             flash "Password Incorrect!please try again" ;;
             redirect (url_for login_ep)
           else render_template (login_html form_)
     | None =>
         flash "Email does not exit!please try again." ;;
         redirect (url_for login_ep)
     end
   else render_template (login_html form_))%prog.

(** main.py:198-201 *)
Definition logout : prog ctx failure response :=
  (logout_user ;; redirect (url_for show_all_caffe_ep))%prog.

(** main.py:204-226 *)
Definition add_cafe (r : request) : prog ctx failure response :=
  login_required
    (let addCafeForm := AddingForm.process (submitted_form r) in
     let errors := AddingForm.errors addCafeForm in
     if validate_on_submit (is_submitted r) (csrf r) errors then
       u <- current_user ;;
       with_db (insert_cafe
         (AddingForm.name addCafeForm)
         (AddingForm.map_url addCafeForm)
         (User.id <$> u)
         (AddingForm.cafe_image_url addCafeForm)
         (AddingForm.cafe_location addCafeForm)
         (AddingForm.sockets addCafeForm)
         (AddingForm.Toilet addCafeForm)
         (AddingForm.wifi addCafeForm)
         (AddingForm.Calls addCafeForm)
         (AddingForm.seats addCafeForm)
         (AddingForm.price addCafeForm)) ;;
       redirect (url_for show_all_caffe_ep)
     else
       render_template
         (add_cafe_html addCafeForm (if is_submitted r then errors else [])))%prog.

(** main.py:229-235 *)
Definition delete (r : request) : prog ctx failure response :=
  (let cafe_delete_id := default " " (args r !! "id") in
   c <- pget ;;
   cafe_want_to_delete <- plift (get_or_404 (cafes (db c)) cafe_delete_id) ;;
   with_db (delete_cafe cafe_want_to_delete) ;;
   redirect (url_for show_all_caffe_ep))%prog.

(** ** Dispatch *)

Definition view_function (ep : endpoint) (e : env) (r : request) :
    prog ctx failure response :=
  match ep with
  | show_all_caffe_ep => show_all_caffe
  | show_cafe_ep => show_cafe e r
  | register_ep => register e r
  | login_ep => login r
  | logout_ep => logout
  | add_cafe_ep => add_cafe r
  | delete_ep => delete r
  end.

(** The rule that matches the path, then the method check: 404 for a
    path without a rule, 405 for a method the rule does not answer.  An
    OPTIONS request is answered by Flask itself with the methods of the
    rule; the view function does not run. *)
Definition dispatch (e : env) (r : request) : prog ctx failure response :=
  match list_find (λ rule, rule.1.1 = path r) url_map with
  | Some (_, (_, ep, methods)) =>
      if bool_decide (method r ∈ rule_methods methods) then
        if bool_decide (method r = OPTIONS) then pret (Options (rule_methods methods))
        else view_function ep e r
      else pthrow (Abort 405)
  | None => pthrow (Abort 404)
  end.

(** Serving a request: the handler runs; on failure its changes are
    dropped. *)
Definition handle (e : env) (r : request) (c : ctx) : outcome failure response * ctx :=
  exec (dispatch e r) c.

End views.

#[global] Arguments url_for : simpl never.
#[global] Arguments render_template : simpl never.
#[global] Arguments choice : simpl never.

(** ** The method of a request *)

Lemma is_post_true r : method r = POST → is_post r = true.
Proof. intros Hm. by apply bool_decide_eq_true_2. Qed.

Lemma is_post_false r : method r ≠ POST → is_post r = false.
Proof. intros Hm. by apply bool_decide_eq_false_2. Qed.

Lemma is_submitted_post r : method r = POST → is_submitted r = true.
Proof. intros Hm. apply bool_decide_eq_true_2. rewrite Hm. set_solver. Qed.

(** GET and HEAD are the methods that read: neither is a POST nor a
    submission. *)
Lemma is_post_read r : method r ∈ [GET; HEAD] → is_post r = false.
Proof. intros Hm. apply is_post_false. intros Heq. rewrite Heq in Hm. set_solver. Qed.

Lemma is_submitted_read r : method r ∈ [GET; HEAD] → is_submitted r = false.
Proof.
  intros Hm. apply bool_decide_eq_false_2. intros Hs. set_unfold.
  destruct Hm as [Hm|[Hm|[]]]; rewrite Hm in Hs; naive_solver.
Qed.

(** ** The URL map *)

Lemma url_for_show_all_caffe : url_for show_all_caffe_ep = "/".
Proof. reflexivity. Qed.

Lemma url_for_login : url_for login_ep = "/login".
Proof. reflexivity. Qed.

(** url_for inverts the map: the rule it returns dispatches to the
    endpoint. *)
Lemma url_for_rule ep :
  ∃ i methods, list_find (λ rule, rule.1.1 = url_for ep) url_map = Some (i, (url_for ep, ep, methods)).
Proof. destruct ep; vm_compute; eauto. Qed.

(** The avatar is one of the two logos. *)
Lemma choice_logos pick : choice pick logos ∈ logos.
Proof.
  unfold choice. assert (pick mod length logos < length logos) as Hlt
    by (apply Nat.mod_upper_bound; by vm_compute).
  destruct (lookup_lt_is_Some_2 logos _ Hlt) as [a Ha]. rewrite Ha. simpl.
  by eapply list_elem_of_lookup_2.
Qed.

#[export] Hint Rewrite url_for_show_all_caffe url_for_login : prog_rw.

(** ** The view functions, branch by branch *)

Section branches.
Context `{IdCodec} `{PasswordHasher} `{UrlValidator}.
Implicit Types (c : ctx) (r : request) (e : env).

Lemma render_template_valid p c :
  session_valid (db c) (session c) → render_template p c = Ok (Render p, c).
Proof.
  intros Hv%current_user_valid. unfold render_template. by prog_run.
Qed.

Lemma render_template_Ok p c resp c' :
  render_template p c = Ok (resp, c') → resp = Render p ∧ c' = c.
Proof.
  unfold render_template. destruct (current_user c) as [[ou c1]|f] eqn:Hcu.
  - apply current_user_Ok in Hcu as Hc. subst c1. prog_run. by intros [= <- <-].
  - by prog_run.
Qed.

(** *** The listing *)

Lemma show_all_caffe_valid c :
  session_valid (db c) (session c) →
  show_all_caffe c =
  Ok (Render (index_html (select_cafes_by_name (db c))
                (is_authenticated (session_user (db c) (session c)))), c).
Proof.
  intros Hv. pose proof (current_user_valid c Hv) as Hcu.
  unfold show_all_caffe. prog_run. by apply render_template_valid.
Qed.

(** *** The detail page and the reviews *)

Lemma show_cafe_missing e r c f :
  get_or_404 (cafes (db c)) (default " " (args r !! "id")) = Err f →
  show_cafe e r c = Err (Abort 404).
Proof.
  intros Hget. apply get_or_404_Err in Hget as Hf. subst f.
  unfold show_cafe. by prog_run.
Qed.

Lemma show_cafe_get e r c cafe :
  method r ∈ [GET; HEAD] →
  get_or_404 (cafes (db c)) (default " " (args r !! "id")) = Ok cafe →
  session_valid (db c) (session c) →
  show_cafe e r c =
  Ok (Render (Caffe_html cafe (cafe_review (db c) cafe) (choice (pick e) logos)
                (Comment.mk None)
                (is_authenticated (session_user (db c) (session c))) (now e)), c).
Proof.
  intros Hm Hget Hv. pose proof (current_user_valid c Hv) as Hcu.
  unfold show_cafe, submitted_form.
  rewrite (is_post_read r Hm), (is_submitted_read r Hm). prog_run.
  by apply render_template_valid.
Qed.

Lemma show_cafe_post_anonymous e r c cafe :
  method r = POST →
  get_or_404 (cafes (db c)) (default " " (args r !! "id")) = Ok cafe →
  Session.user_id (session c) = None →
  show_cafe e r c =
  Ok (Redirect "/login",
      Ctx (db c) (Session.mk None
        (Session.flashes (session c) ++
           [("message", "OOPS.You are not allowed to put a comment.please login")]))).
Proof.
  intros Hm Hget Hs. pose proof (current_user_anonymous c Hs) as Hcu.
  unfold show_cafe. rewrite (is_post_true r Hm). prog_run. by rewrite Hs.
Qed.

Lemma show_cafe_post_review e r c cafe user body :
  method r = POST →
  get_or_404 (cafes (db c)) (default " " (args r !! "id")) = Ok cafe →
  session_user (db c) (session c) = Some user →
  form r !! "body" = Some body →
  let review := Review.mk (next_key (reviews (db c))) body
                  (Some (User.id user)) (Some (Cafe.id cafe)) in
  let d' := set_reviews <[Review.review_id review := review]> (db c) in
  show_cafe e r c =
  Ok (Render (Caffe_html cafe (cafe_review d' cafe) (choice (pick e) logos)
                (Comment.mk (Some body)) true (now e)),
      Ctx d' (session c)).
Proof.
  intros Hm Hget Hu Hbody review d'.
  pose proof (current_user_logged_in c user Hu) as Hcu.
  assert (with_db (insert_review (Some body) (Some (User.id user))
            (Some (Cafe.id cafe))) c = Ok (review, Ctx d' (session c))) as Hins
    by (apply with_db_Ok; eexists; split; [by apply insert_review_Ok; eauto|done]).
  assert (session_user d' (session c) = Some user) as Hu' by done.
  pose proof (current_user_logged_in (Ctx d' (session c)) user Hu') as Hcu'.
  unfold show_cafe, submitted_form, Comment.process.
  rewrite (is_post_true r Hm), (is_submitted_post r Hm), Hbody. prog_run.
  apply render_template_valid. right. eauto.
Qed.

Lemma show_cafe_post_no_body e r c cafe user :
  method r = POST →
  get_or_404 (cafes (db c)) (default " " (args r !! "id")) = Ok cafe →
  session_user (db c) (session c) = Some user →
  form r !! "body" = None →
  show_cafe e r c = Err (Raised (IntegrityError (NotNull "review.review_content"))).
Proof.
  intros Hm Hget Hu Hbody.
  pose proof (current_user_logged_in c user Hu) as Hcu.
  assert (with_db (insert_review None (Some (User.id user))
            (Some (Cafe.id cafe))) c =
          Err (Raised (IntegrityError (NotNull "review.review_content")))) as Hins
    by by apply with_db_Err.
  unfold show_cafe. rewrite (is_post_true r Hm), Hbody. by prog_run.
Qed.

(** *** Registration *)

Lemma register_get e r c :
  method r ≠ POST → session_valid (db c) (session c) →
  register e r c = Ok (Render register_html, c).
Proof.
  intros Hm Hv. unfold register. rewrite (is_post_false r Hm).
  by apply render_template_valid.
Qed.

Lemma register_post e r c n m p :
  method r = POST →
  form r !! "name" = Some n → form r !! "email" = Some m →
  form r !! "password" = Some p →
  taken User.name n (users (db c)) = false →
  taken User.email m (users (db c)) = false →
  let user := User.mk (next_key (users (db c))) n m
                (generate_password_hash p (seed e)) in
  register e r c =
  Ok (Redirect "/",
      Ctx (set_users <[User.id user := user]> (db c))
          (Session.mk (Some (id_str (User.id user))) (Session.flashes (session c)))).
Proof.
  intros Hm Hn He Hp Hfn Hfe user.
  assert (with_db (insert_user (Some n) (Some m)
                     (Some (generate_password_hash p (seed e)))) c =
          Ok (user, Ctx (set_users <[User.id user := user]> (db c)) (session c)))
    as Hins by (apply with_db_Ok; eexists; split;
                [by apply insert_user_Ok; eauto 10|done]).
  unfold register. rewrite (is_post_true r Hm), Hn, He, Hp. simpl. by prog_run.
Qed.

Lemma register_post_no_password e r c :
  method r = POST → form r !! "password" = None →
  register e r c = Err (Raised AttributeError).
Proof.
  intros Hm Hp. unfold register. rewrite (is_post_true r Hm), Hp. simpl. by prog_run.
Qed.

(** A registration that fails after the hash was made fails at the
    commit, with the constraint that was violated. *)
Lemma register_post_Err e r c p f :
  method r = POST → form r !! "password" = Some p →
  register e r c = Err f →
  insert_user (form r !! "name") (form r !! "email")
    (Some (generate_password_hash p (seed e))) (db c) = Err f.
Proof.
  intros Hm Hp. unfold register. rewrite (is_post_true r Hm), Hp. simpl. prog_run.
  destruct (with_db (insert_user (form r !! "name") (form r !! "email")
              (Some (generate_password_hash p (seed e)))) c)
    as [[u c1]|f'] eqn:Hins; prog_run; [done|].
  intros [= ->]. by apply with_db_Err in Hins.
Qed.

(** *** Login *)

Lemma login_get r c :
  method r ∈ [GET; HEAD] → session_valid (db c) (session c) →
  login r c = Ok (Render (login_html (LoginForm.mk None None None)), c).
Proof.
  intros Hm Hv. unfold login, submitted_form.
  rewrite (is_post_read r Hm), (is_submitted_read r Hm).
  by apply render_template_valid.
Qed.

Lemma login_post_success r c user p :
  method r = POST →
  select_user_by_email (db c) (form r !! "email") = Some user →
  form r !! "password" = Some p →
  check_password_hash (User.password user) p = true →
  login r c =
  Ok (Redirect "/",
      Ctx (db c) (Session.mk (Some (id_str (User.id user)))
                    (Session.flashes (session c)))).
Proof.
  intros Hm Hq Hp Hcheck. unfold login. rewrite (is_post_true r Hm). prog_run.
  rewrite Hq, Hp. simpl. rewrite Hcheck. by prog_run.
Qed.

Lemma login_post_wrong_password r c user p :
  method r = POST →
  select_user_by_email (db c) (form r !! "email") = Some user →
  form r !! "password" = Some p →
  check_password_hash (User.password user) p = false →
  login r c =
  Ok (Redirect "/login",
      Ctx (db c) (Session.mk (Session.user_id (session c))
        (Session.flashes (session c) ++
           [("message", "Password Incorrect!please try again")]))).
Proof.
  intros Hm Hq Hp Hcheck. unfold login. rewrite (is_post_true r Hm). prog_run.
  rewrite Hq, Hp. simpl. rewrite Hcheck. prog_run. simpl. by prog_run.
Qed.

Lemma login_post_unknown_email r c :
  method r = POST →
  select_user_by_email (db c) (form r !! "email") = None →
  login r c =
  Ok (Redirect "/login",
      Ctx (db c) (Session.mk (Session.user_id (session c))
        (Session.flashes (session c) ++
           [("message", "Email does not exit!please try again.")]))).
Proof. intros Hm Hq. unfold login. rewrite (is_post_true r Hm). prog_run. rewrite Hq. by prog_run. Qed.

Lemma login_post_no_password r c user :
  method r = POST →
  select_user_by_email (db c) (form r !! "email") = Some user →
  form r !! "password" = None →
  login r c = Err (Raised AttributeError).
Proof.
  intros Hm Hq Hp. unfold login. rewrite (is_post_true r Hm). prog_run. rewrite Hq, Hp. simpl.
  by prog_run.
Qed.

(** *** Logout *)

Lemma logout_valid c :
  session_valid (db c) (session c) →
  logout c =
  Ok (Redirect "/", Ctx (db c) (Session.mk None (Session.flashes (session c)))).
Proof.
  intros Hv%logout_user_valid. unfold logout. by prog_run.
Qed.

(** *** Deleting a cafe *)

Lemma delete_missing r c f :
  get_or_404 (cafes (db c)) (default " " (args r !! "id")) = Err f →
  delete r c = Err (Abort 404).
Proof.
  intros Hget. apply get_or_404_Err in Hget as Hf. subst f.
  unfold delete. by prog_run.
Qed.

Lemma delete_found r c cafe :
  get_or_404 (cafes (db c)) (default " " (args r !! "id")) = Ok cafe →
  delete r c =
  Ok (Redirect "/",
      Ctx (Database (base.delete (Cafe.id cafe) (cafes (db c))) (users (db c))
             (Review.detach (Cafe.id cafe) <$> reviews (db c)))
          (session c)).
Proof.
  intros Hget.
  assert (with_db (delete_cafe cafe) c =
          Ok (tt, Ctx (Database (base.delete (Cafe.id cafe) (cafes (db c)))
                         (users (db c))
                         (Review.detach (Cafe.id cafe) <$> reviews (db c)))
                      (session c))) as Hdel
    by (apply with_db_Ok; eexists; split; [apply delete_cafe_Ok|done]).
  unfold delete. by prog_run.
Qed.

(** *** Adding a cafe *)

Lemma add_cafe_anonymous r c :
  Session.user_id (session c) = None → add_cafe r c = Err (Abort 401).
Proof. apply login_required_anonymous. Qed.

Lemma add_cafe_get r c u :
  method r ∈ [GET; HEAD] → session_user (db c) (session c) = Some u →
  add_cafe r c = Ok (Render (add_cafe_html (AddingForm.process ∅) []), c).
Proof.
  intros Hm Hu. unfold add_cafe, submitted_form.
  rewrite (login_required_logged_in _ c u Hu), (is_submitted_read r Hm). simpl.
  apply render_template_valid. right. eauto.
Qed.

(** A submission that does not validate is shown again with the errors
    of its fields. *)
Lemma add_cafe_post_invalid r c u :
  method r = POST → session_user (db c) (session c) = Some u →
  validate (csrf r) (AddingForm.errors (AddingForm.process (form r))) = false →
  add_cafe r c =
  Ok (Render (add_cafe_html (AddingForm.process (form r))
                (AddingForm.errors (AddingForm.process (form r)))), c).
Proof.
  intros Hm Hu Hval. unfold add_cafe, submitted_form, validate_on_submit.
  rewrite (login_required_logged_in _ c u Hu), (is_submitted_post r Hm), Hval. simpl.
  apply render_template_valid. right. eauto.
Qed.

(** A submission that validates goes to the commit, with the logged-in
    user as the owner. *)
Lemma add_cafe_post_valid r c u :
  method r = POST → session_user (db c) (session c) = Some u →
  validate (csrf r) (AddingForm.errors (AddingForm.process (form r))) = true →
  add_cafe r c =
  (with_db (insert_cafe (form r !! "name") (form r !! "map_url") (Some (User.id u))
              (form r !! "cafe_image_url") (form r !! "cafe_location")
              (form r !! "sockets") (form r !! "Toilet") (form r !! "wifi")
              (form r !! "Calls") (form r !! "seats") (form r !! "price")) ;;
   redirect (url_for show_all_caffe_ep))%prog c.
Proof.
  intros Hm Hu Hval. pose proof (current_user_logged_in c u Hu) as Hcu.
  unfold add_cafe, submitted_form, validate_on_submit.
  rewrite (login_required_logged_in _ c u Hu), (is_submitted_post r Hm), Hval. simpl.
  by prog_run.
Qed.

Lemma add_cafe_post r c u n m i l hs ht hw cc s p :
  method r = POST → session_user (db c) (session c) = Some u →
  validate (csrf r) (AddingForm.errors (AddingForm.process (form r))) = true →
  AddingForm.process (form r) =
    AddingForm.mk (Some n) (Some m) (Some i) (Some l) (Some hs) (Some ht)
      (Some hw) (Some cc) (Some s) (Some p) →
  taken Cafe.name n (cafes (db c)) = false →
  taken Cafe.map_url m (cafes (db c)) = false →
  let cafe := Cafe.mk (next_key (cafes (db c))) n m i l (Some (User.id u))
                hs ht hw cc s p in
  add_cafe r c =
  Ok (Redirect "/", Ctx (set_cafes <[Cafe.id cafe := cafe]> (db c)) (session c)).
Proof.
  intros Hm Hu Hval [= Hn Hmu Hi Hl Hhs Hht Hhw Hcc Hs Hp] Hfn Hfm cafe.
  rewrite (add_cafe_post_valid r c u) by done.
  rewrite Hn, Hmu, Hi, Hl, Hhs, Hht, Hhw, Hcc, Hs, Hp.
  assert (with_db (insert_cafe (Some n) (Some m) (Some (User.id u)) (Some i)
                     (Some l) (Some hs) (Some ht) (Some hw) (Some cc) (Some s)
                     (Some p)) c =
          Ok (cafe, Ctx (set_cafes <[Cafe.id cafe := cafe]> (db c)) (session c)))
    as Hins by (apply with_db_Ok; eexists; split;
                [by apply insert_cafe_Ok; eauto 30|done]).
  by prog_run.
Qed.

(** *** Dispatch *)

Lemma dispatch_not_found e r :
  path r ∉ url_map.*1.*1 → dispatch e r = pthrow (Abort 404).
Proof.
  intros Hp. unfold dispatch.
  destruct (list_find _ url_map) as [[i [[rule ep] ms]]|] eqn:Hfind; [|done].
  apply list_find_Some in Hfind as (Hi & Hrule & _). simpl in Hrule. subst rule.
  destruct Hp. apply list_elem_of_lookup_2 in Hi.
  do 2 (apply (list_elem_of_fmap_2 fst) in Hi). done.
Qed.

Lemma dispatch_rule e r ep :
  path r = url_for ep →
  dispatch e r =
  if bool_decide (method r ∈ methods_of ep) then
    if bool_decide (method r = OPTIONS) then pret (Options (methods_of ep))
    else view_function ep e r
  else pthrow (Abort 405).
Proof. intros Hp. unfold dispatch. rewrite Hp. by destruct ep. Qed.

(** The rule that dispatch finds is the rule of the endpoint it runs. *)
Lemma dispatch_find r i rule ep methods :
  list_find (λ rule, rule.1.1 = path r) url_map = Some (i, (rule, ep, methods)) →
  path r = url_for ep.
Proof.
  intros (Hi & <- & _)%list_find_Some. apply list_elem_of_lookup_2 in Hi.
  unfold url_map in Hi.
  repeat (apply elem_of_cons in Hi as [[= -> -> ->]|Hi]; [done|]).
  by apply elem_of_nil in Hi.
Qed.

(** Every rule answers GET and HEAD; four of them answer POST. *)
Lemma methods_of_read ep m : m ∈ [GET; HEAD] → m ∈ methods_of ep ∧ m ≠ OPTIONS.
Proof.
  intros Hm. set_unfold. destruct Hm as [->|[->|[]]]; (split; [|done]);
    destruct ep; vm_compute; set_solver.
Qed.

Lemma methods_of_post ep :
  POST ∈ methods_of ep ↔ ep ∈ [show_cafe_ep; register_ep; login_ep; add_cafe_ep].
Proof. destruct ep; vm_compute; set_solver. Qed.

(** Serving a request on a route: the view function runs when the rule
    answers the method. *)
Lemma handle_view e r c ep :
  path r = url_for ep → method r ∈ methods_of ep → method r ≠ OPTIONS →
  handle e r c = exec (view_function ep e r) c.
Proof.
  intros Hp Hm Hopt. unfold handle. rewrite (dispatch_rule e r ep Hp).
  by rewrite bool_decide_eq_true_2, bool_decide_eq_false_2 by done.
Qed.

Lemma handle_get e r c ep :
  path r = url_for ep → method r ∈ [GET; HEAD] →
  handle e r c = exec (view_function ep e r) c.
Proof.
  intros Hp Hm. destruct (methods_of_read ep _ Hm). by apply handle_view.
Qed.

Lemma handle_post e r c ep :
  path r = url_for ep → method r = POST →
  ep ∈ [show_cafe_ep; register_ep; login_ep; add_cafe_ep] →
  handle e r c = exec (view_function ep e r) c.
Proof.
  intros Hp Hm Hep. apply handle_view; rewrite ?Hm; [done| |done].
  by apply methods_of_post.
Qed.

Lemma handle_options e r c ep :
  path r = url_for ep → method r = OPTIONS →
  handle e r c = (Ok (Options (methods_of ep)), c).
Proof.
  intros Hp Hm. unfold handle. rewrite (dispatch_rule e r ep Hp), Hm.
  by destruct ep.
Qed.

Lemma handle_not_allowed e r c ep :
  path r = url_for ep → method r ∉ methods_of ep →
  handle e r c = (Err (Abort 405), c).
Proof.
  intros Hp Hm. unfold handle. rewrite (dispatch_rule e r ep Hp).
  by rewrite bool_decide_eq_false_2.
Qed.

Lemma exec_Ok_eq {A} (m : prog ctx failure A) c a c' :
  m c = Ok (a, c') → exec m c = (Ok a, c').
Proof. by intros ?%exec_Ok. Qed.

Lemma exec_Err_eq {A} (m : prog ctx failure A) c f :
  m c = Err f → exec m c = (Err f, c).
Proof. unfold exec. by intros ->. Qed.

End branches.

(** ** The routes, request by request *)

Section routes.
Context `{IdCodec} `{PasswordHasher} `{UrlValidator}.
Implicit Types (c : ctx) (r : request) (e : env).

(** C8: reviews need a login.  A POST to /caffe with the id of a stored
    cafe by a visitor who is not logged in stores nothing: it flashes the
    refusal and redirects to the login page.  (Without a stored cafe the
    answer is 404 before the login is looked at.) *)
Theorem review_requires_login e r c cafe :
  path r = "/caffe" → method r = POST →
  get_or_404 (cafes (db c)) (default " " (args r !! "id")) = Ok cafe →
  Session.user_id (session c) = None →
  handle e r c =
  (Ok (Redirect "/login"),
   Ctx (db c) (Session.mk None
     (Session.flashes (session c) ++
        [("message", "OOPS.You are not allowed to put a comment.please login")]))).
Proof.
  intros Hp Hm Hget Hs.
  rewrite (handle_post e r c show_cafe_ep) by (done || set_solver).
  by apply exec_Ok_eq, (show_cafe_post_anonymous e r c cafe).
Qed.

(** C9: adding a cafe needs a login.  A GET, HEAD or POST request to
    /add_cafe by a visitor who is not logged in is refused with 401
    Unauthorized and changes nothing; it is not redirected to the login
    page, because no login view is configured. *)
Theorem add_cafe_requires_login e r c :
  path r = "/add_cafe" → method r ∈ [GET; HEAD; POST] →
  Session.user_id (session c) = None →
  handle e r c = (Err (Abort 401), c).
Proof.
  intros Hp Hm Hs. pose proof (add_cafe_anonymous r c Hs) as Hview.
  rewrite (handle_view e r c add_cafe_ep); [by apply exec_Err_eq|done| |].
  - revert Hm. generalize (method r). vm_compute. set_solver.
  - intros Heq. rewrite Heq in Hm. set_solver.
Qed.

(** C25: registration.  A POST to /register with a name and an email that
    no user has stores the user under the next key with the hash of the
    password, logs the browser in as that user and redirects to the
    listing. *)
Theorem register_creates_account e r c n m p :
  path r = "/register" → method r = POST →
  form r !! "name" = Some n → form r !! "email" = Some m →
  form r !! "password" = Some p →
  taken User.name n (users (db c)) = false →
  taken User.email m (users (db c)) = false →
  let user := User.mk (next_key (users (db c))) n m
                (generate_password_hash p (seed e)) in
  handle e r c =
  (Ok (Redirect "/"),
   Ctx (set_users <[User.id user := user]> (db c))
       (Session.mk (Some (id_str (User.id user))) (Session.flashes (session c)))).
Proof.
  intros Hp Hm Hn He Hpw Hfn Hfe user.
  rewrite (handle_post e r c register_ep) by (done || set_solver).
  by apply exec_Ok_eq, register_post.
Qed.

(** C36: a duplicate registration fails.  A POST to /register with a name
    or an email that a user already has ends in the IntegrityError of the
    UNIQUE column, which main.py does not catch; nothing is stored and
    the browser is not logged in. *)
Theorem register_duplicate_fails e r c n m p :
  path r = "/register" → method r = POST →
  form r !! "name" = Some n → form r !! "email" = Some m →
  form r !! "password" = Some p →
  taken User.name n (users (db c)) || taken User.email m (users (db c)) = true →
  ∃ column, column ∈ ["user.name"; "user.email"] ∧
    handle e r c = (Err (Raised (IntegrityError (Unique column))), c).
Proof.
  intros Hp Hm Hn He Hpw Htaken.
  rewrite (handle_post e r c register_ep) by (done || set_solver).
  assert (∃ column, column ∈ ["user.name"; "user.email"] ∧
            insert_user (Some n) (Some m) (Some (generate_password_hash p (seed e)))
              (db c) = Err (Raised (IntegrityError (Unique column))))
    as (column & Hcol & Hins).
  { destruct (taken User.name n (users (db c))) eqn:Hfn.
    - exists "user.name". split; [set_solver|by apply insert_user_name_taken].
    - exists "user.email". split; [set_solver|by apply insert_user_email_taken]. }
  exists column. split; [done|]. apply exec_Err_eq. apply with_db_Err in Hins.
  simpl. unfold register. rewrite (is_post_true r Hm), Hn, He, Hpw. simpl. by prog_run.
Qed.

(** C37: a missing password is an uncaught error.  A POST without a
    password field makes /register fail in generate_password_hash and,
    when the email is that of a user, /login fail in check_password_hash:
    both raise AttributeError on None. *)
Theorem missing_password_raises e r c :
  method r = POST → form r !! "password" = None →
  (path r = "/register" → handle e r c = (Err (Raised AttributeError), c)) ∧
  (path r = "/login" →
   is_Some (select_user_by_email (db c) (form r !! "email")) →
   handle e r c = (Err (Raised AttributeError), c)).
Proof.
  intros Hm Hpw. split.
  - intros Hp. rewrite (handle_post e r c register_ep) by (done || set_solver).
    by apply exec_Err_eq, register_post_no_password.
  - intros Hp [user Hq]. rewrite (handle_post e r c login_ep) by (done || set_solver).
    by eapply exec_Err_eq, login_post_no_password.
Qed.

(** C26: login.  A POST to /login with the email of a stored user and a
    password that the stored hash accepts makes the browser's session that
    user's and redirects to the listing; the database is not touched. *)
Theorem login_succeeds e r c user p :
  path r = "/login" → method r = POST →
  select_user_by_email (db c) (form r !! "email") = Some user →
  form r !! "password" = Some p →
  check_password_hash (User.password user) p = true →
  handle e r c =
  (Ok (Redirect "/"),
   Ctx (db c) (Session.mk (Some (id_str (User.id user))) (Session.flashes (session c)))).
Proof.
  intros Hp Hm Hq Hpw Hcheck.
  rewrite (handle_post e r c login_ep) by (done || set_solver).
  by apply exec_Ok_eq, (login_post_success r c user p).
Qed.

(** C27: a failed login.  A POST to /login with an unknown email, or with
    a password that the stored hash rejects, logs nobody in: the session
    keeps its user, the browser is sent back to the login page, and the
    message flashed is the one of the branch taken: "Email does not
    exit!please try again." (main.py:189) when no user has the email,
    "Password Incorrect!please try again" (main.py:192) when one has. *)
Theorem login_rejects e r c p :
  path r = "/login" → method r = POST → form r !! "password" = Some p →
  from_option (λ user, check_password_hash (User.password user) p = false) True
    (select_user_by_email (db c) (form r !! "email")) →
  handle e r c =
  (Ok (Redirect "/login"),
   Ctx (db c) (Session.mk (Session.user_id (session c))
     (Session.flashes (session c) ++
        [("message",
          match select_user_by_email (db c) (form r !! "email") with
          | Some _ => "Password Incorrect!please try again"
          | None => "Email does not exit!please try again."
          end)]))).
Proof.
  intros Hp Hm Hpw Hbad.
  rewrite (handle_post e r c login_ep) by (done || set_solver).
  destruct (select_user_by_email (db c) (form r !! "email")) as [user|] eqn:Hq.
  - by apply exec_Ok_eq, (login_post_wrong_password r c user p).
  - by apply exec_Ok_eq, login_post_unknown_email.
Qed.

(** The last branch of login is dead.  A POST to /login that does not
    fail always redirects: the final render of login.html is reached by
    GET only, since the third test of the if/elif chain is the negation
    of the first. *)
Theorem login_post_redirects r c resp c' :
  method r = POST → login r c = Ok (resp, c') →
  db c' = db c ∧ (resp = Redirect "/" ∨ resp = Redirect "/login").
Proof.
  intros Hm Hrun.
  destruct (select_user_by_email (db c) (form r !! "email")) as [user|] eqn:Hq;
    [|rewrite login_post_unknown_email in Hrun by done; injection Hrun as <- <-; auto].
  destruct (form r !! "password") as [p|] eqn:Hpw;
    [|by rewrite (login_post_no_password r c user) in Hrun].
  destruct (check_password_hash (User.password user) p) eqn:Hcheck.
  - rewrite (login_post_success r c user p) in Hrun by done.
    injection Hrun as <- <-. auto.
  - rewrite (login_post_wrong_password r c user p) in Hrun by done.
    injection Hrun as <- <-. auto.
Qed.

(** Logout.  A request to /logout by a browser whose session is
    anonymous or names a stored user forgets the user and redirects to
    the listing; flashed messages are kept. *)
Theorem logout_forgets_user e r c :
  path r = "/logout" → method r ∈ [GET; HEAD] →
  session_valid (db c) (session c) →
  handle e r c =
  (Ok (Redirect "/"), Ctx (db c) (Session.mk None (Session.flashes (session c)))).
Proof.
  intros Hp Hm Hv. rewrite (handle_get e r c logout_ep) by done.
  by apply exec_Ok_eq, logout_valid.
Qed.

(** C28: adding a cafe.  A POST to /add_cafe by a logged-in user, with a
    valid CSRF token, every field filled, both URLs accepted by the URL
    validator and a name and map URL that no cafe has, stores the cafe
    under the next key with the submitted texts and the logged-in user as
    its owner, and redirects to the listing. *)
Theorem add_cafe_stores_cafe e r c u n m i l hs ht hw cc s p :
  path r = "/add_cafe" → method r = POST →
  session_user (db c) (session c) = Some u →
  csrf r = None → AddingForm_ok (AddingForm.process (form r)) →
  AddingForm.process (form r) =
    AddingForm.mk (Some n) (Some m) (Some i) (Some l) (Some hs) (Some ht)
      (Some hw) (Some cc) (Some s) (Some p) →
  taken Cafe.name n (cafes (db c)) = false →
  taken Cafe.map_url m (cafes (db c)) = false →
  let cafe := Cafe.mk (next_key (cafes (db c))) n m i l (Some (User.id u))
                hs ht hw cc s p in
  handle e r c =
  (Ok (Redirect "/"), Ctx (set_cafes <[Cafe.id cafe := cafe]> (db c)) (session c)).
Proof.
  intros Hp Hm Hu Hcsrf Hok Hform Hfn Hfm cafe.
  rewrite (handle_post e r c add_cafe_ep) by (done || set_solver).
  apply exec_Ok_eq, (add_cafe_post r c u); try done.
  by apply validate_AddingForm.
Qed.

(** C39: an invalid submission stores nothing.  A POST to /add_cafe by a
    logged-in user whose form does not validate (a bad CSRF token, an
    empty field, a URL the validator rejects, an amenity outside the
    three choices) shows the form again with the errors of each field and
    leaves the database and the session as they were. *)
Theorem add_cafe_rejects_invalid e r c u :
  path r = "/add_cafe" → method r = POST →
  session_user (db c) (session c) = Some u →
  ¬ (csrf r = None ∧ AddingForm_ok (AddingForm.process (form r))) →
  handle e r c =
  (Ok (Render (add_cafe_html (AddingForm.process (form r))
                 (AddingForm.errors (AddingForm.process (form r))))), c).
Proof.
  intros Hp Hm Hu Hbad.
  rewrite (handle_post e r c add_cafe_ep) by (done || set_solver).
  apply exec_Ok_eq, (add_cafe_post_invalid r c u); try done.
  apply not_true_is_false. by rewrite validate_AddingForm.
Qed.

(** C30: deleting a cafe.  A GET or HEAD to /delete with the id of a
    stored cafe removes the cafe, sets to NULL the cafe_id of its reviews and
    redirects to the listing, whoever sends it: the session is not
    looked at. *)
Theorem delete_removes_cafe e r c cafe :
  path r = "/delete" → method r ∈ [GET; HEAD] →
  get_or_404 (cafes (db c)) (default " " (args r !! "id")) = Ok cafe →
  handle e r c =
  (Ok (Redirect "/"),
   Ctx (Database (base.delete (Cafe.id cafe) (cafes (db c))) (users (db c))
          (Review.detach (Cafe.id cafe) <$> reviews (db c)))
       (session c)).
Proof.
  intros Hp Hm Hget. rewrite (handle_get e r c delete_ep) by done.
  by apply exec_Ok_eq, delete_found.
Qed.

(** C40: a cafe that is not there.  /caffe and /delete answer 404 and
    change nothing when the id is missing from the query string, is not
    the text of a number or is the key of no cafe. *)
Theorem missing_cafe_is_404 e r c f :
  path r = "/caffe" ∨ path r = "/delete" → method r ∈ [GET; HEAD] →
  get_or_404 (cafes (db c)) (default " " (args r !! "id")) = Err f →
  handle e r c = (Err (Abort 404), c).
Proof.
  intros [Hp|Hp] Hm Hget.
  - rewrite (handle_get e r c show_cafe_ep) by done.
    by eapply exec_Err_eq, show_cafe_missing.
  - rewrite (handle_get e r c delete_ep) by done.
    by eapply exec_Err_eq, delete_missing.
Qed.

(** C29: posting a review.  A POST to /caffe by a logged-in user on a
    stored cafe stores a review with the submitted body, that user as its
    author and that cafe as its cafe, under the next key, and renders the
    cafe's page with the new review among the cafe's reviews. *)
Theorem review_is_stored e r c cafe user body :
  path r = "/caffe" → method r = POST →
  get_or_404 (cafes (db c)) (default " " (args r !! "id")) = Ok cafe →
  session_user (db c) (session c) = Some user →
  form r !! "body" = Some body →
  let review := Review.mk (next_key (reviews (db c))) body
                  (Some (User.id user)) (Some (Cafe.id cafe)) in
  let d' := set_reviews <[Review.review_id review := review]> (db c) in
  handle e r c =
  (Ok (Render (Caffe_html cafe (cafe_review d' cafe) (choice (pick e) logos)
                 (Comment.mk (Some body)) true (now e))),
   Ctx d' (session c)) ∧
  review ∈ cafe_review d' cafe.
Proof.
  intros Hp Hm Hget Hu Hbody review d'.
  rewrite (handle_post e r c show_cafe_ep) by (done || set_solver).
  split; [by apply exec_Ok_eq, (show_cafe_post_review e r c cafe user body)|].
  apply elem_of_cafe_review. split; [done|].
  exists (Review.review_id review). apply lookup_insert_eq.
Qed.

(** C38: the comment form is never validated.  The body of a review is
    taken from the request as sent: without a body field the commit fails
    on the NOT NULL column with an IntegrityError that main.py does not
    catch, and nothing is stored. *)
Theorem review_without_body_fails e r c cafe user :
  path r = "/caffe" → method r = POST →
  get_or_404 (cafes (db c)) (default " " (args r !! "id")) = Ok cafe →
  session_user (db c) (session c) = Some user →
  form r !! "body" = None →
  handle e r c = (Err (Raised (IntegrityError (NotNull "review.review_content"))), c).
Proof.
  intros Hp Hm Hget Hu Hbody.
  rewrite (handle_post e r c show_cafe_ep) by (done || set_solver).
  by apply exec_Err_eq, (show_cafe_post_no_body e r c cafe user).
Qed.

(** Routing.  A path without a rule is answered 404 and a POST to a
    rule that lists GET only (/, /logout, /delete) 405; neither runs a
    view function nor changes anything. *)
Theorem routing_errors e r c :
  (path r ∉ url_map.*1.*1 → handle e r c = (Err (Abort 404), c)) ∧
  (∀ ep, path r = url_for ep → method r ∉ methods_of ep →
         handle e r c = (Err (Abort 405), c)) ∧
  (method r = POST → path r ∈ ["/"; "/logout"; "/delete"] →
   handle e r c = (Err (Abort 405), c)) ∧
  (∀ ep, path r = url_for ep → method r = OPTIONS →
         handle e r c = (Ok (Options (methods_of ep)), c)).
Proof.
  split_and!.
  - intros Hp. unfold handle. by rewrite dispatch_not_found.
  - intros ep. apply handle_not_allowed.
  - intros Hm Hp. set_unfold.
    destruct Hp as [Hp|[Hp|[Hp|[]]]];
      [apply (handle_not_allowed e r c show_all_caffe_ep Hp)
      |apply (handle_not_allowed e r c logout_ep Hp)
      |apply (handle_not_allowed e r c delete_ep Hp)];
      rewrite Hm, methods_of_post; set_solver.
  - intros ep. apply handle_options.
Qed.

End routes.

(** ** Sample requests

    Concrete requests and contexts, with the reference codec, hasher and
    URL validator, on which the theorems are instantiated. *)

Module Sample.

Definition e0 : env := Env 18 1 7.

Definition req (path : string) (m : http_method)
    (args form : list (string * string)) : request :=
  Request path m (list_to_map args) (list_to_map form) None.

Definition register_alice : request :=
  req "/register" POST []
    [("name", "alice"); ("email", "alice@example.com"); ("password", "pw123")].

Definition login_alice : request :=
  req "/login" POST [] [("email", "alice@example.com"); ("password", "pw123")].

Definition login_wrong : request :=
  req "/login" POST [] [("email", "alice@example.com"); ("password", "guess")].

Definition login_unknown : request :=
  req "/login" POST [] [("email", "bob@example.com"); ("password", "pw123")].

Definition add_cafe_a : request :=
  req "/add_cafe" POST []
    [("name", "Cafe A"); ("map_url", "https://maps.example/a");
     ("cafe_image_url", "https://img.example/a.png"); ("cafe_location", "Tunis");
     ("sockets", "Select yes or no"); ("Toilet", "yes"); ("wifi", "no");
     ("Calls", "yes"); ("seats", "12"); ("price", "3")].

Definition review_a : request := req "/caffe" POST [("id", "1")] [("body", "nice")].

Definition delete_a : request := req "/delete" GET [("id", "1")] [].

Definition index : request := req "/" GET [] [].

(** The context of a first visit: empty tables, no cookie. *)
Definition fresh : ctx := Ctx create_all Session.empty.

(** The context after the requests of one browser, served in order. *)
Definition after (rs : list request) : ctx :=
  foldl (λ c r, (handle e0 r c).2) fresh rs.

(** The same database seen by a browser without a cookie. *)
Definition anonymous (c : ctx) : ctx := Ctx (db c) Session.empty.

(** The requests above with a field left out or changed. *)
Definition register_no_password : request :=
  req "/register" POST [] [("name", "bob"); ("email", "bob@example.com")].

Definition register_alice_again : request :=
  req "/register" POST []
    [("name", "alice2"); ("email", "alice@example.com"); ("password", "other")].

Definition add_cafe_bad_url : request :=
  req "/add_cafe" POST []
    [("name", "Cafe B"); ("map_url", "maps.example"); ("cafe_image_url", "");
     ("cafe_location", "Sfax"); ("sockets", "maybe"); ("Toilet", "yes"); ("wifi", "no");
     ("Calls", "yes"); ("seats", "12"); ("price", "3")].

Definition review_no_body : request := req "/caffe" POST [("id", "1")] [].

Definition logout_get : request := req "/logout" GET [] [].

Definition delete_missing_id : request := req "/delete" GET [] [].

(** The rows the requests above store. *)
Definition alice : User.t :=
  User.mk 1 "alice" "alice@example.com" (generate_password_hash "pw123" 7).

Definition cafe_a : Cafe.t :=
  Cafe.mk 1 "Cafe A" "https://maps.example/a" "https://img.example/a.png" "Tunis"
    (Some 1) "Select yes or no" "yes" "no" "yes" "12" "3".

(** Alice registered; Alice registered and added the cafe. *)
Definition c1 : ctx := after [register_alice].
Definition c2 : ctx := after [register_alice; add_cafe_a].

End Sample.

(** ** The theorems on the sample requests *)

Ltac sample := first [by_compute | vm_compute; reflexivity | vm_compute; exact I].

Lemma review_requires_login_witness :
  handle Sample.e0 Sample.review_a (Sample.anonymous Sample.c2) =
  (Ok (Redirect "/login"),
   Ctx (db (Sample.anonymous Sample.c2)) (Session.mk None
     (Session.flashes (session (Sample.anonymous Sample.c2)) ++
        [("message", "OOPS.You are not allowed to put a comment.please login")]))).
Proof. apply (review_requires_login _ _ _ Sample.cafe_a); sample. Defined.

Lemma add_cafe_requires_login_witness :
  handle Sample.e0 Sample.add_cafe_a (Sample.anonymous Sample.c1) =
  (Err (Abort 401), Sample.anonymous Sample.c1).
Proof. apply add_cafe_requires_login; sample. Defined.

Lemma register_creates_account_witness :
  handle Sample.e0 Sample.register_alice Sample.fresh =
  (Ok (Redirect "/"),
   Ctx (set_users <[1 := Sample.alice]> (db Sample.fresh))
       (Session.mk (Some (id_str 1)) (Session.flashes (session Sample.fresh)))).
Proof.
  apply (register_creates_account Sample.e0 Sample.register_alice Sample.fresh
           "alice" "alice@example.com" "pw123"); sample.
Defined.

Lemma register_duplicate_fails_witness :
  ∃ column, column ∈ ["user.name"; "user.email"] ∧
    handle Sample.e0 Sample.register_alice_again (Sample.anonymous Sample.c1) =
    (Err (Raised (IntegrityError (Unique column))), Sample.anonymous Sample.c1).
Proof.
  apply (register_duplicate_fails _ _ _ "alice2" "alice@example.com" "other"); sample.
Defined.

Lemma missing_password_raises_witness :
  (path Sample.register_no_password = "/register" →
   handle Sample.e0 Sample.register_no_password Sample.fresh =
   (Err (Raised AttributeError), Sample.fresh)) ∧
  (path Sample.register_no_password = "/login" →
   is_Some (select_user_by_email (db Sample.fresh)
              (form Sample.register_no_password !! "email")) →
   handle Sample.e0 Sample.register_no_password Sample.fresh =
   (Err (Raised AttributeError), Sample.fresh)).
Proof. apply missing_password_raises; sample. Defined.

Lemma login_succeeds_witness :
  handle Sample.e0 Sample.login_alice (Sample.anonymous Sample.c2) =
  (Ok (Redirect "/"),
   Ctx (db (Sample.anonymous Sample.c2))
       (Session.mk (Some (id_str (User.id Sample.alice)))
          (Session.flashes (session (Sample.anonymous Sample.c2))))).
Proof. apply (login_succeeds _ _ _ Sample.alice "pw123"); sample. Defined.

Lemma login_rejects_witness :
  handle Sample.e0 Sample.login_wrong (Sample.anonymous Sample.c2) =
  (Ok (Redirect "/login"),
   Ctx (db (Sample.anonymous Sample.c2))
     (Session.mk (Session.user_id (session (Sample.anonymous Sample.c2)))
        (Session.flashes (session (Sample.anonymous Sample.c2)) ++
           [("message", "Password Incorrect!please try again")]))) ∧
  handle Sample.e0 Sample.login_unknown (Sample.anonymous Sample.c2) =
  (Ok (Redirect "/login"),
   Ctx (db (Sample.anonymous Sample.c2))
     (Session.mk (Session.user_id (session (Sample.anonymous Sample.c2)))
        (Session.flashes (session (Sample.anonymous Sample.c2)) ++
           [("message", "Email does not exit!please try again.")]))).
Proof.
  split.
  - etrans; [apply (login_rejects Sample.e0 Sample.login_wrong _ "guess"); sample|].
    by vm_compute.
  - etrans; [apply (login_rejects Sample.e0 Sample.login_unknown _ "pw123"); sample|].
    by vm_compute.
Defined.

Lemma login_post_redirects_witness :
  db (handle Sample.e0 Sample.login_wrong (Sample.anonymous Sample.c2)).2 =
    db (Sample.anonymous Sample.c2) ∧
  (Redirect "/login" = Redirect "/" ∨ Redirect "/login" = Redirect "/login").
Proof.
  apply (login_post_redirects Sample.login_wrong (Sample.anonymous Sample.c2)); sample.
Defined.

Lemma logout_forgets_user_witness :
  handle Sample.e0 Sample.logout_get Sample.c2 =
  (Ok (Redirect "/"),
   Ctx (db Sample.c2) (Session.mk None (Session.flashes (session Sample.c2)))).
Proof. apply logout_forgets_user; sample. Defined.

Lemma add_cafe_stores_cafe_witness :
  handle Sample.e0 Sample.add_cafe_a Sample.c1 =
  (Ok (Redirect "/"),
   Ctx (set_cafes <[1 := Sample.cafe_a]> (db Sample.c1)) (session Sample.c1)).
Proof.
  apply (add_cafe_stores_cafe Sample.e0 Sample.add_cafe_a Sample.c1 Sample.alice
           "Cafe A" "https://maps.example/a" "https://img.example/a.png" "Tunis"
           "Select yes or no" "yes" "no" "yes" "12" "3"); sample.
Defined.

Lemma add_cafe_rejects_invalid_witness :
  handle Sample.e0 Sample.add_cafe_bad_url Sample.c1 =
  (Ok (Render (add_cafe_html (AddingForm.process (form Sample.add_cafe_bad_url))
                 (AddingForm.errors (AddingForm.process (form Sample.add_cafe_bad_url))))),
   Sample.c1).
Proof. apply (add_cafe_rejects_invalid _ _ _ Sample.alice); sample. Defined.

Lemma delete_removes_cafe_witness :
  handle Sample.e0 Sample.delete_a (Sample.anonymous Sample.c2) =
  (Ok (Redirect "/"),
   Ctx (Database (base.delete 1 (cafes (db (Sample.anonymous Sample.c2))))
          (users (db (Sample.anonymous Sample.c2)))
          (Review.detach 1 <$> reviews (db (Sample.anonymous Sample.c2))))
       (session (Sample.anonymous Sample.c2))).
Proof. apply (delete_removes_cafe _ _ _ Sample.cafe_a); sample. Defined.

Lemma missing_cafe_is_404_witness :
  handle Sample.e0 Sample.delete_missing_id Sample.c2 = (Err (Abort 404), Sample.c2).
Proof.
  apply (missing_cafe_is_404 _ _ _ (Abort 404)); [by right|sample..].
Defined.

Lemma review_is_stored_witness :
  let review := Review.mk 1 "nice" (Some 1) (Some 1) in
  let d' := set_reviews <[1 := review]> (db Sample.c2) in
  handle Sample.e0 Sample.review_a Sample.c2 =
  (Ok (Render (Caffe_html Sample.cafe_a (cafe_review d' Sample.cafe_a)
                 (choice (pick Sample.e0) logos) (Comment.mk (Some "nice")) true
                 (now Sample.e0))),
   Ctx d' (session Sample.c2)) ∧
  review ∈ cafe_review d' Sample.cafe_a.
Proof.
  apply (review_is_stored Sample.e0 Sample.review_a Sample.c2 Sample.cafe_a
           Sample.alice "nice"); sample.
Defined.

Lemma review_without_body_fails_witness :
  handle Sample.e0 Sample.review_no_body Sample.c2 =
  (Err (Raised (IntegrityError (NotNull "review.review_content"))), Sample.c2).
Proof.
  apply (review_without_body_fails _ _ _ Sample.cafe_a Sample.alice); sample.
Defined.
