(* ===== verification/Effects.v ===== *)
(** * Effects: what a request may do to the database and the session

    The abstract side of the application: the eight operations a served
    request can perform ([op]), the guard under which each is allowed
    ([permitted]) and its effect on the database and the session
    ([apply_op]).  The invariants of the state are proved here once, over
    [apply_op]; that every view function of main.py performs one permitted
    operation (the refinement) is proved at the end of the file, from the
    branch lemmas of Handlers. *)

From S2P Require Import Prelude.
From S2P Require Import Tables.
From S2P Require Import Interfaces.
From S2P Require Import Store.
From S2P Require Import Forms.
From S2P Require Import Auth.
From S2P Require Import Handlers.

(** ** Operations *)

Inductive op :=
| Read
| Flash (message : string)
| Register (u : User.t) (password : string) (seed : nat)
| LogIn (u : User.t) (password : string)
| LogOut
| AddCafe (cafe : Cafe.t)
| AddReview (review : Review.t)
| DeleteCafe (cafe : Cafe.t).

Definition as_user `{IdCodec} (u : User.t) (s : Session.t) : Session.t :=
  Session.mk (Some (id_str (User.id u))) (Session.flashes s).

Definition apply_op `{IdCodec} (o : op) (c : ctx) : ctx :=
  match o with
  | Read => c
  | Flash message =>
      Ctx (db c) (Session.mk (Session.user_id (session c))
                    (Session.flashes (session c) ++ [("message", message)]))
  | Register u _ _ =>
      Ctx (set_users <[User.id u := u]> (db c)) (as_user u (session c))
  | LogIn u _ => Ctx (db c) (as_user u (session c))
  | LogOut => Ctx (db c) (Session.mk None (Session.flashes (session c)))
  | AddCafe cafe => Ctx (set_cafes <[Cafe.id cafe := cafe]> (db c)) (session c)
  | AddReview review =>
      Ctx (set_reviews <[Review.review_id review := review]> (db c)) (session c)
  | DeleteCafe cafe =>
      Ctx (Database (base.delete (Cafe.id cafe) (cafes (db c))) (users (db c))
             (Review.detach (Cafe.id cafe) <$> reviews (db c)))
          (session c)
  end.

(** The guard of each operation: new rows take the next key and respect
    the UNIQUE columns; a new user stores a generated hash; a login names
    a stored user whose hash accepts the password; cafes and reviews are
    written by the logged-in user, a review on a stored cafe; only a
    stored cafe is deleted. *)
Definition permitted `{IdCodec} `{PasswordHasher} (o : op) (c : ctx) : Prop :=
  match o with
  | Read | Flash _ | LogOut => True
  | Register u password seed =>
      User.id u = next_key (users (db c)) ∧
      taken User.name (User.name u) (users (db c)) = false ∧
      taken User.email (User.email u) (users (db c)) = false ∧
      User.password u = generate_password_hash password seed
  | LogIn u password =>
      users (db c) !! User.id u = Some u ∧
      check_password_hash (User.password u) password = true
  | AddCafe cafe =>
      Cafe.id cafe = next_key (cafes (db c)) ∧
      taken Cafe.name (Cafe.name cafe) (cafes (db c)) = false ∧
      taken Cafe.map_url (Cafe.map_url cafe) (cafes (db c)) = false ∧
      is_Some (session_user (db c) (session c)) ∧
      Cafe.user_id cafe = User.id <$> session_user (db c) (session c)
  | AddReview review =>
      Review.review_id review = next_key (reviews (db c)) ∧
      is_Some (session_user (db c) (session c)) ∧
      Review.user_id review = User.id <$> session_user (db c) (session c) ∧
      from_option (λ k, is_Some (cafes (db c) !! k)) False (Review.cafe_id review)
  | DeleteCafe cafe => cafes (db c) !! Cafe.id cafe = Some cafe
  end.

#[export] Instance permitted_dec `{IdCodec} `{PasswordHasher} o c :
  Decision (permitted o c).
Proof.
  destruct o as [ |?|???|??| |?|review|?]; simpl; try apply _.
  destruct (Review.cafe_id review); simpl; apply _.
Defined.

(** The state the invariants speak of: a well-formed database and a
    session that is anonymous or names a stored user. *)
Definition ctx_wf `{IdCodec} (c : ctx) : Prop :=
  db_wf (db c) ∧ session_valid (db c) (session c).

#[export] Instance ctx_wf_dec `{IdCodec} c : Decision (ctx_wf c).
Proof. unfold ctx_wf. apply _. Defined.

(** ** The invariants, operation by operation *)

Section ops.
Context `{IdCodec} `{PasswordHasher}.
Implicit Types (c : ctx) (o : op).

Lemma session_user_key d s u :
  db_wf d → session_user d s = Some u → is_Some (users d !! User.id u).
Proof.
  intros (_ & Hkey & _) [k Hk]%session_user_lookup.
  by rewrite <-(Hkey _ _ Hk) in Hk.
Qed.

(** No operation removes or changes a user. *)
Lemma apply_op_users o c :
  permitted o c → users (db c) ⊆ users (db (apply_op o c)).
Proof.
  destruct o; simpl; try done.
  intros (Hid & _). apply insert_subseteq. rewrite Hid. apply next_key_fresh.
Qed.

Lemma apply_op_db_wf o c :
  db_wf (db c) → permitted o c → db_wf (db (apply_op o c)).
Proof.
  intros Hwf Hop. destruct o as [| |u pw sd|u pw| |cafe|review|cafe]; simpl in *;
    try done.
  - destruct Hop as (Hid & Hn & He & Hpw), u as [k n e p]; simpl in *; subst k.
    eapply (insert_user_wf (Some n) (Some e) (Some p)); [done|].
    apply insert_user_Ok. eauto 10.
  - destruct Hop as (Hid & Hn & Hm & [u Hu] & Huid).
    destruct cafe as [k n m i l ou hs ht hw cc s p]; simpl in *; subst k.
    eapply (insert_cafe_wf (Some n) (Some m) ou (Some i) (Some l) (Some hs)
              (Some ht) (Some hw) (Some cc) (Some s) (Some p)); [done| |].
    + rewrite Huid, Hu. by apply (session_user_key (db c) (session c)).
    + apply insert_cafe_Ok. eauto 30.
  - destruct Hop as (Hid & [u Hu] & Huid & Hcafe).
    destruct review as [k t ou oc]; simpl in *; subst k.
    eapply (insert_review_wf (Some t) ou oc); [done| | |].
    + rewrite Huid, Hu. by apply (session_user_key (db c) (session c)).
    + by destruct oc.
    + apply insert_review_Ok. eauto.
  - by eapply (delete_cafe_wf cafe).
Qed.

Lemma apply_op_session_valid o c :
  session_valid (db c) (session c) → permitted o c →
  session_valid (db (apply_op o c)) (session (apply_op o c)).
Proof.
  intros Hv Hop. destruct o; simpl in *; auto with cafe.
  - apply session_valid_login. simpl. apply lookup_insert_eq.
  - apply session_valid_login. tauto.
Qed.

Lemma apply_op_ctx_wf o c : ctx_wf c → permitted o c → ctx_wf (apply_op o c).
Proof.
  intros [Hwf Hv] Hop. split; [by apply apply_op_db_wf|by apply apply_op_session_valid].
Qed.

(** The login state after an operation: the automaton of the session. *)
Definition auth_after (o : op) (a : option User.t) : option User.t :=
  match o with
  | Register u _ _ | LogIn u _ => Some u
  | LogOut => None
  | _ => a
  end.

Lemma apply_op_session_user o c :
  permitted o c →
  session_user (db (apply_op o c)) (session (apply_op o c)) =
  auth_after o (session_user (db c) (session c)).
Proof.
  unfold session_user. intros Hop. destruct o; simpl in *; try done.
  - rewrite id_of_text_str. simpl. apply lookup_insert_eq.
  - rewrite id_of_text_str. simpl. tauto.
Qed.

(** The cafes and reviews change by one row at a time. *)
Lemma apply_op_cafes o c k :
  cafes (db (apply_op o c)) !! k =
  match o with
  | AddCafe cafe => if decide (k = Cafe.id cafe) then Some cafe else cafes (db c) !! k
  | DeleteCafe cafe => if decide (k = Cafe.id cafe) then None else cafes (db c) !! k
  | _ => cafes (db c) !! k
  end.
Proof.
  destruct o; simpl; try done; case_decide; subst;
    by rewrite ?lookup_insert_eq, ?lookup_insert_ne, ?lookup_delete_eq,
         ?lookup_delete_ne by done.
Qed.

End ops.

(** ** Which operation a view function may perform *)

(** The access matrix of the routes: the operations each view function
    can perform for each method.  A POST is what the view functions test
    for; an OPTIONS request is answered without running a view function. *)
Definition may_perform (ep : endpoint) (m : http_method) (o : op) : bool :=
  match o with
  | Read =>
      bool_decide (m = OPTIONS) ||
      match ep with
      | show_all_caffe_ep | add_cafe_ep => true
      | show_cafe_ep | register_ep | login_ep => bool_decide (m ≠ POST)
      | logout_ep | delete_ep => false
      end
  | Flash _ => bool_decide (m = POST) && bool_decide (ep ∈ [show_cafe_ep; login_ep])
  | Register _ _ _ => bool_decide (m = POST) && bool_decide (ep = register_ep)
  | LogIn _ _ => bool_decide (m = POST) && bool_decide (ep = login_ep)
  | LogOut => bool_decide (m ≠ OPTIONS) && bool_decide (ep = logout_ep)
  | AddCafe _ => bool_decide (m = POST) && bool_decide (ep = add_cafe_ep)
  | AddReview _ => bool_decide (m = POST) && bool_decide (ep = show_cafe_ep)
  | DeleteCafe _ => bool_decide (m ≠ OPTIONS) && bool_decide (ep = delete_ep)
  end.

Lemma may_perform_read ep m :
  m ≠ POST → ep ∈ [show_cafe_ep; register_ep; login_ep] → may_perform ep m Read = true.
Proof.
  intros Hm Hep. simpl. rewrite (bool_decide_eq_true_2 (m ≠ POST)) by done.
  set_unfold. destruct Hep as [->|[->|[->|[]]]]; apply orb_true_r.
Qed.

Lemma may_perform_options ep o : may_perform ep OPTIONS o = true → o = Read.
Proof. by destruct o. Qed.

(** A run of a view function refines the abstract operations: when it
    succeeds, the state it leaves is the effect of an operation that the
    matrix lists for the endpoint and that was permitted. *)
Definition refines `{IdCodec} `{PasswordHasher} {A}
    (ep : endpoint) (m : http_method) (view : prog ctx failure A) (c : ctx) : Prop :=
  ∀ a c', view c = Ok (a, c') →
    ∃ o, may_perform ep m o = true ∧ permitted o c ∧ c' = apply_op o c.

(** Reads a successful run of a view function backwards, step by step. *)
Ltac view_inv H :=
  unfold redirect in H;
  repeat first
    [ rewrite pbind_pget in H
    | rewrite pbind_flash in H
    | rewrite pbind_login_user in H
    | apply bind_current_user_Ok in H as (? & H)
    | apply bind_with_db_Ok in H as (? & ? & ? & H)
    | apply bind_plift_Ok in H as (? & ? & H)
    | apply render_template_Ok in H as [-> ->]
    | apply pret_Ok in H as [-> ->] ].

Section refinement.
Context `{IdCodec} `{PasswordHasher} `{UrlValidator}.
Implicit Types (c : ctx) (r : request) (e : env).

Lemma get_or_404_key c ident cafe :
  db_wf (db c) → get_or_404 (cafes (db c)) ident = Ok cafe →
  cafes (db c) !! Cafe.id cafe = Some cafe.
Proof.
  intros (Hkey & _) (k & _ & Hk)%get_or_404_Ok. by rewrite (Hkey _ _ Hk).
Qed.

Lemma show_all_caffe_refines m c : refines show_all_caffe_ep m show_all_caffe c.
Proof.
  intros resp c' Hrun. unfold show_all_caffe in Hrun. view_inv Hrun.
  exists Read. split; [apply orb_true_r|done].
Qed.

Lemma show_cafe_refines e r c :
  db_wf (db c) → refines show_cafe_ep (method r) (show_cafe e r) c.
Proof.
  intros Hwf resp c' Hrun. unfold show_cafe in Hrun.
  rewrite pbind_pget in Hrun. apply bind_plift_Ok in Hrun as (cafe & Hget & Hrun).
  unfold is_post in Hrun. case_bool_decide as Hm; cycle 1.
  { view_inv Hrun. exists Read. by rewrite may_perform_read by set_solver. }
  rewrite Hm. apply bind_current_user_Ok in Hrun as (Hv & Hrun).
  destruct (session_user (db c) (session c)) as [u|] eqn:Hu.
  - view_inv Hrun.
    match goal with Hins : insert_review _ _ _ _ = _ |- _ =>
      apply insert_review_Ok in Hins as (t & Hbody & -> & ->) end.
    exists (AddReview (Review.mk (next_key (reviews (db c))) t
                         (Some (User.id u)) (Some (Cafe.id cafe)))).
    split; [done|]. split; [|done]. simpl.
    rewrite Hu, (get_or_404_key c _ cafe) by done. eauto.
  - view_inv Hrun. by eexists (Flash _).
Qed.

Lemma register_refines e r c : refines register_ep (method r) (register e r) c.
Proof.
  intros resp c' Hrun. unfold register, is_post in Hrun.
  case_bool_decide as Hpost; cycle 1.
  { view_inv Hrun. exists Read. by rewrite may_perform_read by set_solver. }
  rewrite Hpost. apply bind_plift_Ok in Hrun as (h & (pw & _ & ->)%generate_password_hash_py_Ok & Hrun).
  apply bind_with_db_Ok in Hrun as (u & d' & Hins & Hrun). view_inv Hrun.
  apply insert_user_Ok in Hins as (n & m & p & _ & _ & [= <-] & Hn & Hm & -> & ->).
  by exists (Register (User.mk (next_key (users (db c))) n m
                       (generate_password_hash pw (seed e))) pw (seed e)).
Qed.

Lemma login_refines r c :
  db_wf (db c) → refines login_ep (method r) (login r) c.
Proof.
  intros (_ & Hkey & _) resp c' Hrun. unfold login, is_post in Hrun.
  case_bool_decide as Hpost; cycle 1.
  { view_inv Hrun. exists Read. by rewrite may_perform_read by set_solver. }
  rewrite Hpost. rewrite pbind_pget in Hrun.
  destruct (select_user_by_email _ _) as [user|] eqn:Hq;
    [|view_inv Hrun; by eexists (Flash _)].
  apply bind_plift_Ok in Hrun as (ok & (pw & Hpw & ->)%check_password_hash_py_Ok & Hrun).
  destruct (check_password_hash _ pw) eqn:Hcheck.
  - view_inv Hrun. exists (LogIn user pw). split; [done|]. split; [|done].
    split; [by eapply select_user_by_email_key|done].
  - apply bind_plift_Ok in Hrun as (ok' & Hok & Hrun).
    rewrite Hpw in Hok. simpl in Hok. rewrite Hcheck in Hok. injection Hok as <-.
    view_inv Hrun. by eexists (Flash _).
Qed.

Lemma logout_refines m c : m ≠ OPTIONS → refines logout_ep m logout c.
Proof.
  intros Hm resp c' Hrun. unfold logout in Hrun.
  apply pbind_Ok_inv in Hrun as (b & c1 & ->%logout_user_Ok & Hrun).
  view_inv Hrun. exists LogOut. split; [|done]. simpl.
  by rewrite bool_decide_eq_true_2.
Qed.

Lemma add_cafe_refines r c :
  method r ∈ methods_of add_cafe_ep →
  refines add_cafe_ep (method r) (add_cafe r) c.
Proof.
  intros Hallowed.
  assert (is_submitted r = true → method r = POST) as Hsub.
  { unfold is_submitted. intros Hs%bool_decide_eq_true. revert Hallowed Hs.
    generalize (method r). intros []; vm_compute; set_solver. }
  intros resp c' Hrun. unfold add_cafe in Hrun.
  apply login_required_Ok in Hrun as [[u Hu] Hrun].
  destruct (validate_on_submit _ _ _) eqn:Hval;
    [|view_inv Hrun; exists Read; split; [apply orb_true_r|done]].
  assert (method r = POST) as Hpost
    by (apply Hsub; unfold validate_on_submit in Hval; by destruct (is_submitted r)).
  view_inv Hrun.
  match goal with Hins : insert_cafe _ _ _ _ _ _ _ _ _ _ _ _ = _ |- _ =>
    apply insert_cafe_Ok in Hins
      as (n&m&i&l&hs&ht&hw&cc&s&p&_&_&_&_&_&_&_&_&_&_&Hn&Hm&->&->) end.
  exists (AddCafe (Cafe.mk (next_key (cafes (db c))) n m i l (Some (User.id u))
                     hs ht hw cc s p)).
  split; [by rewrite Hpost|]. split; [|by rewrite Hu]. simpl. rewrite Hu. eauto 10.
Qed.

Lemma delete_refines r c :
  db_wf (db c) → method r ≠ OPTIONS → refines delete_ep (method r) (delete r) c.
Proof.
  intros Hwf Hm resp c' Hrun. unfold delete in Hrun. view_inv Hrun.
  match goal with Hdel : delete_cafe ?cafe _ = _ |- _ =>
    rewrite delete_cafe_Ok in Hdel; injection Hdel as _ <-; exists (DeleteCafe cafe) end.
  split; [simpl; by rewrite bool_decide_eq_true_2|]. split; [|done].
  by eapply get_or_404_key.
Qed.

(** Every view function refines the abstract operations, for the
    methods its rule lets through. *)
Lemma view_function_refines ep e r c :
  db_wf (db c) → method r ∈ methods_of ep → method r ≠ OPTIONS →
  refines ep (method r) (view_function ep e r) c.
Proof.
  intros Hwf Hallowed Hm. destruct ep; simpl;
    eauto using show_all_caffe_refines, show_cafe_refines, register_refines,
      login_refines, logout_refines, add_cafe_refines, delete_refines.
Qed.

(** What serving a request can do: fail and change nothing, or perform
    one permitted operation of the endpoint the path names. *)
Inductive served (e : env) (r : request) (c : ctx) :
    outcome failure response * ctx → Prop :=
| served_Err f : served e r c (Err f, c)
| served_Ok resp ep o :
    path r = url_for ep → may_perform ep (method r) o = true →
    permitted o c → served e r c (Ok resp, apply_op o c).

Lemma handle_served e r c : db_wf (db c) → served e r c (handle e r c).
Proof.
  intros Hwf. unfold handle, exec.
  destruct (dispatch e r c) as [[resp c']|f] eqn:Hrun; [|constructor].
  pose proof Hrun as Hrun'. unfold dispatch in Hrun'.
  destruct (list_find _ url_map) as [[i [[rule ep] methods]]|] eqn:Hfind; [|done].
  apply dispatch_find in Hfind as Hpath.
  rewrite (dispatch_rule e r ep Hpath) in Hrun.
  destruct (bool_decide (method r ∈ methods_of ep)) eqn:Hallowed; [|done].
  apply bool_decide_eq_true in Hallowed.
  destruct (bool_decide (method r = OPTIONS)) eqn:Hm;
    [apply bool_decide_eq_true in Hm|apply bool_decide_eq_false in Hm].
  - apply pret_Ok in Hrun as [-> ->]. apply (served_Ok _ _ _ _ ep Read); [done| |done].
    by rewrite Hm.
  - apply view_function_refines in Hrun as (o & Hmay & Hop & ->); [|done..].
    by econstructor.
Qed.

Lemma handle_ctx_wf e r c : ctx_wf c → ctx_wf (handle e r c).2.
Proof.
  intros Hwf. destruct (handle_served e r c) as [f|resp ep o _ _ Hop];
    [apply Hwf|done|by apply apply_op_ctx_wf].
Qed.

Lemma handle_users e r c :
  db_wf (db c) → users (db c) ⊆ users (db (handle e r c).2).
Proof.
  intros Hwf. destruct (handle_served e r c) as [f|resp ep o _ _ Hop];
    [done|done|by apply apply_op_users].
Qed.

End refinement.

(** ** The refinement and its consequences *)

Section main.
Context `{IdCodec} `{PasswordHasher} `{UrlValidator}.
Implicit Types (c : ctx) (r : request) (e : env).

(** C1: refinement.  A request that main.py answers without failing has
    performed exactly one abstract operation: the path names a route, the
    access matrix lists the operation for that route and method, its guard
    held in the state before, and the state after is its effect. *)
Theorem handle_refines e r c resp c' :
  db_wf (db c) → handle e r c = (Ok resp, c') →
  ∃ ep o, path r = url_for ep ∧ may_perform ep (method r) o = true ∧
          permitted o c ∧ c' = apply_op o c.
Proof.
  intros Hwf Hrun. pose proof (handle_served e r c Hwf) as Hserved.
  rewrite Hrun in Hserved. inversion Hserved; subst. eauto 10.
Qed.

(** C3: invariant.  Serving a request, whatever its outcome, keeps the
    database well formed and the session anonymous or that of a stored
    user, and removes no user. *)
Theorem handle_preserves_invariant e r c :
  ctx_wf c →
  ctx_wf (handle e r c).2 ∧ users (db c) ⊆ users (db (handle e r c).2).
Proof.
  intros Hwf. split; [by apply handle_ctx_wf|]. apply handle_users, Hwf.
Qed.

(** Safety of the reading methods.  A request that is not a POST
    performs the Read operation, which changes neither the database nor
    the session, except on the two routes that main.py lets act on GET
    and HEAD: /logout and /delete.  An OPTIONS request is safe on every
    route. *)
Theorem get_is_safe e r c :
  db_wf (db c) → method r ≠ POST →
  method r = OPTIONS ∨ (path r ≠ "/logout" ∧ path r ≠ "/delete") →
  (handle e r c).2 = apply_op Read c.
Proof.
  intros Hwf Hget Hsafe.
  destruct (handle_served e r c Hwf) as [f|resp ep o Hpath Hmay Hop]; [done|].
  destruct o; [done|simpl in Hmay; apply andb_true_iff in Hmay as [Hm Hep];
                    apply bool_decide_eq_true in Hm, Hep..]; try done.
  - subst ep. by destruct Hsafe as [?|[? _]].
  - subst ep. by destruct Hsafe as [?|[_ ?]].
Qed.

(** C4: access control.  A request without a logged-in session changes
    the database only by registering a user (POST /register) or by
    deleting a cafe (/delete): adding a cafe or a review needs a login,
    deleting a cafe does not. *)
Theorem anonymous_writes e r c resp c' :
  db_wf (db c) → Session.user_id (session c) = None →
  handle e r c = (Ok resp, c') → db c' ≠ db c →
  (∃ u pw sd, c' = apply_op (Register u pw sd) c ∧
              path r = "/register" ∧ method r = POST) ∨
  (∃ cafe, c' = apply_op (DeleteCafe cafe) c ∧ path r = "/delete").
Proof.
  intros Hwf Hanon Hrun Hneq.
  assert (session_user (db c) (session c) = None) as Hnone
    by (unfold session_user; by rewrite Hanon).
  pose proof (handle_served e r c Hwf) as Hserved. rewrite Hrun in Hserved.
  inversion Hserved as [|resp' ep o Hpath Hmay Hop]; subst.
  destruct o as [ |msg|u pw sd|u pw| |cafe|review|cafe]; simpl in *;
    [done|done| |done|done| | | ].
  - left. exists u, pw, sd. by destruct ep, (method r).
  - rewrite Hnone in Hop. by destruct Hop as (_ & _ & _ & [? [=]] & _).
  - rewrite Hnone in Hop. by destruct Hop as (_ & [? [=]] & _).
  - right. exists cafe. by destruct ep, (method r).
Qed.

End main.

Lemma handle_refines_witness :
  ∃ ep o, path Sample.register_alice = url_for ep ∧
          may_perform ep (method Sample.register_alice) o = true ∧
          permitted o Sample.fresh ∧
          (handle Sample.e0 Sample.register_alice Sample.fresh).2 = apply_op o Sample.fresh.
Proof.
  apply (handle_refines Sample.e0 Sample.register_alice Sample.fresh (Redirect "/"));
    [by_compute|vm_compute; reflexivity].
Defined.

Lemma handle_preserves_invariant_witness :
  ctx_wf (handle Sample.e0 Sample.add_cafe_a (Sample.after [Sample.register_alice])).2 ∧
  users (db (Sample.after [Sample.register_alice])) ⊆
  users (db (handle Sample.e0 Sample.add_cafe_a (Sample.after [Sample.register_alice])).2).
Proof. apply handle_preserves_invariant. by_compute. Defined.

Lemma get_is_safe_witness :
  (handle Sample.e0 Sample.index (Sample.after [Sample.register_alice])).2 =
  apply_op Read (Sample.after [Sample.register_alice]).
Proof. apply get_is_safe; [by_compute|discriminate|by right]. Defined.

Lemma anonymous_writes_witness :
  (∃ u pw sd,
     (handle Sample.e0 Sample.delete_a
        (Sample.anonymous (Sample.after [Sample.register_alice; Sample.add_cafe_a]))).2 =
     apply_op (Register u pw sd)
       (Sample.anonymous (Sample.after [Sample.register_alice; Sample.add_cafe_a])) ∧
     path Sample.delete_a = "/register" ∧ method Sample.delete_a = POST) ∨
  (∃ cafe,
     (handle Sample.e0 Sample.delete_a
        (Sample.anonymous (Sample.after [Sample.register_alice; Sample.add_cafe_a]))).2 =
     apply_op (DeleteCafe cafe)
       (Sample.anonymous (Sample.after [Sample.register_alice; Sample.add_cafe_a])) ∧
     path Sample.delete_a = "/delete").
Proof.
  apply (anonymous_writes Sample.e0 Sample.delete_a
           (Sample.anonymous (Sample.after [Sample.register_alice; Sample.add_cafe_a]))
           (Redirect "/"));
    [by_compute|reflexivity|vm_compute; reflexivity|by_compute].
Defined.
