(* ===== verification/App.v ===== *)
(** * App: the running application

    The application as its clients see it: one database (Cafes.db) shared
    by every request and one session cookie per browser.  [serve] runs
    [handle] for the client that sent the request, with that client's
    cookie, and stores the cookie the response sets.  [reachable] are the
    worlds the application gets to from the empty database made by
    db.create_all() (main.py:111-112); the theorems are invariants of the
    reachable worlds, proved by induction on the requests served, and
    properties of runs across requests (a registered user can log in
    later; the listing is served in every reachable world). *)

From S2P Require Import Prelude.
From S2P Require Import Tables.
From S2P Require Import Interfaces.
From S2P Require Import Store.
From S2P Require Import Forms.
From S2P Require Import Auth.
From S2P Require Import Handlers.
From S2P Require Import Effects.

(** ** Worlds and requests served *)

Record world := World {
  store : database;
  cookies : gmap nat Session.t;
}.

(** The application at start-up: the tables exist and are empty, no
    browser holds a cookie. *)
Definition initial : world := World create_all ∅.

(** A browser without a cookie has the empty session. *)
Definition cookie (w : world) (client : nat) : Session.t :=
  default Session.empty (cookies w !! client).

Definition client_ctx (w : world) (client : nat) : ctx :=
  Ctx (store w) (cookie w client).

Definition save (client : nat) (c : ctx) (w : world) : world :=
  World (db c) (<[client := session c]> (cookies w)).

(** One request of [client] against the world. *)
Definition serve `{IdCodec} `{PasswordHasher} `{UrlValidator}
    (client : nat) (e : env) (r : request) (w : world) :
    outcome failure response * world :=
  let result := handle e r (client_ctx w client) in
  (result.1, save client result.2 w).

(** A trace of requests, served in order. *)
Definition run `{IdCodec} `{PasswordHasher} `{UrlValidator}
    (trace : list (nat * env * request)) (w : world) : world :=
  foldl (λ w '(client, e, r), (serve client e r w).2) w trace.

(** The worlds the application can be in. *)
Inductive reachable `{IdCodec} `{PasswordHasher} `{UrlValidator} : world → Prop :=
| reachable_initial : reachable initial
| reachable_serve client e r w :
    reachable w → reachable (serve client e r w).2.

(** ** The invariant of the worlds *)

(** The database is well formed, every cookie is anonymous or names a
    stored user, every cafe has an owner and every review an author. *)
Definition world_wf `{IdCodec} (w : world) : Prop :=
  db_wf (store w) ∧
  map_Forall (λ _ s, session_valid (store w) s) (cookies w) ∧
  map_Forall (λ _ cafe, is_Some (Cafe.user_id cafe)) (cafes (store w)) ∧
  map_Forall (λ _ review, is_Some (Review.user_id review)) (reviews (store w)).

#[export] Instance world_wf_dec `{IdCodec} w : Decision (world_wf w).
Proof. unfold world_wf. apply _. Defined.

(** Every stored password is a hash made by generate_password_hash. *)
Definition passwords_hashed `{PasswordHasher} (d : database) : Prop :=
  map_Forall (λ _ u, ∃ pw seed, User.password u = generate_password_hash pw seed)
    (users d).

Section worlds.
Context `{IdCodec} `{PasswordHasher} `{UrlValidator}.
Implicit Types (w : world) (c : ctx) (r : request) (e : env) (client : nat).

Lemma cookie_valid w client :
  world_wf w → session_valid (store w) (cookie w client).
Proof.
  intros (_ & Hv & _). unfold cookie.
  destruct (cookies w !! client) as [s|] eqn:Hs; simpl; [by eapply Hv|by left].
Qed.

Lemma client_ctx_wf w client : world_wf w → ctx_wf (client_ctx w client).
Proof. intros Hwf. split; [apply Hwf|by apply cookie_valid]. Qed.

Lemma cookie_save client c w other :
  cookie (save client c w) other =
  if decide (other = client) then session c else cookie w other.
Proof.
  unfold cookie, save. simpl. case_decide; subst.
  - by rewrite lookup_insert_eq.
  - by rewrite lookup_insert_ne.
Qed.

(** Owners and authors: an operation writes them as the logged-in user
    and detaching a review keeps its author. *)
Lemma apply_op_owned o c :
  permitted o c →
  map_Forall (λ _ cafe, is_Some (Cafe.user_id cafe)) (cafes (db c)) →
  map_Forall (λ _ cafe, is_Some (Cafe.user_id cafe)) (cafes (db (apply_op o c))).
Proof.
  intros Hop Hall. destruct o; simpl in *; try done.
  - apply map_Forall_insert_2; [|done].
    destruct Hop as (_ & _ & _ & [u Hu] & ->). by rewrite Hu.
  - by apply map_Forall_delete.
Qed.

Lemma apply_op_authored o c :
  permitted o c →
  map_Forall (λ _ review, is_Some (Review.user_id review)) (reviews (db c)) →
  map_Forall (λ _ review, is_Some (Review.user_id review)) (reviews (db (apply_op o c))).
Proof.
  intros Hop Hall. destruct o; simpl in *; try done.
  - apply map_Forall_insert_2; [|done].
    destruct Hop as (_ & [u Hu] & -> & _). by rewrite Hu.
  - apply map_Forall_fmap. eapply map_Forall_impl; [done|]. simpl.
    intros k review. by rewrite detach_user_id.
Qed.

Lemma apply_op_passwords o c :
  permitted o c → passwords_hashed (db c) → passwords_hashed (db (apply_op o c)).
Proof.
  intros Hop Hall. destruct o; simpl in *; try done.
  apply map_Forall_insert_2; [|done]. destruct Hop as (_ & _ & _ & ->). eauto.
Qed.

(** What a served request does to the world: nothing, or one permitted
    operation on the database and the cookie of its client. *)
Lemma serve_served client e r w :
  db_wf (store w) →
  served e r (client_ctx w client) (handle e r (client_ctx w client)).
Proof. intros Hwf. by apply handle_served. Qed.

Lemma serve_users client e r w :
  db_wf (store w) → users (store w) ⊆ users (store (serve client e r w).2).
Proof. intros Hwf. by apply (handle_users e r (client_ctx w client)). Qed.

Lemma serve_world_wf client e r w : world_wf w → world_wf (serve client e r w).2.
Proof.
  intros Hwf. pose proof (client_ctx_wf w client Hwf) as [Hdb Hv].
  pose proof (serve_users client e r w Hdb) as Hsub.
  destruct Hwf as (_ & Hvs & Hown & Hauth). unfold serve in *. simpl in *.
  destruct (serve_served client e r w Hdb) as [f|resp ep o _ _ Hop]; simpl in *.
  - split_and!; try done. by apply map_Forall_insert_2.
  - split_and!.
    + by apply apply_op_db_wf.
    + apply map_Forall_insert_2; [by apply apply_op_session_valid|].
      eapply map_Forall_impl; [done|]. simpl. eauto using session_valid_mono.
    + by apply apply_op_owned.
    + by apply apply_op_authored.
Qed.

Lemma serve_passwords client e r w :
  db_wf (store w) → passwords_hashed (store w) →
  passwords_hashed (store (serve client e r w).2).
Proof.
  intros Hdb Hpw. unfold serve. simpl.
  destruct (serve_served client e r w Hdb) as [f|resp ep o _ _ Hop]; simpl;
    [done|by apply apply_op_passwords].
Qed.

Lemma initial_wf : world_wf initial.
Proof.
  split_and!; [apply create_all_wf|apply map_Forall_empty..].
Qed.

Lemma reachable_world_wf w : reachable w → world_wf w.
Proof. induction 1; [apply initial_wf|by apply serve_world_wf]. Qed.

Lemma reachable_passwords w : reachable w → passwords_hashed (store w).
Proof.
  induction 1 as [|client e r w Hw IH]; [apply map_Forall_empty|].
  apply serve_passwords; [|done]. by apply reachable_world_wf.
Qed.

(** Traces and reachability describe the same worlds, and the users
    table only grows along a run. *)
Lemma run_snoc trace client e r w :
  run (trace ++ [(client, e, r)]) w = (serve client e r (run trace w)).2.
Proof. unfold run. by rewrite foldl_snoc. Qed.

Lemma reachable_run trace : reachable (run trace initial).
Proof.
  induction trace as [|[[client e] r] trace IH] using rev_ind; [constructor|].
  rewrite run_snoc. by constructor.
Qed.

Lemma reachable_trace w : reachable w → ∃ trace, w = run trace initial.
Proof.
  induction 1 as [|client e r w Hw [trace ->]]; [by exists []|].
  exists (trace ++ [(client, e, r)]). by rewrite run_snoc.
Qed.

Lemma run_users trace w :
  world_wf w → world_wf (run trace w) ∧ users (store w) ⊆ users (store (run trace w)).
Proof.
  intros Hwf. induction trace as [|[[client e] r] trace [IHwf IH]] using rev_ind;
    [done|].
  rewrite run_snoc. split; [by apply serve_world_wf|].
  etrans; [done|]. apply serve_users, IHwf.
Qed.

End worlds.

(** ** Properties of the reachable worlds *)

Section properties.
Context `{IdCodec} `{PasswordHasher} `{UrlValidator}.
Implicit Types (w : world) (c : ctx) (r : request) (e : env) (client : nat).

(** C2: invariant of the application.  In every world reached from the
    empty database by serving requests, the tables are well formed (rows
    under their primary key, UNIQUE columns without duplicates, foreign
    keys NULL or pointing to a stored row), every browser's session is
    anonymous or names a stored user, every cafe has an owner and every
    review an author, and every stored password is a generated hash. *)
Theorem reachable_invariant w :
  reachable w → world_wf w ∧ passwords_hashed (store w).
Proof.
  intros Hw. split; [by apply reachable_world_wf|by apply reachable_passwords].
Qed.

(** C5: accounts persist.  A user who registered with a new name and
    email can log in with the same email and password after any sequence
    of requests by anyone, from any browser: the login redirects to the
    listing and the browser's session is then that user's. *)
Theorem registered_user_can_login client e r w n m p trace client' e' r' :
  world_wf w →
  path r = "/register" → method r = POST →
  form r !! "name" = Some n → form r !! "email" = Some m →
  form r !! "password" = Some p →
  taken User.name n (users (store w)) = false →
  taken User.email m (users (store w)) = false →
  path r' = "/login" → method r' = POST →
  form r' !! "email" = Some m → form r' !! "password" = Some p →
  let w1 := run trace (serve client e r w).2 in
  let u := User.mk (next_key (users (store w))) n m (generate_password_hash p (seed e)) in
  (serve client' e' r' w1).1 = Ok (Redirect "/") ∧
  session_user (store (serve client' e' r' w1).2) (cookie (serve client' e' r' w1).2 client')
    = Some u.
Proof.
  intros Hwf Hp Hm Hn He Hpw Hfn Hfe Hp' Hm' He' Hpw' w1 u.
  pose proof (serve_world_wf client e r w Hwf) as Hwf0.
  destruct (run_users trace _ Hwf0) as [Hwf1 Hsub]. fold w1 in Hwf1, Hsub.
  assert (users (store w1) !! User.id u = Some u) as Hu.
  { eapply lookup_weaken; [|done]. unfold serve. simpl.
    rewrite (handle_post e r _ register_ep) by (done || set_solver). simpl.
    rewrite (exec_Ok_eq _ _ _ _ (register_post e r (client_ctx w client) n m p Hm Hn He Hpw Hfn Hfe)).
    simpl. apply lookup_insert_eq. }
  assert (select_user_by_email (store w1) (Some m) = Some u) as Hq.
  { apply select_user_by_email_Some; [apply Hwf1|]. eauto. }
  unfold serve. simpl. rewrite (handle_post e' r' _ login_ep) by (done || set_solver).
  simpl. rewrite (exec_Ok_eq _ _ _ _ (login_post_success r' (client_ctx w1 client') u p
    Hm' ltac:(by rewrite He') Hpw' (check_generate _ _))). simpl.
  split; [done|]. rewrite cookie_save, decide_True by done. simpl.
  by apply (session_user_login _ (cookie w1 client') u).
Qed.

(** C7: the listing is always served.  In a reachable world GET / (or
    HEAD /) never fails: it renders index.html with all the cafes,
    ordered by name, and changes nothing in the database. *)
Theorem listing_always_served client e r w :
  reachable w → path r = "/" → method r ∈ [GET; HEAD] →
  (serve client e r w).1 =
    Ok (Render (index_html (select_cafes_by_name (store w))
                  (is_authenticated (session_user (store w) (cookie w client))))) ∧
  store (serve client e r w).2 = store w.
Proof.
  intros Hw%reachable_world_wf Hp Hm. unfold serve. simpl.
  rewrite (handle_get e r _ show_all_caffe_ep) by done. simpl.
  by rewrite (exec_Ok_eq _ _ _ _
    (show_all_caffe_valid (client_ctx w client) (cookie_valid w client Hw))).
Qed.

End properties.

(** ** Two runs

    The browser 0 registers, adds a cafe and reviews it; the browser 1,
    which never logs in, deletes the cafe; the browser 0 adds another
    cafe. *)

Definition sample_trace : list (nat * env * request) :=
  [ (0, Sample.e0, Sample.register_alice);
    (0, Sample.e0, Sample.add_cafe_a);
    (0, Sample.e0, Sample.review_a);
    (1, Sample.e0, Sample.delete_a) ].

(** A review can lose its cafe.  The run above is accepted request by
    request and ends with a stored review whose cafe_id is NULL although
    its cafe was deleted by a visitor who was not logged in: reviews of a
    deleted cafe stay in the table, detached. *)
Example orphan_review_reachable :
  reachable (run sample_trace initial) ∧
  cookie (run sample_trace initial) 1 = Session.empty ∧
  cafes (store (run sample_trace initial)) = ∅ ∧
  reviews (store (run sample_trace initial)) !! 1 =
    Some (Review.mk 1 "nice" (Some 1) None).
Proof.
  split; [apply reachable_run|]. by vm_compute.
Qed.

(** A deleted key is used again.  After the newest cafe is deleted,
    the next cafe added takes its primary key; the review of the deleted
    cafe is not attached to the new one, because it was detached. *)
Example deleted_key_reused :
  let w := run (sample_trace ++ [(0, Sample.e0, Sample.add_cafe_a)]) initial in
  Cafe.id <$> cafes (store w) !! 1 = Some 1 ∧
  cafe_review (store w) <$> cafes (store w) !! 1 = Some [] ∧
  world_wf w.
Proof.
  split_and!; [by vm_compute..|]. apply reachable_world_wf, reachable_run.
Qed.

Lemma reachable_invariant_witness :
  world_wf (run sample_trace initial) ∧ passwords_hashed (store (run sample_trace initial)).
Proof. apply reachable_invariant, reachable_run. Defined.

Lemma registered_user_can_login_witness :
  let w1 := run [(0, Sample.e0, Sample.add_cafe_a); (1, Sample.e0, Sample.delete_a)]
              (serve 0 Sample.e0 Sample.register_alice initial).2 in
  let u := User.mk (next_key (users (store initial))) "alice" "alice@example.com"
             (generate_password_hash "pw123" (seed Sample.e0)) in
  (serve 2 Sample.e0 Sample.login_alice w1).1 = Ok (Redirect "/") ∧
  session_user (store (serve 2 Sample.e0 Sample.login_alice w1).2)
    (cookie (serve 2 Sample.e0 Sample.login_alice w1).2 2) = Some u.
Proof.
  apply (registered_user_can_login 0 Sample.e0 Sample.register_alice initial
           "alice" "alice@example.com" "pw123"
           [(0, Sample.e0, Sample.add_cafe_a); (1, Sample.e0, Sample.delete_a)]
           2 Sample.e0 Sample.login_alice);
    first [by_compute | vm_compute; reflexivity].
Defined.

Lemma listing_always_served_witness :
  (serve 0 Sample.e0 Sample.index (run sample_trace initial)).1 =
    Ok (Render (index_html (select_cafes_by_name (store (run sample_trace initial)))
                  (is_authenticated
                     (session_user (store (run sample_trace initial))
                        (cookie (run sample_trace initial) 0))))) ∧
  store (serve 0 Sample.e0 Sample.index (run sample_trace initial)).2 =
    store (run sample_trace initial).
Proof. apply listing_always_served; [apply reachable_run|reflexivity|by_compute]. Defined.
