(* ===== verification/Observation.v ===== *)
(** * Observation: worlds up to what a browser can see

    [serve] records the session of every response in the map of the
    cookies, also when the browser had no cookie and the session is
    still the empty one: two worlds may differ as maps and yet give every
    browser the same session.  [≡] on worlds is equality of the database
    and of the session of each browser; [serve], [run] and the
    projections respect it, so that [rewrite] works with it.  The
    theorem is that a request that is safe in the sense of HTTP (not a
    POST, and not one of the two routes that act on a GET) cannot be
    observed: leaving it out of a run gives an equivalent world. *)

From S2P Require Import Prelude Tables Interfaces Store Forms Auth Handlers.
From S2P Require Import Effects App.

#[export] Instance world_equiv `{IdCodec} : Equiv world :=
  λ w1 w2, store w1 = store w2 ∧ ∀ client, cookie w1 client = cookie w2 client.

(** The requests HTTP calls safe, less the two routes of main.py that
    change state on a GET. *)
Definition safe (r : request) : Prop :=
  method r ≠ POST ∧
  (method r = OPTIONS ∨ (path r ≠ "/logout" ∧ path r ≠ "/delete")).

#[export] Instance safe_dec r : Decision (safe r).
Proof. unfold safe. apply _. Defined.

Section observation.
Context `{IdCodec} `{PasswordHasher} `{UrlValidator}.
Implicit Types (w : world) (client : nat) (e : env) (r : request).

#[export] Instance world_equivalence : Equivalence (≡@{world}).
Proof.
  split.
  - by intros w.
  - intros w1 w2 [Hs Hc]. by split.
  - intros w1 w2 w3 [Hs1 Hc1] [Hs2 Hc2]. split; [congruence|].
    intros client. by rewrite Hc1.
Qed.

#[export] Instance store_proper : Proper ((≡) ==> (=)) store.
Proof. by intros w1 w2 [Hs _]. Qed.

#[export] Instance cookie_proper : Proper ((≡) ==> (=) ==> (=)) cookie.
Proof. intros w1 w2 [_ Hc] client ? <-. apply Hc. Qed.

#[export] Instance client_ctx_proper : Proper ((≡) ==> (=) ==> (=)) client_ctx.
Proof. intros w1 w2 Hw client ? <-. unfold client_ctx. by rewrite Hw. Qed.

#[export] Instance save_proper client c : Proper ((≡) ==> (≡)) (save client c).
Proof.
  intros w1 w2 Hw. split; [done|]. intros other. rewrite !cookie_save.
  case_decide; [done|]. by rewrite Hw.
Qed.

#[export] Instance serve_proper client e r :
  Proper ((≡) ==> prod_relation (=) (≡)) (serve client e r).
Proof.
  intros w1 w2 Hw. unfold serve.
  rewrite (client_ctx_proper _ _ Hw client client eq_refl).
  split; simpl; [done|]. by apply save_proper.
Qed.

#[export] Instance run_proper trace : Proper ((≡) ==> (≡)) (run trace).
Proof.
  induction trace as [|[[client e] r] trace IH] using rev_ind; intros w1 w2 Hw; [done|].
  rewrite !run_snoc. by apply serve_proper, IH.
Qed.

Lemma run_app trace1 trace2 w : run (trace1 ++ trace2) w = run trace2 (run trace1 w).
Proof. unfold run. by rewrite foldl_app. Qed.

Lemma run_world_wf trace w : world_wf w → world_wf (run trace w).
Proof.
  intros Hw. induction trace as [|[[client e] r] trace IH] using rev_ind; [done|].
  rewrite run_snoc. by apply serve_world_wf.
Qed.

(** Serving a safe request gives the browser back the session it had. *)
Lemma serve_safe client e r w : world_wf w → safe r → (serve client e r w).2 ≡ w.
Proof.
  intros Hw [Hm Hp]. unfold serve. simpl.
  rewrite (get_is_safe e r (client_ctx w client)); [|apply Hw|done..]. simpl.
  split; [done|]. intros other. rewrite cookie_save. by case_decide; subst.
Qed.

(** C6: safe requests cannot be observed.  In a run from a well-formed
    world, a request that is not a POST and is not sent to /logout or
    /delete (or is an OPTIONS request) may be left out: the database is
    the same and every browser has the same session, whatever requests
    came before and come after.  The sessions are those of [serve],
    where a page leaves the pending messages in place; when pages are
    rendered a safe request can take pending messages out of its own
    session, and the two runs agree up to the pending messages
    ([Templates.alike]). *)
Theorem safe_request_unobservable trace1 trace2 client e r w :
  world_wf w → safe r →
  run (trace1 ++ (client, e, r) :: trace2) w ≡ run (trace1 ++ trace2) w.
Proof.
  intros Hw Hr. rewrite !run_app.
  change (run ((client, e, r) :: trace2) (run trace1 w))
    with (run trace2 (serve client e r (run trace1 w)).2).
  by rewrite serve_safe by (done || by apply run_world_wf).
Qed.

End observation.

(** ** The theorem on a sample run *)

Lemma safe_request_unobservable_witness :
  run (sample_trace ++ (5, Sample.e0, Sample.index) :: [(0, Sample.e0, Sample.logout_get)])
      initial ≡
  run (sample_trace ++ [(0, Sample.e0, Sample.logout_get)]) initial.
Proof. apply safe_request_unobservable; [apply initial_wf|by_compute]. Defined.
