(* ===== verification/Cookies.v ===== *)
(** * Cookies: the session as the browser holds it

    Flask keeps the session in a cookie that the browser sends back with
    each request: the session, and a signature made with the secret key
    of the application (main.py:28).  When a request comes in, the
    session is read from the cookie if the signature is the one the
    secret key gives, and is the empty session otherwise; when the
    response goes out, the session is signed again.  [App] gives each
    browser the session of its last response; this file models what goes
    over the wire instead, and shows that a request sent with the cookie it
    was given is served as in [App], that a cookie with another
    signature is served like no cookie, and that a logout revokes
    nothing.  The signature is a parameter ([Mac]) without laws: nothing
    here rests on what a signature costs to make, and so nothing is
    claimed about who can make one. *)

From S2P Require Import Prelude Tables Interfaces Store Forms Auth Handlers.
From S2P Require Import Effects App.

(** main.py:28 *)
Definition SECRET_KEY : string := "you_secret_key_is_here".

(** The signature of itsdangerous: a message authentication code of the
    serialised session under a key. *)
Class Mac := mac : string → Session.t → string.

(** The cookie named session. *)
Record signed := Signed {
  payload : Session.t;
  signature : string;
}.

#[export] Instance signed_eq_dec : EqDecision signed.
Proof. solve_decision. Defined.

Section cookies.
Context `{IdCodec} `{PasswordHasher} `{UrlValidator} `{Mac}.

(** SecureCookieSessionInterface.save_session *)
Definition dumps (key : string) (s : Session.t) : signed := Signed s (mac key s).

(** SecureCookieSessionInterface.open_session: without a cookie, or with
    a cookie whose signature is not the key's, the session is empty. *)
Definition loads (key : string) (sent : option signed) : Session.t :=
  match sent with
  | Some ck =>
      if bool_decide (signature ck = mac key (payload ck)) then payload ck
      else Session.empty
  | None => Session.empty
  end.

(** One request as it goes over the wire: the session is opened from the
    cookie sent, the request is handled, the session is saved. *)
Definition serve_signed (e : env) (r : request) (sent : option signed) (d : database) :
    outcome failure response * signed * database :=
  let result := handle e r (Ctx d (loads SECRET_KEY sent)) in
  (result.1, dumps SECRET_KEY (session result.2), db result.2).

Implicit Types (d : database) (s : Session.t) (w : world) (ck : signed).

Lemma loads_dumps key s : loads key (Some (dumps key s)) = s.
Proof. unfold loads, dumps. simpl. by rewrite bool_decide_eq_true_2. Qed.

Lemma loads_bad_signature key ck :
  signature ck ≠ mac key (payload ck) → loads key (Some ck) = loads key None.
Proof. intros Hsig. unfold loads. by rewrite bool_decide_eq_false_2. Qed.

(** A cookie that was not signed with the secret key is served like no
    cookie. *)
Lemma serve_signed_bad_signature e r ck d :
  signature ck ≠ mac SECRET_KEY (payload ck) →
  serve_signed e r (Some ck) d = serve_signed e r None d.
Proof. intros Hsig. unfold serve_signed. by rewrite loads_bad_signature. Qed.

(** One request: a browser that sends the session it was given gets the
    response [serve] gives it, and a cookie that opens to the session
    [serve] keeps for it. *)
Lemma serve_signed_serve client e r w sent :
  loads SECRET_KEY sent = cookie w client →
  let answer := serve_signed e r sent (store w) in
  let w' := (serve client e r w).2 in
  answer.1.1 = (serve client e r w).1 ∧
  answer.2 = store w' ∧
  loads SECRET_KEY (Some answer.1.2) = cookie w' client.
Proof.
  intros Hsent answer w'. subst answer w'.
  unfold serve_signed, serve, client_ctx. rewrite Hsent. cbn [fst snd].
  by rewrite loads_dumps, cookie_save, decide_True.
Qed.

(** C23: a logout does not revoke a cookie.  The server keeps no record
    of the sessions it has signed.  A logout answers with a cookie that
    opens to the anonymous session, and changes nothing else: whoever
    holds a copy of the cookie that was sent is served with it after
    the logout exactly as before, as the user it names. *)
Theorem logout_keeps_cookie e r ck d :
  path r = "/logout" → method r ∈ [GET; HEAD] →
  signature ck = mac SECRET_KEY (payload ck) → session_valid d (payload ck) →
  let answer := serve_signed e r (Some ck) d in
  answer.1.1 = Ok (Redirect "/") ∧
  Session.user_id (loads SECRET_KEY (Some answer.1.2)) = None ∧
  session_user answer.2 (loads SECRET_KEY (Some ck)) = session_user d (payload ck) ∧
  ∀ e' r', serve_signed e' r' (Some ck) answer.2 = serve_signed e' r' (Some ck) d.
Proof.
  intros Hp Hm Hsig Hv answer. subst answer. unfold serve_signed.
  assert (loads SECRET_KEY (Some ck) = payload ck) as Hopen.
  { unfold loads. by rewrite bool_decide_eq_true_2. }
  rewrite Hopen, (logout_forgets_user e r) by done. cbn [fst snd db session].
  by rewrite loads_dumps.
Qed.

End cookies.

(** ** The theorems at sample requests *)

(** A stand-in for the signature, to run the definitions. *)
#[export] Instance tag_mac : Mac :=
  λ key s, key +:+ ":" +:+ default "" (Session.user_id s).

(** The cookie of a browser logged in as the user of key 1. *)
Definition alice_cookie : signed := dumps SECRET_KEY (Session.mk (Some (id_str 1)) []).

Lemma logout_keeps_cookie_witness :
  session_user
    (serve_signed Sample.e0 Sample.logout_get (Some alice_cookie) (db Sample.c2)).2
    (loads SECRET_KEY (Some alice_cookie)) =
  session_user (db Sample.c2) (payload alice_cookie).
Proof.
  apply (logout_keeps_cookie Sample.e0 Sample.logout_get alice_cookie (db Sample.c2));
    [done|set_solver|done|by_compute].
Defined.
