(* ===== verification/Outcomes.v ===== *)
(** * Outcomes: what each route can answer, and why it fails

    The view functions of main.py catch no exception and check little of
    what they are sent, so the answers of a route are its pages and
    redirects together with the aborts and the uncaught exceptions of the
    calls it makes.  This file gives each route its type: the responses
    it can return ([view_response]) and the failures it can end in, each
    with its cause in the request and the state ([failure_cause]).  The
    typing is derived with the calculus of Hoare from the specifications
    of the store and of the session: one [wp] triple per view function,
    then the route-level theorems. *)

From S2P Require Import Prelude Hoare Tables Interfaces Store Forms Auth Handlers.

(** ** The type of a route *)

(** The responses of a view function to a request of method [m]: the
    pages and redirect targets of its return statements, the redirects
    of the branches under [request.method == "POST"] and under
    [validate_on_submit] only for a method that enters them. *)
Definition view_response (ep : endpoint) (m : http_method) (resp : response) : bool :=
  let post := bool_decide (m = POST) in
  let submitted := bool_decide (m ∈ [POST; PUT; PATCH; DELETE]) in
  match ep, resp with
  | show_all_caffe_ep, Render (index_html _ _) => true
  | show_cafe_ep, Render (Caffe_html _ _ _ _ _ _) => true
  | show_cafe_ep, Redirect location => post && bool_decide (location = "/login")
  | register_ep, Render register_html => negb post
  | register_ep, Redirect location => post && bool_decide (location = "/")
  | login_ep, Render (login_html _) => negb post
  | login_ep, Redirect location => post && bool_decide (location ∈ ["/"; "/login"])
  | logout_ep, Redirect location => bool_decide (location = "/")
  | add_cafe_ep, Render (add_cafe_html _ _) => true
  | add_cafe_ep, Redirect location => submitted && bool_decide (location = "/")
  | delete_ep, Redirect location => bool_decide (location = "/")
  | _, _ => false
  end.

(** The id argument of /caffe and /delete names no cafe. *)
Definition cafe_missing `{IdCodec} (r : request) (c : ctx) : Prop :=
  get_or_404 (cafes (db c)) (default " " (args r !! "id")) = Err (Abort 404).

(** The failures of a view function with their causes: 401 for an
    anonymous visitor of add_cafe; 404 for a session whose user is not
    stored or a cafe that is not there; AttributeError for a POST without
    a password; IntegrityError for a POST whose commit violates a
    constraint. *)
Definition failure_cause `{IdCodec} (ep : endpoint) (r : request) (c : ctx)
    (f : failure) : Prop :=
  match f with
  | Abort status =>
      (status = 401 ∧ ep = add_cafe_ep ∧ Session.user_id (session c) = None) ∨
      (status = 404 ∧
       (¬ session_valid (db c) (session c) ∨
        (ep ∈ [show_cafe_ep; delete_ep] ∧ cafe_missing r c)))
  | Raised AttributeError =>
      is_post r = true ∧ form r !! "password" = None ∧
      (ep = register_ep ∨
       (ep = login_ep ∧ is_Some (select_user_by_email (db c) (form r !! "email"))))
  | Raised (IntegrityError v) =>
      (ep = register_ep ∧ is_post r = true ∧
        violates [("user.name", form r !! "name"); ("user.email", form r !! "email")]
          (user_taken (db c)) v) ∨
      (ep = show_cafe_ep ∧ is_post r = true ∧ v = NotNull "review.review_content" ∧
        form r !! "body" = None ∧ is_Some (session_user (db c) (session c))) ∨
      (ep = add_cafe_ep ∧ is_submitted r = true ∧
        violates [("cafe.name", form r !! "name"); ("cafe.map_url", form r !! "map_url")]
          (cafe_taken (db c)) v)
  end.

(** The endpoint of the rule that matches the path of a request. *)
Definition route_of (r : request) : option endpoint :=
  (λ found, found.2.1.2) <$> list_find (λ rule, rule.1.1 = path r) url_map.

(** The type of an answer: 404 off the URL map, 405 for a method the rule
    does not list, the methods of the rule for OPTIONS, and otherwise a
    response or a failure of the view function. *)
Definition answer_typed `{IdCodec} (r : request) (c : ctx)
    (o : outcome failure response) : Prop :=
  match route_of r with
  | None => o = Err (Abort 404)
  | Some ep =>
      if bool_decide (method r ∈ methods_of ep) then
        if bool_decide (method r = OPTIONS) then o = Ok (Options (methods_of ep))
        else match o with
             | Ok resp => view_response ep (method r) resp = true
             | Err f => failure_cause ep r c f
             end
      else o = Err (Abort 405)
  end.

(** The statuses a failure is answered with. *)
Definition statuses : list nat := [401; 404; 405; 500].

Section typing.
Context `{IdCodec} `{PasswordHasher} `{UrlValidator}.
Implicit Types (c : ctx) (r : request) (e : env) (f : failure).

(** Rendering resolves the current user, and so fails for a session
    whose user is not stored. *)
Lemma wp_render_template p c :
  wp (render_template p)
    (λ resp c', resp = Render p ∧ c' = c)
    (λ f, f = Abort 404 ∧ ¬ session_valid (db c) (session c)) c.
Proof.
  unfold render_template. wp_apply wp_current_user; [|done].
  intros ou c' (-> & _ & _). by wp_pure.
Qed.

(** The specification of a view function: its responses are of its type
    and its failures have their cause in the request and the state it
    started from. *)
Definition view_typed (ep : endpoint) (e : env) (r : request) (c : ctx) : Prop :=
  wp (view_function ep e r)
    (λ resp _, view_response ep (method r) resp = true)
    (failure_cause ep r c) c.

(** The two causes of a 404. *)
Lemma failure_stale ep r c :
  ¬ session_valid (db c) (session c) → failure_cause ep r c (Abort 404).
Proof. intros Hv. right. auto. Qed.

Lemma failure_missing ep r c :
  ep ∈ [show_cafe_ep; delete_ep] → cafe_missing r c → failure_cause ep r c (Abort 404).
Proof. intros Hep Hget. right. auto. Qed.

(** A page rendered in a state with the users and the session of [c]. *)
Lemma wp_render_page ep r p c c' :
  view_response ep (method r) (Render p) = true →
  users (db c') = users (db c) → Session.user_id (session c') = Session.user_id (session c) →
  wp (render_template p) (λ resp _, view_response ep (method r) resp = true)
    (failure_cause ep r c) c'.
Proof.
  intros Hp Hu Hs. wp_apply wp_render_template; [by intros resp c'' [-> _]|].
  intros f [-> Hv]. apply failure_stale. contradict Hv.
  unfold session_valid, session_user in *. by rewrite Hu, Hs.
Qed.

Lemma show_all_caffe_typed e r c : view_typed show_all_caffe_ep e r c.
Proof.
  unfold view_typed, view_function, show_all_caffe. wp_step. wp_step.
  wp_apply wp_current_user; [|intros f [-> ?]; by apply failure_stale].
  intros ou c' (-> & _ & _). by apply wp_render_page.
Qed.

Lemma wp_render_cafe e r cafe c c' :
  users (db c') = users (db c) → Session.user_id (session c') = Session.user_id (session c) →
  wp (u <- current_user ;; c'' <- pget ;;
      render_template
        (Caffe_html cafe (cafe_review (db c'') cafe) (choice (pick e) logos)
           (Comment.process (submitted_form r)) (is_authenticated u) (now e)))%prog
    (λ resp _, view_response show_cafe_ep (method r) resp = true)
    (failure_cause show_cafe_ep r c) c'.
Proof.
  intros Hu Hs. wp_apply wp_current_user.
  - intros u c'' (-> & _ & _). wp_step. wp_step. by apply wp_render_page.
  - intros f [-> Hv]. apply failure_stale. contradict Hv.
    unfold session_valid, session_user in *. by rewrite Hu, Hs.
Qed.

Lemma show_cafe_typed e r c : view_typed show_cafe_ep e r c.
Proof.
  unfold view_typed, view_function, show_cafe. cbv zeta. wp_step. wp_step. wp_step.
  destruct (get_or_404 (cafes (db c)) _) as [cafe|f] eqn:Hget.
  2: { apply get_or_404_Err in Hget as Hf. subst f.
       apply failure_missing; [set_solver|done]. }
  destruct (is_post r) eqn:Hpost; [|by apply wp_render_cafe].
  wp_apply wp_current_user; [|intros f [-> ?]; by apply failure_stale].
  intros ou c' (-> & -> & _).
  destruct (session_user (db c) (session c)) as [user|] eqn:Huser.
  - apply wp_pbind. eapply wp_mono; [apply wp_with_db, wp_insert_review|..]; simpl.
    + intros rv c' (d' & -> & (t & _ & _ & ->)%insert_review_Ok).
      by apply wp_render_cafe.
    + intros f [-> Hbody]. right. left. rewrite Huser. eauto.
  - wp_apply wp_flash; [|intros ? ?; eassumption]. intros _ c' ->. unfold redirect. wp_step.
    apply bool_decide_eq_true in Hpost. by rewrite Hpost.
Qed.

Lemma url_for_index : url_for show_all_caffe_ep = "/".
Proof. reflexivity. Qed.

Lemma register_typed e r c : view_typed register_ep e r c.
Proof.
  unfold view_typed, view_function, register. cbv zeta.
  destruct (is_post r) eqn:Hpost.
  2: { apply wp_render_page; [|done..]. unfold is_post in Hpost. simpl. by rewrite Hpost. }
  wp_step. wp_step. destruct (form r !! "password") as [pw|] eqn:Hpw; simpl; [|auto].
  apply wp_pbind. eapply wp_mono; [apply wp_with_db, wp_insert_user_fails|..]; simpl.
  - intros u c' (d' & -> & _). wp_apply wp_login_user; [|intros ? ?; eassumption].
    intros _ c' ->. unfold redirect. wp_step.
    apply bool_decide_eq_true in Hpost. by rewrite Hpost.
  - intros f (v & -> & Hv). left. do 2 (split; [done|]).
    eapply (violates_app_l [_; _] [_]), Hv. repeat constructor; simpl; eauto.
Qed.

Lemma login_typed e r c : view_typed login_ep e r c.
Proof.
  unfold view_typed, view_function, login. cbv zeta.
  destruct (is_post r) eqn:Hpost.
  2: { apply wp_render_page; [|done..]. unfold is_post in Hpost. simpl. by rewrite Hpost. }
  apply bool_decide_eq_true in Hpost as Hm. wp_step. wp_step.
  destruct (select_user_by_email (db c) (form r !! "email")) as [user|] eqn:Hq.
  - wp_step. wp_step. destruct (form r !! "password") as [pw|] eqn:Hpw; simpl.
    2: { do 2 (split; [done|]). right. rewrite Hq. eauto. }
    destruct (check_password_hash (User.password user) pw) eqn:Hcheck.
    + wp_apply wp_login_user; [|intros ? ?; eassumption].
      intros _ c' ->. unfold redirect. wp_step. by rewrite Hm.
    + wp_step. wp_step. simpl.
      wp_apply wp_flash; [|intros ? ?; eassumption].
      intros _ c' ->. unfold redirect. wp_step. by rewrite Hm.
  - wp_apply wp_flash; [|intros ? ?; eassumption].
    intros _ c' ->. unfold redirect. wp_step. by rewrite Hm.
Qed.

Lemma logout_typed e r c : view_typed logout_ep e r c.
Proof.
  unfold view_typed, view_function, logout.
  wp_apply wp_logout_user; [|intros f [-> ?]; by apply failure_stale].
  intros b c' _. unfold redirect. by wp_step.
Qed.

Lemma delete_typed e r c : view_typed delete_ep e r c.
Proof.
  unfold view_typed, view_function, delete. cbv zeta. wp_step. wp_step. wp_step.
  destruct (get_or_404 (cafes (db c)) _) as [cafe|f] eqn:Hget.
  2: { apply get_or_404_Err in Hget as Hf. subst f.
       apply failure_missing; [set_solver|done]. }
  apply wp_pbind. eapply wp_mono; [apply wp_with_db, wp_delete_cafe|..]; simpl.
  - intros _ c' _. unfold redirect. by wp_step.
  - intros ? ?; eassumption.
Qed.

Lemma add_cafe_typed e r c : view_typed add_cafe_ep e r c.
Proof.
  unfold view_typed, view_function, add_cafe. cbv zeta. apply wp_login_required.
  - intros Hanon. left. auto.
  - apply failure_stale.
  - intros user Huser.
    destruct (validate_on_submit _ _ _) eqn:Hvalid; [|by apply wp_render_page].
    apply validate_on_submit_AddingForm in Hvalid as (Hsub & _ & Hok).
    apply AddingForm_ok_data in Hok as (n&m&i&l&hs&ht&hw&cc&s&p&Hform).
    rewrite Hform. unfold AddingForm.process, submitted_form in Hform.
    rewrite Hsub in Hform. injection Hform as Hn Hm _ _ _ _ _ _ _ _.
    wp_apply wp_current_user; [|intros f [-> ?]; by apply failure_stale].
    intros ou c' (-> & _ & _).
    apply wp_pbind. eapply wp_mono; [apply wp_with_db, wp_insert_cafe_fails|..]; simpl.
    + intros cafe c' _. unfold redirect. wp_step.
      unfold is_submitted in Hsub. simpl. by rewrite Hsub.
    + intros f (v & -> & Hv). right. right. do 2 (split; [done|]).
      rewrite Hn, Hm.
      eapply (violates_app_l [_; _] [_; _; _; _; _; _; _; _]), Hv.
      repeat constructor; simpl; eauto.
Qed.

(** Every view function has its type. *)
Lemma view_function_typed ep e r c : view_typed ep e r c.
Proof.
  destruct ep; auto using show_all_caffe_typed, show_cafe_typed, register_typed,
    login_typed, logout_typed, add_cafe_typed, delete_typed.
Qed.

Lemma route_of_Some r ep : route_of r = Some ep → path r = url_for ep.
Proof.
  unfold route_of. destruct (list_find _ url_map) as [[i [[rule ep'] methods]]|] eqn:Hfind;
    [|done].
  intros [= <-]. by eapply dispatch_find.
Qed.

Lemma route_of_None e r c : route_of r = None → handle e r c = (Err (Abort 404), c).
Proof.
  unfold route_of, handle, dispatch.
  by destruct (list_find _ url_map) as [[i [[rule ep'] methods]]|].
Qed.

Lemma handle_answer e r c : answer_typed r c (handle e r c).1.
Proof.
  unfold answer_typed. destruct (route_of r) as [ep|] eqn:Hroute;
    [|by rewrite (route_of_None e r c)].
  apply route_of_Some in Hroute as Hpath.
  case_bool_decide as Hallowed; [|by rewrite (handle_not_allowed e r c ep)].
  case_bool_decide as Hopt; [by rewrite (handle_options e r c ep)|].
  rewrite (handle_view e r c ep) by done.
  pose proof (view_function_typed ep e r c) as Htyped.
  unfold view_typed, wp in Htyped. unfold exec.
  by destruct (view_function ep e r c) as [[resp c']|f].
Qed.

(** What [answer_typed] says of a failure: the routing errors, or a
    failure of the view function with its cause. *)
Lemma answer_typed_Err r c f :
  answer_typed r c (Err f) →
  (route_of r = None ∧ f = Abort 404) ∨
  ∃ ep, route_of r = Some ep ∧
    (((method r ∉ methods_of ep) ∧ f = Abort 405) ∨
     (method r ∈ methods_of ep ∧ method r ≠ OPTIONS ∧ failure_cause ep r c f)).
Proof.
  unfold answer_typed. destruct (route_of r) as [ep|]; [|intros [= ->]; auto].
  intros Htyped. right. exists ep. split; [done|].
  case_bool_decide as Hallowed; [|injection Htyped as ->; auto].
  by case_bool_decide as Hopt; [|auto].
Qed.

(** Of the methods a rule answers, only POST submits a form. *)
Lemma submitted_is_post ep r :
  method r ∈ methods_of ep → is_submitted r = true → method r = POST.
Proof.
  unfold is_submitted. rewrite <- (bool_decide_eq_true (_ ∈ methods_of _)).
  intros Hm Hsub. destruct ep, (method r); by vm_compute in Hm, Hsub.
Qed.

(** C10: the type of every answer.  Whatever the request and the state,
    [handle] answers 404 when no rule matches the path, 405 when the rule
    does not list the method, the rule's methods to OPTIONS, and
    otherwise what the view function of the route can answer: one of its
    pages or redirects ([view_response]), or one of its failures for the
    cause [failure_cause] gives it: 401 only from add_cafe without a
    logged-in user, 404 only for a session whose user is not stored or a
    cafe id that names no cafe, AttributeError only from a POST to
    register or login without a password, IntegrityError only from the
    constraint the commit of that route violates.  A failure leaves the
    state as it was. *)
Theorem handle_typed e r c :
  answer_typed r c (handle e r c).1 ∧
  (∀ f, (handle e r c).1 = Err f → (handle e r c).2 = c).
Proof.
  split; [apply handle_answer|].
  unfold handle, exec. by destruct (dispatch e r c) as [[resp c']|f].
Qed.

(** C22: the statuses of a failure.  A request that fails is answered
    with 401, 404, 405 or 500, and with 500 (an uncaught AttributeError
    or IntegrityError) only when it is a POST: no GET, HEAD or OPTIONS
    request makes the server fail. *)
Theorem failure_statuses e r c f :
  (handle e r c).1 = Err f →
  status_of f ∈ statuses ∧ (status_of f = 500 → method r = POST).
Proof.
  intros Hrun. pose proof (handle_answer e r c) as Htyped. rewrite Hrun in Htyped.
  apply answer_typed_Err in Htyped
    as [[_ ->]|(ep & _ & [[_ ->]|(Hallowed & _ & Hcause)])];
    [by split; [set_solver|]..|].
  destruct f as [status|[v|]]; simpl in *.
  - destruct Hcause as [[-> _]|[-> _]]; by split; [set_solver|].
  - split; [set_solver|]. intros _.
    destruct Hcause as [(_ & Hpost & _)|[(_ & Hpost & _)|(-> & Hsub & _)]];
      [by apply bool_decide_eq_true in Hpost..|by eapply submitted_is_post].
  - destruct Hcause as (Hpost%bool_decide_eq_true & _). by split; [set_solver|].
Qed.

(** Why a request is not found.  A 404 has one of three causes: no
    rule matches the path; the session names a user who is not stored;
    the route is /caffe or /delete and its id argument names no cafe.
    Nothing else in the application answers 404. *)
Theorem not_found_causes e r c :
  (handle e r c).1 = Err (Abort 404) →
  route_of r = None ∨ ¬ session_valid (db c) (session c) ∨
  (∃ ep, route_of r = Some ep ∧ ep ∈ [show_cafe_ep; delete_ep] ∧ cafe_missing r c).
Proof.
  intros Hrun. pose proof (handle_answer e r c) as Htyped. rewrite Hrun in Htyped.
  apply answer_typed_Err in Htyped
    as [[? _]|(ep & Hroute & [[_ [=]]|(_ & _ & Hcause)])]; [by left|].
  destruct Hcause as [[[=] _]|[_ [Hstale|[Hep Hget]]]]; eauto 6.
Qed.

(** Reading succeeds: a GET or HEAD request on a route is answered with
    a response of the route's type whenever the session is valid, the
    cafe asked for exists (on /caffe and /delete) and the visitor is
    logged in (on /add_cafe). *)
Lemma read_succeeds e r c ep :
  route_of r = Some ep → method r ∈ [GET; HEAD] →
  session_valid (db c) (session c) →
  (ep ∈ [show_cafe_ep; delete_ep] → ¬ cafe_missing r c) →
  (ep = add_cafe_ep → Session.user_id (session c) ≠ None) →
  ∃ resp, (handle e r c).1 = Ok resp ∧ view_response ep (method r) resp = true.
Proof.
  intros Hroute Hm Hvalid Hcafe Huser.
  pose proof (handle_answer e r c) as Htyped. unfold answer_typed in Htyped.
  destruct (methods_of_read ep _ Hm) as [Hallowed Hopt].
  rewrite Hroute, !bool_decide_eq_true_2, bool_decide_eq_false_2 in Htyped by done.
  destruct (handle e r c).1 as [resp|f]; [by eauto|exfalso].
  assert (is_post r = false ∧ is_submitted r = false) as [Hpost Hsub].
  { unfold is_post, is_submitted. set_unfold. by destruct Hm as [->|[->|[]]]. }
  destruct f as [status|[v|]]; simpl in Htyped.
  - destruct Htyped as [(_ & Hep & Hanon)|(_ & [Hstale|[Hep Hget]])]; [|done|];
      naive_solver.
  - destruct Htyped as [(_ & ? & _)|[(_ & ? & _)|(_ & ? & _)]]; congruence.
  - destruct Htyped as [? _]. congruence.
Qed.

(** The redirects of the application lead to the listing or to the
    login page, and a GET of either is not answered by a redirect. *)
Lemma redirect_targets e r c location :
  (handle e r c).1 = Ok (Redirect location) → location ∈ ["/"; "/login"].
Proof.
  intros Hrun. pose proof (handle_answer e r c) as Htyped.
  rewrite Hrun in Htyped. unfold answer_typed in Htyped.
  destruct (route_of r) as [ep|]; [|done].
  case_bool_decide; [|done]. case_bool_decide; [done|].
  destruct ep; simpl in Htyped; try done;
    repeat match goal with
    | H : _ && _ = true |- _ => apply andb_true_iff in H as [_ H]
    | H : bool_decide _ = true |- _ => apply bool_decide_eq_true in H
    end; set_solver.
Qed.

Lemma target_not_redirected e r c location :
  path r ∈ ["/"; "/login"] → method r = GET →
  (handle e r c).1 ≠ Ok (Redirect location).
Proof.
  intros Hpath Hm Hrun. pose proof (handle_answer e r c) as Htyped.
  rewrite Hrun in Htyped. unfold answer_typed, route_of in Htyped.
  rewrite Hm in Htyped. set_unfold.
  by destruct Hpath as [Hp|[Hp|[]]]; rewrite Hp in Htyped; vm_compute in Htyped.
Qed.

End typing.

(** ** The theorems at sample requests *)

Lemma failure_statuses_witness :
  status_of (Raised AttributeError) ∈ statuses ∧
  (status_of (Raised AttributeError) = 500 → method Sample.register_no_password = POST).
Proof.
  apply (failure_statuses Sample.e0 Sample.register_no_password Sample.fresh).
  vm_compute; reflexivity.
Defined.

Lemma not_found_causes_witness :
  route_of Sample.delete_missing_id = None ∨
  ¬ session_valid (db Sample.fresh) (session Sample.fresh) ∨
  (∃ ep, route_of Sample.delete_missing_id = Some ep ∧
     ep ∈ [show_cafe_ep; delete_ep] ∧ cafe_missing Sample.delete_missing_id Sample.fresh).
Proof. apply (not_found_causes Sample.e0). vm_compute; reflexivity. Defined.
