(* ===== verification/Browser.v ===== *)
(** * Browser: a visit, with its redirects followed

    The view functions answer a successful POST, a logout, a delete and a
    refused review with a redirect, which the browser follows with a GET
    of the location.  [browse] is that loop, with fuel for the number of
    redirects the browser accepts before it gives up (browsers stop
    around twenty).  The theorems show that the loop ends whatever the
    request and the world: the redirects of main.py lead to / or to
    /login, and a GET of either renders a page, so one redirect is all a
    visit ever follows; and that in a reachable world a redirected visit
    ends on the page of the listing or of the login form. *)

From S2P Require Import Prelude Tables Interfaces Store Forms Auth Handlers.
From S2P Require Import Outcomes Effects App.

(** How a visit ends. *)
Inductive visit :=
| Shown (p : page)
| Allowed (allow : list http_method)
| Failed (f : failure)
| TooManyRedirects.

#[export] Instance visit_inhabited : Inhabited visit := populate TooManyRedirects.

(** The request a browser sends for a Location header. *)
Definition follow (location : string) : request := Request location GET ∅ ∅ None.

(** The redirects a browser follows before it reports an error. *)
Definition max_redirects : nat := 20.

Section browser.
Context `{IdCodec} `{PasswordHasher} `{UrlValidator}.

(** One visit of [client]: the request is served, and each redirect is
    followed while fuel lasts. *)
Fixpoint browse (fuel : nat) (client : nat) (e : env) (r : request) (w : world) :
    visit * world :=
  match serve client e r w with
  | (Ok (Render p), w') => (Shown p, w')
  | (Ok (Options allow), w') => (Allowed allow, w')
  | (Err f, w') => (Failed f, w')
  | (Ok (Redirect location), w') =>
      match fuel with
      | 0 => (TooManyRedirects, w')
      | S fuel' => browse fuel' client e (follow location) w'
      end
  end.

(** The page a redirect leads to: the login form, or the listing as the
    world has it then. *)
Definition landing (location : string) (client : nat) (w : world) : page :=
  if decide (location = "/login") then login_html (LoginForm.mk None None None)
  else index_html (select_cafes_by_name (store w))
         (is_authenticated (session_user (store w) (cookie w client))).

(** A visit as the browser makes it. *)
Definition visit_of (client : nat) (e : env) (r : request) (w : world) : visit * world :=
  browse max_redirects client e r w.

Implicit Types (w : world) (r : request) (e : env) (client fuel : nat).

Lemma browse_unfold fuel client e r w :
  browse fuel client e r w =
  match serve client e r w with
  | (Ok (Render p), w') => (Shown p, w')
  | (Ok (Options allow), w') => (Allowed allow, w')
  | (Err f, w') => (Failed f, w')
  | (Ok (Redirect location), w') =>
      match fuel with
      | 0 => (TooManyRedirects, w')
      | S fuel' => browse fuel' client e (follow location) w'
      end
  end.
Proof. by destruct fuel. Qed.

(** A request that is not redirected needs no fuel. *)
Lemma browse_direct fuel client e r w :
  (∀ location, (serve client e r w).1 ≠ Ok (Redirect location)) →
  browse fuel client e r w = browse 0 client e r w ∧
  (browse 0 client e r w).1 ≠ TooManyRedirects.
Proof.
  intros Hserve. rewrite (browse_unfold fuel), (browse_unfold 0).
  destruct (serve client e r w) as [[[p|location|allow]|f] w']; try done.
  by edestruct Hserve.
Qed.

(** The request that follows a redirect is not redirected. *)
Lemma follow_direct client e r w location location' :
  (serve client e r w).1 = Ok (Redirect location) →
  (serve client e (follow location) (serve client e r w).2).1 ≠ Ok (Redirect location').
Proof.
  intros Hserve. apply redirect_targets in Hserve. by apply target_not_redirected.
Qed.

Lemma browse_S fuel client e r w location :
  (serve client e r w).1 = Ok (Redirect location) →
  browse (S fuel) client e r w =
  browse fuel client e (follow location) (serve client e r w).2.
Proof.
  rewrite browse_unfold.
  by destruct (serve client e r w) as [[[p|location'|allow]|f] w']; intros [= ->].
Qed.

(** C11: a visit ends.  Whatever the request and the world, a browser
    that follows one redirect reaches the end of the visit: more fuel
    gives the same visit, and the visit is never given up for too many
    redirects.  The application has no redirect loop. *)
Theorem browse_terminates fuel client e r w :
  browse (S fuel) client e r w = browse 1 client e r w ∧
  (browse (S fuel) client e r w).1 ≠ TooManyRedirects.
Proof.
  destruct ((serve client e r w).1) as [[p|location|allow]|f] eqn:Hserve.
  2: { rewrite !(browse_S _ _ _ _ _ location) by done.
       destruct (browse_direct fuel client e (follow location) (serve client e r w).2)
         as [-> Hend]; [intros location'; by apply follow_direct|done]. }
  all: rewrite (browse_unfold (S fuel)), (browse_unfold 1);
    by destruct (serve client e r w) as [[[p'|location'|allow']|f'] w'];
      simplify_eq/=.
Qed.

(** The GET that follows a redirect renders its page. *)
Lemma serve_landing client e w location :
  world_wf w → location ∈ ["/"; "/login"] →
  serve client e (follow location) w =
  (Ok (Render (landing location client w)), save client (client_ctx w client) w).
Proof.
  intros Hv%(cookie_valid _ client) Hloc. unfold serve. set_unfold.
  destruct Hloc as [->|[->|[]]].
  - rewrite (handle_get e _ _ show_all_caffe_ep) by (done || set_solver).
    cbn [view_function].
    by rewrite (exec_Ok_eq _ _ _ _ (show_all_caffe_valid (client_ctx w client) Hv)).
  - rewrite (handle_get e _ _ login_ep) by (done || set_solver).
    cbn [view_function].
    by rewrite (exec_Ok_eq _ _ _ _
      (login_get (follow "/login") (client_ctx w client) ltac:(set_solver) Hv)).
Qed.

(** A redirected visit lands on a page.  In a reachable world, a
    request that is answered with a redirect ends, once the browser has
    followed it, on the login form or on the listing of the cafes as
    they are after the request, with the login state of the visitor; the
    GET that follows the redirect changes nothing in the database. *)
Theorem redirected_visit_lands fuel client e r w location :
  reachable w → (serve client e r w).1 = Ok (Redirect location) →
  let w1 := (serve client e r w).2 in
  (browse (S fuel) client e r w).1 = Shown (landing location client w1) ∧
  store (browse (S fuel) client e r w).2 = store w1.
Proof.
  intros Hw%reachable_world_wf Hserve w1.
  rewrite (browse_S _ _ _ _ _ location), browse_unfold by done.
  apply redirect_targets in Hserve as Hloc.
  by rewrite serve_landing by (done || by apply serve_world_wf).
Qed.

End browser.

(** ** The theorems at sample requests *)

Lemma redirected_visit_lands_witness :
  let w1 := (serve 0 Sample.e0 Sample.logout_get (run sample_trace initial)).2 in
  (browse 20 0 Sample.e0 Sample.logout_get (run sample_trace initial)).1 =
    Shown (landing "/" 0 w1) ∧
  store (browse 20 0 Sample.e0 Sample.logout_get (run sample_trace initial)).2 = store w1.
Proof.
  apply (redirected_visit_lands 19 0 Sample.e0 Sample.logout_get
           (run sample_trace initial) "/").
  - apply reachable_run.
  - vm_compute; reflexivity.
Defined.
