(* ===== verification/Templates.v ===== *)
(** * Templates: the page as the browser receives it

    The templates of the application are not part of the sources under
    src/; what is known of them is what main.py passes to them ([page])
    and what the specification says of the flashed messages: a message
    is shown once, on the next page rendered.  That is Flask's
    get_flashed_messages, which a template calls and which takes the
    pending messages out of the session.

    The view functions return a rendered page as their last step, so
    rendering is modelled on the response of [handle]: [render] turns a
    [Render] into the page with the messages that were pending and
    leaves none ([respond], [serve_html], [browse_html]).

    The other files keep the messages in the session for good.  They
    may: a view function adds messages and never looks at them
    ([frames], [handle_frames]), so the two models answer every request
    with the same page and differ in the pending messages only
    ([alike], [html_run_refines]).  In the model with rendering, a
    message is shown by the page that follows its redirect and by no
    other ([flash_shown_once]), and a browser that follows redirects
    never holds a pending message between two visits
    ([visits_leave_no_message]). *)

From S2P Require Import Prelude Tables Interfaces Store Forms Auth Handlers.
From S2P Require Import Outcomes Effects App Browser.

(** ** Rendering *)

(** flask.get_flashed_messages(): the pending messages, which leave the
    session. *)
Definition get_flashed_messages (s : Session.t) : list (string * string) * Session.t :=
  (Session.flashes s, Session.mk (Session.user_id s) []).

(** What the browser receives. *)
Inductive reply :=
| Html (p : page) (messages : list (string * string))
| Location (location : string)
| Allow (allow : list http_method).

(** The template of a page shows the pending messages; a redirect and
    the answer to OPTIONS have no body to show them in. *)
Definition render (resp : response) (s : Session.t) : reply * Session.t :=
  match resp with
  | Render p => let shown := get_flashed_messages s in (Html p shown.1, shown.2)
  | Redirect location => (Location location, s)
  | Options allow => (Allow allow, s)
  end.

(** The response a reply was rendered from. *)
Definition forget (rep : reply) : response :=
  match rep with
  | Html p _ => Render p
  | Location location => Redirect location
  | Allow allow => Options allow
  end.

Definition forget_messages (o : outcome failure reply) : outcome failure response :=
  match o with Ok rep => Ok (forget rep) | Err f => Err f end.

(** How a visit ends for the visitor. *)
Inductive shown :=
| ShownHtml (p : page) (messages : list (string * string))
| ShownAllow (allow : list http_method)
| ShownError (f : failure)
| ShownNothing.

Section templates.
Context `{IdCodec} `{PasswordHasher} `{UrlValidator}.

(** A request served and its response rendered. *)
Definition respond (e : env) (r : request) (c : ctx) : outcome failure reply * ctx :=
  let result := handle e r c in
  match result.1 with
  | Ok resp =>
      let rendered := render resp (session result.2) in
      (Ok rendered.1, Ctx (db result.2) rendered.2)
  | Err f => (Err f, result.2)
  end.

Definition serve_html (client : nat) (e : env) (r : request) (w : world) :
    outcome failure reply * world :=
  let result := respond e r (client_ctx w client) in
  (result.1, save client result.2 w).

Definition run_html (trace : list (nat * env * request)) (w : world) : world :=
  foldl (λ w '(client, e, r), (serve_html client e r w).2) w trace.

(** A visit: the redirects are followed while fuel lasts, as in
    [browse]. *)
Fixpoint browse_html (fuel : nat) (client : nat) (e : env) (r : request) (w : world) :
    shown * world :=
  match serve_html client e r w with
  | (Ok (Html p messages), w') => (ShownHtml p messages, w')
  | (Ok (Allow allow), w') => (ShownAllow allow, w')
  | (Err f, w') => (ShownError f, w')
  | (Ok (Location location), w') =>
      match fuel with
      | 0 => (ShownNothing, w')
      | S fuel' => browse_html fuel' client e (follow location) w'
      end
  end.

(** The worlds that browsers lead to, each visit with fuel for a
    redirect. *)
Inductive visited : world → Prop :=
| visited_initial : visited initial
| visited_browse fuel client e r w :
    visited w → visited (browse_html (S fuel) client e r w).2.

(** No browser holds a pending message. *)
Definition quiet (w : world) : Prop :=
  ∀ client, Session.flashes (cookie w client) = [].

(** ** The messages are a frame *)

(** The state with more messages pending, older than its own. *)
Definition push (fl : list (string * string)) (c : ctx) : ctx :=
  Ctx (db c) (Session.mk (Session.user_id (session c)) (fl ++ Session.flashes (session c))).

Definition pushed {A} (fl : list (string * string)) (o : outcome failure (A * ctx)) :
    outcome failure (A * ctx) :=
  match o with
  | Ok (a, c') => Ok (a, push fl c')
  | Err f => Err f
  end.

(** A program frames the pending messages when it runs the same way
    whatever is pending and leaves what was pending in front of what it
    adds. *)
Definition frames {A} (m : prog ctx failure A) : Prop :=
  ∀ fl c, m (push fl c) = pushed fl (m c).

(** The state without its pending messages. *)
Definition base (c : ctx) : ctx :=
  Ctx (db c) (Session.mk (Session.user_id (session c)) []).

(** Two states of one login: the same database and the same user. *)
Definition same_login (c1 c2 : ctx) : Prop :=
  db c1 = db c2 ∧ Session.user_id (session c1) = Session.user_id (session c2).

(** Two worlds alike: the same database, and each browser logged in as
    the same user. *)
Definition alike (w1 w2 : world) : Prop :=
  store w1 = store w2 ∧
  ∀ client, Session.user_id (cookie w1 client) = Session.user_id (cookie w2 client).

End templates.

Infix "≈" := alike (at level 70, no associativity) : stdpp_scope.

Create HintDb frames discriminated.

Section frames.
Context `{IdCodec} `{PasswordHasher} `{UrlValidator}.
Implicit Types (c : ctx) (fl : list (string * string)) (e : env) (r : request).

Lemma frames_pret {A} (a : A) : frames (pret a).
Proof. done. Qed.

Lemma frames_pthrow {A} (f : failure) : frames (pthrow (A := A) f).
Proof. done. Qed.

Lemma frames_plift {A} (o : outcome failure A) : frames (plift o).
Proof. intros fl c. by destruct o. Qed.

Lemma frames_pbind {A B} (m : prog ctx failure A) (k : A → prog ctx failure B) :
  frames m → (∀ a, frames (k a)) → frames (pbind m k).
Proof.
  intros Hm Hk fl c. unfold pbind. rewrite Hm.
  destruct (m c) as [[a c']|f]; [apply Hk|done].
Qed.

(** A program may read the state, as long as it is not for the pending
    messages. *)
Lemma frames_pget_bind {A} (k : ctx → prog ctx failure A) :
  (∀ fl c c0, k (push fl c) c0 = k c c0) → (∀ c, frames (k c)) →
  frames (pbind pget k).
Proof. intros Hread Hk fl c. rewrite !pbind_pget, Hread. apply Hk. Qed.

Lemma frames_flash message : frames (flash message).
Proof.
  intros fl [d [u pending]]. unfold flash, pmodify, set_session, pushed, push. simpl.
  by rewrite (assoc_L (++)).
Qed.

Lemma frames_with_db {A} (m : prog database failure A) : frames (with_db m).
Proof. intros fl c. unfold with_db. simpl. by destruct (m (db c)) as [[a d']|f]. Qed.

Lemma frames_load_user user_id : frames (load_user user_id).
Proof. apply frames_pget_bind; [done|]. intros c. apply frames_plift. Qed.

Lemma frames_current_user : frames current_user.
Proof.
  apply frames_pget_bind; [done|]. intros c.
  destruct (Session.user_id (session c)); [|apply frames_pret].
  apply frames_pbind; [apply frames_load_user|]. intros u. apply frames_pret.
Qed.

Lemma frames_login_user u : frames (login_user u).
Proof. by intros fl [d [uid pending]]. Qed.

Lemma frames_logout_user : frames logout_user.
Proof.
  apply frames_pbind; [apply frames_current_user|]. intros _.
  by intros fl [d [uid pending]].
Qed.

Lemma frames_login_required {A} (view : prog ctx failure A) :
  frames view → frames (login_required view).
Proof.
  intros Hview. apply frames_pbind; [apply frames_current_user|].
  intros u. destruct (is_authenticated u); [done|apply frames_pthrow].
Qed.

Lemma frames_render_template p : frames (render_template p).
Proof.
  apply frames_pbind; [apply frames_current_user|]. intros _. apply frames_pret.
Qed.

Lemma frames_redirect location : frames (redirect location).
Proof. apply frames_pret. Qed.

End frames.

#[export] Hint Resolve frames_pret frames_pthrow frames_plift frames_flash frames_with_db
  frames_load_user frames_current_user frames_login_user frames_logout_user
  frames_render_template frames_redirect : frames.

(** One step through a view function. *)
Ltac frames_step :=
  lazymatch goal with
  | |- frames (pbind pget _) => apply frames_pget_bind; [done|intros ?]
  | |- frames (pbind _ _) => apply frames_pbind; [|intros ?]
  | |- frames (login_required _) => apply frames_login_required
  | |- frames (if ?b then _ else _) => destruct b
  | |- frames (match ?x with _ => _ end) => destruct x
  | |- _ => solve [auto with frames]
  end.

Section views.
Context `{IdCodec} `{PasswordHasher} `{UrlValidator}.
Implicit Types (c : ctx) (fl : list (string * string)) (e : env) (r : request).

Lemma frames_view_function ep e r : frames (view_function ep e r).
Proof.
  destruct ep; simpl;
    unfold show_all_caffe, show_cafe, register, login, logout, add_cafe, delete;
    cbv zeta; repeat frames_step.
Qed.

Lemma frames_dispatch e r : frames (dispatch e r).
Proof.
  unfold dispatch. destruct (list_find _ url_map) as [[i [[rule ep] methods]]|];
    [|apply frames_pthrow].
  repeat case_bool_decide; auto using frames_view_function with frames.
Qed.

Lemma push_base c : push (Session.flashes (session c)) (base c) = c.
Proof. destruct c as [d [u fl]]. unfold push, base. simpl. by rewrite app_nil_r. Qed.

Lemma base_same_login c1 c2 : same_login c1 c2 → base c1 = base c2.
Proof. destruct c1 as [d1 [u1 fl1]], c2 as [d2 [u2 fl2]]. by intros [[= ->] [= ->]]. Qed.

Lemma handle_push e r fl c :
  handle e r (push fl c) = ((handle e r c).1, push fl (handle e r c).2).
Proof.
  unfold handle, exec. rewrite frames_dispatch.
  by destruct (dispatch e r c) as [[resp c']|f].
Qed.

End views.

(** ** A message comes with a redirect *)

(** A program keeps the pending messages when a run that succeeds leaves
    them as they were; a view function announces when it adds messages
    only to answer with a redirect. *)
Definition keeps {A} (m : prog ctx failure A) : Prop :=
  ∀ c a c', m c = Ok (a, c') → Session.flashes (session c') = Session.flashes (session c).

Definition announces (m : prog ctx failure response) : Prop :=
  ∀ c resp c', m c = Ok (resp, c') →
    Session.flashes (session c') = Session.flashes (session c) ∨
    ∃ location, resp = Redirect location.

Create HintDb keeps discriminated.

Section keeps.
Context `{IdCodec} `{PasswordHasher} `{UrlValidator}.
Implicit Types (c : ctx) (e : env) (r : request).

Lemma keeps_pret {A} (a : A) : keeps (pret a).
Proof. by intros c a' c' [= _ <-]. Qed.

Lemma keeps_pthrow {A} (f : failure) : keeps (pthrow (A := A) f).
Proof. done. Qed.

Lemma keeps_plift {A} (o : outcome failure A) : keeps (plift o).
Proof. intros c a c'. unfold plift. by destruct o; intros [= _ <-]. Qed.

Lemma keeps_pget : keeps pget.
Proof. by intros c a c' [= _ <-]. Qed.

Lemma keeps_pbind {A B} (m : prog ctx failure A) (k : A → prog ctx failure B) :
  keeps m → (∀ a, keeps (k a)) → keeps (pbind m k).
Proof.
  intros Hm Hk c b c'. unfold pbind. destruct (m c) as [[a c1]|f] eqn:Hrun; [|done].
  intros Hb. by rewrite (Hk a c1 b c' Hb), (Hm c a c1 Hrun).
Qed.

Lemma keeps_with_db {A} (m : prog database failure A) : keeps (with_db m).
Proof. intros c a c'. unfold with_db. by destruct (m (db c)) as [[a' d']|f]; intros [= _ <-]. Qed.

Lemma keeps_current_user : keeps current_user.
Proof. intros c ou c' Hrun. by rewrite (current_user_Ok c ou c' Hrun). Qed.

Lemma keeps_login_user u : keeps (login_user u).
Proof. by intros c b c' [= _ <-]. Qed.

Lemma keeps_logout_user : keeps logout_user.
Proof.
  apply keeps_pbind; [apply keeps_current_user|]. by intros _ c b c' [= _ <-].
Qed.

Lemma keeps_render_template p : keeps (render_template p).
Proof. apply keeps_pbind; [apply keeps_current_user|]. intros _. apply keeps_pret. Qed.

Lemma keeps_redirect location : keeps (redirect location).
Proof. apply keeps_pret. Qed.

Lemma announces_keeps (m : prog ctx failure response) : keeps m → announces m.
Proof. intros Hm c resp c' Hrun. left. by eapply Hm. Qed.

Lemma announces_pbind {A} (m : prog ctx failure A) (k : A → prog ctx failure response) :
  keeps m → (∀ a, announces (k a)) → announces (pbind m k).
Proof.
  intros Hm Hk c resp c'. unfold pbind. destruct (m c) as [[a c1]|f] eqn:Hrun; [|done].
  intros Hresp. rewrite <-(Hm c a c1 Hrun). by eapply Hk.
Qed.

Lemma announces_flash message location : announces (flash message ;; redirect location)%prog.
Proof. intros c resp c' [= <- _]. right. by exists location. Qed.

Lemma announces_login_required view : announces view → announces (login_required view).
Proof.
  intros Hview. apply announces_pbind; [apply keeps_current_user|].
  intros u. destruct (is_authenticated u); [done|]. apply announces_keeps, keeps_pthrow.
Qed.

End keeps.

#[export] Hint Resolve keeps_pret keeps_pthrow keeps_plift keeps_pget keeps_with_db
  keeps_current_user keeps_login_user keeps_logout_user keeps_render_template
  keeps_redirect : keeps.

#[export] Hint Extern 2 (keeps (pbind _ _)) =>
  apply keeps_pbind; [|intros ?] : keeps.

Ltac announces_step :=
  lazymatch goal with
  | |- announces (pbind (flash _) _) => apply announces_flash
  | |- announces (pbind _ _) => apply announces_pbind; [solve [auto with keeps]|intros ?]
  | |- announces (login_required _) => apply announces_login_required
  | |- announces (if ?b then _ else _) => destruct b
  | |- announces (match ?x with _ => _ end) => destruct x
  | |- _ => solve [apply announces_keeps; auto with keeps]
  end.

Section announcing.
Context `{IdCodec} `{PasswordHasher} `{UrlValidator}.
Implicit Types (c : ctx) (e : env) (r : request).

Lemma announces_view_function ep e r : announces (view_function ep e r).
Proof.
  destruct ep; simpl;
    unfold show_all_caffe, show_cafe, register, login, logout, add_cafe, delete;
    cbv zeta; repeat announces_step.
Qed.

Lemma announces_dispatch e r : announces (dispatch e r).
Proof.
  unfold dispatch. destruct (list_find _ url_map) as [[i [[rule ep] methods]]|];
    [|apply announces_keeps, keeps_pthrow].
  repeat case_bool_decide;
    auto using announces_view_function, announces_keeps with keeps.
Qed.

(** What [handle] does to the pending messages: nothing, unless it
    answers with a redirect. *)
Lemma handle_flashes e r c :
  Session.flashes (session (handle e r c).2) = Session.flashes (session c) ∨
  ∃ location, (handle e r c).1 = Ok (Redirect location).
Proof.
  unfold handle, exec. destruct (dispatch e r c) as [[resp c']|f] eqn:Hrun; [|by left].
  destruct (announces_dispatch e r c resp c' Hrun) as [?|[location ->]]; eauto.
Qed.

End announcing.

(** ** The two models agree *)

Section agreement.
Context `{IdCodec} `{PasswordHasher} `{UrlValidator}.
Implicit Types (c : ctx) (w : world) (e : env) (r : request) (client : nat).

#[export] Instance alike_equivalence : Equivalence alike.
Proof.
  split.
  - by intros w.
  - intros w1 w2 [Hs Hu]. by split.
  - intros w1 w2 w3 [Hs1 Hu1] [Hs2 Hu2]. split; [congruence|].
    intros client. by rewrite Hu1.
Qed.

Lemma session_valid_same_login d s1 s2 :
  Session.user_id s1 = Session.user_id s2 → session_valid d s1 → session_valid d s2.
Proof. destruct s1, s2. simpl. by intros ->. Qed.

(** The invariant of the worlds does not speak of the messages. *)
#[export] Instance world_wf_alike : Proper (alike ==> iff) world_wf.
Proof.
  assert (∀ w1 w2, w1 ≈ w2 → world_wf w1 → world_wf w2) as Himp.
  { intros w1 w2 [Hs Hu] Hwf.
    pose proof (λ client, cookie_valid w1 client Hwf) as Hvalid.
    destruct Hwf as (Hdb & _ & Howners & Hauthors). rewrite Hs in *.
    split_and!; [done| |done..]. intros client s Hclient.
    apply (session_valid_same_login _ (cookie w1 client)); [|apply Hvalid].
    rewrite Hu. unfold cookie. by rewrite Hclient. }
  intros w1 w2 Hw. split; apply Himp; [done|by symmetry].
Qed.

Lemma alike_client_ctx w1 w2 client :
  w1 ≈ w2 → same_login (client_ctx w1 client) (client_ctx w2 client).
Proof. intros [Hs Hu]. split; [done|apply Hu]. Qed.

Lemma alike_save client c1 c2 w1 w2 :
  same_login c1 c2 → w1 ≈ w2 → save client c1 w1 ≈ save client c2 w2.
Proof.
  intros [Hd Hc] [Hs Hu]. split; [done|]. intros other. rewrite !cookie_save.
  by case_decide.
Qed.

Lemma handle_same_login e r c1 c2 :
  same_login c1 c2 →
  (handle e r c1).1 = (handle e r c2).1 ∧ same_login (handle e r c1).2 (handle e r c2).2.
Proof.
  intros Hc. rewrite <-(push_base c1), <-(push_base c2), !handle_push.
  by rewrite (base_same_login c1 c2 Hc).
Qed.

(** What a request adds to the pending messages is what it flashes when
    none is pending. *)
Lemma handle_flashes_added e r c :
  Session.flashes (session (handle e r c).2) =
  Session.flashes (session c) ++ Session.flashes (session (handle e r (base c)).2).
Proof. rewrite <-(push_base c) at 1. by rewrite handle_push. Qed.

Lemma respond_same_login e r c : same_login (respond e r c).2 (handle e r c).2.
Proof. unfold respond. by destruct (handle e r c) as [[[p|location|allow]|f] c']. Qed.

Lemma respond_forget e r c : forget_messages (respond e r c).1 = (handle e r c).1.
Proof. unfold respond. by destruct (handle e r c) as [[[p|location|allow]|f] c']. Qed.

(** One request: the same page, and worlds that stay alike. *)
Lemma serve_html_serve client e r w1 w2 :
  w1 ≈ w2 →
  forget_messages (serve_html client e r w1).1 = (serve client e r w2).1 ∧
  (serve_html client e r w1).2 ≈ (serve client e r w2).2.
Proof.
  intros Hw. pose proof (alike_client_ctx w1 w2 client Hw) as Hc.
  destruct (handle_same_login e r _ _ Hc) as [Ho Hc']. unfold serve_html, serve. simpl.
  rewrite respond_forget. split; [done|]. apply alike_save; [|done].
  destruct (respond_same_login e r (client_ctx w1 client)) as [Hd Hu], Hc' as [Hd' Hu'].
  split; congruence.
Qed.

Lemma run_html_snoc trace client e r w :
  run_html (trace ++ [(client, e, r)]) w = (serve_html client e r (run_html trace w)).2.
Proof. unfold run_html. by rewrite foldl_snoc. Qed.

Lemma run_html_run trace w1 w2 : w1 ≈ w2 → run_html trace w1 ≈ run trace w2.
Proof.
  intros Hw. induction trace as [|[[client e] r] trace IH] using rev_ind; [done|].
  rewrite run_html_snoc, run_snoc. by apply serve_html_serve.
Qed.

Lemma serve_html_world_wf client e r w : world_wf w → world_wf (serve_html client e r w).2.
Proof.
  intros Hwf. destruct (serve_html_serve client e r w w) as [_ Hw]; [done|].
  rewrite Hw. by apply serve_world_wf.
Qed.

Lemma cookie_serve_html client e r w other :
  cookie (serve_html client e r w).2 other =
  if decide (other = client) then session (respond e r (client_ctx w client)).2
  else cookie w other.
Proof. apply cookie_save. Qed.

(** ** Pages and the messages they show *)

(** A page shows what its request found pending: a request that is
    answered with a page adds nothing. *)
Lemma respond_Html e r c p messages :
  (respond e r c).1 = Ok (Html p messages) →
  messages = Session.flashes (session c) ∧ Session.flashes (session (respond e r c).2) = [].
Proof.
  unfold respond. destruct (handle_flashes e r c) as [Hkept|[location Hloc]].
  - destruct (handle e r c) as [[[p'|location|allow]|f] c']; simpl in *; try done.
    by intros [= _ <-].
  - by rewrite Hloc.
Qed.

(** What is not a redirect leaves nothing pending that was not. *)
Lemma respond_quiet e r c :
  Session.flashes (session c) = [] →
  (∀ location, (respond e r c).1 ≠ Ok (Location location)) →
  Session.flashes (session (respond e r c).2) = [].
Proof.
  intros Hc. unfold respond. destruct (handle_flashes e r c) as [Hkept|[location Hloc]].
  - destruct (handle e r c) as [[[p'|location|allow]|f] c']; simpl in *; congruence.
  - rewrite Hloc. simpl. intros Hl. by destruct (Hl location).
Qed.

(** The GET that follows a redirect renders its page, with everything
    that was pending. *)
Lemma serve_html_landing client e w location :
  world_wf w → location ∈ ["/"; "/login"] →
  serve_html client e (follow location) w =
  (Ok (Html (landing location client w) (Session.flashes (cookie w client))),
   save client (base (client_ctx w client)) w).
Proof.
  intros Hwf Hloc. pose proof (serve_landing client e w location Hwf Hloc) as Hserve.
  apply (f_equal fst) in Hserve. unfold serve in Hserve. simpl in Hserve.
  assert ((handle e (follow location) (client_ctx w client)).2 = client_ctx w client) as Hsafe.
  { apply get_is_safe; [apply Hwf|done|]. right. simpl. set_solver. }
  unfold serve_html, respond. destruct (handle e (follow location) _) as [o c'].
  simpl in *. by subst.
Qed.

Lemma browse_html_unfold fuel client e r w :
  browse_html fuel client e r w =
  match serve_html client e r w with
  | (Ok (Html p messages), w') => (ShownHtml p messages, w')
  | (Ok (Allow allow), w') => (ShownAllow allow, w')
  | (Err f, w') => (ShownError f, w')
  | (Ok (Location location), w') =>
      match fuel with
      | 0 => (ShownNothing, w')
      | S fuel' => browse_html fuel' client e (follow location) w'
      end
  end.
Proof. by destruct fuel. Qed.

Lemma serve_html_targets client e r w location :
  (serve_html client e r w).1 = Ok (Location location) → location ∈ ["/"; "/login"].
Proof.
  intros Hserve. apply (redirect_targets e r (client_ctx w client)).
  rewrite <-respond_forget. unfold serve_html in Hserve. simpl in Hserve. by rewrite Hserve.
Qed.

(** A redirected visit: the landing page, with the messages pending
    after the redirect. *)
Lemma browse_html_redirected fuel client e r w location :
  world_wf w → (serve_html client e r w).1 = Ok (Location location) →
  let w1 := (serve_html client e r w).2 in
  browse_html (S fuel) client e r w =
  (ShownHtml (landing location client w1) (Session.flashes (cookie w1 client)),
   save client (base (client_ctx w1 client)) w1).
Proof.
  intros Hwf Hserve w1. pose proof (serve_html_targets _ _ _ _ _ Hserve) as Hloc.
  pose proof (serve_html_world_wf client e r w Hwf) as Hwf1. subst w1.
  rewrite (browse_html_unfold (S fuel)).
  destruct (serve_html client e r w) as [o w'] eqn:Hs. simpl in *. subst o.
  by rewrite browse_html_unfold, serve_html_landing.
Qed.

Lemma serve_html_quiet client e r w :
  quiet w → (∀ location, (serve_html client e r w).1 ≠ Ok (Location location)) →
  quiet (serve_html client e r w).2.
Proof.
  intros Hquiet Hpage other. rewrite cookie_serve_html. case_decide; [|done].
  apply respond_quiet; [apply Hquiet|apply Hpage].
Qed.

Lemma browse_html_direct fuel client e r w :
  (∀ location, (serve_html client e r w).1 ≠ Ok (Location location)) →
  (browse_html fuel client e r w).2 = (serve_html client e r w).2.
Proof.
  intros Hpage. rewrite browse_html_unfold.
  destruct (serve_html client e r w) as [[[p m|location|allow]|f] w']; [done| |done..].
  by destruct (Hpage location).
Qed.

(** A visit leaves no message pending. *)
Lemma visit_quiet fuel client e r w :
  world_wf w → quiet w →
  world_wf (browse_html (S fuel) client e r w).2 ∧ quiet (browse_html (S fuel) client e r w).2.
Proof.
  intros Hwf Hquiet. pose proof (serve_html_world_wf client e r w Hwf) as Hwf1.
  destruct (serve_html client e r w).1 as [[p m|location|allow]|f] eqn:Hout.
  2: { rewrite (browse_html_redirected fuel client e r w location) by done.
       cbn [snd]. set (w1 := (serve_html client e r w).2) in *.
       assert (save client (base (client_ctx w1 client)) w1 ≈ w1) as Hw.
       { split; [done|]. intros other. rewrite cookie_save. by case_decide; subst. }
       split; [by rewrite Hw|]. intros other. rewrite cookie_save.
       case_decide; [done|]. unfold w1. rewrite cookie_serve_html.
       case_decide; [done|apply Hquiet]. }
  all: rewrite browse_html_direct by (by rewrite Hout); split; [done|];
    apply serve_html_quiet; [done|by rewrite Hout].
Qed.

End agreement.

(** ** The theorems *)

Section theorems.
Context `{IdCodec} `{PasswordHasher} `{UrlValidator}.
Implicit Types (c : ctx) (w : world) (e : env) (r : request) (client : nat).

(** C17: the view functions do not read the messages.  Two runs of a
    request from states that differ in the pending messages only give
    the same answer and states that again differ in the pending
    messages only; both leave what was pending in place and add the same
    messages behind it. *)
Theorem handle_frames e r c1 c2 :
  same_login c1 c2 →
  (handle e r c1).1 = (handle e r c2).1 ∧
  same_login (handle e r c1).2 (handle e r c2).2 ∧
  ∃ added,
    Session.flashes (session (handle e r c1).2) = Session.flashes (session c1) ++ added ∧
    Session.flashes (session (handle e r c2).2) = Session.flashes (session c2) ++ added.
Proof.
  intros Hc. destruct (handle_same_login e r c1 c2 Hc) as [Ho Hc'].
  split_and!; [done..|]. exists (Session.flashes (session (handle e r (base c1)).2)).
  rewrite (handle_flashes_added e r c1), (handle_flashes_added e r c2).
  by rewrite (base_same_login c1 c2 Hc).
Qed.

(** C16: rendering refines the model that keeps the messages.  From
    worlds that are alike, the server that renders its pages and the
    server of [App] stay alike along every trace of requests, and after
    it they answer every request with the same page, redirect or
    failure: what is proved of the database, of the login state and of
    the answers in the model of [App] holds of the pages as the browser
    receives them. *)
Theorem html_run_refines trace w w' :
  w ≈ w' →
  run_html trace w ≈ run trace w' ∧
  ∀ client e r,
    forget_messages (serve_html client e r (run_html trace w)).1 =
    (serve client e r (run trace w')).1.
Proof.
  intros Hw. split; [by apply run_html_run|].
  intros client e r. by apply serve_html_serve, run_html_run.
Qed.

(** C18: a message is shown once.  When a request is answered with a
    redirect, the browser that follows it receives the landing page with
    every message that was pending after the redirect, the one the
    request flashed included; the database is as the request left it;
    and no page the browser is served afterwards shows a message of
    before. *)
Theorem flash_shown_once fuel client e r w location :
  world_wf w → (serve_html client e r w).1 = Ok (Location location) →
  let w1 := (serve_html client e r w).2 in
  let visit := browse_html (S fuel) client e r w in
  visit.1 = ShownHtml (landing location client w1) (Session.flashes (cookie w1 client)) ∧
  store visit.2 = store w1 ∧
  ∀ e' r' p messages,
    (serve_html client e' r' visit.2).1 = Ok (Html p messages) → messages = [].
Proof.
  intros Hwf Hserve w1 visit. subst visit.
  rewrite (browse_html_redirected fuel client e r w location) by done.
  split_and!; [done..|]. intros e' r' p messages [-> _]%respond_Html. cbn [snd].
  unfold client_ctx. by rewrite cookie_save, decide_True.
Qed.

(** C19: a browser holds no message between two visits.  In every world
    that browsers lead to from the start, each visit following its
    redirect, no cookie holds a pending message and the invariant of
    the worlds holds: a message never outlives the visit that flashed
    it, and the cookie carries the login alone. *)
Theorem visits_leave_no_message w : visited w → quiet w ∧ world_wf w.
Proof.
  induction 1 as [|fuel client e r w _ [Hquiet Hwf]].
  - split; [|apply initial_wf]. intros client. unfold cookie. simpl.
    by rewrite lookup_empty.
  - by destruct (visit_quiet fuel client e r w).
Qed.

(** The refused login of a visitor nobody knows, sent again and again
    without requesting a page. *)
Lemma refused_login_pending n :
  let w := run_html (replicate n (0, Sample.e0, Sample.login_wrong)) initial in
  store w = create_all ∧
  cookie w 0 =
    Session.mk None (replicate n ("message", "Email does not exit!please try again.")).
Proof.
  induction n as [|n [Hstore Hcookie]]; [done|].
  rewrite replicate_S_end. cbv zeta. rewrite run_html_snoc.
  set (w := run_html _ initial) in *.
  assert (client_ctx w 0 = push (Session.flashes (cookie w 0)) Sample.fresh) as Hctx.
  { unfold client_ctx, push. rewrite Hstore, Hcookie. simpl. by rewrite app_nil_r. }
  assert (handle Sample.e0 Sample.login_wrong Sample.fresh =
          (Ok (Redirect "/login"),
           Ctx create_all
             (Session.mk None [("message", "Email does not exit!please try again.")])))
    as Hfresh by (by vm_compute).
  unfold serve_html, respond. rewrite Hctx, handle_push, Hfresh. simpl. split; [done|].
  rewrite cookie_save, decide_True by done. simpl. rewrite Hcookie. simpl.
  by rewrite <-replicate_S_end.
Qed.

(** C24: the pending messages are not bounded.  A client that does not
    request a page after its redirects, here one that posts a refused
    login [n] times, holds [n] pending messages in its cookie: nothing
    in main.py limits what a session carries. *)
Theorem pending_unbounded n :
  ∃ trace, length trace = n ∧
    length (Session.flashes (cookie (run_html trace initial) 0)) = n.
Proof.
  exists (replicate n (0, Sample.e0, Sample.login_wrong)).
  destruct (refused_login_pending n) as [_ Hcookie].
  split; [apply length_replicate|]. rewrite Hcookie. apply length_replicate.
Qed.

End theorems.

(** ** The theorems at sample requests *)

(** A wrong password: the login form comes back with the message; asked
    for again, it comes without. *)
Example wrong_password_shown_once :
  let w := run sample_trace initial in
  let visit := browse_html 20 7 Sample.e0 Sample.login_wrong w in
  visit.1 = ShownHtml (login_html (LoginForm.mk None None None))
              [("message", "Password Incorrect!please try again")] ∧
  (browse_html 20 7 Sample.e0 (follow "/login") visit.2).1 =
    ShownHtml (login_html (LoginForm.mk None None None)) [].
Proof. by vm_compute. Qed.

Lemma handle_frames_witness :
  (handle Sample.e0 Sample.login_wrong Sample.c2).1 =
  (handle Sample.e0 Sample.login_wrong
     (push [("message", "an older message")] Sample.c2)).1.
Proof.
  apply (handle_frames Sample.e0 Sample.login_wrong Sample.c2
           (push [("message", "an older message")] Sample.c2)).
  by split.
Defined.

Lemma html_run_refines_witness :
  run_html sample_trace initial ≈ run sample_trace initial.
Proof. by apply (html_run_refines sample_trace initial initial). Defined.

Lemma flash_shown_once_witness :
  (browse_html 20 7 Sample.e0 Sample.login_wrong (run sample_trace initial)).1 =
  ShownHtml
    (landing "/login" 7
       (serve_html 7 Sample.e0 Sample.login_wrong (run sample_trace initial)).2)
    (Session.flashes
       (cookie (serve_html 7 Sample.e0 Sample.login_wrong (run sample_trace initial)).2 7)).
Proof.
  apply (flash_shown_once 19 7 Sample.e0 Sample.login_wrong (run sample_trace initial)
           "/login").
  - apply reachable_world_wf, reachable_run.
  - vm_compute; reflexivity.
Defined.

Lemma visits_leave_no_message_witness :
  quiet (browse_html 1 0 Sample.e0 Sample.login_wrong initial).2.
Proof.
  apply (visits_leave_no_message _
           (visited_browse 0 0 Sample.e0 Sample.login_wrong initial visited_initial)).
Defined.
