(* ===== verification/Threads.v ===== *)
(** * Threads: a request as the statements it sends to the database

    The development server of main.py (app.run, line 239) serves each
    request in a thread of its own.  The threads share the database and
    nothing else: the session of a request is read from its cookie and
    lives in the request.  What one request does between two statements
    of another is therefore decided by where it talks to the database.

    This file writes each view function once more, as a [thread]: a tree
    whose nodes are the statements the view sends to the database
    ([sql]: the three queries, the look-up by key, the load of the
    reviews of a cafe that a delete sends before its commit, and the
    four commits)
    and whose leaves are the response and the session of the request.
    Between two nodes a thread only computes.  Running a thread without
    interruption ([finish]) gives what [handle] gives, which is the
    theorem that ties this file to the sequential model; no request
    sends more than six statements ([within]), and each commits at most
    once and only reads afterwards ([commits_once]).  The file Schedules
    runs several threads in turns. *)

From S2P Require Import Prelude Tables Interfaces Store Forms Auth Handlers.

(** ** The statements *)

(** The reviews a delete finds for its cafe, by key: the relationship
    Cafe.cafe_review has no cascade (main.py:62), so the unit of work
    of db.session.delete loads the reviews of the cafe to set their
    cafe_id to NULL. *)
Definition loaded_reviews (d : database) (c : Cafe.t) : list nat :=
  (filter (λ row, Review.cafe_id row.2 = Some (Cafe.id c)) (rows (reviews d))).*1.

Definition forget_cafe (r : Review.t) : Review.t :=
  Review.mk (Review.review_id r) (Review.review_content r) (Review.user_id r) None.

(** The commit of a delete (main.py:233-234): an UPDATE that sets to
    NULL the cafe_id of each review loaded, and the DELETE of the
    cafe. *)
Definition delete_loaded (c : Cafe.t) (loaded : list nat) : prog database failure unit :=
  pmodify (λ d, set_cafes (base.delete (Cafe.id c))
                  (set_reviews (λ t, foldr (alter forget_cafe) t loaded) d)).

(** One statement, or one unit of work with its commit.  SQLite runs
    each of them without interleaving it with another. *)
Inductive sql : Type → Type :=
| GetCafe (ident : string) : sql Cafe.t
| GetUser (ident : string) : sql User.t
| SelectCafes : sql (list Cafe.t)
| SelectUser (email : option string) : sql (option User.t)
| CafeReviews (c : Cafe.t) : sql (list Review.t)
| LoadReviews (c : Cafe.t) : sql (list nat)
| InsertUser (name email password : option string) : sql User.t
| InsertCafe (name map_url : option string) (user : option nat)
    (img_url location has_sockets has_toilet has_wifi can_take_calls
     seats coffee_price : option string) : sql Cafe.t
| InsertReview (review_content : option string) (user cafe : option nat) : sql Review.t
| DeleteCafe (c : Cafe.t) (loaded : list nat) : sql unit.

(** A query does not change the database. *)
Definition select `{IdCodec} {B} (f : database → outcome failure B) :
    prog database failure B :=
  (d <- pget ;; plift (f d))%prog.

Definition run_sql `{IdCodec} {B} (q : sql B) : prog database failure B :=
  match q with
  | GetCafe ident => select (λ d, get_or_404 (cafes d) ident)
  | GetUser ident => select (λ d, get_or_404 (users d) ident)
  | SelectCafes => select (λ d, Ok (select_cafes_by_name d))
  | SelectUser email => select (λ d, Ok (select_user_by_email d email))
  | CafeReviews c => select (λ d, Ok (cafe_review d c))
  | LoadReviews c => select (λ d, Ok (loaded_reviews d c))
  | InsertUser name email password => insert_user name email password
  | InsertCafe name map_url user img_url location has_sockets has_toilet has_wifi
      can_take_calls seats coffee_price =>
      insert_cafe name map_url user img_url location has_sockets has_toilet has_wifi
        can_take_calls seats coffee_price
  | InsertReview review_content user cafe => insert_review review_content user cafe
  | DeleteCafe c loaded => delete_loaded c loaded
  end.

(** ** The delete, statement by statement *)

Lemma lookup_foldr_alter {A} (f : A → A) (keys : list nat) (m : gmap nat A) i :
  (∀ x, f (f x) = f x) →
  foldr (alter f) m keys !! i = (if decide (i ∈ keys) then f else id) <$> m !! i.
Proof.
  intros Hf. induction keys as [|k keys IH]; cbn [foldr].
  - rewrite decide_False by set_solver. by destruct (m !! i).
  - destruct (decide (i = k)) as [->|Hik].
    + rewrite lookup_alter_eq, IH, (decide_True (P := k ∈ k :: keys)) by set_solver.
      destruct (m !! k); simpl; [|done]. case_decide; simpl; by rewrite ?Hf.
    + rewrite lookup_alter_ne, IH by done. repeat case_decide; set_solver.
Qed.

Lemma elem_of_loaded_reviews d c i :
  i ∈ loaded_reviews d c ↔
  ∃ r, reviews d !! i = Some r ∧ Review.cafe_id r = Some (Cafe.id c).
Proof.
  unfold loaded_reviews. rewrite list_elem_of_fmap. split.
  - intros ([k r] & -> & [Hc Hin%elem_of_rows]%list_elem_of_filter). eauto.
  - intros (r & Hr & Hc). exists (i, r). split; [done|].
    apply list_elem_of_filter. split; [done|by apply elem_of_rows].
Qed.

(** The reviews loaded from the database the commit finds are all the
    reviews of the cafe: the two statements of a delete that no other
    request separates are the delete of the sequential model. *)
Lemma delete_loaded_reviews c d : delete_loaded c (loaded_reviews d c) d = delete_cafe c d.
Proof.
  unfold delete_loaded, delete_cafe, pmodify. do 2 f_equal. destruct d as [cs us rs].
  unfold set_cafes, set_reviews. simpl. f_equal. apply map_eq. intros i.
  rewrite lookup_foldr_alter, lookup_fmap by done.
  destruct (rs !! i) as [r|] eqn:Hr; simpl; [|done]. f_equal. unfold Review.detach.
  pose proof (elem_of_loaded_reviews (Database cs us rs) c i) as Hin. simpl in Hin.
  rewrite Hr in Hin. repeat case_decide; naive_solver.
Qed.

(** ** Threads *)

(** What is left of a request: its result, the failure it ended in, or
    the next statement with what follows its answer. *)
Inductive thread (A : Type) : Type :=
| Return (a : A)
| Raise (f : failure)
| Query {B : Type} (q : sql B) (k : B → thread A).
Arguments Return {A} a.
Arguments Raise {A} f.
Arguments Query {A B} q k.

Fixpoint tbind {A B} (t : thread A) (f : A → thread B) : thread B :=
  match t with
  | Return a => f a
  | Raise e => Raise e
  | Query q k => Query q (λ b, tbind (k b) f)
  end.

(** A view function works on the session of its request as well: a
    computation of the request threads the session through. *)
Definition request_thread (A : Type) : Type := Session.t → thread (A * Session.t).

Definition rret {A} (a : A) : request_thread A := λ s, Return (a, s).

Definition rbind {A B} (m : request_thread A) (f : A → request_thread B) :
    request_thread B :=
  λ s, tbind (m s) (λ '(a, s'), f a s').

Definition rthrow {A} (f : failure) : request_thread A := λ _, Raise f.

Definition rlift {A} (o : outcome failure A) : request_thread A :=
  match o with Ok a => rret a | Err f => rthrow f end.

Definition query {B} (q : sql B) : request_thread B := λ s, Query q (λ b, Return (b, s)).

Definition rsession : request_thread Session.t := λ s, Return (s, s).

Definition rmodify (f : Session.t → Session.t) : request_thread unit :=
  λ s, Return (tt, f s).

Create HintDb alone discriminated.

Declare Scope thread_scope.
Delimit Scope thread_scope with thread.
Notation "x <- m ;; k" := (rbind m (λ x, k))
  (at level 100, m at next level, k at level 200, right associativity) : thread_scope.
Notation "m ;; k" := (rbind m (λ _, k))
  (at level 100, k at level 200, right associativity) : thread_scope.

(** ** The session operations of a request *)

Definition flash_t (message : string) : request_thread unit :=
  rmodify (λ s, Session.mk (Session.user_id s) (Session.flashes s ++ [("message", message)])).

Definition current_user_t : request_thread (option User.t) :=
  (s <- rsession ;;
   match Session.user_id s with
   | None => rret None
   | Some user_id => u <- query (GetUser user_id) ;; rret (Some u)
   end)%thread.

Definition login_user_t `{IdCodec} (u : User.t) : request_thread bool :=
  (rmodify (λ s, Session.mk (Some (id_str (User.id u))) (Session.flashes s)) ;;
   rret true)%thread.

Definition logout_user_t : request_thread bool :=
  (_ <- current_user_t ;;
   rmodify (λ s, Session.mk None (Session.flashes s)) ;;
   rret true)%thread.

Definition login_required_t {A} (view : request_thread A) : request_thread A :=
  (u <- current_user_t ;;
   if is_authenticated u then view else rthrow (Abort 401))%thread.

Definition redirect_t (location : string) : request_thread response :=
  rret (Redirect location).

Definition render_template_t (p : page) : request_thread response :=
  (_ <- current_user_t ;; rret (Render p))%thread.

(** ** The view functions, statement by statement *)

Section views.
Context `{IdCodec} `{PasswordHasher} `{UrlValidator}.

(** main.py:121-125 *)
Definition show_all_caffe_t : request_thread response :=
  (all_cafes <- query SelectCafes ;;
   u <- current_user_t ;;
   render_template_t (index_html all_cafes (is_authenticated u)))%thread.

(** main.py:128-154 *)
Definition show_cafe_t (e : env) (r : request) : request_thread response :=
  (let current_date := now e in
   let commentForm := Comment.process (submitted_form r) in
   let random_avatar := choice (pick e) logos in
   let cafe_id := default " " (args r !! "id") in
   request_cafe <- query (GetCafe cafe_id) ;;
   let render :=
     (u <- current_user_t ;;
      reviews <- query (CafeReviews request_cafe) ;;
      render_template_t
        (Caffe_html request_cafe reviews random_avatar commentForm
           (is_authenticated u) current_date)) in
   if is_post r then
     u <- current_user_t ;;
     match u with
     | None =>
         flash_t "OOPS.You are not allowed to put a comment.please login" ;;
         redirect_t (url_for login_ep)
     | Some user =>
         query (InsertReview (form r !! "body") (Some (User.id user))
                  (Some (Cafe.id request_cafe))) ;;
         render
     end
   else render)%thread.

(** main.py:157-174 *)
Definition register_t (e : env) (r : request) : request_thread response :=
  (if is_post r then
     let user_password := form r !! "password" in
     password <- rlift (generate_password_hash_py user_password (seed e)) ;;
     let email := form r !! "email" in
     let name := form r !! "name" in
     new_user <- query (InsertUser name email (Some password)) ;;
     login_user_t new_user ;;
     redirect_t (url_for show_all_caffe_ep)
   else render_template_t register_html)%thread.

(** main.py:177-195 *)
Definition login_t (r : request) : request_thread response :=
  (let form_ := LoginForm.process (submitted_form r) in
   if is_post r then
     let user_email := form r !! "email" in
     let user_password := form r !! "password" in
     get_user <- query (SelectUser user_email) ;;
     match get_user with
     | Some user =>
         ok <- rlift (check_password_hash_py (User.password user) user_password) ;;
         if ok then
           login_user_t user ;;
           redirect_t (url_for show_all_caffe_ep)
         else
           ok' <- rlift (check_password_hash_py (User.password user) user_password) ;;
           if negb ok' then
             flash_t "Password Incorrect!please try again" ;;
             redirect_t (url_for login_ep)
           else render_template_t (login_html form_)
     | None =>
         flash_t "Email does not exit!please try again." ;;
         redirect_t (url_for login_ep)
     end
   else render_template_t (login_html form_))%thread.

(** main.py:198-201 *)
Definition logout_t : request_thread response :=
  (logout_user_t ;; redirect_t (url_for show_all_caffe_ep))%thread.

(** main.py:204-226 *)
Definition add_cafe_t (r : request) : request_thread response :=
  login_required_t
    (let addCafeForm := AddingForm.process (submitted_form r) in
     let errors := AddingForm.errors addCafeForm in
     if validate_on_submit (is_submitted r) (csrf r) errors then
       u <- current_user_t ;;
       query (InsertCafe
         (AddingForm.name addCafeForm)
         (AddingForm.map_url addCafeForm)
         (User.id <$> u)
         (AddingForm.cafe_image_url addCafeForm)
         (AddingForm.cafe_location addCafeForm)
         (AddingForm.sockets addCafeForm)
         (AddingForm.Toilet addCafeForm)
         (AddingForm.wifi addCafeForm)
         (AddingForm.Calls addCafeForm)
         (AddingForm.seats addCafeForm)
         (AddingForm.price addCafeForm)) ;;
       redirect_t (url_for show_all_caffe_ep)
     else
       render_template_t
         (add_cafe_html addCafeForm (if is_submitted r then errors else [])))%thread.

(** main.py:229-235 *)
Definition delete_t (r : request) : request_thread response :=
  (let cafe_delete_id := default " " (args r !! "id") in
   cafe_want_to_delete <- query (GetCafe cafe_delete_id) ;;
   loaded <- query (LoadReviews cafe_want_to_delete) ;;
   query (DeleteCafe cafe_want_to_delete loaded) ;;
   redirect_t (url_for show_all_caffe_ep))%thread.

Definition view_thread (ep : endpoint) (e : env) (r : request) : request_thread response :=
  match ep with
  | show_all_caffe_ep => show_all_caffe_t
  | show_cafe_ep => show_cafe_t e r
  | register_ep => register_t e r
  | login_ep => login_t r
  | logout_ep => logout_t
  | add_cafe_ep => add_cafe_t r
  | delete_ep => delete_t r
  end.

(** The routing of Flask sends no statement. *)
Definition dispatch_t (e : env) (r : request) : request_thread response :=
  match list_find (λ rule, rule.1.1 = path r) url_map with
  | Some (_, (_, ep, methods)) =>
      if bool_decide (method r ∈ rule_methods methods) then
        if bool_decide (method r = OPTIONS) then rret (Options (rule_methods methods))
        else view_thread ep e r
      else rthrow (Abort 405)
  | None => rthrow (Abort 404)
  end.

(** ** Running a thread without interruption *)

(** The thread as one program on the database: its statements one
    after the other. *)
Fixpoint alone {A} (t : thread A) : prog database failure A :=
  match t with
  | Return a => pret a
  | Raise f => pthrow f
  | Query q k => pbind (run_sql q) (λ b, alone (k b))
  end.

(** The same for a computation of a request, on the database and the
    session. *)
Definition alone_request {A} (m : request_thread A) : prog ctx failure A :=
  λ c, match alone (m (session c)) (db c) with
       | Ok ((a, s'), d') => Ok (a, Ctx d' s')
       | Err f => Err f
       end.

(** A thread run to its end: the statements that were committed stay
    committed when a later one fails. *)
Fixpoint finish {A} (t : thread A) (d : database) : outcome failure A * database :=
  match t with
  | Return a => (Ok a, d)
  | Raise f => (Err f, d)
  | Query q k =>
      match run_sql q d with
      | Ok (b, d') => finish (k b) d'
      | Err f => (Err f, d)
      end
  end.

(** ** A thread alone is the view function *)

Lemma alone_tbind {A B} (t : thread A) (f : A → thread B) d :
  alone (tbind t f) d = pbind (alone t) (λ a, alone (f a)) d.
Proof.
  revert d. induction t as [a|e|C q k IH]; intros d; simpl; [done..|].
  unfold pbind. destruct (run_sql q d) as [[b d']|]; [apply IH|done].
Qed.

Lemma alone_request_rbind {A B} (m : request_thread A) (f : A → request_thread B) c :
  alone_request (rbind m f) c = pbind (alone_request m) (λ a, alone_request (f a)) c.
Proof.
  unfold alone_request, rbind. rewrite alone_tbind. unfold pbind.
  by destruct (alone (m (session c)) (db c)) as [[[a s'] d']|].
Qed.

Lemma alone_request_query {B} (q : sql B) c :
  alone_request (query q) c = with_db (run_sql q) c.
Proof.
  unfold alone_request, query, with_db. simpl. unfold pbind, pret.
  by destruct (run_sql q (db c)) as [[b d']|].
Qed.

Lemma alone_request_rret {A} (a : A) c : alone_request (rret a) c = pret a c.
Proof. by destruct c. Qed.

Lemma alone_request_rthrow {A} f c : alone_request (rthrow (A:=A) f) c = pthrow f c.
Proof. done. Qed.

Lemma alone_request_rlift {A} (o : outcome failure A) c :
  alone_request (rlift o) c = plift o c.
Proof. by destruct o, c. Qed.

Lemma alone_request_rmodify f c :
  alone_request (rmodify f) c = pmodify (set_session f) c.
Proof. done. Qed.

Lemma bind_rsession {A} (f : Session.t → request_thread A) c :
  alone_request (rbind rsession f) c = alone_request (f (session c)) c.
Proof. done. Qed.

(** A query in a request is the query on its database. *)
Lemma with_db_select {B} (f : database → outcome failure B) c :
  with_db (select f) c = plift (f (db c)) c.
Proof.
  destruct c as [d s]. unfold with_db, select, pbind, pget, plift. simpl.
  by destruct (f d).
Qed.

Lemma bind_with_db_select {A B} (g : database → B) (k : B → prog ctx failure A) c :
  pbind (with_db (select (λ d, Ok (g d)))) k c = k (g (db c)) c.
Proof. by destruct c. Qed.

Lemma bind_query {A B} (q : sql B) (f : B → request_thread A) c :
  alone_request (rbind (query q) f) c =
  pbind (with_db (run_sql q)) (λ b, alone_request (f b)) c.
Proof. rewrite alone_request_rbind. apply pbind_cong; [apply alone_request_query|done]. Qed.

#[local] Hint Resolve with_db_select alone_request_rret alone_request_rlift
  alone_request_rmodify alone_request_query : alone.

(** Rewrites a thread run alone into the program of its statements. *)
Ltac alone_step :=
  first
    [ rewrite bind_rsession
    | rewrite bind_query; cbn [run_sql]
    | rewrite alone_request_rbind
    | rewrite alone_request_query; cbn [run_sql]
    | rewrite alone_request_rret
    | rewrite alone_request_rthrow
    | rewrite alone_request_rlift
    | rewrite alone_request_rmodify
    | rewrite bind_with_db_select
    | rewrite with_db_select
    | rewrite pbind_pget ].

(** Both sides bind the same statement: continue with what follows. *)
Ltac alone_next :=
  apply pbind_cong; [try solve [done | auto with alone]|intros ? ?].

Lemma alone_current_user c : alone_request current_user_t c = current_user c.
Proof.
  unfold current_user_t, current_user, load_user. repeat alone_step.
  destruct (Session.user_id (session c)) as [uid|]; repeat alone_step; [|done].
  alone_next. auto with alone.
Qed.

Lemma alone_flash message c : alone_request (flash_t message) c = flash message c.
Proof. done. Qed.

Lemma alone_login_user u c : alone_request (login_user_t u) c = login_user u c.
Proof. done. Qed.

Lemma alone_redirect location c : alone_request (redirect_t location) c = redirect location c.
Proof. by destruct c. Qed.

#[local] Hint Resolve alone_current_user alone_flash alone_login_user alone_redirect : alone.

Lemma alone_logout_user c : alone_request logout_user_t c = logout_user c.
Proof. unfold logout_user_t, logout_user. alone_step. alone_next. done. Qed.

Lemma alone_login_required {A} (view_t : request_thread A) (view : prog ctx failure A) c :
  (∀ c', alone_request view_t c' = view c') →
  alone_request (login_required_t view_t) c = login_required view c.
Proof.
  intros Hview. unfold login_required_t, login_required. alone_step.
  alone_next. by destruct (is_authenticated _).
Qed.

Lemma alone_render_template p c :
  alone_request (render_template_t p) c = render_template p c.
Proof.
  unfold render_template_t, render_template. alone_step. alone_next. by alone_step.
Qed.

#[local] Hint Resolve alone_logout_user alone_render_template : alone.

Lemma alone_show_all_caffe c : alone_request show_all_caffe_t c = show_all_caffe c.
Proof.
  unfold show_all_caffe_t, show_all_caffe. repeat alone_step. alone_next.
  auto with alone.
Qed.

Lemma alone_render_cafe e r cafe c :
  alone_request
    (u <- current_user_t ;; reviews <- query (CafeReviews cafe) ;;
     render_template_t
       (Caffe_html cafe reviews (choice (pick e) logos)
          (Comment.process (submitted_form r)) (is_authenticated u) (now e)))%thread c =
  (u <- current_user ;; c' <- pget ;;
   render_template
     (Caffe_html cafe (cafe_review (db c') cafe) (choice (pick e) logos)
        (Comment.process (submitted_form r)) (is_authenticated u) (now e)))%prog c.
Proof. alone_step. alone_next. repeat alone_step. auto with alone. Qed.

Lemma alone_show_cafe e r c : alone_request (show_cafe_t e r) c = show_cafe e r c.
Proof.
  unfold show_cafe_t, show_cafe. cbv zeta. repeat alone_step. alone_next.
  destruct (is_post r); [|apply alone_render_cafe].
  alone_step. alone_next. destruct a0 as [user|]; alone_step.
  - alone_next. apply alone_render_cafe.
  - alone_next. auto with alone.
Qed.

Lemma alone_register e r c : alone_request (register_t e r) c = register e r c.
Proof.
  unfold register_t, register. cbv zeta.
  destruct (is_post r); [|auto with alone].
  alone_step. alone_next. alone_step. alone_next. alone_step. alone_next.
  auto with alone.
Qed.

Lemma alone_login r c : alone_request (login_t r) c = login r c.
Proof.
  unfold login_t, login. cbv zeta.
  destruct (is_post r); [|auto with alone]. repeat alone_step.
  destruct (select_user_by_email (db c) (form r !! "email")) as [user|].
  - alone_step. alone_next. destruct a.
    + alone_step. alone_next. auto with alone.
    + alone_step. alone_next. destruct (negb a); [|auto with alone].
      alone_step. alone_next. auto with alone.
  - alone_step. alone_next. auto with alone.
Qed.

Lemma alone_logout c : alone_request logout_t c = logout c.
Proof. unfold logout_t, logout. alone_step. alone_next. auto with alone. Qed.

Lemma alone_add_cafe r c : alone_request (add_cafe_t r) c = add_cafe r c.
Proof.
  unfold add_cafe_t, add_cafe. cbv zeta. apply alone_login_required. intros c'.
  destruct (validate_on_submit _ _ _); [|auto with alone].
  alone_step. alone_next. alone_step. alone_next. auto with alone.
Qed.

Lemma alone_delete r c : alone_request (delete_t r) c = delete r c.
Proof.
  unfold delete_t, delete. cbv zeta. repeat alone_step. alone_next.
  repeat alone_step.
  apply pbind_cong; [unfold with_db; by rewrite delete_loaded_reviews|auto with alone].
Qed.

Lemma alone_view_thread ep e r c :
  alone_request (view_thread ep e r) c = view_function ep e r c.
Proof.
  destruct ep; simpl; auto using alone_show_all_caffe, alone_show_cafe, alone_register,
    alone_login, alone_logout, alone_add_cafe, alone_delete.
Qed.

Lemma alone_dispatch e r c : alone_request (dispatch_t e r) c = dispatch e r c.
Proof.
  unfold dispatch_t, dispatch.
  destruct (list_find _ url_map) as [[i [[rule ep] methods]]|]; [|done].
  repeat case_bool_decide; [by destruct c|apply alone_view_thread|done].
Qed.

(** The thread of a request on a route is the thread of the view
    function of its rule. *)
Lemma dispatch_view_thread e r ep :
  path r = url_for ep → method r ∈ methods_of ep → method r ≠ OPTIONS →
  dispatch_t e r = view_thread ep e r.
Proof.
  intros Hp Hm Hopt. unfold dispatch_t. rewrite Hp.
  destruct ep; simpl; by rewrite bool_decide_eq_true_2, bool_decide_eq_false_2.
Qed.

(** The statements of a review by a logged-in visitor: the cafe, the
    author, the insert, and what the page needs. *)
Lemma show_cafe_review_thread e r s k uid :
  method r = POST → args r !! "id" = Some (id_str k) → Session.user_id s = Some uid →
  ∃ rest, show_cafe_t e r s =
    Query (GetCafe (id_str k)) (λ c, Query (GetUser uid) (λ u,
      Query (InsertReview (form r !! "body") (Some (User.id u)) (Some (Cafe.id c)))
        (rest c u))).
Proof.
  intros Hm Hid Hs. destruct s as [? fl]. simpl in Hs. subst.
  eexists (λ c u rv, _). unfold show_cafe_t. rewrite Hid, (is_post_true r Hm). simpl.
  reflexivity.
Qed.

(** The statements of a delete: the cafe, the delete, and the redirect
    with the session as it came. *)
Lemma delete_thread r s k :
  args r !! "id" = Some (id_str k) →
  delete_t r s =
    Query (GetCafe (id_str k)) (λ c, Query (LoadReviews c) (λ loaded,
      Query (DeleteCafe c loaded) (λ _, Return (Redirect "/", s)))).
Proof. intros Hid. unfold delete_t. by rewrite Hid. Qed.

(** ** A thread run to its end *)

(** The answer of [handle] as a thread gives it: the response with the
    session of the request. *)
Definition sequential (e : env) (r : request) (s : Session.t) (d : database) :
    outcome failure (response * Session.t) * database :=
  let result := handle e r (Ctx d s) in
  (match result.1 with Ok resp => Ok (resp, session result.2) | Err f => Err f end,
   db result.2).

(** A thread is atomic in a state when running it to its end is running
    it as one program: it does not fail after it has committed. *)
Definition atomic {A} (t : thread A) (d : database) : Prop :=
  finish t d = match alone t d with Ok (a, d') => (Ok a, d') | Err f => (Err f, d) end.

Lemma atomic_Return {A} (a : A) d : atomic (Return a) d.
Proof. done. Qed.

Lemma atomic_Raise {A} f d : atomic (Raise (A:=A) f) d.
Proof. done. Qed.

(** A query may be followed by anything atomic. *)
Lemma atomic_select {A B} (q : sql B) (k : B → thread A) d :
  (∀ b d', run_sql q d = Ok (b, d') → d' = d) →
  (∀ b, run_sql q d = Ok (b, d) → atomic (k b) d) → atomic (Query q k) d.
Proof.
  unfold atomic. simpl. unfold pbind. intros Hread Hk.
  destruct (run_sql q d) as [[b d']|f]; [|done].
  pose proof (Hread _ _ eq_refl) as ->. by apply Hk.
Qed.

(** A commit must be followed by what does not fail. *)
Lemma atomic_commit {A B} (q : sql B) (k : B → thread A) d :
  (∀ b d', run_sql q d = Ok (b, d') → is_ok (alone (k b) d') = true) →
  atomic (Query q k) d.
Proof.
  unfold atomic. simpl. unfold pbind. intros Hk.
  destruct (run_sql q d) as [[b d']|f]; [|done].
  specialize (Hk b d' eq_refl). revert Hk. generalize (k b) d'.
  intros t. induction t as [a|f'|C q' k' IH]; intros d1; simpl; [done..|].
  unfold pbind. destruct (run_sql q' d1) as [[b1 d2]|f']; [apply IH|done].
Qed.

(** The statements that only read. *)
Definition is_read {B} (q : sql B) : bool :=
  match q with
  | GetCafe _ | GetUser _ | SelectCafes | SelectUser _ | CafeReviews _
  | LoadReviews _ => true
  | _ => false
  end.

Lemma run_sql_read {B} (q : sql B) d b d' :
  is_read q = true → run_sql q d = Ok (b, d') → d' = d.
Proof.
  destruct q; try done; simpl; unfold select; intros _; prog_unfold;
    repeat case_match; naive_solver.
Qed.

Lemma atomic_read {A B} (q : sql B) (k : B → thread A) d :
  is_read q = true →
  (∀ b, run_sql q d = Ok (b, d) → atomic (k b) d) → atomic (Query q k) d.
Proof. intros Hq. apply atomic_select. intros b d'. by apply run_sql_read. Qed.

(** The user a request resolves is the user of its session. *)
Lemma get_user_session d s uid u :
  Session.user_id s = Some uid →
  run_sql (GetUser uid) d = Ok (u, d) → session_user d s = Some u.
Proof.
  intros Hs. simpl. unfold select, session_user, get_or_404. rewrite Hs. simpl.
  prog_unfold. by destruct (id_of_text uid ≫= _) as [u'|]; intros [= ->].
Qed.

Lemma atomic_current_user {A} (f : option User.t → request_thread A) s d :
  (∀ ou, session_valid d s → ou = session_user d s → atomic (f ou s) d) →
  atomic (rbind current_user_t f s) d.
Proof.
  intros Hf. unfold current_user_t, rsession. unfold rbind. simpl.
  destruct (Session.user_id s) as [uid|] eqn:Hs; simpl.
  - apply atomic_read; [done|]. intros u Hu%(get_user_session _ s); [|done].
    apply Hf; [right; by rewrite Hu|done].
  - apply Hf; [by left|]. unfold session_user. by rewrite Hs.
Qed.

Lemma atomic_render_template p s d : atomic (render_template_t p s) d.
Proof. apply atomic_current_user. intros. apply atomic_Return. Qed.

(** What a request does with its session alone. *)
Lemma is_ok_alone_request {A} (m : request_thread A) d s :
  is_ok (alone (m s) d) = is_ok (alone_request m (Ctx d s)).
Proof. unfold alone_request. simpl. by destruct (alone (m s) d) as [[[a s'] d']|]. Qed.

Lemma atomic_query_read {A B} (q : sql B) (f : B → request_thread A) s d :
  is_read q = true →
  (∀ b, run_sql q d = Ok (b, d) → atomic (f b s) d) → atomic (rbind (query q) f s) d.
Proof. apply atomic_read. Qed.

Lemma atomic_query_commit {A B} (q : sql B) (f : B → request_thread A) s d :
  (∀ b d', run_sql q d = Ok (b, d') → is_ok (alone_request (f b) (Ctx d' s)) = true) →
  atomic (rbind (query q) f s) d.
Proof.
  intros Hf. apply atomic_commit. intros b d' Hq. simpl.
  rewrite is_ok_alone_request. by apply Hf.
Qed.

Lemma atomic_rlift {A B} (o : outcome failure B) (f : B → request_thread A) s d :
  (∀ b, o = Ok b → atomic (f b s) d) → atomic (rbind (rlift o) f s) d.
Proof. destruct o as [b|e]; [|done]. intros Hf. by apply Hf. Qed.

(** A view function commits once, and does not fail after it. *)
Lemma atomic_view_thread ep e r s d : atomic (view_thread ep e r s) d.
Proof.
  destruct ep; simpl.
  - apply atomic_query_read; [done|]. intros cafes _.
    apply atomic_current_user. intros. apply atomic_render_template.
  - unfold show_cafe_t. cbv zeta. apply atomic_query_read; [done|]. intros cafe _.
    assert (∀ u, atomic ((reviews <- query (CafeReviews cafe) ;;
        render_template_t (Caffe_html cafe reviews (choice (pick e) logos)
          (Comment.process (submitted_form r)) (is_authenticated u) (now e)))%thread s) d)
      as Hrender.
    { intros u. apply atomic_query_read; [done|]. intros. apply atomic_render_template. }
    destruct (is_post r); [|apply atomic_current_user; intros; apply Hrender].
    apply atomic_current_user. intros ou Hvalid ->.
    destruct (session_user d s) as [user|]; [|done].
    apply atomic_query_commit.
    intros review d' (body & _ & _ & ->)%insert_review_Ok.
    rewrite alone_render_cafe.
    assert (session_valid (db (Ctx (set_reviews <[next_key (reviews d):=review]> d) s)) s)
      as Hvalid' by done.
    rewrite (pbind_Ok _ _ _ _ _ (current_user_valid _ Hvalid')), pbind_pget.
    by rewrite render_template_valid.
  - unfold register_t. destruct (is_post r); [|apply atomic_render_template].
    apply atomic_rlift. intros password _. by apply atomic_query_commit.
  - unfold login_t. cbv zeta. destruct (is_post r); [|apply atomic_render_template].
    apply atomic_query_read; [done|]. intros [user|] _; [|done].
    apply atomic_rlift. intros [] _; [done|].
    apply atomic_rlift. intros [] _; [apply atomic_render_template|done].
  - unfold logout_t, logout_user_t, current_user_t, rsession. unfold rbind. simpl.
    destruct (Session.user_id s); simpl; [by apply atomic_read|done].
  - unfold add_cafe_t. apply atomic_current_user. intros ou _ _.
    destruct (is_authenticated ou); [|done].
    destruct (validate_on_submit _ _ _); [|apply atomic_render_template].
    apply atomic_current_user. intros. by apply atomic_query_commit.
  - apply atomic_query_read; [done|]. intros. by apply atomic_query_commit.
Qed.

Lemma atomic_dispatch e r s d : atomic (dispatch_t e r s) d.
Proof.
  unfold dispatch_t. destruct (list_find _ url_map) as [[i [[rule ep] methods]]|]; [|done].
  repeat case_bool_decide; [done|apply atomic_view_thread|done].
Qed.

(** A thread alone is the view function: the statements of a request,
    run one after the other without another request in between, give
    the response, the session and the database that [handle] gives, and
    a request that fails has changed nothing. *)
Lemma finish_sequential e r s d : finish (dispatch_t e r s) d = sequential e r s d.
Proof.
  rewrite (atomic_dispatch e r s d). unfold sequential, handle, exec.
  rewrite <- alone_dispatch. unfold alone_request. simpl.
  by destruct (alone (dispatch_t e r s) d) as [[[resp s'] d']|].
Qed.

(** ** How many statements a request sends *)

(** The thread answers after at most [n] statements. *)
Fixpoint within {A} (n : nat) (t : thread A) {struct t} : Prop :=
  match t with
  | Query q k =>
      match n with
      | 0 => False
      | S n' => ∀ b, within n' (k b)
      end
  | _ => True
  end.

Lemma within_le {A} (t : thread A) n m : n ≤ m → within n t → within m t.
Proof.
  revert n m. induction t as [a|f|B q k IH]; intros n m Hle; [done..|].
  destruct n as [|n]; [done|]. destruct m as [|m]; [lia|]. simpl.
  intros Hk b. apply (IH b n); [lia|done].
Qed.

Lemma within_rbind_query {A B} (q : sql B) (f : B → request_thread A) s n :
  (∀ b, within n (f b s)) → within (S n) (rbind (query q) f s).
Proof. done. Qed.

Lemma within_current_user {A} (f : option User.t → request_thread A) s n :
  (∀ ou, within n (f ou s)) → within (S n) (rbind current_user_t f s).
Proof.
  intros Hf. unfold current_user_t, rsession. unfold rbind. simpl.
  destruct (Session.user_id s); simpl; [intros u; apply Hf|].
  apply (within_le _ n); [lia|apply Hf].
Qed.

Lemma within_rlift {A B} (o : outcome failure B) (f : B → request_thread A) s n :
  (∀ b, within n (f b s)) → within n (rbind (rlift o) f s).
Proof. destruct o as [b|e]; [|done]. intros Hf. apply Hf. Qed.

Lemma within_render_template p s n : within (S n) (render_template_t p s).
Proof. by apply within_current_user. Qed.

(** Views the statements of the view functions are counted on. *)
Ltac within_step :=
  first
    [ apply within_render_template
    | apply within_rbind_query; intros ?
    | apply within_current_user; intros ?
    | apply within_rlift; intros ?
    | done ].

(** No request sends more than six statements: the six of a review (the
    cafe, the user, the commit, and the user, the reviews and the user
    again for the page). *)
Lemma within_dispatch e r s : within 6 (dispatch_t e r s).
Proof.
  unfold dispatch_t. destruct (list_find _ url_map) as [[i [[rule ep] methods]]|]; [|done].
  repeat case_bool_decide; [done| |done].
  destruct ep; cbn [view_thread];
    unfold show_all_caffe_t, show_cafe_t, register_t, login_t, logout_t, logout_user_t,
      add_cafe_t, login_required_t, delete_t; cbv zeta;
    repeat (within_step || case_match).
  unfold current_user_t, rsession. unfold rbind. simpl.
  by destruct (Session.user_id s).
Qed.

(** ** One commit for each request *)

(** A thread that only reads; a thread that commits at most once, and
    only reads after it. *)
Fixpoint reads_only {A} (t : thread A) : Prop :=
  match t with
  | Query q k => is_read q = true ∧ ∀ b, reads_only (k b)
  | _ => True
  end.

Fixpoint commits_once {A} (t : thread A) : Prop :=
  match t with
  | Query q k => if is_read q then ∀ b, commits_once (k b) else ∀ b, reads_only (k b)
  | _ => True
  end.

Lemma reads_only_commits_once {A} (t : thread A) : reads_only t → commits_once t.
Proof.
  induction t as [a|f|B q k IH]; [done..|]. simpl. intros [-> Hk] b. by apply IH.
Qed.

Lemma reads_only_tbind {A B} (t : thread A) (g : A → thread B) :
  reads_only t → (∀ a, reads_only (g a)) → reads_only (tbind t g).
Proof.
  intros Ht Hg. induction t as [a|f|C q k IH]; simpl in *; [done..|].
  destruct Ht as [Hq Hk]. split; [done|]. intros b. by apply IH.
Qed.

(** What follows a thread that reads may commit; what follows one that
    has committed may not. *)
Lemma commits_once_tbind_read {A B} (t : thread A) (g : A → thread B) :
  reads_only t → (∀ a, commits_once (g a)) → commits_once (tbind t g).
Proof.
  intros Ht Hg. induction t as [a|f|C q k IH]; simpl in *; [done..|].
  destruct Ht as [-> Hk]. intros b. by apply IH.
Qed.

Lemma commits_once_tbind_commit {A B} (t : thread A) (g : A → thread B) :
  commits_once t → (∀ a, reads_only (g a)) → commits_once (tbind t g).
Proof.
  intros Ht Hg. induction t as [a|f|C q k IH]; simpl in *;
    [by apply reads_only_commits_once|done|].
  destruct (is_read q); intros b; [by apply IH|by apply reads_only_tbind].
Qed.

Lemma reads_only_rbind {A B} (m : request_thread A) (f : A → request_thread B) s :
  reads_only (m s) → (∀ a s', reads_only (f a s')) → reads_only (rbind m f s).
Proof. intros Hm Hf. apply reads_only_tbind; [done|]. by intros [a s']. Qed.

Lemma commits_once_rbind_read {A B} (m : request_thread A) (f : A → request_thread B) s :
  reads_only (m s) → (∀ a s', commits_once (f a s')) → commits_once (rbind m f s).
Proof. intros Hm Hf. apply commits_once_tbind_read; [done|]. by intros [a s']. Qed.

Lemma commits_once_rbind_commit {A B} (m : request_thread A) (f : A → request_thread B) s :
  commits_once (m s) → (∀ a s', reads_only (f a s')) → commits_once (rbind m f s).
Proof. intros Hm Hf. apply commits_once_tbind_commit; [done|]. by intros [a s']. Qed.

Lemma reads_only_current_user s : reads_only (current_user_t s).
Proof.
  unfold current_user_t, rsession. unfold rbind. simpl.
  by destruct (Session.user_id s).
Qed.

Lemma reads_only_rlift {A} (o : outcome failure A) s : reads_only (rlift o s).
Proof. by destruct o. Qed.

Lemma reads_only_render_template p s : reads_only (render_template_t p s).
Proof. apply reads_only_rbind; [apply reads_only_current_user|done]. Qed.

(** One step through a view function that reads. *)
Ltac reads_only_step :=
  cbv beta;
  first
    [ apply reads_only_render_template
    | apply reads_only_current_user
    | apply reads_only_rlift
    | apply reads_only_rbind; [|intros ? ?]
    | done ].

(** One step through a view function: a statement that reads, then the
    rest; or the commit, then what only reads. *)
Ltac commits_once_step :=
  cbv beta;
  first
    [ apply reads_only_commits_once; solve [repeat reads_only_step]
    | apply commits_once_rbind_read; [solve [repeat reads_only_step]|intros ? ?]
    | apply commits_once_rbind_commit; [done|intros ? ?; solve [repeat reads_only_step]] ].

Lemma commits_once_view_thread ep e r s : commits_once (view_thread ep e r s).
Proof.
  destruct ep; cbn [view_thread];
    unfold show_all_caffe_t, show_cafe_t, register_t, login_t, logout_t, logout_user_t,
      add_cafe_t, login_required_t, delete_t; cbv zeta;
    repeat (commits_once_step || case_match).
Qed.

(** Every request commits at most once, and only reads afterwards. *)
Lemma commits_once_dispatch e r s : commits_once (dispatch_t e r s).
Proof.
  unfold dispatch_t. destruct (list_find _ url_map) as [[i [[rule ep] methods]]|]; [|done].
  repeat case_bool_decide; [done|apply commits_once_view_thread|done].
Qed.

(** A request that is not a POST and is not sent to /logout or /delete
    only reads. *)
Lemma reads_only_dispatch e r s :
  method r ≠ POST → method r = OPTIONS ∨ (path r ≠ "/logout" ∧ path r ≠ "/delete") →
  reads_only (dispatch_t e r s).
Proof.
  intros Hpost Hsafe. unfold dispatch_t.
  destruct (list_find _ url_map) as [[i [[rule ep] methods]]|] eqn:Hfind; [|done].
  apply list_find_Some in Hfind as (Hi & Hpath & _). simpl in Hpath.
  case_bool_decide as Hm; [|done]. case_bool_decide as Hopt; [done|].
  destruct Hsafe as [?|[Hlogout Hdelete]]; [done|].
  pose proof (is_post_false r Hpost) as Hp.
  apply list_elem_of_lookup_2 in Hi. unfold url_map in Hi.
  repeat (apply elem_of_cons in Hi as [[= -> -> ->]|Hi]); [..|by apply elem_of_nil in Hi];
    cbn [view_thread];
    unfold show_all_caffe_t, show_cafe_t, register_t, login_t, add_cafe_t,
      login_required_t; cbv zeta; rewrite ?Hp; try done;
    try solve [repeat reads_only_step].
  assert (is_submitted r = false) as ->.
  { apply is_submitted_read. unfold rule_methods in Hm. simpl in Hm. set_solver. }
  repeat (reads_only_step || case_match).
Qed.

(** What a thread that only reads leaves of the database. *)
Lemma finish_reads_only {A} (t : thread A) d : reads_only t → (finish t d).2 = d.
Proof.
  induction t as [a|f|B q k IH]; [done..|]. simpl. intros [Hq Hk].
  destruct (run_sql q d) as [[b d']|f] eqn:Hrun; [|done].
  apply run_sql_read in Hrun as ->; [|done]. by apply IH.
Qed.

End views.
