(* ===== verification/Schedules.v ===== *)
(** * Schedules: requests served in turns

    The threads of Threads, run the way the development server runs
    them: a request arrives and gets a thread; at each turn one thread
    sends its next statement to the database.  A [pool] is the database
    and the threads that have not answered yet; an [event] is an
    arrival, a turn, or a restart of the server, which loses the threads
    and opens the database again; a schedule is a list of events.

    The constraints that SQLite checks at each commit (the primary keys
    and the UNIQUE columns) and the references to users, who are never
    deleted, hold after every schedule ([db_wf_concurrent]).  The
    reference from a review to its cafe does not: show_cafe reads the
    cafe and commits the review in two statements, and a delete between
    the two leaves a review of a cafe that is gone; so does a review
    that commits between the two statements of a delete, the one that
    loads the reviews of the cafe and the commit that sets them to
    NULL.  The invariant
    [db_wf] of the sequential model is the conjunction of the two, and
    it holds after every schedule in which no request is sent to
    /delete.  Both results are one induction on the schedule, over a
    predicate on threads ([respects]) that says what a thread needs of
    the others (the rows it has seen are still there) and what it
    gives them in return.  Requests that read leave the database as
    it was and are answered as if served alone, whatever the schedule.
    A restart in the middle of a request leaves
    no state in between: the database is as the request found it or as
    it would have left it. *)

From S2P Require Import Prelude Tables Interfaces Store Forms Auth Handlers.
From S2P Require Import Effects App Observation Threads.

(** ** Pools and events *)

(** What a thread answers: the response and the session its cookie
    carries back. *)
Definition answer : Type := response * Session.t.

Record pool := Pool {
  shared : database;
  running : gmap nat (thread answer);
}.

(** main.py:26 *)
Definition SQLALCHEMY_DATABASE_URI : string := "sqlite:///Cafes.db".

(** The URIs of SQLite that name no file: the database lives in the
    memory of the process. *)
Definition in_memory (uri : string) : bool :=
  bool_decide (uri ∈ ["sqlite://"; "sqlite:///:memory:"]).

(** db.create_all() when the server starts again (main.py:111-112): the
    tables a file holds are found as they were left; a database in
    memory starts empty. *)
Definition reopen (uri : string) (d : database) : database :=
  if in_memory uri then create_all else d.

(** What happens at the server: a request arrives and gets a thread, a
    thread sends its next statement, or the server is stopped and
    started again (the reloader of debug mode, main.py:239, does so when
    a source file changes): the threads in progress are lost and the
    database is opened again. *)
Inductive event :=
| Arrive (tid : nat) (e : env) (r : request) (s : Session.t)
| Run (tid : nat)
| Restart.

(** One statement of a thread; a thread that has answered stays as it
    is. *)
Definition step_thread `{IdCodec} {A} (t : thread A) (d : database) :
    thread A * database :=
  match t with
  | Query q k =>
      match run_sql q d with
      | Ok (b, d') => (k b, d')
      | Err f => (Raise f, d)
      end
  | _ => (t, d)
  end.

(** The statements a thread sends in [n] turns. *)
Fixpoint steps `{IdCodec} {A} (n : nat) (t : thread A) (d : database) :
    thread A * database :=
  match n with
  | 0 => (t, d)
  | S n' => let result := step_thread t d in steps n' result.1 result.2
  end.

Section schedules.
Context `{IdCodec} `{PasswordHasher} `{UrlValidator}.

Definition play (ev : event) (p : pool) : pool :=
  match ev with
  | Arrive tid e r s => Pool (shared p) (<[tid := dispatch_t e r s]> (running p))
  | Run tid =>
      match running p !! tid with
      | Some t =>
          let result := step_thread t (shared p) in
          Pool result.2 (<[tid := result.1]> (running p))
      | None => p
      end
  | Restart => Pool (reopen SQLALCHEMY_DATABASE_URI (shared p)) ∅
  end.

Definition play_all (schedule : list event) (p : pool) : pool :=
  foldl (λ p ev, play ev p) p schedule.

(** A thread that has answered. *)
Definition settled {A} (o : outcome failure A) : thread A :=
  match o with Ok a => Return a | Err f => Raise f end.

(** The schedules of requests that read: every arrival is a request
    that is safe in the sense of [Observation]. *)
Definition reading_event (ev : event) : Prop :=
  match ev with
  | Arrive _ _ r _ => safe r
  | Run _ | Restart => True
  end.

(** The schedule of a request that no other request overlaps: it
    arrives and sends its statements, six at most. *)
Definition serial (tid : nat) (e : env) (r : request) (s : Session.t) : list event :=
  Arrive tid e r s :: replicate 6 (Run tid).

(** What a thread has answered, if it has. *)
Definition answered (p : pool) (tid : nat) : option (outcome failure answer) :=
  match running p !! tid with
  | Some (Return a) => Some (Ok a)
  | Some (Raise f) => Some (Err f)
  | _ => None
  end.

(** ** What holds under every schedule *)

(** The constraints SQLite enforces and the references to users. *)
Definition db_wf_concurrent (d : database) : Prop :=
  keyed_by Cafe.id (cafes d) ∧
  keyed_by User.id (users d) ∧
  keyed_by Review.review_id (reviews d) ∧
  unique_on Cafe.name (cafes d) ∧
  unique_on Cafe.map_url (cafes d) ∧
  unique_on User.name (users d) ∧
  unique_on User.email (users d) ∧
  refs_ok Cafe.user_id (cafes d) (users d) ∧
  refs_ok Review.user_id (reviews d) (users d).

(** The server is looked at in two modes: serving every request
    ([deletes] is true), and serving every request but those to /delete.
    In the first the invariant is [db_wf_concurrent] and the threads
    guarantee each other that users stay; in the second the invariant is
    [db_wf] and cafes stay as well. *)
Definition admitted (deletes : bool) (r : request) : Prop :=
  deletes = true ∨ path r ≠ "/delete".

Definition admitted_event (deletes : bool) (ev : event) : Prop :=
  match ev with
  | Arrive _ _ r _ => admitted deletes r
  | Run _ | Restart => True
  end.

Definition invariant (deletes : bool) (d : database) : Prop :=
  if deletes then db_wf_concurrent d else db_wf d.

(** What every statement of every thread guarantees the others. *)
Definition grows (deletes : bool) (d d' : database) : Prop :=
  users d ⊆ users d' ∧ (deletes = false → cafes d ⊆ cafes d').

(** A thread respects the invariant when each of its statements keeps
    it, in every state the other threads may have led to since the
    thread last looked at the database ([seen]). *)
Fixpoint respects (deletes : bool) {A} (t : thread A) (seen : database) : Prop :=
  match t with
  | Query q k =>
      ∀ d b d', grows deletes seen d → invariant deletes d → run_sql q d = Ok (b, d') →
        invariant deletes d' ∧ grows deletes d d' ∧ respects deletes (k b) d'
  | _ => True
  end.

#[local] Arguments respects : simpl never.

Definition pool_wf (deletes : bool) (p : pool) : Prop :=
  invariant deletes (shared p) ∧
  map_Forall (λ _ t, ∃ seen, grows deletes seen (shared p) ∧ respects deletes t seen)
    (running p).

(** The rows a statement names must have been seen: the users always,
    the cafes when no cafe is deleted; a delete is sent only when
    requests to /delete are served. *)
Definition names_users {B} (q : sql B) (seen : database) : Prop :=
  match q with
  | InsertCafe _ _ user _ _ _ _ _ _ _ _ | InsertReview _ user _ =>
      from_option (λ u, is_Some (users seen !! u)) True user
  | _ => True
  end.

Definition names_cafes {B} (q : sql B) (seen : database) : Prop :=
  match q with
  | InsertReview _ _ cafe => from_option (λ c, is_Some (cafes seen !! c)) True cafe
  | DeleteCafe _ _ => False
  | _ => True
  end.

Definition sql_allowed (deletes : bool) {B} (q : sql B) (seen : database) : Prop :=
  names_users q seen ∧ (deletes = false → names_cafes q seen).

(** What the answer of a statement tells the thread. *)
Definition learns {B} (q : sql B) : B → database → Prop :=
  match q in sql B return B → database → Prop with
  | GetUser _ => λ u d, users d !! User.id u = Some u
  | GetCafe _ => λ c d, cafes d !! Cafe.id c = Some c
  | _ => λ _ _, True
  end.

Implicit Types (d seen : database) (p : pool) (deletes : bool).

Ltac concurrent_wf :=
  unfold db_wf_concurrent in *; destruct_and?; simpl; split_and!;
  first [ by auto with cafe
        | by apply unique_on_insert; simpl; auto with cafe
        | idtac ].

Lemma db_wf_split d :
  db_wf d ↔ db_wf_concurrent d ∧ refs_ok Review.cafe_id (reviews d) (cafes d).
Proof. unfold db_wf, db_wf_concurrent. tauto. Qed.

Lemma invariant_concurrent deletes d : invariant deletes d → db_wf_concurrent d.
Proof. destruct deletes; [done|]. by intros [? _]%db_wf_split. Qed.

#[export] Instance grows_preorder deletes : PreOrder (grows deletes).
Proof.
  split; [by intros d|]. intros d1 d2 d3 [Hu1 Hc1] [Hu2 Hc2].
  split; [by etrans|]. intros Hd. etrans; auto.
Qed.

Lemma seen_row {A} (t t' : gmap nat A) k : t ⊆ t' → is_Some (t !! k) → is_Some (t' !! k).
Proof. intros Hsub [row Hk]. exists row. by eapply lookup_weaken. Qed.

Lemma seen_ref {A} (t t' : gmap nat A) (ref : option nat) :
  t ⊆ t' → from_option (λ k, is_Some (t !! k)) True ref →
  from_option (λ k, is_Some (t' !! k)) True ref.
Proof. destruct ref; [apply seen_row|done]. Qed.

(** ** Each statement keeps the invariant *)

(** What a look-up by key answers is the row stored under its key. *)
Lemma get_or_404_row {A} (key : A → nat) (t : gmap nat A) ident row :
  keyed_by key t → get_or_404 t ident = Ok row → t !! key row = Some row.
Proof. intros Hkeyed (k & _ & Hk)%get_or_404_Ok. by rewrite (Hkeyed k row Hk). Qed.

Lemma run_sql_learns {B} (q : sql B) d b :
  is_read q = true → db_wf_concurrent d → run_sql q d = Ok (b, d) → learns q b d.
Proof.
  intros Hread Hwf Hrun.
  destruct q; try done; simpl in *; unfold select in Hrun; rewrite pbind_pget in Hrun;
    destruct (get_or_404 _ ident) as [row|] eqn:Hget; try done; injection Hrun as ->.
  - apply (get_or_404_row _ _ ident); [apply Hwf|done].
  - apply (get_or_404_row _ _ ident); [apply Hwf|done].
Qed.

(** An UPDATE of rows by key keeps what it keeps of each row. *)
Lemma map_Forall_foldr_alter {A} (P : nat → A → Prop) (f : A → A) keys (t : gmap nat A) :
  (∀ k x, P k x → P k (f x)) → map_Forall P t → map_Forall P (foldr (alter f) t keys).
Proof.
  intros Hf Ht. induction keys as [|k keys IH]; [done|]. simpl.
  intros i x [[-> (y & Hy & ->)]|[_ Hx]]%lookup_alter_Some; eauto.
Qed.

(** The constraints and the users. *)
Lemma run_sql_constraints {B} (q : sql B) seen d b d' :
  names_users q seen → users seen ⊆ users d → db_wf_concurrent d →
  run_sql q d = Ok (b, d') →
  db_wf_concurrent d' ∧ users d ⊆ users d' ∧ learns q b d'.
Proof.
  intros Hq Hseen Hwf Hrun. destruct (is_read q) eqn:Hread.
  { apply run_sql_read in Hrun as Hd; [subst d'|done].
    split_and!; [done..|by apply run_sql_learns]. }
  destruct q; try done; simpl in *.
  - apply insert_user_Ok in Hrun as (n & e & pw & -> & -> & -> & Hn & He & -> & ->).
    split_and!; [concurrent_wf| |done]. simpl. apply insert_subseteq, next_key_fresh.
  - apply insert_cafe_Ok in Hrun
      as (n&m&i&l&hs&ht&hw&cc&s&pr&->&->&->&->&->&->&->&->&->&->&Hn&Hm&->&->).
    apply (seen_ref _ _ _ Hseen) in Hq. split_and!; [concurrent_wf|done..].
  - apply insert_review_Ok in Hrun as (body & -> & -> & ->).
    apply (seen_ref _ _ _ Hseen) in Hq. split_and!; [concurrent_wf|done..].
  - unfold delete_loaded, pmodify in Hrun. injection Hrun as _ <-.
    split_and!; [concurrent_wf|done..]; by apply map_Forall_foldr_alter.
Qed.

(** The cafes and the references to them, when no cafe is deleted. *)
Lemma run_sql_cafes {B} (q : sql B) seen d b d' :
  names_cafes q seen → cafes seen ⊆ cafes d →
  refs_ok Review.cafe_id (reviews d) (cafes d) →
  run_sql q d = Ok (b, d') →
  refs_ok Review.cafe_id (reviews d') (cafes d') ∧ cafes d ⊆ cafes d'.
Proof.
  intros Hq Hseen Hrefs Hrun. destruct (is_read q) eqn:Hread.
  { apply run_sql_read in Hrun as Hd; [by subst d'|done]. }
  destruct q; try done; simpl in *.
  - by apply insert_user_Ok in Hrun as (n & e & pw & -> & -> & -> & Hn & He & -> & ->).
  - apply insert_cafe_Ok in Hrun
      as (n&m&i&l&hs&ht&hw&cc&s&pr&->&->&->&->&->&->&->&->&->&->&Hn&Hm&->&->).
    simpl. split; [by apply refs_ok_target_insert|].
    apply insert_subseteq, next_key_fresh.
  - apply insert_review_Ok in Hrun as (body & -> & -> & ->).
    apply (seen_ref _ _ _ Hseen) in Hq. simpl. split; [by apply refs_ok_insert|done].
Qed.

Lemma run_sql_wf deletes {B} (q : sql B) seen d b d' :
  sql_allowed deletes q seen → grows deletes seen d → invariant deletes d →
  run_sql q d = Ok (b, d') →
  invariant deletes d' ∧ grows deletes d d' ∧ learns q b d'.
Proof.
  intros [Husers Hcafes] [Hseen Hseen'] Hwf Hrun.
  destruct (run_sql_constraints q seen d b d' Husers Hseen) as (Hwf' & Hgrows & Hb);
    [by eapply invariant_concurrent|done|].
  destruct deletes; [by split_and!; [|split|]|].
  apply db_wf_split in Hwf as [_ Hrefs].
  destruct (run_sql_cafes q seen d b d') as [Hrefs' Hgrows']; auto.
  split_and!; [by apply db_wf_split|by split|done].
Qed.

(** ** The view functions respect the invariant *)

Section respects.
Variable deletes : bool.

Lemma respects_query {A B} (q : sql B) (k : B → thread A) seen :
  sql_allowed deletes q seen →
  (∀ b seen', grows deletes seen seen' → learns q b seen' →
     respects deletes (k b) seen') →
  respects deletes (Query q k) seen.
Proof.
  intros Hq Hk d b d' Hseen Hwf Hrun.
  destruct (run_sql_wf deletes q seen d b d' Hq Hseen Hwf Hrun) as (Hwf' & Hgrows & Hb).
  split_and!; [done..|]. apply Hk; [by etrans|done].
Qed.

Lemma respects_rbind_query {A B} (q : sql B) (f : B → request_thread A) s seen :
  sql_allowed deletes q seen →
  (∀ b seen', grows deletes seen seen' → learns q b seen' →
     respects deletes (f b s) seen') →
  respects deletes (rbind (query q) f s) seen.
Proof. apply respects_query. Qed.

(** The user a request resolves has been seen from then on. *)
Lemma respects_current_user {A} (f : option User.t → request_thread A) s seen :
  (∀ ou seen', grows deletes seen seen' →
     from_option (λ u, users seen' !! User.id u = Some u) True ou →
     respects deletes (f ou s) seen') →
  respects deletes (rbind current_user_t f s) seen.
Proof.
  intros Hf. unfold current_user_t, rsession. unfold rbind. simpl.
  destruct (Session.user_id s) as [uid|]; simpl; [|by apply Hf].
  apply respects_query; [done|]. intros u seen' Hseen Hu. by apply Hf.
Qed.

Lemma respects_rlift {A B} (o : outcome failure B) (f : B → request_thread A) s seen :
  (∀ b, respects deletes (f b s) seen) → respects deletes (rbind (rlift o) f s) seen.
Proof. destruct o as [b|e]; [|done]. intros Hf. apply Hf. Qed.

Lemma respects_render_template page s seen :
  respects deletes (render_template_t page s) seen.
Proof. by apply respects_current_user. Qed.

Lemma respects_show_cafe e r s seen : respects deletes (show_cafe_t e r s) seen.
Proof.
  unfold show_cafe_t. cbv zeta. apply respects_rbind_query; [done|].
  intros cafe seen1 _ Hcafe. simpl in Hcafe.
  assert (∀ seen', respects deletes ((u <- current_user_t ;;
      reviews <- query (CafeReviews cafe) ;;
      render_template_t (Caffe_html cafe reviews (choice (pick e) logos)
        (Comment.process (submitted_form r)) (is_authenticated u) (now e)))%thread s)
      seen') as Hrender.
  { intros seen'. apply respects_current_user. intros.
    apply respects_rbind_query; [done|]. intros. apply respects_render_template. }
  destruct (is_post r); [|apply Hrender].
  apply respects_current_user. intros [user|] seen2 [_ Hcafes] Huser; [|done].
  apply respects_rbind_query; [|intros; apply Hrender].
  split; simpl; [by rewrite Huser|]. intros Hd. by eapply seen_row; [apply Hcafes|].
Qed.

Lemma respects_add_cafe r s seen : respects deletes (add_cafe_t r s) seen.
Proof.
  unfold add_cafe_t. apply respects_current_user. intros ou seen1 _ _.
  destruct (is_authenticated ou); [|done].
  destruct (validate_on_submit _ _ _); [|apply respects_render_template].
  apply respects_current_user. intros u seen2 _ Hu.
  apply respects_rbind_query; [|done]. destruct u as [user|]; [|done].
  split; [|done]. simpl in *. by rewrite Hu.
Qed.

Lemma respects_view_thread ep e r s seen :
  deletes = true ∨ ep ≠ delete_ep → respects deletes (view_thread ep e r s) seen.
Proof.
  intros Hep. destruct ep; simpl.
  - apply respects_rbind_query; [done|]. intros cafes seen1 _ _.
    apply respects_current_user. intros. apply respects_render_template.
  - apply respects_show_cafe.
  - unfold register_t. destruct (is_post r); [|apply respects_render_template].
    apply respects_rlift. intros password. by apply respects_rbind_query.
  - unfold login_t. cbv zeta. destruct (is_post r); [|apply respects_render_template].
    apply respects_rbind_query; [done|]. intros [user|] seen1 _ _; [|done].
    apply respects_rlift. intros []; [done|].
    apply respects_rlift. intros []; [apply respects_render_template|done].
  - unfold logout_t, logout_user_t, current_user_t, rsession. unfold rbind. simpl.
    destruct (Session.user_id s); simpl; [by apply respects_query|done].
  - apply respects_add_cafe.
  - apply respects_rbind_query; [done|]. intros.
    apply respects_rbind_query; [done|]. intros.
    apply respects_rbind_query; [|done]. split; [done|]. by destruct Hep as [->|].
Qed.

Lemma respects_dispatch e r s seen :
  admitted deletes r → respects deletes (dispatch_t e r s) seen.
Proof.
  intros Hr. unfold dispatch_t.
  destruct (list_find _ url_map) as [[i [[rule ep] methods]]|] eqn:Hfind; [|done].
  repeat case_bool_decide; [done| |done]. apply respects_view_thread.
  destruct Hr as [|Hr]; [by left|right]. intros ->.
  by apply dispatch_find in Hfind.
Qed.

(** ** The invariant of the pool *)

Lemma play_pool_wf ev p :
  pool_wf deletes p → admitted_event deletes ev →
  pool_wf deletes (play ev p) ∧ grows deletes (shared p) (shared (play ev p)).
Proof.
  intros [Hwf Hthreads] Hev. destruct ev as [tid e r s|tid|]; simpl.
  - split; [split; [done|]|done]. apply map_Forall_insert_2; [|done].
    exists (shared p). split; [done|by apply respects_dispatch].
  - destruct (running p !! tid) as [t|] eqn:Htid; [|done].
    destruct (Hthreads tid t Htid) as (seen & Hseen & Ht).
    destruct t as [a|f|B q k]; simpl.
    1-2: split; [split; [done|]|done]; by apply map_Forall_insert_2; [eauto|].
    destruct (run_sql q (shared p)) as [[b d']|f] eqn:Hrun; simpl.
    + destruct (Ht _ _ _ Hseen Hwf Hrun) as (Hwf' & Hgrows & Hk).
      split; [split; [done|]|done]. apply map_Forall_insert_2; [by exists d'|].
      intros tid' t' Ht'. destruct (Hthreads tid' t' Ht') as (seen' & ? & ?).
      exists seen'. split; [by etrans|done].
    + split; [split; [done|]|done]. apply map_Forall_insert_2; [by exists seen|done].
  - split; [split; [done|apply map_Forall_empty]|done].
Qed.

(** The database of main.py is a file: a restart finds it. *)
Lemma play_restart p : play Restart p = Pool (shared p) ∅.
Proof. done. Qed.

Lemma play_all_cons ev schedule p : play_all (ev :: schedule) p = play_all schedule (play ev p).
Proof. done. Qed.

Lemma play_all_pool_wf schedule p :
  pool_wf deletes p → Forall (admitted_event deletes) schedule →
  pool_wf deletes (play_all schedule p) ∧
  grows deletes (shared p) (shared (play_all schedule p)).
Proof.
  intros Hwf Hall. revert p Hwf.
  induction Hall as [|ev schedule Hev _ IH]; intros p Hwf; [done|].
  rewrite play_all_cons.
  destruct (play_pool_wf ev p Hwf Hev) as [Hwf' Hgrows].
  destruct (IH _ Hwf') as [Hwf'' Hgrows']. split; [done|by etrans].
Qed.

End respects.

Lemma pool_wf_start deletes d : invariant deletes d → pool_wf deletes (Pool d ∅).
Proof. by split. Qed.

Lemma admitted_all schedule : Forall (admitted_event true) schedule.
Proof. apply Forall_forall. intros [] _; simpl; [by left|done..]. Qed.

(** ** Requests that do not overlap *)

Lemma play_all_app schedule1 schedule2 p :
  play_all (schedule1 ++ schedule2) p = play_all schedule2 (play_all schedule1 p).
Proof. apply foldl_app. Qed.

(** The turns of one thread are its statements, one after the other. *)
Lemma play_turns n tid t p :
  running p !! tid = Some t →
  play_all (replicate n (Run tid)) p =
  Pool (steps n t (shared p)).2 (<[tid := (steps n t (shared p)).1]> (running p)).
Proof.
  revert t p. induction n as [|n IH]; intros t p Htid.
  - destruct p as [d threads]. simpl in *. by rewrite insert_id.
  - rewrite replicate_S, play_all_cons. simpl. rewrite Htid.
    rewrite (IH (step_thread t (shared p)).1) by apply lookup_insert_eq.
    simpl. by rewrite insert_insert_eq.
Qed.

Lemma steps_settled {A} n (o : outcome failure A) d : steps n (settled o) d = (settled o, d).
Proof. induction n as [|n IH]; [done|]. by destruct o. Qed.

(** Enough turns bring a thread to its end. *)
Lemma steps_within {A} n (t : thread A) d :
  within n t → steps n t d = (settled (finish t d).1, (finish t d).2).
Proof.
  revert t d. induction n as [|n IH]; intros t d Hn.
  - by destruct t.
  - destruct t as [a|f|B q k].
    + apply (steps_settled (S n) (Ok a)).
    + apply (steps_settled (S n) (Err f)).
    + simpl in *. destruct (run_sql q d) as [[b d']|f]; simpl;
        [by apply IH|apply (steps_settled n (Err f))].
Qed.

Lemma run_turns n tid t p :
  within n t → running p !! tid = Some t →
  play_all (replicate n (Run tid)) p =
  Pool (finish t (shared p)).2 (<[tid := settled (finish t (shared p)).1]> (running p)).
Proof. intros Hn Htid. by rewrite (play_turns n tid t), steps_within. Qed.

(** A thread that only reads leaves the database as it is, turn after
    turn; a thread that commits once leaves it as it was or as it will
    be. *)
Lemma steps_reads_only {A} n (t : thread A) d : reads_only t → (steps n t d).2 = d.
Proof.
  revert t d. induction n as [|n IH]; intros t d Ht; [done|].
  destruct t as [a|f|B q k]; simpl; [by apply IH..|]. destruct Ht as [Hq Hk].
  destruct (run_sql q d) as [[b d']|f] eqn:Hrun; simpl; [|by apply IH].
  apply run_sql_read in Hrun as ->; [|done]. by apply IH.
Qed.

Lemma steps_commits_once {A} n (t : thread A) d :
  commits_once t → (steps n t d).2 = d ∨ (steps n t d).2 = (finish t d).2.
Proof.
  revert t d. induction n as [|n IH]; intros t d Ht; [by left|].
  destruct t as [a|f|B q k]; simpl in *; [by apply IH..|].
  destruct (run_sql q d) as [[b d']|f] eqn:Hrun; simpl; [|by apply IH].
  destruct (is_read q) eqn:Hq.
  - apply run_sql_read in Hrun as ->; [|done]. by apply IH.
  - right. by rewrite steps_reads_only, finish_reads_only.
Qed.

(** C14: requests that do not overlap.  A request that arrives and is
    given its turns before another statement is sent, six being enough
    for every request, leaves the database and answers with the response
    and the session that [handle] gives in the sequential model; the
    other threads are as they were.  The sequential model is the
    concurrent one restricted to schedules of this form. *)
Theorem serial_is_sequential tid e r s p :
  shared (play_all (serial tid e r s) p) = (sequential e r s (shared p)).2 ∧
  answered (play_all (serial tid e r s) p) tid = Some (sequential e r s (shared p)).1 ∧
  (∀ other, other ≠ tid →
     running (play_all (serial tid e r s) p) !! other = running p !! other).
Proof.
  unfold serial. rewrite play_all_cons.
  rewrite (run_turns 6 tid (dispatch_t e r s));
    [|apply within_dispatch|apply lookup_insert_eq].
  cbn [play shared]. rewrite finish_sequential.
  destruct (sequential e r s (shared p)) as [o d']. split_and!; [done| |].
  - unfold answered. simpl. rewrite lookup_insert_eq. by destruct o.
  - intros other Hother. simpl. by rewrite !lookup_insert_ne.
Qed.

(** ** Requests that read *)

Lemma steps_S_end {A} n (t : thread A) d :
  steps (S n) t d = step_thread (steps n t d).1 (steps n t d).2.
Proof.
  revert t d. induction n as [|n IH]; intros t d; [simpl; by destruct (step_thread t d)|].
  apply (IH (step_thread t d).1 (step_thread t d).2).
Qed.

(** A thread that has answered after some turns has the answer it gives
    when it is run to its end. *)
Lemma steps_answer {A} n (t : thread A) d (o : outcome failure A) :
  (steps n t d).1 = settled o → (finish t d).1 = o.
Proof.
  assert (∀ t' : thread A, t' = settled o → ∀ o', t' = settled o' → o' = o) as Hsame.
  { intros t' -> o'. by destruct o, o'; intros [= ->]. }
  revert t d. induction n as [|n IH]; intros t d.
  - simpl. intros ->. by destruct o.
  - destruct t as [a|f|B q k].
    + rewrite (steps_settled (S n) (Ok a) d : steps (S n) (Return a) d = _).
      intros Ho. by apply (Hsame _ Ho (Ok a)).
    + rewrite (steps_settled (S n) (Err f) d : steps (S n) (Raise f) d = _).
      intros Ho. by apply (Hsame _ Ho (Err f)).
    + simpl. destruct (run_sql q d) as [[b d']|f]; simpl; [apply IH|].
      rewrite (steps_settled n (Err f) d : steps n (Raise f) d = _).
      intros Ho. by apply (Hsame _ Ho (Err f)).
Qed.

(** The pool of a schedule of reading requests: the database is the one
    it started with, and each thread is a request of the schedule after
    some of its statements. *)
Definition reading_pool (schedule : list event) (d : database) (p : pool) : Prop :=
  shared p = d ∧
  ∀ tid t, running p !! tid = Some t →
    ∃ e r s n, Arrive tid e r s ∈ schedule ∧ safe r ∧
               t = (steps n (dispatch_t e r s) d).1.

Lemma reading_pool_mono schedule ev d p :
  reading_pool schedule d p → reading_pool (schedule ++ [ev]) d p.
Proof.
  intros [Hd Hthreads]. split; [done|]. intros tid t Htid.
  destruct (Hthreads tid t Htid) as (e & r & s & n & Hin & Hr & Ht).
  exists e, r, s, n. split; [|done]. apply elem_of_app. by left.
Qed.

Lemma safe_reads_only e r s : safe r → reads_only (dispatch_t e r s).
Proof. intros [Hpost Hsafe]. by apply reads_only_dispatch. Qed.

Lemma play_reading_pool schedule ev d p :
  reading_event ev → reading_pool schedule d p →
  reading_pool (schedule ++ [ev]) d (play ev p).
Proof.
  intros Hev Hp. destruct (reading_pool_mono schedule ev d p Hp) as [Hd Hthreads].
  destruct ev as [tid e r s|tid|]; simpl.
  - split; [done|]. intros tid' t. simpl. rewrite lookup_insert_Some.
    intros [[<- <-]|[_ Htid]]; [|by apply Hthreads].
    exists e, r, s, 0. split; [|done]. apply elem_of_app. right. by apply list_elem_of_singleton.
  - destruct (running p !! tid) as [t|] eqn:Htid; [|done].
    destruct (Hthreads tid t Htid) as (e & r & s & n & Hin & Hr & ->).
    pose proof (steps_reads_only n _ d (safe_reads_only e r s Hr)) as Hn.
    pose proof (steps_reads_only (S n) _ d (safe_reads_only e r s Hr)) as HSn.
    rewrite steps_S_end, Hn in HSn. rewrite Hd. split; [done|].
    intros tid' t. simpl. rewrite lookup_insert_Some.
    intros [[<- <-]|[_ Htid']]; [|by apply Hthreads].
    exists e, r, s, (S n). by rewrite steps_S_end, Hn.
  - split; [done|]. intros tid t. simpl. by rewrite lookup_empty.
Qed.

Lemma play_all_snoc schedule ev p :
  play_all (schedule ++ [ev]) p = play ev (play_all schedule p).
Proof. unfold play_all. by rewrite foldl_snoc. Qed.

Lemma play_all_reading_pool schedule d :
  Forall reading_event schedule → reading_pool schedule d (play_all schedule (Pool d ∅)).
Proof.
  induction schedule as [|ev schedule IH] using rev_ind; intros Hall.
  - split; [done|]. intros tid t. simpl. by rewrite lookup_empty.
  - apply Forall_app in Hall as [Hall [Hev _]%Forall_cons].
    rewrite play_all_snoc. by apply play_reading_pool, IH.
Qed.

(** C21: requests that read can be served together.  In a schedule of
    requests none of which is a POST or is sent to /logout or /delete,
    however their statements are interleaved and whatever restarts
    occur, the database stays as it was, and every request that is
    answered gets the answer that [handle] gives it when it is served
    alone. *)
Theorem reading_schedule schedule d :
  Forall reading_event schedule →
  shared (play_all schedule (Pool d ∅)) = d ∧
  ∀ tid o, answered (play_all schedule (Pool d ∅)) tid = Some o →
    ∃ e r s, Arrive tid e r s ∈ schedule ∧ o = (sequential e r s d).1.
Proof.
  intros [Hd Hthreads]%(play_all_reading_pool schedule d). split; [done|].
  intros tid o. unfold answered.
  destruct (running _ !! tid) as [t|] eqn:Htid; [|done].
  destruct (Hthreads tid t Htid) as (e & r & s & n & Hin & Hr & Ht).
  intros Ho. exists e, r, s. split; [done|]. rewrite <-finish_sequential.
  symmetry. apply (steps_answer n). etrans; [symmetry; apply Ht|].
  by destruct t as [a|f|]; simplify_eq.
Qed.

(** C20: a restart in the middle of a request.  When the server is
    stopped while a request is being served, after any number of its
    statements, the request is lost and the database is either as it
    was when the request arrived or as the request served to its end
    would have left it: every view function commits at most once and
    only reads afterwards, so there is no state in between. *)
Theorem restart_is_atomic n tid e r s p :
  let p' := play_all (Arrive tid e r s :: replicate n (Run tid) ++ [Restart]) p in
  running p' = ∅ ∧
  (shared p' = shared p ∨ shared p' = (sequential e r s (shared p)).2).
Proof.
  cbv zeta. rewrite play_all_cons, play_all_app.
  rewrite (play_turns n tid (dispatch_t e r s)) by apply lookup_insert_eq.
  change (play_all [Restart] ?p) with (play Restart p).
  rewrite play_restart. split; [done|]. cbn [play shared].
  rewrite <-finish_sequential. apply steps_commits_once, commits_once_dispatch.
Qed.

(** C12: what every schedule keeps.  From a database that satisfies
    them, whatever requests arrive and however their statements are
    interleaved, the primary keys, the UNIQUE columns and the references
    to users hold in the database; no user is removed or changed, so a
    session that named a stored user still does. *)
Theorem schedule_keeps_constraints schedule d :
  db_wf_concurrent d →
  db_wf_concurrent (shared (play_all schedule (Pool d ∅))) ∧
  users d ⊆ users (shared (play_all schedule (Pool d ∅))) ∧
  (∀ s, session_valid d s → session_valid (shared (play_all schedule (Pool d ∅))) s).
Proof.
  intros Hwf.
  destruct (play_all_pool_wf true schedule (Pool d ∅))
    as [[Hwf' _] [Husers _]]; [by apply pool_wf_start|apply admitted_all|].
  split_and!; [done..|]. intros s. by apply session_valid_mono.
Qed.

(** C13: the delete is the only cause.  When no request is sent to
    /delete, every schedule keeps the whole invariant of the sequential
    model, the reference of each review to its cafe included, and
    removes or changes no cafe: the other six routes can be served in
    threads as they are. *)
Theorem schedule_without_delete schedule d :
  db_wf d → Forall (admitted_event false) schedule →
  db_wf (shared (play_all schedule (Pool d ∅))) ∧
  users d ⊆ users (shared (play_all schedule (Pool d ∅))) ∧
  cafes d ⊆ cafes (shared (play_all schedule (Pool d ∅))).
Proof.
  intros Hwf Hschedule.
  destruct (play_all_pool_wf false schedule (Pool d ∅))
    as [[Hwf' _] [Husers Hcafes]]; [by apply pool_wf_start|done|].
  split_and!; [done..|by apply Hcafes].
Qed.

(** ** The race of a review with a delete *)

(** A logged-in visitor posts a review of a cafe (thread [i]) while
    another request deletes the cafe (thread [j]).  The review sends
    three statements up to its commit (the cafe, its author, the
    insert) and so does the delete (the cafe, its reviews, the commit).
    In [delete_overtakes] the delete runs between the statement of the
    review that reads the cafe and the rest; in [review_overtakes] the
    review runs between the statement of the delete that loads the
    reviews and its commit. *)
Definition delete_overtakes (i j : nat) (e e' : env) (r r' : request) (s s' : Session.t) :
    list event :=
  [Arrive i e r s; Arrive j e' r' s'; Run i; Run j; Run j; Run j; Run i; Run i].

Definition review_overtakes (i j : nat) (e e' : env) (r r' : request) (s s' : Session.t) :
    list event :=
  [Arrive i e r s; Arrive j e' r' s'; Run j; Run j; Run i; Run i; Run i; Run j].

Definition race (i j : nat) (e e' : env) (r r' : request) (s s' : Session.t) :
    list (list event) :=
  [delete_overtakes i j e e' r r' s s'; review_overtakes i j e e' r r' s s'].

Lemma play_arrive tid e r s p :
  play (Arrive tid e r s) p = Pool (shared p) (<[tid := dispatch_t e r s]> (running p)).
Proof. done. Qed.

(** The turn of a thread whose next statement the database accepts. *)
Lemma play_query {B} tid (q : sql B) k b d' p :
  running p !! tid = Some (Query q k) → run_sql q (shared p) = Ok (b, d') →
  play (Run tid) p = Pool d' (<[tid := k b]> (running p)).
Proof. intros Ht Hq. unfold play. rewrite Ht. simpl. by rewrite Hq. Qed.

Lemma run_sql_get_cafe d k c : cafes d !! k = Some c → run_sql (GetCafe (id_str k)) d = Ok (c, d).
Proof. intros Hc. simpl. unfold select. prog_unfold. by rewrite (get_or_404_str _ _ _ Hc). Qed.

Lemma run_sql_get_user d s uid u :
  Session.user_id s = Some uid → session_user d s = Some u →
  run_sql (GetUser uid) d = Ok (u, d).
Proof.
  unfold session_user. intros -> Hu. simpl in *. unfold select, get_or_404. prog_unfold.
  by rewrite Hu.
Qed.

Lemma run_sql_insert_review d body user cafe :
  let rv := Review.mk (next_key (reviews d)) body user cafe in
  run_sql (InsertReview (Some body) user cafe) d =
  Ok (rv, set_reviews <[next_key (reviews d) := rv]> d).
Proof. simpl. apply insert_review_Ok. eauto. Qed.

(** The thread of a pool whose threads are given one by one. *)
Ltac pool_lookup :=
  simpl; repeat first [rewrite lookup_insert_eq | rewrite lookup_insert_ne by done];
  reflexivity.

(** The end of a schedule of two threads: each thread is what its last
    turn left. *)
Ltac race_end i j :=
  unfold play_all; simpl; f_equal; apply map_eq; intros tid;
  destruct (decide (tid = i)) as [->|]; [by simplify_map_eq|];
  destruct (decide (tid = j)) as [->|]; by simplify_map_eq.

(** One turn of a thread of the race: the statement and its answer. *)
Ltac race_turn tid b d' H :=
  rewrite play_all_cons; erewrite (play_query tid _ _ b d'); [|pool_lookup|H].

Section race.
Context (i j : nat) (e e' : env) (r r' : request) (s s' : Session.t).
Context (d : database) (c : Cafe.t) (u : User.t) (body : string).
Hypothesis Hij : i ≠ j.
Hypothesis Hc : cafes d !! Cafe.id c = Some c.
Hypothesis Hu : session_user d s = Some u.
Hypothesis Hreview :
  path r = "/caffe" ∧ method r = POST ∧ args r !! "id" = Some (id_str (Cafe.id c)) ∧
  form r !! "body" = Some body.
Hypothesis Hdelete :
  path r' = "/delete" ∧ method r' ∈ [GET; HEAD] ∧
  args r' !! "id" = Some (id_str (Cafe.id c)).

(** Both requests have arrived: the threads of the race. *)
Lemma race_arrived :
  ∃ uid rest,
    Session.user_id s = Some uid ∧
    play (Arrive j e' r' s') (play (Arrive i e r s) (Pool d ∅)) =
    Pool d
      (<[j := Query (GetCafe (id_str (Cafe.id c))) (λ c, Query (LoadReviews c) (λ loaded,
               Query (DeleteCafe c loaded) (λ _, Return (Redirect "/", s'))))]>
       (<[i := Query (GetCafe (id_str (Cafe.id c))) (λ c, Query (GetUser uid) (λ u,
               Query (InsertReview (form r !! "body") (Some (User.id u))
                        (Some (Cafe.id c))) (rest c u)))]> ∅)).
Proof.
  destruct Hreview as (Hp & Hm & Hid & _), Hdelete as (Hp' & Hm' & Hid').
  destruct (Session.user_id s) as [uid|] eqn:Hs;
    [|by unfold session_user in Hu; rewrite Hs in Hu].
  destruct (show_cafe_review_thread e r s _ uid Hm Hid Hs) as [rest Hthread].
  destruct (methods_of_read delete_ep _ Hm') as [Hmeth Hopt].
  exists uid, rest. split; [done|].
  rewrite !play_arrive.
  rewrite (dispatch_view_thread e r show_cafe_ep) by (done || rewrite Hm; set_solver).
  rewrite (dispatch_view_thread e' r' delete_ep) by done.
  cbn [view_thread shared running]. by rewrite Hthread, (delete_thread r' s' _ Hid').
Qed.

(** The pool when the delete has overtaken the review: the delete has
    answered, the cafe is gone and the review that names it is
    stored. *)
Lemma delete_overtakes_pool :
  let d' := Database (base.delete (Cafe.id c) (cafes d)) (users d)
              (Review.detach (Cafe.id c) <$> reviews d) in
  let rv := Review.mk (next_key (reviews d')) body (Some (User.id u)) (Some (Cafe.id c)) in
  ∃ rest,
    play_all (delete_overtakes i j e e' r r' s s') (Pool d ∅) =
    Pool (set_reviews <[next_key (reviews d') := rv]> d')
      (<[i := rest]> (<[j := Return (Redirect "/", s')]> ∅)).
Proof.
  intros d' rv. destruct race_arrived as (uid & rest & Hs & Harrived).
  destruct Hreview as (_ & _ & _ & Hbody).
  exists (rest c u rv). unfold delete_overtakes.
  rewrite 2!play_all_cons, Harrived. clear Harrived.
  race_turn i c d ltac:(by apply run_sql_get_cafe).
  race_turn j c d ltac:(by apply run_sql_get_cafe).
  race_turn j (loaded_reviews d c) d ltac:(done).
  race_turn j tt d' ltac:(simpl; by rewrite delete_loaded_reviews).
  race_turn i u d' ltac:(by apply (run_sql_get_user d' s)).
  rewrite Hbody.
  race_turn i rv (set_reviews <[next_key (reviews d') := rv]> d')
    ltac:(apply run_sql_insert_review).
  race_end i j.
Qed.

(** The pool when the review has overtaken the delete: the commit of
    the delete sets to NULL the reviews it had loaded, and the review
    stored since is not one of them. *)
Lemma review_overtakes_pool :
  let rv := Review.mk (next_key (reviews d)) body (Some (User.id u)) (Some (Cafe.id c)) in
  ∃ rest,
    play_all (review_overtakes i j e e' r r' s s') (Pool d ∅) =
    Pool (Database (base.delete (Cafe.id c) (cafes d)) (users d)
            (foldr (alter forget_cafe) (<[next_key (reviews d) := rv]> (reviews d))
               (loaded_reviews d c)))
      (<[i := rest]> (<[j := Return (Redirect "/", s')]> ∅)).
Proof.
  intros rv. destruct race_arrived as (uid & rest & Hs & Harrived).
  destruct Hreview as (_ & _ & _ & Hbody).
  exists (rest c u rv). unfold review_overtakes.
  rewrite 2!play_all_cons, Harrived. clear Harrived.
  race_turn j c d ltac:(by apply run_sql_get_cafe).
  race_turn j (loaded_reviews d c) d ltac:(done).
  race_turn i c d ltac:(by apply run_sql_get_cafe).
  race_turn i u d ltac:(by apply (run_sql_get_user d s)).
  rewrite Hbody.
  race_turn i rv (set_reviews <[next_key (reviews d) := rv]> d)
    ltac:(apply run_sql_insert_review).
  race_turn j tt (Database (base.delete (Cafe.id c) (cafes d)) (users d)
            (foldr (alter forget_cafe) (<[next_key (reviews d) := rv]> (reviews d))
               (loaded_reviews d c))) ltac:(done).
  race_end i j.
Qed.

(** A review that names a cafe that is gone: the database is not well
    formed. *)
Lemma orphan_not_wf d' key rv :
  cafes d' !! Cafe.id c = None → reviews d' !! key = Some rv →
  Review.cafe_id rv = Some (Cafe.id c) → ¬ db_wf d'.
Proof.
  intros Hgone Hrv Hcafe (_ & _ & _ & _ & _ & _ & _ & _ & _ & Hrefs).
  destruct (refs_ok_lookup Review.cafe_id _ _ _ _ _ Hrefs Hrv Hcafe) as [c' Hc'].
  by rewrite Hgone in Hc'.
Qed.

End race.

(** C15: a review of a deleted cafe.  From a well-formed database, when
    a logged-in visitor posts a review of a stored cafe while another
    request deletes the cafe, and either the delete runs between the
    statement of the review that reads the cafe and its commit, or the
    review runs between the statement of the delete that loads the
    reviews of the cafe and its commit (the two schedules of [race]),
    then the delete is answered with its redirect, the cafe is gone and
    the review is stored with the key of the deleted cafe as its
    cafe_id: the invariant of the sequential model does not hold under
    interleaving.  The statement ends at the commits; the page the
    review thread renders afterwards is not part of it. *)
Theorem review_delete_race i j e e' r r' s s' d k c u body schedule :
  i ≠ j → db_wf d → cafes d !! k = Some c → session_user d s = Some u →
  path r = "/caffe" → method r = POST →
  args r !! "id" = Some (id_str k) → form r !! "body" = Some body →
  path r' = "/delete" → method r' ∈ [GET; HEAD] →
  args r' !! "id" = Some (id_str k) →
  schedule ∈ race i j e e' r r' s s' →
  let p := play_all schedule (Pool d ∅) in
  answered p j = Some (Ok (Redirect "/", s')) ∧
  cafes (shared p) !! k = None ∧
  (∃ key, reviews (shared p) !! key =
     Some (Review.mk key body (Some (User.id u)) (Some k))) ∧
  ¬ db_wf (shared p).
Proof.
  intros Hij Hwf Hc Hu Hp Hm Hid Hbody Hp' Hm' Hid' Hschedule p.
  assert (Cafe.id c = k) as <- by apply (proj1 Hwf _ _ Hc).
  assert (∃ rest d' key,
    p = Pool d' (<[i := rest]> (<[j := Return (Redirect "/", s')]> ∅)) ∧
    cafes d' !! Cafe.id c = None ∧
    reviews d' !! key =
      Some (Review.mk key body (Some (User.id u)) (Some (Cafe.id c)))) as Hpool.
  { subst p. unfold race in Hschedule.
    apply elem_of_cons in Hschedule as [->|[->|[]%elem_of_nil]%elem_of_cons].
    - destruct (delete_overtakes_pool i j e e' r r' s s' d c u body) as [rest ->];
        [done..|]. do 3 eexists. split; [done|]. simpl.
      split; [apply lookup_delete_eq|apply lookup_insert_eq].
    - destruct (review_overtakes_pool i j e e' r r' s s' d c u body) as [rest ->];
        [done..|]. do 3 eexists. split; [done|]. simpl.
      split; [apply lookup_delete_eq|].
      rewrite lookup_foldr_alter, decide_False, lookup_insert_eq by
        (done || rewrite elem_of_loaded_reviews, next_key_fresh; naive_solver).
      done. }
  destruct Hpool as (rest & d' & key & -> & Hgone & Hrv). unfold answered. simpl.
  split_and!; [by rewrite lookup_insert_ne, lookup_insert_eq|done|by exists key|].
  by eapply orphan_not_wf.
Qed.

End schedules.

(** ** The race at sample requests *)

(** Alice posts a review of cafe 1 while another browser deletes it. *)
Definition sample_race : list event :=
  delete_overtakes 1 2 Sample.e0 Sample.e0 Sample.review_a Sample.delete_a
    (session Sample.c2) Session.empty.

Lemma sample_wf : db_wf (db Sample.c2).
Proof. by_compute. Qed.

Lemma review_delete_race_witness :
  let p := play_all sample_race (Pool (db Sample.c2) ∅) in
  answered p 2 = Some (Ok (Redirect "/", Session.empty)) ∧
  cafes (shared p) !! 1 = None ∧
  (∃ key, reviews (shared p) !! key =
     Some (Review.mk key "nice" (Some (User.id Sample.alice)) (Some 1))) ∧
  ¬ db_wf (shared p).
Proof.
  apply (review_delete_race 1 2 Sample.e0 Sample.e0 Sample.review_a Sample.delete_a
           (session Sample.c2) Session.empty (db Sample.c2) 1 Sample.cafe_a Sample.alice
           "nice");
    first [apply sample_wf | vm_compute; reflexivity | discriminate | by left].
Defined.

(** ** The constraints after the race *)

Lemma sample_constraints : db_wf_concurrent (db Sample.c2).
Proof. apply db_wf_split. by_compute. Qed.

Lemma schedule_keeps_constraints_witness :
  db_wf_concurrent (shared (play_all sample_race (Pool (db Sample.c2) ∅))).
Proof.
  exact (proj1 (schedule_keeps_constraints sample_race (db Sample.c2) sample_constraints)).
Defined.

(** ** Two reviews at once *)

(** Two requests of the same visitor review cafe 1, their statements
    taking turns. *)
Definition overlap : list event :=
  [ Arrive 1 Sample.e0 Sample.review_a (session Sample.c2);
    Arrive 2 Sample.e0 Sample.review_a (session Sample.c2);
    Run 1; Run 2; Run 1; Run 2; Run 1; Run 2; Run 1; Run 2; Run 1; Run 2 ].

Lemma overlap_admitted : Forall (admitted_event false) overlap.
Proof. repeat (constructor; [first [by right|done]|]). constructor. Qed.

Lemma schedule_without_delete_witness :
  db_wf (shared (play_all overlap (Pool (db Sample.c2) ∅))).
Proof. exact (proj1 (schedule_without_delete overlap (db Sample.c2) sample_wf overlap_admitted)). Defined.

(** ** Readers at once *)

(** Two visitors look at the listing and at cafe 1 while the server
    restarts once. *)
Definition readers : list event :=
  [ Arrive 1 Sample.e0 Sample.index (session Sample.c2);
    Arrive 2 Sample.e0 Sample.index Session.empty;
    Run 1; Run 2; Restart;
    Arrive 3 Sample.e0 Sample.index (session Sample.c2);
    Run 3; Run 3; Run 3 ].

Lemma readers_read : Forall reading_event readers.
Proof. repeat (constructor; [first [by_compute|done]|]). constructor. Qed.

Lemma reading_schedule_witness :
  shared (play_all readers (Pool (db Sample.c2) ∅)) = db Sample.c2.
Proof. exact (proj1 (reading_schedule readers (db Sample.c2) readers_read)). Defined.
